(** * ABR video player: a shallow embedding of the streaming core

    The first part embeds the TypeScript sources of the player:
    - [Js]: JavaScript numbers and the functions of [Math] the code calls;
    - [Bandwidth]: Ewma.ts and BandwidthEstimator.ts;
    - [Blacklist]: BlacklistController.ts;
    - [Types]: Types.ts, SegmentReference.ts and SegmentIndex.ts;
    - [Bola]: BufferAbr.ts, the BOLA controller;
    - [Abr]: DroppedFramesHistory.ts, DroppedFramesAbr.ts, BandwidthAbr.ts
      and AbrController.ts, the quality selector;
    - [Stall]: StallDetector.ts and the callbacks of GapController.ts;
    - [Pipeline]: BufferController.ts, the segment tracking, the replacement
      candidates and the quota-exceeded handler;
    - [Index]: the lookups of SegmentIndex and the index ManifestParser.ts
      builds from a segment template;
    - [Bus]: EventBus.ts;
    - [BlacklistTrace]: sequences of calls on a BlacklistController;
    - [Estimate]: the estimate of BandwidthEstimator.ts;
    - [BolaNum]: the arithmetic of BufferAbr.ts on doubles that can be
      infinite or NaN;
    - [Selection]: what the strategies of the quality selector choose;
    - [StallEvents]: the event handlers and notifications of StallDetector.ts;
    - [Buffering]: the buffer level and the next download of
      BufferController.ts;
    - [Gap]: the gap jump of GapController.ts;
    - [Frames]: sequences of pushes on a DroppedFramesHistory.
    The second part states and proves the properties, one module of facts
    per module of the embedding.

    Conventions of the embedding.
    - A JavaScript number that can be non-finite is a [Js.num]: a rational,
      an infinity or NaN.  Rounding and the sign of zero are not modelled;
      where a rounded quotient decides a count, the count is a parameter
      ([Index.buildSegmentIndex]).
    - A number that the code only ever uses as a finite quantity is a [Q]
      (seconds, bitrates) or a [Z] (millisecond clock readings, counters); a
      field that uses NaN as "unset" is an [option].  Division in [Q] is
      exact where the divisor is not zero; the statements that divide say so
      ([Bola.admissible] for the BOLA controller, whose arithmetic on
      doubles is in [BolaNum]).
    - [Math.exp], [Math.log] and [Math.pow] are parameters; [Js.ieee] and
      [Bola.ln_table] list the doubles they return on the arguments used by
      the examples.
    - A method is a function from the receiver's state to an [outcome] and
      the new state; a thrown exception leaves the state as it was at the
      throw.  Log output is not modelled.
    - A call runs to its first suspension point without interleaving, and
      [Date.now()] is one reading per call. *)

From Stdlib Require Import ZArith QArith Qminmax Qabs Qround Lqa Lia List String Bool.
From Stdlib Require Import Sorting.Sorted Permutation.
From stdpp Require Import base gmap strings list fin_maps.
Import ListNotations.

Local Open Scope Z_scope.

(** ** Exceptions *)

Inductive exn : Type :=
| AssertionError
| TypeError
| Error (msg : string).

Inductive outcome (A : Type) : Type :=
| Ret (a : A)
| Throw (e : exn).
Arguments Ret {A} a.
Arguments Throw {A} e.

(** A computation over a state [S]: the outcome and the state it leaves. *)
Definition M (S A : Type) : Type := S -> outcome A * S.

Definition ret {S A} (a : A) : M S A := fun s => (Ret a, s).
Definition throw {S A} (e : exn) : M S A := fun s => (Throw e, s).
Definition bind {S A B} (m : M S A) (k : A -> M S B) : M S B :=
  fun s => match m s with
           | (Ret a, s') => k a s'
           | (Throw e, s') => (Throw e, s')
           end.
Definition get {S} : M S S := fun s => (Ret s, s).
Definition put {S} (s : S) : M S unit := fun _ => (Ret tt, s).
Definition modify {S} (f : S -> S) : M S unit := fun s => (Ret tt, f s).

Declare Scope js_scope.
Delimit Scope js_scope with js.
Notation "x <- m ;; k" := (bind m (fun x => k))
  (at level 100, m at next level, right associativity) : js_scope.
Notation "m ;;; k" := (bind m (fun _ => k))
  (at level 100, right associativity) : js_scope.

(** [try { m } catch { return a }]: the state changes made before the throw stay. *)
Definition try_catch {S A} (m : M S A) (a : A) : M S A :=
  fun s => match m s with
           | (Ret x, s') => (Ret x, s')
           | (Throw _, s') => (Ret a, s')
           end.

(** [Assert.assert(condition)] of utils/assertion.ts: throws an AssertionError
    when assertions are enabled and the condition is falsy. *)
Definition Assert_assert {S} (enabled : bool) (condition : bool) : M S unit :=
  if enabled && negb condition then throw AssertionError else ret tt.

(** ** JavaScript numbers *)

Module Js.

Inductive num : Type :=
| Fin (q : Q)
| PInf
| NInf
| NaN.

Definition isNaN (x : num) : bool :=
  match x with NaN => true | _ => false end.

Definition isFinite (x : num) : bool :=
  match x with Fin _ => true | _ => false end.

Definition Qlt_bool (a b : Q) : bool := negb (Qle_bool b a).

(** [x < y]; every comparison with NaN is false. *)
Definition lt (x y : num) : bool :=
  match x, y with
  | NaN, _ | _, NaN => false
  | Fin a, Fin b => Qlt_bool a b
  | NInf, NInf => false
  | NInf, _ => true
  | _, NInf => false
  | PInf, _ => false
  | Fin _, PInf => true
  end.

Definition gt (x y : num) : bool := lt y x.

Definition neg (x : num) : num :=
  match x with
  | Fin a => Fin (- a)
  | PInf => NInf
  | NInf => PInf
  | NaN => NaN
  end.

Definition add (x y : num) : num :=
  match x, y with
  | NaN, _ | _, NaN => NaN
  | Fin a, Fin b => Fin (a + b)
  | PInf, NInf | NInf, PInf => NaN
  | PInf, _ | _, PInf => PInf
  | NInf, _ | _, NInf => NInf
  end.

Definition sub (x y : num) : num := add x (neg y).

(** The sign of a rational: 1, 0 or -1. *)
Definition Qsgn (a : Q) : Z := Z.sgn (Qnum a).

Definition signed_inf (s : Z) : num :=
  match s with
  | Z0 => NaN
  | Zpos _ => PInf
  | Zneg _ => NInf
  end.

Definition sgn (x : num) : Z :=
  match x with
  | Fin a => Qsgn a
  | PInf => 1
  | NInf => -1
  | NaN => 0
  end.

Definition mul (x y : num) : num :=
  match x, y with
  | NaN, _ | _, NaN => NaN
  | Fin a, Fin b => Fin (a * b)
  | _, _ => signed_inf (sgn x * sgn y)
  end.

(** Division; [a / 0] is an infinity of the sign of [a], and [0 / 0] is NaN. *)
Definition div (x y : num) : num :=
  match x, y with
  | NaN, _ | _, NaN => NaN
  | Fin a, Fin b =>
      if Qeq_bool b 0 then signed_inf (Qsgn a) else Fin (a / b)
  | Fin _, _ => Fin 0
  | _, Fin b => signed_inf (sgn x * (if Qeq_bool b 0 then 1 else Qsgn b))
  | _, _ => NaN
  end.

(** The transcendental functions of [Math] the code calls. *)
Record MathLib : Type := {
  Math_exp : num -> num;
  Math_log : num -> num;
  Math_pow : num -> num -> num
}.

Definition lookup1 (tbl : list (Q * Q)) (x : num) : num :=
  match x with
  | Fin a =>
      match List.find (fun kv => Qeq_bool (fst kv) a) tbl with
      | Some kv => Fin (snd kv)
      | None => NaN
      end
  | _ => NaN
  end.

Definition ln_half : Q := - (6931471805599453 # 10000000000000000).
Definition alpha_2s : Q := 7071067811865476 # 10000000000000000.
Definition alpha_5s : Q := 8705505632961241 # 10000000000000000.

(** The doubles a JavaScript engine returns on the arguments the examples of
    this file use; off the table the entry is NaN, and [x ** 0] is 1. *)
Definition ieee : MathLib := {|
  Math_exp := lookup1 [ (ln_half / 2, alpha_2s); (ln_half / 5, alpha_5s) ]%Q;
  Math_log := lookup1 [ (1 # 2, ln_half) ]%Q;
  Math_pow := fun x y =>
    match x, y with
    | Fin a, Fin w =>
        if Qeq_bool w 0 then Fin 1
        else if Qeq_bool w 1 then Fin a
        else if Qeq_bool a alpha_2s && Qeq_bool w (1 # 10)
             then Fin (9659363289248456 # 10000000000000000)
        else if Qeq_bool a alpha_5s && Qeq_bool w (1 # 10)
             then Fin (9862327044933592 # 10000000000000000)
        else NaN
    | _, _ => NaN
    end
|}.

End Js.

(** ** Ewma.ts and BandwidthEstimator.ts *)

Module Bandwidth.
Import Js.
Local Open Scope js_scope.

Record Emwa : Type := mkEmwa {
  alpha : num;
  estimate : num;
  totalWeight : num
}.

Record BandwidthEstimator : Type := mkEstimator {
  fast : Emwa;
  slow : Emwa;
  navDownlink : option num;       (* navConnection?.downlink *)
  useNetworkInformation : bool;
  bytesSampled : num;
  sampleCount : Z
}.

Definition MIN_TOTAL_BYTES : Q := 128000.
Definition MIN_BYTES : Q := 16000.

Definition set_fast (f : Emwa) (b : BandwidthEstimator) : BandwidthEstimator :=
  mkEstimator f (slow b) (navDownlink b) (useNetworkInformation b)
              (bytesSampled b) (sampleCount b).
Definition set_slow (f : Emwa) (b : BandwidthEstimator) : BandwidthEstimator :=
  mkEstimator (fast b) f (navDownlink b) (useNetworkInformation b)
              (bytesSampled b) (sampleCount b).
Definition set_bytesSampled (x : num) (b : BandwidthEstimator) : BandwidthEstimator :=
  mkEstimator (fast b) (slow b) (navDownlink b) (useNetworkInformation b)
              x (sampleCount b).
Definition set_sampleCount (n : Z) (b : BandwidthEstimator) : BandwidthEstimator :=
  mkEstimator (fast b) (slow b) (navDownlink b) (useNetworkInformation b)
              (bytesSampled b) n.

Section WithMath.
Variable math : MathLib.
(** [AssertConfig.isEnabled()]. *)
Variable assertions : bool.

(** [Emwa.#calculateAlpha]. *)
Definition calculateAlpha (halfLife : num) : M unit num :=
  Assert_assert assertions (gt halfLife (Fin 0)) ;;;
  ret (Math_exp math (div (Math_log math (Fin (1 # 2))) halfLife)).

(** [new Emwa(halfLife)]. *)
Definition Emwa_new (halfLife : num) : outcome Emwa :=
  match calculateAlpha halfLife tt with
  | (Ret a, _) =>
      if assertions && negb (gt a (Fin 0)) then Throw AssertionError
      else Ret (mkEmwa a (Fin 0) (Fin 0))
  | (Throw e, _) => Throw e
  end.

(** [Emwa.sample]. *)
Definition Emwa_sample (weight bandwidth : num) : M Emwa unit :=
  e <- get ;;
  Assert_assert assertions (gt (alpha e) (Fin 0)) ;;;
  let adjAlpha := Math_pow math (alpha e) weight in
  let newEstimate :=
    add (mul bandwidth (sub (Fin 1) adjAlpha)) (mul adjAlpha (estimate e)) in
  if negb (isNaN newEstimate)
  then put (mkEmwa (alpha e) newEstimate (add (totalWeight e) weight))
  else ret tt.

(** [Emwa.getEstimate]. *)
Definition Emwa_getEstimate (e : Emwa) : num :=
  let zeroFactor := sub (Fin 1) (Math_pow math (alpha e) (totalWeight e)) in
  div (estimate e) zeroFactor.

(** Runs a method of one of the two averages inside the estimator. *)
Definition on_fast {A} (m : M Emwa A) : M BandwidthEstimator A :=
  fun b => let '(r, f) := m (fast b) in (r, set_fast f b).
Definition on_slow {A} (m : M Emwa A) : M BandwidthEstimator A :=
  fun b => let '(r, f) := m (slow b) in (r, set_slow f b).

(** [BandwidthEstimator.sample]. *)
Definition sample (durationMs numBytes : num) : M BandwidthEstimator unit :=
  Assert_assert assertions (gt durationMs (Fin 0) && isFinite durationMs) ;;;
  Assert_assert assertions (gt numBytes (Fin 0) && isFinite numBytes) ;;;
  if lt numBytes (Fin MIN_BYTES) then ret tt
  else
    modify (fun b => set_sampleCount (sampleCount b + 1) b) ;;;
    let bandwidth := div (mul (Fin 8000) numBytes) durationMs in
    let weight := div durationMs (Fin 1000) in
    modify (fun b => set_bytesSampled (add (bytesSampled b) numBytes) b) ;;;
    on_fast (Emwa_sample weight bandwidth) ;;;
    on_slow (Emwa_sample weight bandwidth).

(** [BandwidthEstimator.reset]. *)
Definition reset : M BandwidthEstimator unit :=
  modify (set_sampleCount 0) ;;;
  modify (set_bytesSampled (Fin 0)).

(** [new BandwidthEstimator(useNetworkInformation, navConnection)]. *)
Definition BandwidthEstimator_new (useNet : bool) (downlink : option num)
  : outcome BandwidthEstimator :=
  match Emwa_new (Fin 2), Emwa_new (Fin 5) with
  | Ret f, Ret s => Ret (mkEstimator f s downlink useNet (Fin 0) 0)
  | Throw e, _ | _, Throw e => Throw e
  end.

(** The argument check the two assertions of [sample] make. *)
Definition valid_sample (durationMs numBytes : num) : bool :=
  (gt durationMs (Fin 0) && isFinite durationMs)
  && (gt numBytes (Fin 0) && isFinite numBytes).

End WithMath.

(** The estimator the player creates, on the table of doubles. *)
Definition estimator0 : BandwidthEstimator :=
  mkEstimator (mkEmwa (Fin alpha_2s) (Fin 0) (Fin 0))
              (mkEmwa (Fin alpha_5s) (Fin 0) (Fin 0))
              None true (Fin 0) 0.

(** One accepted sample: 625000 bytes in 1000 ms (5 Mbit/s). *)
Definition estimator1 : BandwidthEstimator :=
  snd (sample ieee true (Fin 1000) (Fin 625000) estimator0).

End Bandwidth.

(** ** BlacklistController.ts *)

Module Blacklist.
Local Open Scope js_scope.

Record BlacklistController : Type := mkBlacklist {
  blacklistedUrls : list string;
  blacklistedSegmentNumbers : list Z
}.

Definition set_urls (l : list string) (b : BlacklistController) :=
  mkBlacklist l (blacklistedSegmentNumbers b).
Definition set_segNums (l : list Z) (b : BlacklistController) :=
  mkBlacklist (blacklistedUrls b) l.

(** [Array.prototype.includes] on strings and on integral numbers. *)
Definition includes_url (l : list string) (u : string) : bool :=
  existsb (String.eqb u) l.
Definition includes_num (l : list Z) (n : Z) : bool :=
  existsb (Z.eqb n) l.

(** [indexOf] followed by [splice(idx, 1)]: the first occurrence is removed. *)
Fixpoint remove_first {A} (eqb : A -> A -> bool) (x : A) (l : list A) : list A :=
  match l with
  | [] => []
  | y :: l' => if eqb x y then l' else y :: remove_first eqb x l'
  end.

Section WithAssertions.
Variable assertions : bool.

Definition addToUrlBlacklist (url : string) : M BlacklistController unit :=
  Assert_assert assertions (0 <? Z.of_nat (String.length url)) ;;;
  b <- get ;;
  if includes_url (blacklistedUrls b) url then ret tt
  else put (set_urls (blacklistedUrls b ++ [url]) b).

Definition addSegNumToBlacklist (segNum : Z) : M BlacklistController unit :=
  Assert_assert assertions (0 <=? segNum) ;;;
  b <- get ;;
  if includes_num (blacklistedSegmentNumbers b) segNum then ret tt
  else put (set_segNums (blacklistedSegmentNumbers b ++ [segNum]) b).

(** [reset]: the source assigns [#blacklistedUrls] twice and never touches
    [#blacklistedSegmentNumbers]. *)
Definition reset : M BlacklistController unit :=
  modify (set_urls []) ;;;
  modify (set_urls []).

Definition removeUrl (url : string) : M BlacklistController unit :=
  Assert_assert assertions (0 <? Z.of_nat (String.length url)) ;;;
  modify (fun b => set_urls (remove_first String.eqb url (blacklistedUrls b)) b).

Definition containsUrl (url : string) : M BlacklistController bool :=
  Assert_assert assertions (0 <? Z.of_nat (String.length url)) ;;;
  b <- get ;;
  ret (includes_url (blacklistedUrls b) url).

Definition removeSegmentNumber (segNum : Z) : M BlacklistController unit :=
  Assert_assert assertions (0 <=? segNum) ;;;
  modify (fun b =>
    set_segNums (remove_first Z.eqb segNum (blacklistedSegmentNumbers b)) b).

(** [containsSegmentNumber]: [Assert.assertDefined] never fires on a number. *)
Definition containsSegmentNumber (segNumb : Z) : M BlacklistController bool :=
  b <- get ;;
  ret (includes_num (blacklistedSegmentNumbers b) segNumb).

End WithAssertions.

(** One blacklisted URL and two blacklisted segment numbers. *)
Definition blacklist1 : BlacklistController :=
  mkBlacklist ["/media/video/1/seg-7.m4s"%string] [7; 12].

End Blacklist.

(** ** Types.ts, SegmentReference.ts and SegmentIndex.ts *)

Module Types.

Record SegmentReference : Type := mkSegRef {
  segmentNumber : Z;
  startTime : Q;
  endTime : Q
}.

Definition duration (r : SegmentReference) : Q := endTime r - startTime r.

Record VideoRepresentation : Type := mkRep {
  id : string;
  bitrate : Q;
  width : Z;
  height : Z;
  segmentIndex : list SegmentReference   (* SegmentIndex.references *)
}.

Inductive AbrStrategyType : Type := Bandwidth | Buffer | DroppedFrames.

(** [Array.prototype.findIndex]; [None] is the -1 of the source. *)
Fixpoint findIndex {A} (p : A -> bool) (l : list A) : option nat :=
  match l with
  | [] => None
  | x :: l' => if p x then Some O
               else match findIndex p l' with
                    | Some i => Some (S i)
                    | None => None
                    end
  end.

Definition same_id (a b : VideoRepresentation) : bool := String.eqb (id a) (id b).

(** [SegmentIndex.getSegmentAtTime]: the binary search over [references],
    [left] and [right] as in the source; the fuel is the number of probes. *)
Fixpoint searchSegment (refs : list SegmentReference) (time : Q)
    (fuel : nat) (left right : Z) : option SegmentReference :=
  match fuel with
  | O => None
  | S fuel' =>
      if left <=? right then
        let mid := (left + right) / 2 in
        match nth_error refs (Z.to_nat mid) with
        | None => None
        | Some ref =>
            if Qle_bool (startTime ref) time && Js.Qlt_bool time (endTime ref)
            then Some ref
            else if Js.Qlt_bool time (startTime ref)
                 then searchSegment refs time fuel' left (mid - 1)
                 else searchSegment refs time fuel' (mid + 1) right
        end
      else nth_error refs (Z.to_nat left)
  end.

Definition getSegmentAtTime (refs : list SegmentReference) (time : Q)
  : option SegmentReference :=
  searchSegment refs time (S (length refs)) 0 (Z.of_nat (length refs) - 1).

End Types.

(** ** BufferAbr.ts: the BOLA controller *)

Module Bola.
Import Types.
Local Open Scope js_scope.
Local Open Scope Q_scope.

Inductive BolaAlgorithmState : Type := STARTUP | STEADY_STATE | ONE_BITRATE.

Record BolaState : Type := mkBolaState {
  representations : list VideoRepresentation;
  utilities : list Q;
  gp : Q;
  vp : Q;
  currentRepresentation : option VideoRepresentation;
  placeholderBuffer : Q;
  lastSegmentFinishTimeMs : option Z;
  lastCallTimeMs : option Z;
  lastSegmentStart : option Q;
  lastSegmentRequestTimeMs : option Z;
  algorithmState : BolaAlgorithmState;
  lastSegmentDurationS : option Q;
  mostAdvancedSegmentStart : option Q;
  lastSegmentWasReplacement : bool;
  rebufferStartTimeMs : option Z;
  segmentCount : Z
}.

Record BufferAbr : Type := mkBufferAbr {
  minBufferLevel : Q;
  maxBufferLevel : Q;
  qualityChangeThreshold : Q;
  bufferTarget : Q;
  bolaState : option BolaState
}.

(** What one call reads from its collaborators: [Date.now()],
    [bufferController.getBufferLevel()] and
    [bandwidthEstimator.getBandwidthEstimate()] ([None] when it is NaN). *)
Record Env : Type := mkEnv {
  nowMs : Z;
  bufferLevel : Q;
  throughputBps : option Q
}.

Definition SAFETY_FACTOR_INCREASE : Q := 12 # 10.
Definition SAFETY_FACTOR_DECREASE : Q := 95 # 100.
Definition MINIMUM_BUFFER_PER_BITRATE_LEVEL : Q := 2.
Definition THROUGHPUT_SAFETY_FACTOR : Q := 9 # 10.

(** *** Field updates *)

Definition set_currentRepresentation (r : option VideoRepresentation) (s : BolaState) :=
  mkBolaState (representations s) (utilities s) (gp s) (vp s) r
    (placeholderBuffer s) (lastSegmentFinishTimeMs s) (lastCallTimeMs s)
    (lastSegmentStart s) (lastSegmentRequestTimeMs s) (algorithmState s)
    (lastSegmentDurationS s) (mostAdvancedSegmentStart s)
    (lastSegmentWasReplacement s) (rebufferStartTimeMs s) (segmentCount s).
Definition set_placeholderBuffer (p : Q) (s : BolaState) :=
  mkBolaState (representations s) (utilities s) (gp s) (vp s)
    (currentRepresentation s) p (lastSegmentFinishTimeMs s) (lastCallTimeMs s)
    (lastSegmentStart s) (lastSegmentRequestTimeMs s) (algorithmState s)
    (lastSegmentDurationS s) (mostAdvancedSegmentStart s)
    (lastSegmentWasReplacement s) (rebufferStartTimeMs s) (segmentCount s).
Definition set_lastSegmentFinishTimeMs (t : option Z) (s : BolaState) :=
  mkBolaState (representations s) (utilities s) (gp s) (vp s)
    (currentRepresentation s) (placeholderBuffer s) t (lastCallTimeMs s)
    (lastSegmentStart s) (lastSegmentRequestTimeMs s) (algorithmState s)
    (lastSegmentDurationS s) (mostAdvancedSegmentStart s)
    (lastSegmentWasReplacement s) (rebufferStartTimeMs s) (segmentCount s).
Definition set_lastCallTimeMs (t : option Z) (s : BolaState) :=
  mkBolaState (representations s) (utilities s) (gp s) (vp s)
    (currentRepresentation s) (placeholderBuffer s) (lastSegmentFinishTimeMs s) t
    (lastSegmentStart s) (lastSegmentRequestTimeMs s) (algorithmState s)
    (lastSegmentDurationS s) (mostAdvancedSegmentStart s)
    (lastSegmentWasReplacement s) (rebufferStartTimeMs s) (segmentCount s).
Definition set_lastSegmentStart (t : option Q) (s : BolaState) :=
  mkBolaState (representations s) (utilities s) (gp s) (vp s)
    (currentRepresentation s) (placeholderBuffer s) (lastSegmentFinishTimeMs s)
    (lastCallTimeMs s) t (lastSegmentRequestTimeMs s) (algorithmState s)
    (lastSegmentDurationS s) (mostAdvancedSegmentStart s)
    (lastSegmentWasReplacement s) (rebufferStartTimeMs s) (segmentCount s).
Definition set_lastSegmentRequestTimeMs (t : option Z) (s : BolaState) :=
  mkBolaState (representations s) (utilities s) (gp s) (vp s)
    (currentRepresentation s) (placeholderBuffer s) (lastSegmentFinishTimeMs s)
    (lastCallTimeMs s) (lastSegmentStart s) t (algorithmState s)
    (lastSegmentDurationS s) (mostAdvancedSegmentStart s)
    (lastSegmentWasReplacement s) (rebufferStartTimeMs s) (segmentCount s).
Definition set_algorithmState (a : BolaAlgorithmState) (s : BolaState) :=
  mkBolaState (representations s) (utilities s) (gp s) (vp s)
    (currentRepresentation s) (placeholderBuffer s) (lastSegmentFinishTimeMs s)
    (lastCallTimeMs s) (lastSegmentStart s) (lastSegmentRequestTimeMs s) a
    (lastSegmentDurationS s) (mostAdvancedSegmentStart s)
    (lastSegmentWasReplacement s) (rebufferStartTimeMs s) (segmentCount s).
Definition set_lastSegmentDurationS (d : option Q) (s : BolaState) :=
  mkBolaState (representations s) (utilities s) (gp s) (vp s)
    (currentRepresentation s) (placeholderBuffer s) (lastSegmentFinishTimeMs s)
    (lastCallTimeMs s) (lastSegmentStart s) (lastSegmentRequestTimeMs s)
    (algorithmState s) d (mostAdvancedSegmentStart s)
    (lastSegmentWasReplacement s) (rebufferStartTimeMs s) (segmentCount s).
Definition set_mostAdvancedSegmentStart (t : option Q) (s : BolaState) :=
  mkBolaState (representations s) (utilities s) (gp s) (vp s)
    (currentRepresentation s) (placeholderBuffer s) (lastSegmentFinishTimeMs s)
    (lastCallTimeMs s) (lastSegmentStart s) (lastSegmentRequestTimeMs s)
    (algorithmState s) (lastSegmentDurationS s) t
    (lastSegmentWasReplacement s) (rebufferStartTimeMs s) (segmentCount s).
Definition set_lastSegmentWasReplacement (b : bool) (s : BolaState) :=
  mkBolaState (representations s) (utilities s) (gp s) (vp s)
    (currentRepresentation s) (placeholderBuffer s) (lastSegmentFinishTimeMs s)
    (lastCallTimeMs s) (lastSegmentStart s) (lastSegmentRequestTimeMs s)
    (algorithmState s) (lastSegmentDurationS s) (mostAdvancedSegmentStart s)
    b (rebufferStartTimeMs s) (segmentCount s).
Definition set_rebufferStartTimeMs (t : option Z) (s : BolaState) :=
  mkBolaState (representations s) (utilities s) (gp s) (vp s)
    (currentRepresentation s) (placeholderBuffer s) (lastSegmentFinishTimeMs s)
    (lastCallTimeMs s) (lastSegmentStart s) (lastSegmentRequestTimeMs s)
    (algorithmState s) (lastSegmentDurationS s) (mostAdvancedSegmentStart s)
    (lastSegmentWasReplacement s) t (segmentCount s).
Definition set_segmentCount (n : Z) (s : BolaState) :=
  mkBolaState (representations s) (utilities s) (gp s) (vp s)
    (currentRepresentation s) (placeholderBuffer s) (lastSegmentFinishTimeMs s)
    (lastCallTimeMs s) (lastSegmentStart s) (lastSegmentRequestTimeMs s)
    (algorithmState s) (lastSegmentDurationS s) (mostAdvancedSegmentStart s)
    (lastSegmentWasReplacement s) (rebufferStartTimeMs s) n.

Definition set_bolaState (o : option BolaState) (a : BufferAbr) :=
  mkBufferAbr (minBufferLevel a) (maxBufferLevel a) (qualityChangeThreshold a)
              (bufferTarget a) o.
Definition set_bufferTarget (t : Q) (a : BufferAbr) :=
  mkBufferAbr (minBufferLevel a) (maxBufferLevel a) (qualityChangeThreshold a)
              t (bolaState a).

(** Applies [f] to the BOLA state; [if (!this.#bolaState) return;] otherwise. *)
Definition update_bola (f : BolaState -> BolaState) : M BufferAbr unit :=
  modify (fun a => match bolaState a with
                   | Some s => set_bolaState (Some (f s)) a
                   | None => a
                   end).

(** *** Scores and buffer thresholds *)

Definition bitrateAt (s : BolaState) (i : nat) : Q :=
  match nth_error (representations s) i with
  | Some r => bitrate r
  | None => 0
  end.

Definition utilityAt (s : BolaState) (i : nat) : Q := nth i (utilities s) 0.

(** The score of representation [i] at a buffer level, as computed in the
    loop of [#getRepresentationFromBufferLevel]. *)
Definition score (s : BolaState) (i : nat) (level : Q) : Q :=
  (vp s * (utilityAt s i + gp s - 1) - level) / bitrateAt s i.

(** The quotient [numerator / denominator] of
    [#getMinBufferLevelForRepresentation] for an index above 0, where the
    two bitrates differ.  (Where they are equal the source divides by zero
    and returns NaN or an infinity; see [BolaNum.minBufferLevelForIndex].) *)
Definition minBufferQuotient (s : BolaState) (repIndex : nat) : Q :=
  let util_i := utilityAt s repIndex in
  let util_prev := utilityAt s (pred repIndex) in
  let bitrate_i := bitrateAt s repIndex in
  let bitrate_prev := bitrateAt s (pred repIndex) in
  let numerator :=
    vp s * (util_i * bitrate_prev - util_prev * bitrate_i
            + gp s * (bitrate_prev - bitrate_i)) in
  let denominator := bitrate_prev - bitrate_i in
  numerator / denominator.

Definition minBufferLevelForIndex (s : BolaState) (repIndex : nat) : Q :=
  match repIndex with
  | O => 0
  | S _ => Qmax 0 (minBufferQuotient s repIndex)
  end.

(** [#getMinBufferLevelForRepresentation]. *)
Definition getMinBufferLevelForRepresentation (s : BolaState)
    (rep : VideoRepresentation) : Q :=
  match findIndex (fun r => same_id r rep) (representations s) with
  | None => 0
  | Some repIndex => minBufferLevelForIndex s repIndex
  end.

(** [#getMaxBufferLevelForRepresentation]. *)
Definition getMaxBufferLevelForRepresentation (a : BufferAbr) (s : BolaState)
    (rep : VideoRepresentation) : Q :=
  match findIndex (fun r => same_id r rep) (representations s) with
  | None => maxBufferLevel a
  | Some repIndex =>
      match nth_error (representations s) (S repIndex) with
      | None => maxBufferLevel a
      | Some next => getMinBufferLevelForRepresentation s next
      end
  end.

(** The loop shared by [#chooseThroughputBasedRepresentation] and
    [#getOptimalRepresentationForThroughput]: the last representation of the
    leading run whose bitrate fits. *)
Fixpoint scanThroughput (selected : VideoRepresentation)
    (reps : list VideoRepresentation) (throughput : Q) : VideoRepresentation :=
  match reps with
  | [] => selected
  | rep :: reps' =>
      if Qle_bool (bitrate rep) throughput
      then scanThroughput rep reps' throughput
      else selected
  end.

(** One iteration of the loop of [#getRepresentationFromBufferLevel]; the
    accumulator is [(bestScore, quality)], with [None] for -Infinity.  The
    scores are finite numbers here; a NaN score, which the source gets from
    a [vp] that is infinite or NaN, fails the comparison and leaves the
    accumulator (see [BolaNum.scoreStep]). *)
Definition scoreStep (s : BolaState) (currentRepIndex : option nat) (level : Q)
    (acc : option Q * nat) (i : nat) : option Q * nat :=
  let sc := score s i level in
  let adjustedScore :=
    match currentRepIndex with
    | Some c =>
        sc * (if (c <? i)%nat then SAFETY_FACTOR_INCREASE
              else SAFETY_FACTOR_DECREASE)
    | None => sc
    end in
  match fst acc with
  | None => (Some adjustedScore, i)
  | Some bestScore =>
      if Qle_bool bestScore adjustedScore then (Some adjustedScore, i) else acc
  end.

Definition bestQuality (s : BolaState) (level : Q) : nat :=
  let currentRepIndex :=
    match currentRepresentation s with
    | Some cur => findIndex (fun r => same_id r cur) (representations s)
    | None => None
    end in
  snd (fold_left (scoreStep s currentRepIndex level)
                 (seq 0 (length (representations s))) (None, O)).

(** [#findClosestRepresentation]. *)
Definition findClosestRepresentation (targetRep : VideoRepresentation)
    (first : VideoRepresentation) (availableReps : list VideoRepresentation)
  : VideoRepresentation :=
  fst (fold_left
         (fun (acc : VideoRepresentation * Q) rep =>
            let diff := Qabs (bitrate targetRep - bitrate rep) in
            if Js.Qlt_bool diff (snd acc) then (rep, diff) else acc)
         availableReps
         (first, Qabs (bitrate targetRep - bitrate first))).

(** *** Operations *)

Section Operations.
(** [Math.log] on the bitrates (positive and finite). *)
Variable Math_log : Q -> Q.
Variable assertions : bool.

(** [Assert.assertDefined(this.#bolaState)] and the dereference after it. *)
Definition the_bola : M BufferAbr BolaState :=
  a <- get ;;
  match bolaState a with
  | Some s => ret s
  | None => throw (if assertions then AssertionError else TypeError)
  end.

(** [#initBolaState]; [existing] is [this.#bolaState?.algorithmState].
    The quotients [gp] and [vp] are those of the source where their divisors
    are not zero: for a [minBufferLevel] other than zero and, for [vp], a
    ladder whose first and last logarithm differ (see [BolaNum.gp] and
    [BolaNum.vp] for the doubles otherwise). *)
Definition initBolaState (now : Z) (representations : list VideoRepresentation)
  : M BufferAbr BolaState :=
  Assert_assert assertions (0 <? length representations)%nat ;;;
  a <- get ;;
  let logs := map (fun r => Math_log (bitrate r)) representations in
  let utilities := map (fun u => u - nth 0 logs 0 + 1) logs in
  let bufferTimeDefault := 12 in
  let bufferTime :=
    Qmax bufferTimeDefault
         (minBufferLevel a
          + MINIMUM_BUFFER_PER_BITRATE_LEVEL
            * inject_Z (Z.of_nat (length representations))) in
  let gp :=
    (nth (length utilities - 1) utilities 0 - 1)
    / (bufferTime / minBufferLevel a - 1) in
  let vp := minBufferLevel a / gp in
  let existingState :=
    match bolaState a with
    | Some s => algorithmState s
    | None => STARTUP
    end in
  ret (mkBolaState representations utilities gp vp None 0 None (Some now)
                   None None existingState None None false None 0%Z).

(** The adjustment of the placeholder in [setRepresentations] when the
    previous representation is gone and the closest one differs. *)
Definition adjustPlaceholder (env : Env) (s : BolaState)
    (closest : VideoRepresentation) : BolaState :=
  let minBufferForNewRep := getMinBufferLevelForRepresentation s closest in
  if Js.Qlt_bool (bufferLevel env + placeholderBuffer s) minBufferForNewRep
  then set_placeholderBuffer
         (Qmax (placeholderBuffer s) (minBufferForNewRep - bufferLevel env)) s
  else s.

(** [setRepresentations]. *)
Definition setRepresentations (env : Env)
    (representations : list VideoRepresentation) : M BufferAbr unit :=
  Assert_assert assertions (0 <? length representations)%nat ;;;
  a <- get ;;
  let wasInitialized := match bolaState a with Some _ => true | None => false end in
  let previousRepresentation :=
    match bolaState a with Some s => currentRepresentation s | None => None end in
  let previousAlgorithmState :=
    match bolaState a with Some s => Some (algorithmState s) | None => None end in
  s0 <- initBolaState (nowMs env) representations ;;
  let s1 :=
    if negb wasInitialized then set_algorithmState STARTUP s0
    else match previousAlgorithmState with
         | Some st => set_algorithmState st s0
         | None => s0
         end in
  let s2 :=
    match representations with
    | [only] =>
        set_currentRepresentation (Some only) (set_algorithmState ONE_BITRATE s1)
    | first :: _ =>
        match previousRepresentation with
        | None => s1
        | Some prev =>
            match List.find (fun rep => same_id rep prev) representations with
            | Some matchingRep => set_currentRepresentation (Some matchingRep) s1
            | None =>
                let closest := findClosestRepresentation prev first representations in
                let s' := set_currentRepresentation (Some closest) s1 in
                if negb (same_id closest prev)
                then adjustPlaceholder env s' closest
                else s'
            end
        end
    | [] => s1
    end in
  match representations, previousRepresentation with
  | [], Some _ => throw TypeError     (* [closest.bitrate] of undefined *)
  | _, _ => modify (set_bolaState (Some s2))
  end.

(** [#checkPlaceholderBufferLimit]. *)
Definition checkPlaceholderBufferLimit (a : BufferAbr) (s : BolaState) : BolaState :=
  let maxPlaceholder := maxBufferLevel a - bufferTarget a in
  if Js.Qlt_bool maxPlaceholder (placeholderBuffer s)
  then set_placeholderBuffer maxPlaceholder s
  else s.

Definition MS_TO_SEC : Q := 1 # 1000.

(** [#updatePlaceholderBuffer]. *)
Definition updatePlaceholderBuffer (env : Env) (a : BufferAbr) (s : BolaState)
  : BolaState :=
  let nowMs := nowMs env in
  let s1 :=
    match lastSegmentFinishTimeMs s with
    | Some finish =>
        let delay := MS_TO_SEC * inject_Z (nowMs - finish) in
        set_placeholderBuffer (placeholderBuffer s + Qmax 0 delay) s
    | None =>
        match lastCallTimeMs s with
        | Some last =>
            let delay := MS_TO_SEC * inject_Z (nowMs - last) in
            set_placeholderBuffer (placeholderBuffer s + Qmax 0 delay) s
        | None => s
        end
    end in
  let s2 :=
    set_lastSegmentFinishTimeMs None
      (set_lastSegmentRequestTimeMs None
         (set_lastSegmentStart None
            (set_lastCallTimeMs (Some nowMs) s1))) in
  checkPlaceholderBufferLimit a s2.

(** [#chooseThroughputBasedRepresentation]. *)
Definition chooseThroughputBasedRepresentation (env : Env)
  : M BufferAbr (option VideoRepresentation) :=
  s <- the_bola ;;
  match throughputBps env with
  | None => ret (head (representations s))
  | Some throughput =>
      let safeThroughput := throughput * THROUGHPUT_SAFETY_FACTOR in
      match representations s with
      | [] => throw TypeError
      | first :: _ =>
          let selected := scanThroughput first (representations s) safeThroughput in
          let bufferLevel := bufferLevel env in
          let minBufferForRep := getMinBufferLevelForRepresentation s selected in
          let s1 := set_placeholderBuffer (Qmax 0 (minBufferForRep - bufferLevel)) s in
          let s2 := set_currentRepresentation (Some selected) s1 in
          let s3 :=
            match lastSegmentDurationS s2 with
            | Some d => if Qle_bool d bufferLevel
                        then set_algorithmState STEADY_STATE s2 else s2
            | None => s2
            end in
          modify (set_bolaState (Some s3)) ;;;
          ret (Some selected)
      end
  end.

(** The overflow handling at the end of [#chooseBufferBasedRepresentation]. *)
Definition absorbOverflow (delayS : Q) (s : BolaState) : BolaState :=
  if Js.Qlt_bool 0 delayS then
    if Qle_bool delayS (placeholderBuffer s)
    then set_placeholderBuffer (placeholderBuffer s - delayS) s
    else set_placeholderBuffer 0 s
  else s.

(** The oscillation check of [#chooseBufferBasedRepresentation]; [current]
    is [this.#bolaState.currentRepresentation] when the check runs. *)
Definition guardOscillation (env : Env) (s : BolaState)
    (current representation : VideoRepresentation) : VideoRepresentation :=
  match throughputBps env, representations s with
  | Some throughput, first :: _ =>
      let safeThroughput := throughput * THROUGHPUT_SAFETY_FACTOR in
      (* #getOptimalRepresentationForThroughput *)
      let throughputRep := scanThroughput first (representations s) safeThroughput in
      if Js.Qlt_bool (bitrate current) (bitrate representation)
         && Js.Qlt_bool (bitrate throughputRep) (bitrate representation)
      then if Js.Qlt_bool (bitrate current) (bitrate throughputRep)
           then throughputRep else current
      else representation
  | _, _ => representation
  end.

(** [#chooseBufferBasedRepresentation]. *)
Definition chooseBufferBasedRepresentation (env : Env)
  : M BufferAbr (option VideoRepresentation) :=
  s <- the_bola ;;
  Assert_assert assertions
    (match currentRepresentation s with Some _ => true | None => false end) ;;;
  a <- get ;;
  let s1 := updatePlaceholderBuffer env a s in
  modify (set_bolaState (Some s1)) ;;;
  let bufferLevel := bufferLevel env in
  let effectiveBuffer := bufferLevel + placeholderBuffer s1 in
  (* #getRepresentationFromBufferLevel, which also stores its choice *)
  match nth_error (representations s1) (bestQuality s1 effectiveBuffer) with
  | None => throw TypeError
  | Some selectedRepresentation =>
      let s2 := set_currentRepresentation (Some selectedRepresentation) s1 in
      let representation :=
        guardOscillation env s2 selectedRepresentation selectedRepresentation in
      let maxBufferForRep := getMaxBufferLevelForRepresentation a s2 representation in
      let delayS := Qmax 0 (effectiveBuffer - maxBufferForRep) in
      let s3 := absorbOverflow delayS s2 in
      let s4 := set_currentRepresentation (Some representation) s3 in
      modify (set_bolaState (Some s4)) ;;;
      ret (Some representation)
  end.

(** [chooseRepresentation]. *)
Definition chooseRepresentation (env : Env)
  : M BufferAbr (option VideoRepresentation) :=
  s <- the_bola ;;
  match algorithmState s with
  | ONE_BITRATE => ret (head (representations s))
  | STARTUP => chooseThroughputBasedRepresentation env
  | STEADY_STATE => chooseBufferBasedRepresentation env
  end.

(** [#clearBolaStateOnSeek]. *)
Definition clearBolaStateOnSeek (s : BolaState) : BolaState :=
  set_segmentCount 0%Z
    (set_lastSegmentFinishTimeMs None
       (set_lastSegmentRequestTimeMs None
          (set_lastSegmentDurationS None
             (set_lastSegmentStart None
                (set_lastSegmentWasReplacement false
                   (set_mostAdvancedSegmentStart None
                      (set_placeholderBuffer 0 s))))))).

(** [#onPlaybackStarted]. *)
Definition onPlaybackStarted : M BufferAbr unit :=
  update_bola (fun s => clearBolaStateOnSeek (set_algorithmState STARTUP s)).

(** [#onPlaybackSeeked]. *)
Definition onPlaybackSeeked : M BufferAbr unit :=
  update_bola (fun s =>
    match algorithmState s with
    | ONE_BITRATE => s
    | _ => clearBolaStateOnSeek (set_algorithmState STARTUP s)
    end).

(** [#onBufferEmpty]. *)
Definition onBufferEmpty (env : Env) : M BufferAbr unit :=
  update_bola (fun s =>
    let s1 := set_placeholderBuffer 0 (set_rebufferStartTimeMs (Some (nowMs env)) s) in
    match algorithmState s1 with
    | STEADY_STATE => set_algorithmState STARTUP s1
    | _ => s1
    end).

(** [#onBufferTargetChanged]: a falsy payload value (0) is ignored. *)
Definition onBufferTargetChanged (newBufferTarget : Q) : M BufferAbr unit :=
  if Qeq_bool newBufferTarget 0 then ret tt
  else modify (set_bufferTarget newBufferTarget).

(** [#onSegmentDownloadBegin]. *)
Definition onSegmentDownloadBegin (env : Env) (segmentRef : SegmentReference)
  : M BufferAbr unit :=
  update_bola (fun s =>
    let s1 :=
      set_lastSegmentStart (Some (startTime segmentRef))
        (set_lastSegmentRequestTimeMs (Some (nowMs env)) s) in
    match mostAdvancedSegmentStart s1 with
    | None => set_mostAdvancedSegmentStart (Some (startTime segmentRef)) s1
    | Some m =>
        if Js.Qlt_bool m (startTime segmentRef)
        then set_mostAdvancedSegmentStart (Some (startTime segmentRef)) s1
        else s1
    end).

(** [#onSegmentDownloadEnd]; the payload's [segmentRef] may be absent. *)
Definition onSegmentDownloadEnd (env : Env) (segmentRef : option SegmentReference)
    (isReplacement : bool) : M BufferAbr unit :=
  update_bola (fun s =>
    let s1 :=
      set_segmentCount (segmentCount s + 1)%Z
        (set_lastSegmentFinishTimeMs (Some (nowMs env)) s) in
    let s2 :=
      match segmentRef with
      | Some ref => set_lastSegmentDurationS (Some (endTime ref - startTime ref)) s1
      | None => s1
      end in
    set_lastSegmentWasReplacement isReplacement s2).

(** [updateConfig]. *)
Definition updateConfig (env : Env) (minBuffer maxBuffer threshold : Q)
  : M BufferAbr unit :=
  modify (fun a => mkBufferAbr minBuffer maxBuffer threshold
                               (bufferTarget a) (bolaState a)) ;;;
  a <- get ;;
  match bolaState a with
  | None => ret tt
  | Some s =>
      s0 <- initBolaState (nowMs env) (representations s) ;;
      modify (set_bolaState (Some (set_algorithmState (algorithmState s) s0)))
  end.

(** [new BufferAbr(minBufferLevel, maxBufferLevel, qualityChangeThreshold)];
    [target] is [bufferController.getBufferTarget()], 60 when it is falsy. *)
Definition BufferAbr_new (minBufferLevel maxBufferLevel qualityChangeThreshold : Q)
    (target : Q) : BufferAbr :=
  mkBufferAbr minBufferLevel maxBufferLevel qualityChangeThreshold
              (if Qeq_bool target 0 then 60 else target) None.

End Operations.

(** *** Event dispatch and example data *)

(** The operations of the controller the properties below range over: the
    public methods [chooseRepresentation], [setRepresentations] and
    [updateConfig], and the six event handlers of [#initEventHandlers]. *)
Inductive operation : Type :=
| Choose
| SetRepresentations (representations : list VideoRepresentation)
| PlaybackStarted
| PlaybackSeeked
| BufferEmpty
| FragmentLoadingStarted (segmentRef : SegmentReference)
| FragmentLoadingCompleted (segmentRef : option SegmentReference) (isReplacement : bool)
| BufferTargetChanged (newBufferTarget : Q)
| UpdateConfig (minBufferLevel maxBufferLevel qualityChangeThreshold : Q).

Definition run (Math_log : Q -> Q) (assertions : bool) (env : Env)
    (o : operation) : M BufferAbr unit :=
  match o with
  | Choose => chooseRepresentation assertions env ;;; ret tt
  | SetRepresentations reps => setRepresentations Math_log assertions env reps
  | PlaybackStarted => onPlaybackStarted
  | PlaybackSeeked => onPlaybackSeeked
  | BufferEmpty => onBufferEmpty env
  | FragmentLoadingStarted ref => onSegmentDownloadBegin env ref
  | FragmentLoadingCompleted ref isReplacement =>
      onSegmentDownloadEnd env ref isReplacement
  | BufferTargetChanged newBufferTarget => onBufferTargetChanged newBufferTarget
  | UpdateConfig minBuffer maxBuffer threshold =>
      updateConfig Math_log assertions env minBuffer maxBuffer threshold
  end.

(** A sequence of operations, each with what it reads, from left to right. *)
Fixpoint runAll (Math_log : Q -> Q) (assertions : bool)
    (trace : list (Env * operation)) (a : BufferAbr) : BufferAbr :=
  match trace with
  | [] => a
  | (env, o) :: rest =>
      runAll Math_log assertions rest (snd (run Math_log assertions env o a))
  end.

(** [placeholderBuffer], 0 before the first [setRepresentations]. *)
Definition placeholderOf (a : BufferAbr) : Q :=
  match bolaState a with
  | Some s => placeholderBuffer s
  | None => 0
  end.

(** The operations after which the cap of [#checkPlaceholderBufferLimit] has
    been applied or the placeholder is zero: a STEADY_STATE choose that gets
    past its assertion, the handlers that zero the placeholder, and an
    [updateConfig] whose [#initBolaState] gets past its assertion. *)
Definition capsPlaceholder (assertions : bool) (o : operation) (a : BufferAbr) : bool :=
  match bolaState a with
  | None => false
  | Some s =>
      match o with
      | Choose =>
          match algorithmState s with
          | STEADY_STATE =>
              negb assertions
              || match currentRepresentation s with Some _ => true | None => false end
          | _ => false
          end
      | PlaybackStarted | BufferEmpty => true
      | PlaybackSeeked =>
          match algorithmState s with ONE_BITRATE => false | _ => true end
      | UpdateConfig _ _ _ =>
          negb assertions || (0 <? length (representations s))%nat
      | _ => false
      end
  end.

(** The operations that leave the placeholder as it was. *)
Definition keepsPlaceholder (o : operation) (a : BufferAbr) : bool :=
  match o with
  | FragmentLoadingStarted _ | FragmentLoadingCompleted _ _
  | BufferTargetChanged _ => true
  | Choose | PlaybackSeeked =>
      match bolaState a with
      | Some s => match algorithmState s with ONE_BITRATE => true | _ => false end
      | None => true
      end
  | _ => match bolaState a with Some _ => false | None => true end
  end.

(** *** Where the arithmetic is finite

    [#initBolaState] and [#getMinBufferLevelForRepresentation] take
    logarithms and divide.  On doubles a logarithm of a bitrate that is not
    positive, or a division by zero, yields an infinity or NaN, which the
    state then keeps; the definitions above compute in [Q] and coincide with
    the source where no such value arises.  (The module [BolaNum] has the
    same arithmetic on [Js.num].)  The predicates below describe that
    domain. *)

(** No two neighbours of the ladder have the same bitrate: the divisor
    [bitrate_prev - bitrate_i] is never zero. *)
Fixpoint distinctNeighbours (reps : list VideoRepresentation) : bool :=
  match reps with
  | a :: ((b :: _) as rest) =>
      negb (Qeq_bool (bitrate a) (bitrate b)) && distinctNeighbours rest
  | _ => true
  end.

(** A ladder on which the numbers of the BOLA state are finite: it is not
    empty, every bitrate is positive, neighbours differ, and with more than
    one representation the logarithms of the first and the last bitrate
    differ, so that [gp] is not zero. *)
Definition finiteLadder (Math_log : Q -> Q) (reps : list VideoRepresentation) : bool :=
  match reps with
  | [] => false
  | first :: rest =>
      forallb (fun r => Js.Qlt_bool 0 (bitrate r)) reps
      && distinctNeighbours reps
      && match rest with
         | [] => true
         | _ :: _ =>
             negb (Qeq_bool (Math_log (bitrate (List.last reps first)))
                            (Math_log (bitrate first)))
         end
  end.

(** An operation that computes the numbers of the state does so on a finite
    ladder and with a [minBufferLevel] other than zero ([bufferTime /
    minBufferLevel] is a divisor of [gp]). *)
Definition finiteOperation (Math_log : Q -> Q) (o : operation) (a : BufferAbr) : bool :=
  match o with
  | SetRepresentations reps =>
      finiteLadder Math_log reps && negb (Qeq_bool (minBufferLevel a) 0)
  | UpdateConfig minBuffer _ _ => negb (Qeq_bool minBuffer 0)
  | _ => true
  end.

(** A sequence of operations along which the arithmetic is finite and the
    buffer target never exceeds [maxBufferLevel] (the cap of
    [#checkPlaceholderBufferLimit] is then never negative).  Both limits can
    change on the way: [updateConfig] sets [maxBufferLevel], the handler of
    BUFFER_TARGET_CHANGED sets the target. *)
Fixpoint admissible (Math_log : Q -> Q) (assertions : bool)
    (trace : list (Env * operation)) (a : BufferAbr) : bool :=
  match trace with
  | [] => true
  | (env, o) :: rest =>
      let a' := snd (run Math_log assertions env o a) in
      finiteOperation Math_log o a
      && Qle_bool (bufferTarget a') (maxBufferLevel a')
      && admissible Math_log assertions rest a'
  end.

Definition lookupQ (tbl : list (Q * Q)) (x : Q) : Q :=
  match List.find (fun kv => Qeq_bool (fst kv) x) tbl with
  | Some kv => snd kv
  | None => 0
  end.

(** The doubles [Math.log] returns on the bitrates of the two ladders below. *)
Definition ln_table : Q -> Q :=
  lookupQ [ (200000,   12206072645530174 # 1000000000000000);
            (300000,   12611537753638338 # 1000000000000000);
            (400000,   12899219826090120 # 1000000000000000);
            (450000,   13017002861746503 # 1000000000000000);
            (700000,   13458835614025542 # 1000000000000000);
            (1000000,  13815510557964274 # 1000000000000000);
            (1500000,  14220975666072440 # 1000000000000000);
            (2200000,  14603967918328545 # 1000000000000000);
            (3000000,  14914122846632385 # 1000000000000000);
            (4500000,  15319587954740548 # 1000000000000000);
            (6000000,  15607270027192330 # 1000000000000000);
            (8000000,  15894952099644110 # 1000000000000000);
            (10000000, 16118095650958320 # 1000000000000000) ].

Definition video (name : string) (bitrate : Q) (height : Z) : VideoRepresentation :=
  mkRep name bitrate (height * 16 / 9) height [].

(** The four representations of the cold-start scenario. *)
Definition ladder4 : list VideoRepresentation :=
  [ video "v400k" 400000 240; video "v1000k" 1000000 480;
    video "v3000k" 3000000 720; video "v6000k" 6000000 1080 ].

(** A ladder of twelve representations. *)
Definition ladder12 : list VideoRepresentation :=
  [ video "r01" 200000 144;   video "r02" 300000 240;   video "r03" 450000 270;
    video "r04" 700000 360;   video "r05" 1000000 432;  video "r06" 1500000 480;
    video "r07" 2200000 576;  video "r08" 3000000 720;  video "r09" 4500000 900;
    video "r10" 6000000 1080; video "r11" 8000000 1440; video "r12" 10000000 2160 ].

(** The controller as [AbrController] creates it: minBufferLevel 10,
    maxBufferLevel 90, threshold 0.2, and the pipeline's target of 60 s. *)
Definition abr0 : BufferAbr := BufferAbr_new 10 90 (2 # 10) 60.

Definition env0 : Env := mkEnv 1000 0 (Some 3000000).
(** An empty buffer and an estimate of 100 Mbit/s. *)
Definition env_fast : Env := mkEnv 2000 0 (Some 100000000).

Definition bola4 : BufferAbr :=
  snd (setRepresentations ln_table true env0 ladder4 abr0).
Definition bola12 : BufferAbr :=
  snd (setRepresentations ln_table true env0 ladder12 abr0).
Definition bola12_chosen : BufferAbr :=
  snd (chooseRepresentation true env_fast bola12).

(** The state of [bola4], for the statements that need it unwrapped. *)
Definition state4 : BolaState :=
  match bolaState bola4 with
  | Some s => s
  | None => mkBolaState [] [] 0 0 None 0 None None None None STARTUP None None
                        false None 0%Z
  end.

(** A controller in STEADY_STATE: the first segment (4 s) has completed and a
    STARTUP choose has seen 12 s of buffer. *)
Definition segment0 : SegmentReference := mkSegRef 0 0 4.
Definition env_12s : Env := mkEnv 5000 12 (Some 3000000).
Definition env_later : Env := mkEnv 9000 14 (Some 3000000).
Definition steady_trace : list (Env * operation) :=
  [ (env0, SetRepresentations ladder4);
    (env0, FragmentLoadingCompleted (Some segment0) false);
    (env_12s, Choose) ].
Definition bola4_steady : BufferAbr := runAll ln_table true steady_trace abr0.

(** The steady controller after the buffer target has been raised to 100 s,
    above [maxBufferLevel] (90 s), and another choose. *)
Definition target_raised_trace : list (Env * operation) :=
  steady_trace ++ [ (env_12s, BufferTargetChanged 100); (env_later, Choose) ].
Definition bola4_target_raised : BufferAbr :=
  runAll ln_table true target_raised_trace abr0.

(** The steady controller after the buffer target has been raised to 80 s,
    which leaves a cap of 10 s. *)
Definition retargeted_trace : list (Env * operation) :=
  steady_trace ++ [ (env_12s, BufferTargetChanged 80) ].

(** A ladder in which two neighbours have the same bitrate. *)
Definition ladder_twins : list VideoRepresentation :=
  [ video "v400k" 400000 240; video "v1000k" 1000000 480;
    video "v1000k-hfr" 1000000 480; video "v3000k" 3000000 720 ].

(** A ladder whose representations all have the same bitrate. *)
Definition ladder_flat : list VideoRepresentation :=
  [ video "a" 1000000 480; video "b" 1000000 480; video "c" 1000000 480 ].

End Bola.

(** ** DroppedFramesHistory.ts, DroppedFramesAbr.ts, BandwidthAbr.ts and
       AbrController.ts: the quality selector *)

Module Abr.
Import Types.
Local Open Scope js_scope.

(** *** DroppedFramesHistory *)

Record IVideoPlayBackQuality : Type := mkQuality {
  droppedVideoFrames : Z;
  totalVideoFrames : Z
}.

Record DroppedFramesHistory : Type := mkHistory {
  values : gmap (Z * string) IVideoPlayBackQuality;   (* key streamId:representationId *)
  lastDroppedFrames : gmap Z Z;
  lastTotalFrames : gmap Z Z
}.

(** *** DroppedFramesAbr *)

Record Downgrade : Type := mkDowngrade {
  count : Z;
  lastDowngradeTime : Z
}.

Record DroppedFramesAbr : Type := mkDroppedFramesAbr {
  downgrades : gmap Z Downgrade;
  droppedRepresentations : list VideoRepresentation
}.

Definition DROPPED_FRAMES_PERCENTAGE_THRESHOLD : Q := 15 # 100.
Definition MINIMUM_SAMPLE_SIZE : Z := 375.
Definition MAX_CONSECUTIVE_DOWNGRADES : Z := 2.
Definition DOWNGRADE_COOLDOWN_MS : Z := 10000.

Definition set_downgrades (d : gmap Z Downgrade) (a : DroppedFramesAbr) :=
  mkDroppedFramesAbr d (droppedRepresentations a).

(** *** BandwidthAbr *)

Record BandwidthAbr : Type := mkBandwidthAbr {
  bandwidthRepresentations : list VideoRepresentation;
  lastTimeChosenMs : option Z
}.

(** *** AbrController *)

Record AbrConfig : Type := mkAbrConfig {
  minBufferLevel : Q;
  maxBufferLevel : Q;
  qualityChangeThreshold : Q;
  switchCooldownPeriod : Z;
  startupStrategy : AbrStrategyType;
  allowSmoothing : bool;
  smoothingEnableDelay : Z;
  smoothingFactor : Q;
  abrEnabled : bool
}.

Definition DEFAULT_CONFIG : AbrConfig :=
  mkAbrConfig 10 90 (2 # 10) 5000 Bandwidth true 5000 (5 # 10) true.

Record QualitySwitch : Type := mkSwitch {
  timestamp : Z;
  quality : Z
}.

Record AbrController : Type := mkAbrController {
  config : AbrConfig;
  smoothingActive : bool;
  currentStrategy : AbrStrategyType;
  lastSwitchTime : Z;
  representations : list VideoRepresentation;
  filteredRepresentations : list VideoRepresentation;
  qualityHistory : list QualitySwitch
}.

(** An event triggered on the event bus. *)
Inductive Event : Type :=
| QUALITY_CHANGE_REQUESTED (videoRepresentation : VideoRepresentation)
                           (switchReason : AbrStrategyType).

(** The quality selector with its three strategies, and the events it has
    triggered so far. *)
Record Selector : Type := mkSelector {
  abr : AbrController;
  droppedFramesAbr : DroppedFramesAbr;
  bufferAbr : Bola.BufferAbr;
  bandwidthAbr : BandwidthAbr;
  emitted : list Event
}.

(** What one quality check reads from its collaborators: the clock, the
    pipeline's buffer level, the bandwidth estimate (None when NaN), the
    playback rate, the representation being played, and the frame history. *)
Record Reads : Type := mkReads {
  now : Z;
  bufferLevel : Q;
  throughput : option Q;
  playbackRate : Q;
  currentVideoRepresentation : option VideoRepresentation;
  history : DroppedFramesHistory
}.

Definition set_abr (x : AbrController) (s : Selector) :=
  mkSelector x (droppedFramesAbr s) (bufferAbr s) (bandwidthAbr s) (emitted s).
Definition set_droppedFramesAbr (x : DroppedFramesAbr) (s : Selector) :=
  mkSelector (abr s) x (bufferAbr s) (bandwidthAbr s) (emitted s).
Definition set_bufferAbr (x : Bola.BufferAbr) (s : Selector) :=
  mkSelector (abr s) (droppedFramesAbr s) x (bandwidthAbr s) (emitted s).
Definition set_bandwidthAbr (x : BandwidthAbr) (s : Selector) :=
  mkSelector (abr s) (droppedFramesAbr s) (bufferAbr s) x (emitted s).
Definition trigger (e : Event) (s : Selector) :=
  mkSelector (abr s) (droppedFramesAbr s) (bufferAbr s) (bandwidthAbr s)
             (emitted s ++ [e]).

Definition on_dropped {A} (m : M DroppedFramesAbr A) : M Selector A :=
  fun s => let '(r, x) := m (droppedFramesAbr s) in (r, set_droppedFramesAbr x s).
Definition on_buffer {A} (m : M Bola.BufferAbr A) : M Selector A :=
  fun s => let '(r, x) := m (bufferAbr s) in (r, set_bufferAbr x s).
Definition on_bandwidth {A} (m : M BandwidthAbr A) : M Selector A :=
  fun s => let '(r, x) := m (bandwidthAbr s) in (r, set_bandwidthAbr x s).

(** [Math.round]: the nearest integer, halves towards +Infinity. *)
Definition Math_round (x : Q) : Z := Qfloor (x + (1 # 2)).

Section Operations.
Variable assertions : bool.

(** [DroppedFramesHistory.getFrameHistory]: an absent entry fails the
    assertion, or the field access when assertions are disabled. *)
Definition getFrameHistory {S} (h : DroppedFramesHistory) (streamId : Z)
    (representationId : string) : M S IVideoPlayBackQuality :=
  match values h !! (streamId, representationId) with
  | Some q => ret (mkQuality (droppedVideoFrames q) (totalVideoFrames q))
  | None => throw (if assertions then AssertionError else TypeError)
  end.

(** [DroppedFramesHistory.push]. *)
Definition push (streamId : Z) (representationId : string)
    (playbackQuality : IVideoPlayBackQuality) : M DroppedFramesHistory unit :=
  Assert_assert assertions (0 <=? streamId)%Z ;;;
  Assert_assert assertions (0 <? String.length representationId)%nat ;;;
  h <- get ;;
  let currentDroppedFrames := Z.max 0 (droppedVideoFrames playbackQuality) in
  let currentTotalFrames := Z.max 0 (totalVideoFrames playbackQuality) in
  let lastDropped := default 0%Z (lastDroppedFrames h !! streamId) in
  let lastTotal := default 0%Z (lastTotalFrames h !! streamId) in
  let intervalDroppedFrames := Z.max 0 (currentDroppedFrames - lastDropped) in
  let intervalTotalFrames := Z.max 0 (currentTotalFrames - lastTotal) in
  let key := (streamId, representationId) in
  let entry :=
    match values h !! key with
    | Some old => mkQuality (droppedVideoFrames old + intervalDroppedFrames)
                            (totalVideoFrames old + intervalTotalFrames)
    | None => mkQuality intervalDroppedFrames intervalTotalFrames
    end in
  put (mkHistory (<[key := entry]> (values h))
                 (<[streamId := currentDroppedFrames]> (lastDroppedFrames h))
                 (<[streamId := currentTotalFrames]> (lastTotalFrames h))).

(** The body of the [try] block of [DroppedFramesAbr.#shouldLowerResolution]. *)
Definition shouldLowerResolution_body (env : Reads) (streamId : Z)
    (representationId : string) : M DroppedFramesAbr bool :=
  videoQuality <- getFrameHistory (history env) streamId representationId ;;
  if (totalVideoFrames videoQuality <? MINIMUM_SAMPLE_SIZE)%Z then ret false
  else
    a <- get ;;
    let streamDowngrades := downgrades a !! streamId in
    let now := now env in
    let blocked :=
      match streamDowngrades with
      | Some d =>
          (now - lastDowngradeTime d <? DOWNGRADE_COOLDOWN_MS)%Z
          || (MAX_CONSECUTIVE_DOWNGRADES <=? count d)%Z
      | None => false
      end in
    if blocked then ret false
    else
      let dropRate :=
        (inject_Z (droppedVideoFrames videoQuality)
         / inject_Z (totalVideoFrames videoQuality))%Q in
      if Js.Qlt_bool DROPPED_FRAMES_PERCENTAGE_THRESHOLD dropRate then
        let d' :=
          match streamDowngrades with
          | Some d => mkDowngrade (count d + 1) now
          | None => mkDowngrade 1 now
          end in
        put (set_downgrades (<[streamId := d']> (downgrades a)) a) ;;;
        ret true
      else
        (if Js.Qlt_bool dropRate (DROPPED_FRAMES_PERCENTAGE_THRESHOLD / 2)%Q
         then put (set_downgrades (delete streamId (downgrades a)) a)
         else ret tt) ;;;
        ret false.

(** [DroppedFramesAbr.#shouldLowerResolution]: any error means "no". *)
Definition shouldLowerResolution (env : Reads) (streamId : Z)
    (representationId : string) : M DroppedFramesAbr bool :=
  try_catch (shouldLowerResolution_body env streamId representationId) false.

(** [playbackController.getCurrentVideoRepresentation]. *)
Definition getCurrentVideoRepresentation {S} (env : Reads) : M S VideoRepresentation :=
  match currentVideoRepresentation env with
  | Some r => ret r
  | None => throw (Error "Current Video representation not set.")
  end.

(** [DroppedFramesAbr.chooseRepresentation]. *)
Definition dropped_chooseRepresentation (env : Reads)
  : M DroppedFramesAbr (option VideoRepresentation) :=
  let streamId := 0%Z in
  currentRepresentation <- getCurrentVideoRepresentation env ;;
  a <- get ;;
  Assert_assert assertions (0 <? length (droppedRepresentations a))%nat ;;;
  lower <- shouldLowerResolution env streamId (id currentRepresentation) ;;
  if lower then
    let reps := droppedRepresentations a in
    match findIndex (fun r => same_id r currentRepresentation) reps with
    | Some (S i) => ret (nth_error reps i)
    | _ => ret (nth_error reps 0)
    end
  else ret None.

(** The bounds of the loop body of [BandwidthAbr.chooseRepresentation] for
    the representation at index [i]: [maxBandwidth] is None for Infinity. *)
Definition nextDifferentBitrate (rep : VideoRepresentation)
    (later : list VideoRepresentation) : option Q :=
  match List.find (fun r => negb (Qeq_bool (bitrate rep) (bitrate r))) later with
  | Some r => Some (bitrate r)
  | None => None
  end.

Definition canChoose (env : Reads) (rep : VideoRepresentation)
    (later : list VideoRepresentation) : bool :=
  match throughput env with
  | None => false
  | Some currBandwidth =>
      let repBandwidth := (playbackRate env * bitrate rep)%Q in
      let minBandwidth := (repBandwidth * (105 # 100))%Q in
      Qle_bool minBandwidth currBandwidth
      && match nextDifferentBitrate rep later with
         | Some next =>
             Qle_bool currBandwidth (playbackRate env * next * (105 # 100))%Q
         | None => true
         end
  end.

Fixpoint bandwidth_scan (env : Reads) (chosen : option VideoRepresentation)
    (reps : list VideoRepresentation) : option VideoRepresentation :=
  match reps with
  | [] => chosen
  | rep :: later =>
      bandwidth_scan env (if canChoose env rep later then Some rep else chosen) later
  end.

(** [BandwidthAbr.chooseRepresentation()]. *)
Definition bandwidth_chooseRepresentation (env : Reads)
  : M BandwidthAbr (option VideoRepresentation) :=
  b <- get ;;
  let reps := bandwidthRepresentations b in
  let chosen := bandwidth_scan env (head reps) reps in
  put (mkBandwidthAbr reps (Some (now env))) ;;;
  ret chosen.

(** [AbrController.#detectOscillation]. *)
Definition detectOscillation (c : AbrController) : bool :=
  let h := qualityHistory c in
  if (length h <? 4)%nat then false
  else
    match skipn (length h - 4) h with
    | [s0; s1; s2; s3] =>
        (quality s2 =? quality s0)%Z && (quality s3 =? quality s1)%Z
    | _ => false
    end.

(** [AbrController.#smoothQualitySelection]; [None] is an [undefined] array
    element. *)
Definition smoothQualitySelection (env : Reads) (c : AbrController)
    (chosen : VideoRepresentation) : M Selector (option VideoRepresentation) :=
  if negb (smoothingActive c) then ret (Some chosen)
  else
    current <- getCurrentVideoRepresentation env ;;
    let availableQualities := filteredRepresentations c in
    match findIndex (fun r => same_id r current) availableQualities with
    | None => ret (Some chosen)
    | Some currentIndex =>
        if detectOscillation c then
          ret (if Js.Qlt_bool (bitrate current) (bitrate chosen)
               then nth_error availableQualities currentIndex
               else Some chosen)
        else
          let targetIndex :=
            match findIndex (fun r => same_id r chosen) availableQualities with
            | Some i => Z.of_nat i
            | None => (-1)%Z
            end in
          let smoothedIndex :=
            Math_round (inject_Z (Z.of_nat currentIndex)
                        + inject_Z (targetIndex - Z.of_nat currentIndex)
                          * smoothingFactor (config c))%Q in
          ret (if (smoothedIndex <? 0)%Z then None
               else nth_error availableQualities (Z.to_nat smoothedIndex))
    end.

(** Dereferences an array element: [undefined.id] is a TypeError. *)
Definition defined {S A} (o : option A) : M S A :=
  match o with
  | Some x => ret x
  | None => throw TypeError
  end.

(** The environment the BOLA strategy reads. *)
Definition bola_env (env : Reads) : Bola.Env :=
  Bola.mkEnv (now env) (bufferLevel env) (throughput env).

(** The tail of [checkPlaybackQuality], from the strategy's choice on. *)
Definition applyChoice (env : Reads) (now : Z)
    (currentRepresentation : VideoRepresentation)
    (usedStrategy : AbrStrategyType)
    (chosen : option VideoRepresentation) : M Selector bool :=
  match chosen with
  | None => ret false
  | Some chosenRepresentation =>
      if same_id currentRepresentation chosenRepresentation then ret false
      else
        s <- get ;;
        smoothed <-
          (if smoothingActive (abr s)
           then o <- smoothQualitySelection env (abr s) chosenRepresentation ;;
                defined o
           else ret chosenRepresentation) ;;
        if same_id currentRepresentation smoothed then ret false
        else
          let c := abr s in
          modify (set_abr
            (mkAbrController (config c) (smoothingActive c) usedStrategy now
               (representations c) (filteredRepresentations c)
               (qualityHistory c))) ;;;
          modify (trigger (QUALITY_CHANGE_REQUESTED smoothed usedStrategy)) ;;;
          ret true
  end.

(** [AbrController.checkPlaybackQuality]. *)
Definition checkPlaybackQuality (env : Reads) : M Selector bool :=
  let now := now env in
  s <- get ;;
  if (now - lastSwitchTime (abr s) <? switchCooldownPeriod (config (abr s)))%Z
  then ret false
  else if negb (abrEnabled (config (abr s))) then ret false
  else
    currentRepresentation <- getCurrentVideoRepresentation env ;;
    dropped <- on_dropped (dropped_chooseRepresentation env) ;;
    match dropped with
    | Some _ => applyChoice env now currentRepresentation DroppedFrames dropped
    | None =>
        let bufferLevel := bufferLevel env in
        if Qle_bool (minBufferLevel (config (abr s))) bufferLevel
        then
          chosen <- on_buffer (Bola.chooseRepresentation assertions (bola_env env)) ;;
          applyChoice env now currentRepresentation Buffer chosen
        else
          chosen <- on_bandwidth (bandwidth_chooseRepresentation env) ;;
          applyChoice env now currentRepresentation Bandwidth chosen
    end.

End Operations.

(** *** Example data *)

Definition rep_1000k : VideoRepresentation := Bola.video "v1000k" 1000000 480.
Definition rep_3000k : VideoRepresentation := Bola.video "v3000k" 3000000 720.

(** The selector 100 s into playback: the last switch was at 100000 ms, the
    player renders the 3000k representation, smoothing is not yet active. *)
Definition selector1 : Selector :=
  mkSelector
    (mkAbrController DEFAULT_CONFIG false Bandwidth 100000
                     Bola.ladder4 Bola.ladder4 [])
    (mkDroppedFramesAbr ∅ Bola.ladder4)
    Bola.bola4
    (mkBandwidthAbr Bola.ladder4 None)
    [].

(** 400 frames sampled on the 3000k representation, 100 of them dropped. *)
Definition history1 : DroppedFramesHistory :=
  mkHistory {[ (0%Z, "v3000k"%string) := mkQuality 100 400 ]}
            {[ 0%Z := 100%Z ]} {[ 0%Z := 400%Z ]}.

(** A quality check 3 s after the last switch, and one 6 s after it. *)
Definition reads_3s : Reads :=
  mkReads 103000 20 (Some 5000000%Q) 1 (Some rep_3000k) history1.
Definition reads_6s : Reads :=
  mkReads 106000 20 (Some 5000000%Q) 1 (Some rep_3000k) history1.

End Abr.

(** ** StallDetector.ts and the callbacks GapController.ts gives it *)

Module Stall.
Import Types.

Inductive PlayerContext : Type :=
| STARTUP
| SEEKING
| QUALITY_SWITCHING
| NORMAL_PLAYBACK
| BUFFERING.

Definition GRACE_PERIODS (c : PlayerContext) : Z :=
  match c with
  | STARTUP => 2000
  | SEEKING => 2000
  | QUALITY_SWITCHING => 1500
  | NORMAL_PLAYBACK => 0
  | BUFFERING => 3000
  end.

Definition STALL_THRESHOLD_MS : Z := 250.
Definition CONSECUTIVE_CHECKS_THRESHOLD : Z := 3.
Definition CHECK_INTERVAL_MS : Z := 100.

(** [HTMLMediaElement] constants. *)
Definition HAVE_FUTURE_DATA : Z := 3.
Definition HAVE_ENOUGH_DATA : Z := 4.
Definition NETWORK_IDLE : Z := 1.
Definition NETWORK_LOADING : Z := 2.

(** What the detector reads from the video element. *)
Record Video : Type := mkVideo {
  currentTime : Q;
  paused : bool;
  seeking : bool;
  ended : bool;
  readyState : Z;
  networkState : Z
}.

(** What the callbacks of the gap controller read from the pipeline and the
    playback controller. *)
Record PipelineView : Type := mkView {
  bufferRanges : option (list (Q * Q));          (* getBufferRanges() *)
  currentSegmentDownloads : list Z;              (* getCurrentSegmentDownloads() *)
  appendQueueNumbers : list Z;                   (* segmentNumber of getAppendQueue() *)
  currentVideoRepresentation : option VideoRepresentation
}.

(** One sample: the video element, the pipeline and the clock. *)
Record Sample : Type := mkSample {
  video : Video;
  view : PipelineView;
  nowMs : Z
}.

Record StallDetector : Type := mkStallDetector {
  lastPlaybackTime : Q;
  lastCheckTime : Z;
  consecutiveStallChecks : Z;
  isStalled : bool;
  lastReadyState : Z;
  currentContext : PlayerContext;
  contextStartTime : Z;
  hasPlaybackStarted : bool;
  stallHistory : list bool;
  historySize : nat;
  isPositionBuffered : option (PipelineView -> Q -> bool);
  isDownloadingForPosition : option (PipelineView -> Q -> bool)
}.

(** [GapController.#isPositionBuffered]. *)
Definition gap_isPositionBuffered (v : PipelineView) (time : Q) : bool :=
  match bufferRanges v with
  | None => false
  | Some ranges =>
      existsb (fun r => Qle_bool (fst r) time && Qle_bool time (snd r)) ranges
  end.

(** [GapController.#isDownloadingForPosition]; the [catch] returns false when
    no video representation is set. *)
Definition gap_isDownloadingForPosition (v : PipelineView) (time : Q) : bool :=
  match currentSegmentDownloads v with
  | [] => false
  | downloadingSegments =>
      match currentVideoRepresentation v with
      | None => false
      | Some videoRep =>
          match getSegmentAtTime (segmentIndex videoRep) time with
          | None => false
          | Some segmentAtTime =>
              let isDownloading :=
                existsb (Z.eqb (segmentNumber segmentAtTime)) downloadingSegments in
              let isQueued :=
                existsb (Z.eqb (segmentNumber segmentAtTime)) (appendQueueNumbers v) in
              isDownloading || isQueued
          end
      end
  end.

(** [reset]. *)
Definition reset (x : Sample) (d : StallDetector) : StallDetector :=
  mkStallDetector (currentTime (video x)) (nowMs x) 0 false (readyState (video x))
    (currentContext d) (contextStartTime d) (hasPlaybackStarted d)
    [] (historySize d) (isPositionBuffered d) (isDownloadingForPosition d).

(** [#updateContext]. *)
Definition updateContext (x : Sample) (newContext : PlayerContext)
    (d : StallDetector) : StallDetector :=
  match currentContext d, newContext with
  | STARTUP, STARTUP | SEEKING, SEEKING | QUALITY_SWITCHING, QUALITY_SWITCHING
  | NORMAL_PLAYBACK, NORMAL_PLAYBACK | BUFFERING, BUFFERING => d
  | _, _ =>
      mkStallDetector (lastPlaybackTime d) (lastCheckTime d) 0 (isStalled d)
        (lastReadyState d) newContext (nowMs x) (hasPlaybackStarted d)
        [] (historySize d) (isPositionBuffered d) (isDownloadingForPosition d)
  end.

(** [new StallDetector(video, options)]. *)
Definition StallDetector_new (x : Sample)
    (buffered downloading : option (PipelineView -> Q -> bool)) : StallDetector :=
  mkStallDetector (currentTime (video x)) (nowMs x) 0 false (readyState (video x))
    STARTUP (nowMs x) false [] 5 buffered downloading.

Definition isNormalPlayback (c : PlayerContext) : bool :=
  match c with NORMAL_PLAYBACK => true | _ => false end.

Definition call (f : option (PipelineView -> Q -> bool)) (x : Sample) (t : Q) : bool :=
  match f with
  | Some g => g (view x) t
  | None => false
  end.

(** [#shouldIgnoreStall]. *)
Definition shouldIgnoreStall (x : Sample) (d : StallDetector) (currentTime : Q) : bool :=
  if call (isPositionBuffered d) x currentTime
     && call (isDownloadingForPosition d) x currentTime
  then true
  else if call (isPositionBuffered d) x currentTime
          && (HAVE_ENOUGH_DATA <=? readyState (video x))
  then false
  else if Js.Qlt_bool currentTime (1 # 10) && negb (hasPlaybackStarted d)
  then true
  else if networkState (video x) =? NETWORK_LOADING
  then negb (isNormalPlayback (currentContext d))
  else false.

(** [#updateStallHistory]: [push], then [shift] beyond [historySize]. *)
Definition updateStallHistory (stalled : bool) (h : list bool) (size : nat) : list bool :=
  let h' := h ++ [stalled] in
  if (size <? length h')%nat then tl h' else h'.

(** [#isStallPatternConfirmed]. *)
Definition isStallPatternConfirmed (h : list bool) : bool :=
  if (length h <? 3)%nat then true
  else (2 <=? length (List.filter (fun s : bool => s) (skipn (length h - 3) h)))%nat.

(** The test that makes a sample a stall candidate: no progress of the
    playback position over at least one check interval. *)
Definition noProgress (x : Sample) (d : StallDetector) : bool :=
  (CHECK_INTERVAL_MS <=? nowMs x - lastCheckTime d)
  && Js.Qlt_bool (currentTime (video x) - lastPlaybackTime d) (1 # 100).

(** [detectStall]: the result and the detector after the sample. *)
Definition detectStall (x : Sample) (d : StallDetector) : bool * StallDetector :=
  let currentTime := currentTime (video x) in
  let currentCheckTime := nowMs x in
  let readyState := readyState (video x) in
  if paused (video x) || seeking (video x) || ended (video x)
  then (false, reset x d)
  else
    let gracePeriod := GRACE_PERIODS (currentContext d) in
    let timeSinceContextChange := currentCheckTime - contextStartTime d in
    if timeSinceContextChange <? gracePeriod then (false, d)
    else
      let d1 :=
        mkStallDetector (lastPlaybackTime d) (lastCheckTime d)
          (consecutiveStallChecks d) (isStalled d) readyState
          (currentContext d) (contextStartTime d) (hasPlaybackStarted d)
          (stallHistory d) (historySize d)
          (isPositionBuffered d) (isDownloadingForPosition d) in
      let playbackDelta := (currentTime - lastPlaybackTime d1)%Q in
      let timeDelta := currentCheckTime - lastCheckTime d1 in
      if CHECK_INTERVAL_MS <=? timeDelta then
        let isCurrentlyStalled :=
          Js.Qlt_bool playbackDelta (1 # 100)
          && negb (shouldIgnoreStall x d1 currentTime) in
        let history :=
          updateStallHistory isCurrentlyStalled (stallHistory d1) (historySize d1) in
        if isCurrentlyStalled then
          let checks := consecutiveStallChecks d1 + 1 in
          let stallDuration := checks * CHECK_INTERVAL_MS in
          let confirmedStall :=
            (STALL_THRESHOLD_MS <=? stallDuration)
            && (CONSECUTIVE_CHECKS_THRESHOLD <=? checks)
            && isStallPatternConfirmed history in
          if confirmedStall && negb (isStalled d1) then
            (true,
             mkStallDetector (lastPlaybackTime d1) (lastCheckTime d1) checks true
               (lastReadyState d1) (currentContext d1) (contextStartTime d1)
               (hasPlaybackStarted d1) history (historySize d1)
               (isPositionBuffered d1) (isDownloadingForPosition d1))
          else
            (isStalled d1,
             mkStallDetector (lastPlaybackTime d1) currentCheckTime checks
               (isStalled d1) (lastReadyState d1) (currentContext d1)
               (contextStartTime d1) (hasPlaybackStarted d1) history
               (historySize d1)
               (isPositionBuffered d1) (isDownloadingForPosition d1))
        else
          (false,
           mkStallDetector currentTime currentCheckTime 0 false
             (lastReadyState d1) (currentContext d1) (contextStartTime d1)
             (hasPlaybackStarted d1) history (historySize d1)
             (isPositionBuffered d1) (isDownloadingForPosition d1))
      else (isStalled d1, d1).

(** *** Example data *)

(** Twenty segments of 4 s, numbered from 0. *)
Definition segments_4s : list SegmentReference :=
  map (fun n => let k := Z.of_nat n in
                mkSegRef k (inject_Z (4 * k)) (inject_Z (4 * k + 4)))
      (seq 0 20).

Definition rep_4s : VideoRepresentation :=
  mkRep "v3000k" 3000000 1280 720 segments_4s.

(** The buffer ends at 28 s and segment 7, which covers [28, 32), is being
    downloaded. *)
Definition view_gap : PipelineView :=
  mkView (Some [(0, 28)]%Q) [7] [] (Some rep_4s).
(** The same download while the buffer reaches 40 s. *)
Definition view_buffered : PipelineView :=
  mkView (Some [(0, 40)]%Q) [7] [] (Some rep_4s).

(** The playhead waits at 30 s; the element reports HAVE_CURRENT_DATA. *)
Definition video_loading : Video := mkVideo 30 false false false 2 NETWORK_LOADING.
Definition video_idle : Video := mkVideo 30 false false false 2 NETWORK_IDLE.

(** A detector that has seen two stalled samples in a row at 30 s. *)
Definition detector_in (c : PlayerContext) (since : Z) : StallDetector :=
  mkStallDetector 30 59900 2 false 2 c since true [true; true] 5
    (Some gap_isPositionBuffered) (Some gap_isDownloadingForPosition).

Definition sample_normal : Sample := mkSample video_loading view_gap 60000.
Definition sample_buffering : Sample := mkSample video_idle view_gap 60000.
Definition sample_buffered : Sample := mkSample video_loading view_buffered 60000.

End Stall.

(** ** BufferController.ts: segment tracking, replacement candidates and the
       quota-exceeded handler *)

Module Pipeline.
Local Open Scope js_scope.

Record Config : Type := mkConfig {
  bufferingTarget : Q;
  bufferBehind : Q;
  quotaExceededCorrectionFactor : Q;
  maxConcurrentDownloads : Z;
  fastSwitchingEnabled : bool;
  replacementSafetyFactor : Q
}.

(** The [#config] literal of the class. *)
Definition DEFAULT_CONFIG : Config := mkConfig 60 5 (8 # 10) 2 true (15 # 10).

Record BufferState : Type := mkBufferState {
  level : Q;
  criticalLevel : option Q;      (* NaN until the first quota error *)
  isCompleted : bool;
  lastUpdateTime : Z
}.

Record DownloadTask : Type := mkTask {
  taskSegmentNumber : Z;
  taskRepresentationId : string;
  isReplacement : bool;
  replacingSegment : option Z
}.

Record QueuedSegment : Type := mkQueued {
  queuedSegmentNumber : Z;
  queuedBytes : Z;
  queuedDuration : Q;
  queuedRepresentationId : string;
  queuedBitrate : Q
}.

Record ReplacementTask : Type := mkReplacement {
  replacementSegmentNumber : Z;
  replacementRepresentationId : string
}.

Record BufferedSegmentInfo : Type := mkBuffered {
  segmentNumber : Z;
  startTime : Q;
  endTime : Q;
  representationId : string;
  bitrate : Q;
  bytes : Z
}.

(** The media sink: [SourceBuffer.updating] and [SourceBuffer.buffered]. *)
Record SourceBuffer : Type := mkSourceBuffer {
  updating : bool;
  buffered : list (Q * Q)
}.

Inductive Event : Type :=
| BUFFER_TARGET_CHANGED (newBufferTarget : Q).

(** A callback handed to [setTimeout], with its delay in milliseconds. *)
Inductive Timer : Type :=
| RetryQuotaExceeded (retryCount : Z) (delay : Z)
| EndQuotaExceeded (delay : Z).

Record BufferController : Type := mkBufferController {
  config : Config;
  state : BufferState;
  downloadPipeline : gmap Z DownloadTask;
  appendQueue : list QueuedSegment;
  appendQueueDuration : Q;
  nextSegmentToAppend : option Z;
  nextSegmentToDownload : option Z;
  replacementQueue : list ReplacementTask;
  isProcessingReplacement : bool;
  replacementsInProgress : gset Z;
  bufferedSegments : list BufferedSegmentInfo;   (* the Map, in insertion order *)
  currentRepresentationBitrate : Q;
  sourceBuffer : option SourceBuffer;
  isProcessingQueue : bool;
  quotaExceededInProgress : bool;
  emitted : list Event;                          (* eventBus.trigger *)
  cancelled : list Z;                            (* abortController.abort() *)
  timers : list Timer                            (* setTimeout *)
}.

(** What one call reads from the playback controller. *)
Record Playback : Type := mkPlayback {
  currentTime : Q;
  currentRepresentation : option Types.VideoRepresentation
}.

Definition set_bufferedSegments (l : list BufferedSegmentInfo) (c : BufferController) :=
  mkBufferController (config c) (state c) (downloadPipeline c) (appendQueue c)
    (appendQueueDuration c) (nextSegmentToAppend c) (nextSegmentToDownload c)
    (replacementQueue c) (isProcessingReplacement c) (replacementsInProgress c)
    l (currentRepresentationBitrate c) (sourceBuffer c) (isProcessingQueue c)
    (quotaExceededInProgress c) (emitted c) (cancelled c) (timers c).

Definition set_quotaExceededInProgress (b : bool) (c : BufferController) :=
  mkBufferController (config c) (state c) (downloadPipeline c) (appendQueue c)
    (appendQueueDuration c) (nextSegmentToAppend c) (nextSegmentToDownload c)
    (replacementQueue c) (isProcessingReplacement c) (replacementsInProgress c)
    (bufferedSegments c) (currentRepresentationBitrate c) (sourceBuffer c)
    (isProcessingQueue c) b (emitted c) (cancelled c) (timers c).

Definition add_timer (t : Timer) (c : BufferController) :=
  mkBufferController (config c) (state c) (downloadPipeline c) (appendQueue c)
    (appendQueueDuration c) (nextSegmentToAppend c) (nextSegmentToDownload c)
    (replacementQueue c) (isProcessingReplacement c) (replacementsInProgress c)
    (bufferedSegments c) (currentRepresentationBitrate c) (sourceBuffer c)
    (isProcessingQueue c) (quotaExceededInProgress c) (emitted c) (cancelled c)
    (timers c ++ [t]).

(** [#getAllBufferRanges]. *)
Definition getAllBufferRanges (c : BufferController) : list (Q * Q) :=
  match sourceBuffer c with
  | Some sb => buffered sb
  | None => []
  end.

(** The test of [#syncSegmentTrackingWithBuffer]: the segment overlaps one of
    the ranges. *)
Definition inBuffer (ranges : list (Q * Q)) (segInfo : BufferedSegmentInfo) : bool :=
  existsb (fun range => Js.Qlt_bool (startTime segInfo) (snd range)
                        && Js.Qlt_bool (fst range) (endTime segInfo))
          ranges.

(** [#syncSegmentTrackingWithBuffer]. *)
Definition syncSegmentTrackingWithBuffer (c : BufferController) : BufferController :=
  let ranges := getAllBufferRanges c in
  set_bufferedSegments (List.filter (inBuffer ranges) (bufferedSegments c)) c.

(** [#getBufferedBytes]. *)
Definition getBufferedBytes (c : BufferController) : Z :=
  fold_left (fun total seg => (total + bytes seg)%Z) (bufferedSegments c) 0%Z.

(** The outcome of one call of the quota-exceeded handler. *)
Inductive QuotaStep : Type :=
| AlreadyInProgress     (* the reentrancy guard returned *)
| NoSourceBuffer
| GaveUp                (* still updating after 10 retries *)
| RetryScheduled
| Recovering.           (* the recovery ran up to the removal of buffer data *)

(** The new critical level: the old one, or the buffer level when there is
    none, times the correction factor, and at least 10 s. *)
Definition newCriticalLevel (c : BufferController) : Q :=
  let scaled :=
    match criticalLevel (state c) with
    | None => (level (state c) * quotaExceededCorrectionFactor (config c))%Q
    | Some critical => (critical * quotaExceededCorrectionFactor (config c))%Q
    end in
  Qmax 10 scaled.

(** The recovery steps of [#handleQuotaExceeded] between the abort of the
    sink and the call of [#removeExcessBufferDataWithTracking]. *)
Definition beginRecovery (c : BufferController) : BufferController :=
  let critical := newCriticalLevel c in
  mkBufferController
    (mkConfig critical (bufferBehind (config c))
       (quotaExceededCorrectionFactor (config c))
       (maxConcurrentDownloads (config c)) (fastSwitchingEnabled (config c))
       (replacementSafetyFactor (config c)))
    (mkBufferState (level (state c)) (Some critical) (isCompleted (state c))
       (lastUpdateTime (state c)))
    ∅                                   (* downloadPipeline.clear() *)
    [] 0                                (* #resetAppendQueue *)
    (nextSegmentToAppend c) (nextSegmentToDownload c)
    [] false ∅
    (bufferedSegments c) (currentRepresentationBitrate c) (sourceBuffer c)
    false
    (quotaExceededInProgress c)
    (emitted c ++ [BUFFER_TARGET_CHANGED critical])
    (cancelled c ++ (map_to_list (downloadPipeline c)).*1)
    (timers c).

(** [#handleQuotaExceeded(retryCount)], up to its first suspension point: the
    steps after it (removal of buffer data, reset of the segment pointers,
    the 2 s timer) assign neither the critical level nor the target. *)
Definition handleQuotaExceeded (retryCount : Z) (c : BufferController)
  : QuotaStep * BufferController :=
  let c1 := syncSegmentTrackingWithBuffer c in
  if quotaExceededInProgress c1 then (AlreadyInProgress, c1)
  else
    let c2 := set_quotaExceededInProgress true c1 in
    match sourceBuffer c2 with
    | None => (NoSourceBuffer, c2)
    | Some sb =>
        if updating sb then
          if (10 <=? retryCount)%Z
          then (GaveUp, set_quotaExceededInProgress false c2)
          else (RetryScheduled, add_timer (RetryQuotaExceeded (retryCount + 1) 100) c2)
        else (Recovering, beginRecovery c2)
    end.

(** The callback of the retry timer. *)
Definition fireRetry (retryCount : Z) (c : BufferController)
  : QuotaStep * BufferController :=
  handleQuotaExceeded retryCount (set_quotaExceededInProgress false c).

(** *** Replacement candidates *)

(** [const segmentDuration = 3;] in [#findReplaceableSegments]. *)
Definition segmentDuration : Q := 3.

Definition isBeingReplaced (c : BufferController) (segment : BufferedSegmentInfo) : bool :=
  existsb (fun task =>
             isReplacement task
             && match replacingSegment task with
                | Some n => (n =? segmentNumber segment)%Z
                | None => false
                end)
          ((map_to_list (downloadPipeline c)).*2).

(** The callback of the [forEach] of [#findReplaceableSegments], on the pair
    of the segments kept in the map and the candidates pushed so far. *)
Definition visitSegment (c : BufferController) (currentTime threshold : Q)
    (acc : list BufferedSegmentInfo * list BufferedSegmentInfo)
    (segment : BufferedSegmentInfo)
  : list BufferedSegmentInfo * list BufferedSegmentInfo :=
  let '(kept, replaceable) := acc in
  if Js.Qlt_bool (endTime segment) currentTime then (kept, replaceable)
  else if Js.Qlt_bool (startTime segment) threshold
  then (kept ++ [segment], replaceable)
  else if Qle_bool (currentRepresentationBitrate c) (bitrate segment)
  then (kept ++ [segment], replaceable)
  else if isBeingReplaced c segment
  then (kept ++ [segment], replaceable)
  else (kept ++ [segment], replaceable ++ [segment]).

(** [Array.prototype.sort] with [(a, b) => a.startTime - b.startTime]: a
    stable sort by start time. *)
Fixpoint insertByStart (x : BufferedSegmentInfo) (l : list BufferedSegmentInfo)
  : list BufferedSegmentInfo :=
  match l with
  | [] => [x]
  | y :: l' =>
      if Qle_bool (startTime x) (startTime y) then x :: y :: l'
      else y :: insertByStart x l'
  end.

Definition sortByStart (l : list BufferedSegmentInfo) : list BufferedSegmentInfo :=
  fold_right insertByStart [] l.

(** [#getCurrentRepresentation] for the video pipeline. *)
Definition getCurrentRepresentation (p : Playback)
  : M BufferController Types.VideoRepresentation :=
  match currentRepresentation p with
  | Some r => ret r
  | None => throw (Error "Current Video representation not set.")
  end.

Definition safeReplacementThreshold (p : Playback) (c : BufferController) : Q :=
  (currentTime p + segmentDuration * replacementSafetyFactor (config c))%Q.

(** [#findReplaceableSegments]. *)
Definition findReplaceableSegments (p : Playback)
  : M BufferController (list BufferedSegmentInfo) :=
  _ <- getCurrentRepresentation p ;;
  c <- get ;;
  let '(kept, replaceable) :=
    fold_left (visitSegment c (currentTime p) (safeReplacementThreshold p c))
              (bufferedSegments c) ([], []) in
  put (set_bufferedSegments kept c) ;;;
  ret (sortByStart replaceable).

(** [#shouldDownloadReplacement]. *)
Definition shouldDownloadReplacement (p : Playback)
  : M BufferController (option BufferedSegmentInfo) :=
  c <- get ;;
  if negb (fastSwitchingEnabled (config c)) then ret None
  else
    replaceableSegments <- findReplaceableSegments p ;;
    ret (head replaceableSegments).

(** The segments [#findReplaceableSegments] leaves in the map: those that do
    not end before the playback time. *)
Definition keepsSegment (now : Q) (seg : BufferedSegmentInfo) : bool :=
  negb (Js.Qlt_bool (endTime seg) now).

(** The test a tracked segment passes to become a replacement candidate. *)
Definition isCandidate (c : BufferController) (now threshold : Q)
    (seg : BufferedSegmentInfo) : bool :=
  keepsSegment now seg
  && negb (Js.Qlt_bool (startTime seg) threshold)
  && negb (Qle_bool (currentRepresentationBitrate c) (bitrate seg))
  && negb (isBeingReplaced c seg).

Definition startsBefore (a b : BufferedSegmentInfo) : Prop :=
  (startTime a <= startTime b)%Q.

(** *** Example data *)

Definition buffered_4s (n : Z) (rate : Q) : BufferedSegmentInfo :=
  mkBuffered n (inject_Z (4 * n)) (inject_Z (4 * n + 4)) "v1000k" rate 500000.

(** The quota scenario: 70 s buffered ahead, a target of 60 s, no critical
    level yet, the sink idle, segment 25 being downloaded and segment 24
    waiting in the append queue. *)
Definition controller_70s : BufferController :=
  mkBufferController DEFAULT_CONFIG (mkBufferState 70 None false 0)
    {[ 25%Z := mkTask 25 "v1000k" false None ]}
    [mkQueued 24 500000 4 "v1000k" 1000000] 4
    (Some 24%Z) (Some 26%Z) [] false ∅
    [buffered_4s 22 1000000; buffered_4s 23 1000000] 1000000
    (Some (mkSourceBuffer false [(20, 96)]%Q))
    false false [] [] [].

(** A recovery is in progress, and the browser has meanwhile evicted the
    range that held segment 1: the sink holds [20, 96] only. *)
Definition controller_busy : BufferController :=
  mkBufferController DEFAULT_CONFIG (mkBufferState 70 (Some 56%Q) false 0)
    ∅ [] 0 (Some 24%Z) (Some 24%Z) [] false ∅
    [buffered_4s 1 1000000; buffered_4s 22 1000000; buffered_4s 23 1000000] 1000000
    (Some (mkSourceBuffer false [(20, 96)]%Q))
    false true [] [] [].

(** After an up-switch to 6 Mbit/s: segment 2, [8, 12), is buffered at
    1 Mbit/s and the playhead is at 3 s. *)
Definition controller_upswitch : BufferController :=
  mkBufferController DEFAULT_CONFIG (mkBufferState 9 None false 0)
    ∅ [] 0 (Some 3%Z) (Some 3%Z) [] false ∅
    [buffered_4s 0 1000000; buffered_4s 1 1000000; buffered_4s 2 1000000] 6000000
    (Some (mkSourceBuffer false [(0, 12)]%Q))
    false false [] [] [].

Definition playback_3s : Playback := mkPlayback 3 (Some Stall.rep_4s).

(** The fast-switch scenario: segments 40 to 50 buffered at 1 Mbit/s, the
    playhead at the start of segment 40 (160 s), the current representation
    at 6 Mbit/s. *)
Definition controller_S5 : BufferController :=
  mkBufferController DEFAULT_CONFIG (mkBufferState 44 None false 0)
    ∅ [] 0 (Some 51%Z) (Some 51%Z) [] false ∅
    (map (fun n => buffered_4s (Z.of_nat n) 1000000) (seq 40 11)) 6000000
    (Some (mkSourceBuffer false [(160, 204)]%Q))
    false false [] [] [].

Definition playback_S5 : Playback := mkPlayback 160 (Some Stall.rep_4s).

End Pipeline.

(** ** SegmentIndex.ts, the lookups by number, and the segment lists that
       ManifestParser.ts builds *)

Module Index.
Import Types.

(** [SegmentIndex.getSegmentByNumber]: the positional shortcut, then the
    linear search.  Segment numbers are integers. *)
Definition getSegmentByNumber (refs : list SegmentReference) (segmentNumber : Z)
  : option SegmentReference :=
  let shortcut :=
    match refs with
    | [] => None
    | first :: _ =>
        let firstSegNum := Types.segmentNumber first in
        let index := segmentNumber - firstSegNum in
        if (0 <=? index) && (index <? Z.of_nat (length refs)) then
          match nth_error refs (Z.to_nat index) with
          | Some ref =>
              if Types.segmentNumber ref =? segmentNumber then Some ref else None
          | None => None
          end
        else None
    end in
  match shortcut with
  | Some ref => Some ref
  | None => List.find (fun ref => Types.segmentNumber ref =? segmentNumber) refs
  end.

(** [SegmentIndex.hasSegmentNumber]. *)
Definition hasSegmentNumber (refs : list SegmentReference) (segmentNumber : Z) : bool :=
  match getSegmentByNumber refs segmentNumber with
  | Some _ => true
  | None => false
  end.

(** [SegmentIndex.getFirstSegment] and [SegmentIndex.getLastSegment]. *)
Definition getFirstSegment (refs : list SegmentReference) : option SegmentReference :=
  nth_error refs 0.
Definition getLastSegment (refs : list SegmentReference) : option SegmentReference :=
  match refs with
  | [] => None
  | _ => nth_error refs (length refs - 1)
  end.

(** One [S] element of a [SegmentTimeline]: the attributes [t], [d] and [r]
    as numbers, [d] and [r] being 0 when the attribute is absent. *)
Record TimelineEntry : Type := mkS {
  S_t : option Q;
  S_d : Q;
  S_r : Z
}.

(** [SegmentTemplateInfo], as [#extractSegmentTemplate] returns it. *)
Record SegmentTemplateInfo : Type := mkTemplate {
  initialization : option string;
  media : option string;
  timescale : option Q;
  startNumber : option Z;
  duration : option Q;
  segmentTimeline : option (list TimelineEntry)
}.

(** A number or a string that JavaScript takes for true. *)
Definition truthyQ (x : option Q) : option Q :=
  match x with
  | Some q => if Qeq_bool q 0 then None else Some q
  | None => None
  end.
Definition truthyString (x : option string) : bool :=
  match x with
  | Some s => negb (String.eqb s "")
  | None => false
  end.

(** The inner loop of the timeline branch of [#parseRepresentation]: [count]
    references of [d] ticks each, from [start]; it returns the references,
    the next start and the next position. *)
Fixpoint timelineRepeat (hasMedia : bool) (timescale d : Q) (count : nat)
    (start : Q) (position : Z) (refs : list SegmentReference)
  : list SegmentReference * Q * Z :=
  match count with
  | O => (refs, start, position)
  | S count' =>
      let segStart := (start / timescale)%Q in
      let segDuration := (d / timescale)%Q in
      let segEnd := (segStart + segDuration)%Q in
      let refs' :=
        if hasMedia then refs ++ [mkSegRef position segStart segEnd] else refs in
      timelineRepeat hasMedia timescale d count' (start + d)%Q (position + 1) refs'
  end.

(** The variables of the outer loop. *)
Record TimelineState : Type := mkTimelineState {
  references : list SegmentReference;
  cumulativeTime : Q;
  position : Z;
  maxSegNum : Z
}.

(** The body of the loop over the [S] elements. *)
Definition timelineStep (hasMedia : bool) (timescale : Q)
    (st : TimelineState) (data : TimelineEntry) : TimelineState :=
  let repeated := S_r data in
  let start :=
    match S_t data with
    | Some t => t
    | None => cumulativeTime st
    end in
  let count := Z.max 1 (repeated + 1) in
  let '(refs, start', position') :=
    timelineRepeat hasMedia timescale (S_d data) (Z.to_nat count) start
                   (position st) (references st) in
  mkTimelineState refs start' position'
                  (maxSegNum st + Z.max (repeated + 1) 1).

Definition timelineReferences (hasMedia : bool) (timescale : Q)
    (s : list TimelineEntry) : TimelineState :=
  fold_left (timelineStep hasMedia timescale) s (mkTimelineState [] 0 1 0).

(** The loop of the duration branch: segment [i] covers
    [i * segmentDuration, min((i + 1) * segmentDuration, totalDuration)). *)
Definition durationReferences (hasMedia : bool) (segmentDuration totalDuration : Q)
    (totalSegments : Z) : list SegmentReference :=
  if hasMedia then
    map (fun n =>
           let i := Z.of_nat n in
           mkSegRef (i + 1)
                    (inject_Z i * segmentDuration)%Q
                    (Qmin (inject_Z (i + 1) * segmentDuration) totalDuration))
        (seq 0 (Z.to_nat totalSegments))
  else [].

(** What [#parseRepresentation] builds from the merged template: the
    references of the [SegmentIndex], [segment.maxSegNum] and
    [segment.startNumber]; [None] where it returns null for want of a
    timescale.  The URL callbacks of the references are not modelled.

    [Math.ceil(totalDuration / segmentDuration)] runs on doubles: the
    quotient is rounded before the ceiling is taken, and the rounding can
    cross an integer (26.026 / 2.002 gives 13.000000000000002, and 14
    segments).  The integer is therefore a parameter of the embedding,
    [ceilOfQuotient totalDuration segmentDuration], the value the engine
    returns. *)
Definition buildSegmentIndex (ceilOfQuotient : Q -> Q -> Z)
    (info : SegmentTemplateInfo) (manifestDuration : Q)
  : option (list SegmentReference * Z * Z) :=
  match truthyQ (timescale info) with
  | None => None
  | Some timescale =>
      let startNumber :=
        match startNumber info with
        | Some n => if n =? 0 then 1 else n
        | None => 1
        end in
      let hasMedia := truthyString (media info) in
      let '(refs, maxSegNum) :=
        match segmentTimeline info with
        | Some s =>
            let st := timelineReferences hasMedia timescale s in
            (references st, maxSegNum st)
        | None =>
            match truthyQ (duration info) with
            | Some duration =>
                let segmentDuration := (duration / timescale)%Q in
                let totalDuration := manifestDuration in
                let totalSegments := ceilOfQuotient totalDuration segmentDuration in
                (durationReferences hasMedia segmentDuration totalDuration
                                    totalSegments,
                 totalSegments)
            | None => ([], 0)
            end
        end in
      Some (refs, maxSegNum + startNumber - 1, startNumber)
  end.

(** The engine on the inputs whose quotient rounds to a double with the
    same ceiling as the exact quotient (30 / 4, for one). *)
Definition exactCeiling (totalDuration segmentDuration : Q) : Z :=
  Qceiling (totalDuration / segmentDuration).

(** An index as the lookups by time expect it: every reference has a
    positive length and ends no later than the next one starts. *)
Definition wellFormed (refs : list SegmentReference) : Prop :=
  (forall i r, nth_error refs i = Some r -> (startTime r < endTime r)%Q)
  /\ (forall i j a b, (i < j)%nat ->
        nth_error refs i = Some a -> nth_error refs j = Some b ->
        (endTime a <= startTime b)%Q).

(** The numbers 1, 2, ..., n. *)
Definition positions (n : nat) : list Z := map (fun i => Z.of_nat i + 1) (seq 0 n).

(** The number of references an [S] element stands for. *)
Definition repeats (data : TimelineEntry) : Z := Z.max 1 (S_r data + 1).

Definition totalRepeats (s : list TimelineEntry) : Z :=
  fold_right (fun data total => repeats data + total) 0 s.

(** *** Example data *)

(** A template of 4 s segments (timescale 1000) for a 30 s presentation. *)
Definition template_4s : SegmentTemplateInfo :=
  mkTemplate (Some "init-$RepresentationID$.m4s"%string)
             (Some "chunk-$RepresentationID$-$Number%05d$.m4s"%string)
             (Some 1000%Q) (Some 1) (Some 4000%Q) None.

(** A timeline of three 4 s segments, a gap of 2 s, and two 3 s segments. *)
Definition timeline_gap : list TimelineEntry :=
  [ mkS None 4000 2; mkS (Some 14000%Q) 3000 1 ].

(** The index built from [template_4s] for a presentation of 30 s, and the
    one built from the timeline. *)
Definition index_30s : list SegmentReference :=
  durationReferences true (4000 / 1000) 30 (Qceiling (30 / (4000 / 1000))).

Definition template_timeline : SegmentTemplateInfo :=
  mkTemplate None (Some "seg-$Number$.m4s"%string) (Some 1000%Q) (Some 5) None
             (Some timeline_gap).

(** A template of 2.002 s segments (duration 2002, timescale 1000), and the
    engine on a presentation of 26.026 s: the double 26.026 / 2.002 is
    13.000000000000002, and its ceiling is 14. *)
Definition template_2002 : SegmentTemplateInfo :=
  mkTemplate (Some "init.m4s"%string) (Some "chunk-$Number$.m4s"%string)
             (Some 1000%Q) (Some 1) (Some 2002%Q) None.

Definition ceiling_26026 (totalDuration segmentDuration : Q) : Z :=
  if Qeq_bool totalDuration (26026 # 1000) && Qeq_bool segmentDuration (2002 # 1000)
  then 14
  else exactCeiling totalDuration segmentDuration.

End Index.

(** ** EventBus.ts *)

Module Bus.
Local Open Scope js_scope.

(** A registered handler.  Listeners and scopes are objects compared by
    identity: a number stands for each, and [None] for an undefined or null
    scope.  [#commonOn] never sets [streamId], [mediaType] or [mode]. *)
Record Handler : Type := mkHandler {
  callback : nat;
  scope : option nat;
  executeOnce : bool;
  priority : Z;
  streamId : option Z;
  mediaType : option string;
  mode : option string
}.

(** The own properties of a payload that [trigger] reads or writes. *)
Record Payload : Type := mkPayload {
  payloadType : option string;
  payloadStreamId : option Z;
  payloadMediaType : option string
}.

Record Filters : Type := mkFilters {
  filterStreamId : option Z;
  filterMediaType : option string;
  filterMode : option string
}.

(** One call of a listener: the function, its [this] and the payload. *)
Record Call : Type := mkCall {
  callee : nat;
  this : option nat;
  argument : Payload
}.

(** The bus: [#handlers], and the calls made so far.  A listener is taken to
    return normally and to leave the bus alone, and an event type is not the
    name of a property that every object inherits. *)
Record EventBus : Type := mkEventBus {
  handlers : gmap string (list (option Handler));
  calls : list Call
}.

Definition EVENT_PRIORITY_LOW : Z := 0.
Definition EVENT_PRIORITY_HIGH : Z := 5000.

Definition set_handlers (h : gmap string (list (option Handler))) (b : EventBus) :=
  mkEventBus h (calls b).

(** Truthiness of an optional number and of an optional string. *)
Definition truthyZ (x : option Z) : bool :=
  match x with
  | Some n => negb (n =? 0)%Z
  | None => false
  end.
Definition truthyS (x : option string) : bool :=
  match x with
  | Some s => negb (String.eqb s "")
  | None => false
  end.

Definition same_scope (a b : option nat) : bool :=
  match a, b with
  | Some x, Some y => Nat.eqb x y
  | None, None => true
  | _, _ => false
  end.

(** The test of [#getHandlerIdx]: a live entry with this listener, and with
    this scope when a scope is given. *)
Definition matches (listener : nat) (scope0 : option nat) (item : option Handler) : bool :=
  match item with
  | Some h =>
      Nat.eqb (callback h) listener
      && (match scope0 with
          | None => true
          | Some _ => same_scope scope0 (scope h)
          end)
  | None => false
  end.

(** [#getHandlerIdx]; [None] is -1. *)
Definition getHandlerIdx (type : string) (listener : nat) (scope0 : option nat)
    (b : EventBus) : option nat :=
  match handlers b !! type with
  | None => None
  | Some l => Types.findIndex (matches listener scope0) l
  end.

(** The [some] loop of [#commonOn] with its [push]: the handler goes before
    the first live entry of lower priority, or to the end. *)
Fixpoint insertHandler (handler : Handler) (l : list (option Handler))
  : list (option Handler) :=
  match l with
  | [] => [Some handler]
  | Some item :: l' =>
      if (priority item <? priority handler)%Z
      then Some handler :: Some item :: l'
      else Some item :: insertHandler handler l'
  | None :: l' => None :: insertHandler handler l'
  end.

(** [#commonOn]; [priority0] is [options.priority], and the listener is a
    function. *)
Definition commonOn (type : string) (listener : nat) (scope0 : option nat)
    (priority0 : option Z) (executeOnce0 : bool) : M EventBus unit :=
  if String.eqb type "" then throw (Error "event type cannot be null or undefined")
  else
    let priority1 :=
      match priority0 with
      | Some p => if (p =? 0)%Z then EVENT_PRIORITY_LOW else p
      | None => EVENT_PRIORITY_LOW
      end in
    b <- get ;;
    match getHandlerIdx type listener scope0 b with
    | Some _ => ret tt
    | None =>
        let handler := mkHandler listener scope0 executeOnce0 priority1 None None None in
        let l := default [] (handlers b !! type) in
        put (set_handlers (<[type := insertHandler handler l]> (handlers b)) b)
    end.

Definition on (type : string) (listener : nat) (scope0 : option nat)
    (priority0 : option Z) : M EventBus unit :=
  commonOn type listener scope0 priority0 false.

Definition once (type : string) (listener : nat) (scope0 : option nat)
    (priority0 : option Z) : M EventBus unit :=
  commonOn type listener scope0 priority0 true.

(** [this.#handlers[type][idx] = null]. *)
Fixpoint clearAt {A} (idx : nat) (l : list (option A)) : list (option A) :=
  match l, idx with
  | [], _ => []
  | _ :: l', O => None :: l'
  | x :: l', S i => x :: clearAt i l'
  end.

(** [off]. *)
Definition off (type : string) (listener : nat) (scope0 : option nat)
  : M EventBus unit :=
  b <- get ;;
  if String.eqb type "" then ret tt
  else
    match handlers b !! type with
    | None => ret tt
    | Some l =>
        match getHandlerIdx type listener scope0 b with
        | None => ret tt
        | Some idx => put (set_handlers (<[type := clearAt idx l]> (handlers b)) b)
        end
    end.

(** The callback of the [filter] in [trigger]. *)
Definition passes (filters : Filters) (item : option Handler) : bool :=
  match item with
  | None => false
  | Some handler =>
      if truthyZ (filterStreamId filters) && truthyZ (streamId handler)
         && negb (bool_decide (streamId handler = filterStreamId filters))
      then false
      else if truthyS (filterMediaType filters) && truthyS (mediaType handler)
              && negb (bool_decide (mediaType handler = filterMediaType filters))
      then false
      else if (truthyS (filterMode filters) && truthyS (mode handler)
               && negb (bool_decide (mode handler = filterMode filters)))
              || (negb (truthyS (mode handler)) && truthyS (filterMode filters)
                  && bool_decide (filterMode filters = Some "eventModeOnReceive"%string))
      then false
      else true
  end.

(** [Array.prototype.forEach] with a callback that runs in the monad. *)
Fixpoint forEach {S A} (f : A -> M S unit) (l : list A) : M S unit :=
  match l with
  | [] => ret tt
  | x :: l' => f x ;;; forEach f l'
  end.

(** The handlers [trigger] calls, in the order of the calls. *)
Definition selected (filters : Filters) (l : list (option Handler)) : list Handler :=
  omap id (List.filter (passes filters) l).

Definition record (c : Call) (b : EventBus) : EventBus :=
  mkEventBus (handlers b) (calls b ++ [c]).

(** [trigger]: the result is the payload object as the call leaves it. *)
Definition trigger (type : string) (payload : Payload) (filters : Filters)
  : M EventBus Payload :=
  b <- get ;;
  if String.eqb type "" then ret payload
  else
    match handlers b !! type with
    | None => ret payload
    | Some l =>
        match payloadType payload with
        | Some _ => throw (Error "'type' is a reserved word for event dispatching")
        | None =>
            let payload1 :=
              mkPayload (Some type)
                (if truthyZ (filterStreamId filters) then filterStreamId filters
                 else payloadStreamId payload)
                (if truthyS (filterMediaType filters) then filterMediaType filters
                 else payloadMediaType payload) in
            let called := selected filters l in
            let handlersToRemove := List.filter executeOnce called in
            forEach (fun handler =>
                       modify (record (mkCall (callback handler) (scope handler)
                                              payload1)))
                    called ;;;
            forEach (fun handler => off type (callback handler) (scope handler))
                    handlersToRemove ;;;
            ret payload1
        end
    end.

(** [reset]. *)
Definition reset : M EventBus unit := modify (set_handlers ∅).

Definition empty : EventBus := mkEventBus ∅ [].

(** The requests a client makes of the bus.  A registration names its scope,
    as every registration in the player does with [this]. *)
Inductive request : Type :=
| On (type : string) (listener scope0 : nat) (priority0 : option Z)
| Once (type : string) (listener scope0 : nat) (priority0 : option Z)
| Off (type : string) (listener scope0 : nat)
| Trigger (type : string) (payload : Payload) (filters : Filters)
| Reset.

Definition serve (r : request) : M EventBus unit :=
  match r with
  | On type listener scope0 priority0 => on type listener (Some scope0) priority0
  | Once type listener scope0 priority0 => once type listener (Some scope0) priority0
  | Off type listener scope0 => off type listener (Some scope0)
  | Trigger type payload filters => trigger type payload filters ;;; ret tt
  | Reset => reset
  end.

Fixpoint serveAll (rs : list request) (b : EventBus) : EventBus :=
  match rs with
  | [] => b
  | r :: rs' => serveAll rs' (snd (serve r b))
  end.

(** The live handlers registered for a type, in array order. *)
Definition live (type : string) (b : EventBus) : list Handler :=
  omap id (default [] (handlers b !! type)).

(** The call a handler receives. *)
Definition callOf (payload : Payload) (handler : Handler) : Call :=
  mkCall (callback handler) (scope handler) payload.

(** Higher priorities first. *)
Definition byPriority (a b : Handler) : Prop := (priority b <= priority a)%Z.

(** What identifies a registration: the listener and its scope. *)
Definition key (h : Handler) : nat * option nat := (callback h, scope h).

(** The effect of [insertHandler] on the live handlers. *)
Fixpoint insertLive (handler : Handler) (l : list Handler) : list Handler :=
  match l with
  | [] => [handler]
  | item :: l' =>
      if (priority item <? priority handler)%Z
      then handler :: item :: l'
      else item :: insertLive handler l'
  end.

(** A handler as [#commonOn] makes it for a request: with a scope, and
    without stream, media type or mode. *)
Definition plain (h : Handler) : Prop :=
  (exists s, scope h = Some s)
  /\ streamId h = None /\ mediaType h = None /\ mode h = None.

(** The state of an array of handlers on a bus that has only served
    requests: live entries in priority order, no registration twice. *)
Definition tidy (l : list Handler) : Prop :=
  StronglySorted byPriority l /\ List.NoDup (map key l) /\ Forall plain l.

Definition tidyBus (b : EventBus) : Prop := forall type, tidy (live type b).

(** The test that keeps the handlers registered under another key. *)
Definition otherKey (h x : Handler) : bool := negb (bool_decide (key x = key h)).

(** The array of handlers of a type, empty when there is none. *)
Definition slots (type : string) (b : EventBus) : list (option Handler) :=
  default [] (handlers b !! type).

(** The test [x] passes when no handler of [removed] has its key. *)
Definition keptAfter (removed : list Handler) (x : Handler) : bool :=
  forallb (fun r => otherKey r x) removed.


(** The payload object that the listeners of an event receive. *)
Definition delivered (type : string) (payload : Payload) (filters : Filters) : Payload :=
  mkPayload (Some type)
    (if truthyZ (filterStreamId filters) then filterStreamId filters
     else payloadStreamId payload)
    (if truthyS (filterMediaType filters) then filterMediaType filters
     else payloadMediaType payload).

Definition noPayload : Payload := mkPayload None None None.
Definition noFilters : Filters := mkFilters None None None.

(** The registrations the playback controller and two other listeners make
    for one event. *)
Definition requests3 : list request :=
  [ On "videoBitrateChanged" 1 10 None;
    On "videoBitrateChanged" 2 20 (Some 5000);
    Once "videoBitrateChanged" 3 30 None ].

Definition bus3 : EventBus := serveAll requests3 empty.

(** A listener registered once without a scope, and then registered again,
    permanently, with a scope and a high priority. *)
Definition bus_unscoped : EventBus :=
  snd (on "videoBitrateChanged" 1 (Some 10%nat) (Some 5000%Z)
         (snd (once "videoBitrateChanged" 1 None None empty))).

(** Whether a request empties the bus. *)
Definition isReset (r : request) : bool :=
  match r with
  | Reset => true
  | _ => false
  end.

End Bus.

(** ** BlacklistController.ts: sequences of calls *)

Module BlacklistTrace.
Import Blacklist.
Local Open Scope js_scope.

(** A call of one of the methods that change the controller. *)
Inductive call : Type :=
| AddUrl (url : string)
| AddSegNum (segNum : Z)
| RemoveUrl (url : string)
| RemoveSegmentNumber (segNum : Z)
| ResetCall.

Definition perform (assertions : bool) (c : call) : M BlacklistController unit :=
  match c with
  | AddUrl url => addToUrlBlacklist assertions url
  | AddSegNum segNum => addSegNumToBlacklist assertions segNum
  | RemoveUrl url => removeUrl assertions url
  | RemoveSegmentNumber segNum => removeSegmentNumber assertions segNum
  | ResetCall => reset
  end.

(** The controller after the calls, made one after the other; a call that
    throws leaves the controller to the next one as it is. *)
Fixpoint performAll (assertions : bool) (cs : list call) (b : BlacklistController)
  : BlacklistController :=
  match cs with
  | [] => b
  | c :: cs' => performAll assertions cs' (snd (perform assertions c b))
  end.

(** [new BlacklistController()]. *)
Definition fresh : BlacklistController := mkBlacklist [] [].

(** Whether the assertion of a method lets the argument through. *)
Definition numPasses (assertions : bool) (segNum : Z) : bool :=
  negb assertions || (0 <=? segNum).
Definition urlPasses (assertions : bool) (url : string) : bool :=
  negb assertions || (0 <? Z.of_nat (String.length url)).

(** Whether the segment number is expected on the blacklist after the calls,
    given whether it was on it before: the last call that adds or removes it
    decides. *)
Fixpoint numListed (assertions : bool) (cs : list call) (n : Z) (before : bool) : bool :=
  match cs with
  | [] => before
  | c :: cs' =>
      numListed assertions cs' n
        match c with
        | AddSegNum m => if (m =? n) && numPasses assertions m then true else before
        | RemoveSegmentNumber m =>
            if (m =? n) && numPasses assertions m then false else before
        | _ => before
        end
  end.

(** The same for a URL; [reset] takes every URL off the list. *)
Fixpoint urlListed (assertions : bool) (cs : list call) (u : string) (before : bool)
  : bool :=
  match cs with
  | [] => before
  | c :: cs' =>
      urlListed assertions cs' u
        match c with
        | AddUrl v => if String.eqb v u && urlPasses assertions v then true else before
        | RemoveUrl v => if String.eqb v u && urlPasses assertions v then false else before
        | ResetCall => false
        | _ => before
        end
  end.

(** No entry twice. *)
Definition distinct (b : BlacklistController) : Prop :=
  List.NoDup (blacklistedUrls b) /\ List.NoDup (blacklistedSegmentNumbers b).

Definition calls1 : list call :=
  [ AddSegNum 7; AddUrl "/media/video/1/seg-7.m4s"; AddSegNum 12; AddSegNum 7;
    RemoveSegmentNumber 7; ResetCall; AddUrl "/media/video/2/seg-3.m4s" ].

End BlacklistTrace.

(** ** BandwidthEstimator.ts: the estimate *)

Module Estimate.
Import Js Bandwidth.
Local Open Scope js_scope.
Local Open Scope Q_scope.

(** Truthiness of a number: 0 and NaN are falsy. *)
Definition truthy (x : num) : bool :=
  match x with
  | Fin q => negb (Qeq_bool q 0)
  | NaN => false
  | _ => true
  end.

(** [Math.min] and [Math.max] of two numbers; NaN if one of them is. *)
Definition Math_min (x y : num) : num :=
  match x, y with
  | NaN, _ | _, NaN => NaN
  | _, _ => if lt y x then y else x
  end.

Definition Math_max (x y : num) : num :=
  match x, y with
  | NaN, _ | _, NaN => NaN
  | _, _ => if lt x y then y else x
  end.

(** [this.#navConnection && this.#navConnection.downlink]. *)
Definition hasDownlink (b : BandwidthEstimator) : bool :=
  match navDownlink b with
  | Some d => truthy d
  | None => false
  end.

(** [#getDefaultBandwidth]. *)
Definition getDefaultBandwidth (b : BandwidthEstimator) : num :=
  match navDownlink b with
  | Some d => if truthy d then mul d (Fin 1000000) else Fin 3000000
  | None => Fin 3000000
  end.

Section WithMath.
Variable math : MathLib.

(** [#getNetworkApiWeight]. *)
Definition getNetworkApiWeight (b : BandwidthEstimator) : num :=
  if (sampleCount b =? 0)%Z || lt (bytesSampled b) (Fin MIN_BYTES) then Fin 1
  else Math_max (Fin (1 # 10))
                (Math_exp math (div (neg (Fin (inject_Z (sampleCount b)))) (Fin 5))).

(** [getBandwidthEstimate]. *)
Definition getBandwidthEstimate (b : BandwidthEstimator) : num :=
  let defaultEstimate := getDefaultBandwidth b in
  if lt (bytesSampled b) (Fin MIN_TOTAL_BYTES) then defaultEstimate
  else
    let measuredEstimate :=
      Math_min (Emwa_getEstimate math (fast b)) (Emwa_getEstimate math (slow b)) in
    if hasDownlink b && useNetworkInformation b then
      let networkWeight := getNetworkApiWeight b in
      add (mul networkWeight defaultEstimate)
          (mul (sub (Fin 1) networkWeight) measuredEstimate)
    else measuredEstimate.

(** The estimator after the samples (duration in ms, bytes), taken one
    after the other. *)
Fixpoint sampleAll (assertions : bool) (samples : list (Q * Q)) (b : BandwidthEstimator)
  : BandwidthEstimator :=
  match samples with
  | [] => b
  | (durationMs, numBytes) :: samples' =>
      sampleAll assertions samples'
        (snd (sample math assertions (Fin durationMs) (Fin numBytes) b))
  end.

End WithMath.

(** The bytes of the samples that are not discarded as too small, added to
    [before] in the order of the samples. *)
Fixpoint countedBytes (samples : list (Q * Q)) (before : Q) : Q :=
  match samples with
  | [] => before
  | (_, numBytes) :: samples' =>
      countedBytes samples'
        (if Qlt_bool numBytes MIN_BYTES then before else before + numBytes)
  end.

(** An average that has taken no sample. *)
Definition unsampled (e : Emwa) : Prop :=
  estimate e = Fin 0 /\ totalWeight e = Fin 0.

(** The doubles of [ieee], with [Math.exp(-1 / 5)]. *)
Definition ieee_weight : MathLib := {|
  Math_exp := lookup1 [ (ln_half / 2, alpha_2s); (ln_half / 5, alpha_5s);
                        (- (1 # 5), 8187307530779818 # 10000000000000000) ];
  Math_log := Math_log ieee;
  Math_pow := Math_pow ieee
|}.

(** Five small downloads and one of 100 kB. *)
Definition small_samples : list (Q * Q) :=
  [ (40, 15000); (40, 15000); (40, 15000); (40, 15000); (40, 15000); (200, 100000) ].

(** [estimator1] in a browser that reports a downlink of 10 Mbit/s. *)
Definition estimator_net : BandwidthEstimator :=
  mkEstimator (fast estimator1) (slow estimator1) (Some (Fin 10)) true
              (bytesSampled estimator1) (sampleCount estimator1).

End Estimate.

(** ** BufferAbr.ts on doubles

    The numbers of the BOLA state with the non-finite values kept: the
    arithmetic of [#initBolaState], of [#getMinBufferLevelForRepresentation],
    of the loop of [#getRepresentationFromBufferLevel] and of the placeholder
    of [#chooseThroughputBasedRepresentation], on [Js.num].  The module
    [Bola] computes the same numbers in [Q]; the two agree on the finite
    ladders. *)

Module BolaNum.
Import Js Types.
Local Open Scope Q_scope.

Section WithLog.
(** [Math.log] on the positive numbers, as in [Bola]. *)
Variable Math_log : Q -> Q.
Variable minBufferLevel : Q.
Variable representations : list VideoRepresentation.

(** [Math.log]: -Infinity at 0 and NaN below. *)
Definition log (x : Q) : num :=
  if Qlt_bool 0 x then Fin (Math_log x)
  else if Qeq_bool x 0 then NInf else NaN.

(** An element of an array of numbers in arithmetic: [undefined] is NaN. *)
Definition at_ (l : list num) (i : nat) : num := nth i l NaN.

Definition bitrateAt (i : nat) : num :=
  match nth_error representations i with
  | Some r => Fin (bitrate r)
  | None => NaN
  end.

(** [utilities], normalised so that the lowest is 1. *)
Definition utilities : list num :=
  let logs := map (fun r => log (bitrate r)) representations in
  map (fun u => add (sub u (at_ logs 0)) (Fin 1)) logs.

Definition bufferTime : Q :=
  Qmax 12 (minBufferLevel
           + Bola.MINIMUM_BUFFER_PER_BITRATE_LEVEL
             * inject_Z (Z.of_nat (length representations))).

Definition gp : num :=
  div (sub (at_ utilities (length utilities - 1)) (Fin 1))
      (sub (div (Fin bufferTime) (Fin minBufferLevel)) (Fin 1)).

Definition vp : num := div (Fin minBufferLevel) gp.

(** The score of the loop of [#getRepresentationFromBufferLevel]. *)
Definition score (i : nat) (level : Q) : num :=
  div (sub (mul vp (sub (add (at_ utilities i) gp) (Fin 1))) (Fin level))
      (bitrateAt i).

(** [x >= y]; false when one of them is NaN. *)
Definition ge (x y : num) : bool :=
  match x, y with
  | NaN, _ | _, NaN => false
  | _, _ => negb (lt x y)
  end.

(** One iteration of the loop; the accumulator is [(bestScore, quality)]. *)
Definition scoreStep (currentRepIndex : option nat) (level : Q)
    (acc : num * nat) (i : nat) : num * nat :=
  let sc := score i level in
  let adjustedScore :=
    match currentRepIndex with
    | Some c =>
        mul sc (Fin (if (c <? i)%nat then Bola.SAFETY_FACTOR_INCREASE
                     else Bola.SAFETY_FACTOR_DECREASE))
    | None => sc
    end in
  if ge adjustedScore (fst acc) then (adjustedScore, i) else acc.

(** The index the loop leaves in [quality]; [bestScore] starts at
    [Number.NEGATIVE_INFINITY]. *)
Definition bestQuality (currentRepIndex : option nat) (level : Q) : nat :=
  snd (fold_left (scoreStep currentRepIndex level)
                 (seq 0 (length representations)) (NInf, O)).

(** [#getMinBufferLevelForRepresentation] for the representation found at
    [repIndex]. *)
Definition minBufferLevelForIndex (repIndex : nat) : num :=
  match repIndex with
  | O => Fin 0
  | S _ =>
      let util_i := at_ utilities repIndex in
      let util_prev := at_ utilities (pred repIndex) in
      let bitrate_i := bitrateAt repIndex in
      let bitrate_prev := bitrateAt (pred repIndex) in
      let numerator :=
        mul vp (add (sub (mul util_i bitrate_prev) (mul util_prev bitrate_i))
                    (mul gp (sub bitrate_prev bitrate_i))) in
      let denominator := sub bitrate_prev bitrate_i in
      Estimate.Math_max (Fin 0) (div numerator denominator)
  end.

(** The placeholder [#chooseThroughputBasedRepresentation] stores when it
    has selected the representation at [repIndex]. *)
Definition startupPlaceholder (repIndex : nat) (bufferLevel : Q) : num :=
  Estimate.Math_max (Fin 0)
    (sub (minBufferLevelForIndex repIndex) (Fin bufferLevel)).

End WithLog.

(** A [Bola] state that holds the numbers [#initBolaState] computes for a
    ladder. *)
Definition initialised (Math_log : Q -> Q) (minBufferLevel : Q)
    (reps : list VideoRepresentation) (s : Bola.BolaState) : Prop :=
  let logs := map (fun r => Math_log (bitrate r)) reps in
  let utilities := map (fun u => u - nth 0 logs 0 + 1) logs in
  let gp0 := (nth (length utilities - 1) utilities 0 - 1)
             / (bufferTime minBufferLevel reps / minBufferLevel - 1) in
  Bola.representations s = reps
  /\ Bola.utilities s = utilities
  /\ Bola.gp s = gp0
  /\ Bola.vp s = minBufferLevel / gp0.

(** The numbers of a state that the arithmetic reads. *)
Definition numbers (s : Bola.BolaState)
  : list VideoRepresentation * list Q * Q * Q :=
  (Bola.representations s, Bola.utilities s, Bola.gp s, Bola.vp s).

(** Two controllers with the same [minBufferLevel] and the same numbers. *)
Definition sameNumbers (a a' : Bola.BufferAbr) : Prop :=
  Bola.minBufferLevel a' = Bola.minBufferLevel a
  /\ match Bola.bolaState a, Bola.bolaState a' with
     | Some s, Some s' => numbers s' = numbers s
     | None, None => True
     | _, _ => False
     end.

(** A controller whose state, if it has one, holds the numbers of a finite
    ladder, computed with a [minBufferLevel] other than zero. *)
Definition finiteState (Math_log : Q -> Q) (a : Bola.BufferAbr) : Prop :=
  match Bola.bolaState a with
  | None => True
  | Some s =>
      Bola.finiteLadder Math_log (Bola.representations s) = true
      /\ ~ Bola.minBufferLevel a == 0
      /\ initialised Math_log (Bola.minBufferLevel a) (Bola.representations s) s
  end.

(** A finite double and the rational the module [Bola] has for it. *)
Definition agrees (x : num) (q : Q) : Prop :=
  match x with
  | Fin a => a == q
  | _ => False
  end.

(** The accumulator of the loop on doubles and the one on rationals. *)
Definition sameAcc (x : num * nat) (y : option Q * nat) : Prop :=
  snd x = snd y
  /\ match fst y with
     | None => fst x = NInf
     | Some q => fst x = Fin q
     end.

End BolaNum.

(** ** The strategies' choices *)

Module Selection.
Import Types Abr.
Local Open Scope Q_scope.

(** Whether the bandwidth estimate covers the representation at the playback
    rate, with the 5 percent margin of [BandwidthAbr.chooseRepresentation]. *)
Definition fits (env : Reads) (rep : VideoRepresentation) : bool :=
  match throughput env with
  | None => false
  | Some currBandwidth =>
      Qle_bool (playbackRate env * bitrate rep * (105 # 100)) currBandwidth
  end.

(** The last representation of the list, in list order, that fits. *)
Definition lastFitting (env : Reads) (reps : list VideoRepresentation)
  : option VideoRepresentation :=
  List.find (fits env) (rev reps).

(** The event, if any, the check has added to the emitted ones. *)
Definition announced (before after : Selector) (e : Event) : Prop :=
  emitted after = emitted before ++ [e].

(** Two downgrades on record for stream 0. *)
Definition exhausted : DroppedFramesAbr :=
  mkDroppedFramesAbr {[ 0%Z := mkDowngrade 2 50000 ]} Bola.ladder4.

(** [selector1] once the smoothing delay has passed. *)
Definition selector_smooth : Selector :=
  mkSelector
    (mkAbrController DEFAULT_CONFIG true Bandwidth 100000
                     Bola.ladder4 Bola.ladder4 [])
    (droppedFramesAbr selector1) (bufferAbr selector1) (bandwidthAbr selector1) [].

(** An estimate of 2.5 Mbit/s. *)
Definition reads_slow : Reads :=
  mkReads 106000 5 (Some 2500000) 1 (Some rep_3000k) history1.

End Selection.

(** ** StallDetector.ts: the events of the video element and the notifications *)

Module StallEvents.
Import Types Stall.
Local Open Scope Z_scope.

Definition set_hasPlaybackStarted (started : bool) (d : StallDetector) : StallDetector :=
  mkStallDetector (lastPlaybackTime d) (lastCheckTime d) (consecutiveStallChecks d)
    (isStalled d) (lastReadyState d) (currentContext d) (contextStartTime d)
    started (stallHistory d) (historySize d)
    (isPositionBuffered d) (isDownloadingForPosition d).

(** [#onWaiting]. *)
Definition onWaiting (x : Sample) (d : StallDetector) : StallDetector :=
  updateContext x BUFFERING d.

(** [#onStalled] only logs. *)
Definition onStalled (x : Sample) (d : StallDetector) : StallDetector := d.

(** [#onPlaying]. *)
Definition onPlaying (x : Sample) (d : StallDetector) : StallDetector :=
  let d1 := if isStalled d then reset x d else d in
  let d2 := if negb (hasPlaybackStarted d1) then set_hasPlaybackStarted true d1 else d1 in
  updateContext x NORMAL_PLAYBACK d2.

(** [#onPlay]. *)
Definition onPlay (x : Sample) (d : StallDetector) : StallDetector :=
  if negb (hasPlaybackStarted d) then updateContext x STARTUP d else d.

(** [#onCanPlay]. *)
Definition onCanPlay (x : Sample) (d : StallDetector) : StallDetector :=
  match currentContext d with
  | BUFFERING => updateContext x NORMAL_PLAYBACK d
  | _ => d
  end.

(** [#onLoadStart]. *)
Definition onLoadStart (x : Sample) (d : StallDetector) : StallDetector :=
  set_hasPlaybackStarted false (updateContext x STARTUP d).

(** [#onSeeking]. *)
Definition onSeeking (x : Sample) (d : StallDetector) : StallDetector :=
  updateContext x SEEKING d.

(** [#onSeeked]. *)
Definition onSeeked (x : Sample) (d : StallDetector) : StallDetector :=
  match currentContext d with
  | SEEKING =>
      mkStallDetector (lastPlaybackTime d) (lastCheckTime d) 0 (isStalled d)
        (lastReadyState d) (currentContext d) (contextStartTime d)
        (hasPlaybackStarted d) [] (historySize d)
        (isPositionBuffered d) (isDownloadingForPosition d)
  | _ => d
  end.

(** [notifySeek], [notifyQualitySwitch] and [notifyPlaybackStart]. *)
Definition notifySeek (x : Sample) (d : StallDetector) : StallDetector :=
  reset x (updateContext x SEEKING d).

Definition notifyQualitySwitch (x : Sample) (d : StallDetector) : StallDetector :=
  reset x (updateContext x QUALITY_SWITCHING d).

Definition notifyPlaybackStart (x : Sample) (d : StallDetector) : StallDetector :=
  set_hasPlaybackStarted false (updateContext x STARTUP d).

(** What can happen to a detector: an event of the video element, a
    notification, or a check. *)
Inductive action : Type :=
| Waiting | Stalled | Playing | Play | CanPlay | LoadStart | Seeking | Seeked
| NotifySeek | NotifyQualitySwitch | NotifyPlaybackStart | ResetDetector
| DetectStall.

(** The detector after the action; [x] is what the video element, the
    pipeline and the clock show when it happens. *)
Definition step (a : action) (x : Sample) (d : StallDetector) : StallDetector :=
  match a with
  | Waiting => onWaiting x d
  | Stalled => onStalled x d
  | Playing => onPlaying x d
  | Play => onPlay x d
  | CanPlay => onCanPlay x d
  | LoadStart => onLoadStart x d
  | Seeking => onSeeking x d
  | Seeked => onSeeked x d
  | NotifySeek => notifySeek x d
  | NotifyQualitySwitch => notifyQualitySwitch x d
  | NotifyPlaybackStart => notifyPlaybackStart x d
  | ResetDetector => reset x d
  | DetectStall => snd (detectStall x d)
  end.

Fixpoint stepAll (trace : list (action * Sample)) (d : StallDetector) : StallDetector :=
  match trace with
  | [] => d
  | (a, x) :: rest => stepAll rest (step a x d)
  end.

(** The counter of stalled checks vouches for the time that has passed
    since the context was entered. *)
Definition paced (d : StallDetector) : Prop :=
  isStalled d = false ->
  consecutiveStallChecks d = 0
  \/ (1 <= consecutiveStallChecks d
      /\ contextStartTime d + GRACE_PERIODS (currentContext d)
         + CHECK_INTERVAL_MS * (consecutiveStallChecks d - 1)
         <= lastCheckTime d).

(** A video element stuck at 5 s with data to play, at the given time. *)
Definition stuck_at (nowMs : Z) : Sample :=
  mkSample (mkVideo 5 false false false HAVE_ENOUGH_DATA NETWORK_IDLE)
           (mkView None [] [] None) nowMs.

End StallEvents.

(** ** BufferController.ts: the buffer level and the next download *)

Module Buffering.
Import Pipeline.
Local Open Scope Q_scope.

Definition SMALL_GAP_LIMIT : Q := 15 # 10.
Definition JUMP_LARGER_GAPS : bool := true.
(** The field is initialised from the [#config] literal. *)
Definition MAX_REASONABLE_GAP : Q := bufferingTarget DEFAULT_CONFIG.

(** The first loop of [#calculateEffectiveBufferLevel]: the ranges that end
    after the current time, cut at the current time. *)
Definition futureRanges (ranges : list (Q * Q)) (currentTime : Q) : list (Q * Q) :=
  map (fun r => (Qmax (fst r) currentTime, snd r))
      (List.filter (fun r => Js.Qlt_bool currentTime (snd r)) ranges).

(** The second loop, with its [break]s; the result is
    [(effectiveLevel, lastIncludedEnd)]. *)
Fixpoint accumulate (c : BufferController) (ranges : list (Q * Q))
    (effectiveLevel lastIncludedEnd : Q) : Q * Q :=
  match ranges with
  | [] => (effectiveLevel, lastIncludedEnd)
  | range :: rest =>
      let gap := fst range - lastIncludedEnd in
      if Js.Qlt_bool 0 gap then
        if Qle_bool gap SMALL_GAP_LIMIT
           || (JUMP_LARGER_GAPS && Qle_bool gap MAX_REASONABLE_GAP)
        then
          let gapStartsNearCurrentPosition :=
            Js.Qlt_bool gap (bufferBehind (config c) * 2) in
          if gapStartsNearCurrentPosition || Qle_bool gap SMALL_GAP_LIMIT
          then accumulate c rest (effectiveLevel + gap + (snd range - fst range))
                          (snd range)
          else (effectiveLevel, lastIncludedEnd)
        else (effectiveLevel, lastIncludedEnd)
      else accumulate c rest (effectiveLevel + (snd range - fst range)) (snd range)
  end.

(** [#calculateEffectiveBufferLevel]; [currentTime] is
    [playbackController.getTime()]. *)
Definition calculateEffectiveBufferLevel (c : BufferController) (currentTime : Q) : Q :=
  match sourceBuffer c with
  | None => 0
  | Some sb =>
      match buffered sb with
      | [] => 0
      | ranges =>
          match futureRanges ranges currentTime with
          | [] => 0
          | future =>
              let effectiveLevel := fst (accumulate c future 0 currentTime) in
              Qmax 0 (Qmin effectiveLevel (bufferingTarget (config c) * (15 # 10)))
          end
      end
  end.

(** The segments in flight of [#getNextSegmentToDownload]: downloading or
    queued for the append. *)
Definition segmentsInFlight (c : BufferController) : gset Z :=
  dom (downloadPipeline c)
  ∪ list_to_set (map queuedSegmentNumber (appendQueue c)).

(** The [while] loop of [#getNextSegmentToDownload]; [None] when the fuel
    runs out. *)
Fixpoint firstFree (inFlight : gset Z) (fuel : nat) (nextSegment : Z) : option Z :=
  match fuel with
  | O => None
  | S fuel' =>
      if bool_decide (nextSegment ∈ inFlight)
      then firstFree inFlight fuel' (nextSegment + 1)%Z
      else Some nextSegment
  end.

(** [#getNextSegmentToDownload]; the inner [None] is [null]. *)
Definition getNextSegmentToDownload (fuel : nat) (c : BufferController)
  : option (option Z) :=
  match nextSegmentToDownload c with
  | None => Some None
  | Some nextSegment =>
      match firstFree (segmentsInFlight c) fuel nextSegment with
      | Some n => Some (Some n)
      | None => None
      end
  end.

(** Time ranges as a [SourceBuffer] reports them: in ascending order and
    without overlap. *)
Fixpoint ordered (previousEnd : Q) (ranges : list (Q * Q)) : Prop :=
  match ranges with
  | [] => True
  | r :: rest => previousEnd <= fst r /\ fst r <= snd r /\ ordered (snd r) rest
  end.

Definition normalized (ranges : list (Q * Q)) : Prop :=
  match ranges with
  | [] => True
  | r :: rest => fst r <= snd r /\ ordered (snd r) rest
  end.

(** Three buffered ranges: a gap of 1 s and a gap of 80 s. *)
Definition controller_gaps : BufferController :=
  mkBufferController DEFAULT_CONFIG (mkBufferState 0 None false 0)
    ∅ [] 0 None None [] false ∅ [] 0
    (Some (mkSourceBuffer false [ (0, 10); (11, 20); (100, 120) ]))
    false false [] [] [].

(** Segments 7 and 8 are downloading, 9 waits for its append. *)
Definition controller_inflight : BufferController :=
  mkBufferController DEFAULT_CONFIG (mkBufferState 0 None false 0)
    {[ 7%Z := mkTask 7 "v1000k" false None; 8%Z := mkTask 8 "v1000k" false None ]}
    [ mkQueued 9 500000 4 "v1000k" 1000000 ] 4 (Some 7%Z) (Some 7%Z)
    [] false ∅ [] 0 None false false [] [] [].

End Buffering.

(** ** GapController.ts: the jump over a gap *)

Module Gap.
Local Open Scope Q_scope.

Definition SMALL_GAP_LIMIT : Q := 15 # 10.
Definition STALL_SEEK_OFFSET : Q := 1 # 10.
Definition STALL_FIX_ENABLED : bool := true.
Definition JUMP_LARGER_GAPS : bool := true.
Definition GAP_JUMP_TOLERANCE : Q := 3 # 10.

(** A seek handed to [setTimeout]: the position of the SEEK_REQUESTED event
    and the delay in milliseconds. *)
Record Jump : Type := mkJump {
  seekTo : Q;
  delay : Q
}.

Record GapController : Type := mkGapController {
  jumpTimeoutHandler : option Jump;
  lastGapJumpPosition : option Q;            (* None is NaN *)
  threshold : Q;
  stallDetector : option Stall.StallDetector;
  consecutiveStallDetections : Z;
  endOfStreamTriggers : nat                  (* bufferController.triggerEndOfStream() *)
}.

(** What one call reads: the buffered ranges, the duration and the time of
    the video element, and what a reset of the stall detector samples. *)
Record Reads : Type := mkReads {
  bufferRanges : option (list (Q * Q));      (* bufferController.getBufferRanges() *)
  videoDuration : Js.num;
  videoTime : Q;
  sample : Stall.Sample
}.

(** [new GapController()]. *)
Definition GapController_new : GapController :=
  mkGapController None None GAP_JUMP_TOLERANCE None 0 0.

(** The loop of [#getNextRangeIndex]. *)
Fixpoint scanRanges (threshold currentTime previousRangeEnd : Q)
    (ranges : list (Q * Q)) (i : nat) : option nat :=
  match ranges with
  | [] => None
  | r :: rest =>
      if Js.Qlt_bool currentTime (fst r)
         && Js.Qlt_bool (previousRangeEnd - currentTime) threshold
      then Some i
      else scanRanges threshold currentTime (snd r) rest (S i)
  end.

(** [#getNextRangeIndex]. *)
Definition getNextRangeIndex (g : GapController) (ranges : list (Q * Q))
    (currentTime : Q) : option nat :=
  if (length ranges <=? 1)%nat then None
  else scanRanges (threshold g) currentTime 0 ranges 0.

(** [#isPositionBuffered] on the ranges. *)
Definition isPositionBuffered (ranges : list (Q * Q)) (time : Q) : bool :=
  existsb (fun r => Qle_bool (fst r) time && Qle_bool time (snd r)) ranges.

(** The loop of [#jumpGap] that handles a confirmed stall; [all] are the
    ranges [#isPositionBuffered] reads. *)
Fixpoint stallTarget (g : GapController) (all ranges : list (Q * Q))
    (currentTime : Q) : option Q :=
  match ranges with
  | [] => None
  | r :: rest =>
      let start := fst r in
      let end_ := snd r in
      if Js.Qlt_bool currentTime start
         && Qle_bool (start - currentTime) (threshold g * 2)
      then Some start
      else
        if Qle_bool start currentTime && Js.Qlt_bool currentTime end_
           && STALL_FIX_ENABLED
        then
          if isPositionBuffered all currentTime then
            let jumpTarget := Qmin (currentTime + STALL_SEEK_OFFSET) (end_ - (1 # 10)) in
            if Js.Qlt_bool currentTime jumpTarget then Some jumpTarget
            else stallTarget g all rest currentTime
          else stallTarget g all rest currentTime
        else stallTarget g all rest currentTime
  end.

(** The position [#jumpGap] wants to seek to ([None] is NaN), and whether it
    has triggered the end of the stream on the way. *)
Definition seekTarget (x : Reads) (g : GapController) (ranges : list (Q * Q))
    (currentTime : Q) (playbackStalled : bool) : option Q * bool :=
  let gapTarget :=
    match getNextRangeIndex g ranges currentTime with
    | Some nextRangeIndex =>
        match nth_error ranges nextRangeIndex with
        | Some r =>
            let start := fst r in
            let gap := start - currentTime in
            if Js.Qlt_bool 0 gap && (Qle_bool gap SMALL_GAP_LIMIT || JUMP_LARGER_GAPS)
            then Some start else None
        | None => None
        end
    | None => None
    end in
  let stalledTarget :=
    match gapTarget with
    | Some _ => gapTarget
    | None =>
        if playbackStalled && (0 <? length ranges)%nat
        then stallTarget g ranges ranges currentTime
        else None
    end in
  match stalledTarget with
  | Some _ => (stalledTarget, false)
  | None =>
      if playbackStalled then
        match Js.sub (videoDuration x) (Js.Fin (videoTime x)), videoDuration x with
        | Js.Fin timeToStreamEnd, Js.Fin streamEndTime =>
            if Js.Qlt_bool timeToStreamEnd SMALL_GAP_LIMIT
            then (Some streamEndTime, true)
            else (None, false)
        | _, _ => (None, false)
        end
      else (None, false)
  end.

(** [#jumpGap]. *)
Definition jumpGap (x : Reads) (currentTime : Q) (playbackStalled : bool)
    (g : GapController) : GapController :=
  match bufferRanges x with
  | None => g
  | Some [] => g
  | Some ranges =>
      let '(target, endOfStream) := seekTarget x g ranges currentTime playbackStalled in
      let g1 :=
        mkGapController (jumpTimeoutHandler g) (lastGapJumpPosition g) (threshold g)
          (stallDetector g) (consecutiveStallDetections g)
          (if endOfStream then S (endOfStreamTriggers g) else endOfStreamTriggers g) in
      match target with
      | None => g1
      | Some seekToPosition =>
          if Js.Qlt_bool 0 seekToPosition
             && match lastGapJumpPosition g1 with
                | Some last => negb (Qeq_bool last seekToPosition)
                | None => true
                end
             && Js.Qlt_bool currentTime seekToPosition
             && match jumpTimeoutHandler g1 with
                | Some _ => false
                | None => true
                end
          then
            let jumpDistance := seekToPosition - currentTime in
            let delay := if playbackStalled then 0 else Qmin 100 (jumpDistance * 1000) in
            mkGapController (Some (mkJump seekToPosition delay)) (Some seekToPosition)
              (threshold g1)
              (option_map (Stall.reset (sample x)) (stallDetector g1))
              0 (endOfStreamTriggers g1)
          else g1
      end
  end.

(** The playhead at 9.9 s, 0.1 s before the end of the first of two ranges. *)
Definition reads_two_ranges : Reads :=
  mkReads (Some [ (0, 10); (12, 30) ]) (Js.Fin 600) (99 # 10) (StallEvents.stuck_at 50000).

End Gap.

(** ** DroppedFramesHistory.ts: sequences of pushes *)

Module Frames.
Import Abr.
Local Open Scope Z_scope.

(** [new DroppedFramesHistory()]. *)
Definition emptyHistory : DroppedFramesHistory := mkHistory ∅ ∅ ∅.

(** The history after the pushes (stream, representation, counters of the
    video element), made one after the other. *)
Fixpoint pushAll (assertions : bool)
    (trace : list (Z * string * IVideoPlayBackQuality)) (h : DroppedFramesHistory)
  : DroppedFramesHistory :=
  match trace with
  | [] => h
  | (streamId, representationId, q) :: rest =>
      pushAll assertions rest (snd (push assertions streamId representationId q h))
  end.

(** The counters the history remembers for a stream; 0 before the first
    push. *)
Definition lastTotal (h : DroppedFramesHistory) (streamId : Z) : Z :=
  default 0 (lastTotalFrames h !! streamId).
Definition lastDropped (h : DroppedFramesHistory) (streamId : Z) : Z :=
  default 0 (lastDroppedFrames h !! streamId).

(** The frames on record for a stream, over all its representations. *)
Definition recorded (f : IVideoPlayBackQuality -> Z) (h : DroppedFramesHistory)
    (streamId : Z) : Z :=
  fold_right Z.add 0
    (map (fun kv : (Z * string) * IVideoPlayBackQuality =>
            if fst (fst kv) =? streamId then f (snd kv) else 0)
         (map_to_list (values h))).

(** The counters of the video element never go back. *)
Fixpoint nondecreasing (assertions : bool)
    (trace : list (Z * string * IVideoPlayBackQuality)) (h : DroppedFramesHistory)
  : Prop :=
  match trace with
  | [] => True
  | (streamId, representationId, q) :: rest =>
      lastTotal h streamId <= totalVideoFrames q
      /\ lastDropped h streamId <= droppedVideoFrames q
      /\ nondecreasing assertions rest
           (snd (push assertions streamId representationId q h))
  end.

(** The history after a push that passes the assertions. *)
Definition pushed (streamId : Z) (representationId : string)
    (q : IVideoPlayBackQuality) (h : DroppedFramesHistory) : DroppedFramesHistory :=
  let intervalDroppedFrames :=
    Z.max 0 (Z.max 0 (droppedVideoFrames q) - lastDropped h streamId) in
  let intervalTotalFrames :=
    Z.max 0 (Z.max 0 (totalVideoFrames q) - lastTotal h streamId) in
  let key := (streamId, representationId) in
  mkHistory
    (<[key := match values h !! key with
              | Some old => mkQuality (droppedVideoFrames old + intervalDroppedFrames)
                                      (totalVideoFrames old + intervalTotalFrames)
              | None => mkQuality intervalDroppedFrames intervalTotalFrames
              end]> (values h))
    (<[streamId := Z.max 0 (droppedVideoFrames q)]> (lastDroppedFrames h))
    (<[streamId := Z.max 0 (totalVideoFrames q)]> (lastTotalFrames h)).

(** Playback on two representations of stream 0, and one report of
    stream 1. *)
Definition pushes1 : list (Z * string * IVideoPlayBackQuality) :=
  [ (0, "v1000k"%string, mkQuality 2 100);
    (0, "v3000k"%string, mkQuality 10 250);
    (1, "a128k"%string, mkQuality 0 40);
    (0, "v1000k"%string, mkQuality 11 400) ].

End Frames.

(* ================================================================== *)
(** * Properties *)
(* ================================================================== *)

Module AssertFacts.

Lemma assert_true {S} en (s : S) : Assert_assert en true s = (Ret tt, s).
Proof. unfold Assert_assert. rewrite andb_false_r. reflexivity. Qed.

Lemma assert_off {S} c (s : S) : Assert_assert false c s = (Ret tt, s).
Proof. reflexivity. Qed.

Lemma assert_fails {S} (s : S) : Assert_assert true false s = (Throw AssertionError, s).
Proof. reflexivity. Qed.

End AssertFacts.

Module BandwidthFacts.
Import Js Bandwidth AssertFacts.

Example estimator0_is_new :
  BandwidthEstimator_new ieee true true None = Ret estimator0.
Proof. vm_compute. reflexivity. Qed.

(** C7 (as amended).  [sample] leaves the estimator exactly as it was in two
    cases: with assertions enabled and an argument that is not a positive
    finite number, where it throws an AssertionError instead of failing
    silently; and whenever [numBytes < MIN_BYTES], with [MIN_BYTES] = 16000,
    where it returns (unless the enabled assertions reject the arguments
    first).  Sample count, accumulated bytes and both averages are unchanged. *)
Theorem sample_rejected_or_discarded
    (math : MathLib) (en : bool) (b : BandwidthEstimator) (durationMs numBytes : num) :
  (en = true /\ valid_sample durationMs numBytes = false)
  \/ lt numBytes (Fin MIN_BYTES) = true ->
  sample math en durationMs numBytes b =
  ((if en && negb (valid_sample durationMs numBytes)
    then Throw AssertionError else Ret tt), b).
Proof.
  intros H. unfold sample, valid_sample in *. unfold bind at 1.
  destruct en.
  - destruct (gt durationMs (Fin 0) && isFinite durationMs) eqn:Hd.
    + rewrite assert_true. unfold bind at 1.
      destruct (gt numBytes (Fin 0) && isFinite numBytes) eqn:Hn.
      * rewrite assert_true.
        destruct H as [[_ H] | H]; [discriminate |].
        rewrite H. reflexivity.
      * rewrite assert_fails. reflexivity.
    + rewrite assert_fails. reflexivity.
  - rewrite assert_off. unfold bind at 1. rewrite assert_off.
    destruct H as [[H _] | H]; [discriminate |].
    rewrite H. reflexivity.
Qed.

Lemma sample_rejected_or_discarded_witness :
  sample ieee true (Fin 0) (Fin 20000) estimator0
  = (Throw AssertionError, estimator0).
Proof.
  exact (sample_rejected_or_discarded ieee true estimator0 (Fin 0) (Fin 20000)
           (or_introl (conj eq_refl eq_refl))).
Defined.

(** C7 as stated fails.  With assertions enabled (the default of
    [AssertConfig]) a zero duration raises an AssertionError; with assertions
    disabled (as script.ts sets them) the same call is counted as a sample;
    and a valid sample of 16200 bytes, which is below 16 KiB = 16384 bytes,
    is accepted because [MIN_BYTES] is 16000. *)
Lemma sample_not_silent :
  fst (sample ieee true (Fin 0) (Fin 20000) estimator0) = Throw AssertionError
  /\ sampleCount (snd (sample ieee false (Fin 0) (Fin 20000) estimator0)) = 1
  /\ bytesSampled (snd (sample ieee false (Fin 0) (Fin 20000) estimator0))
     = Fin (0 + 20000)
  /\ Qlt_bool 16200 (16 * 1024) = true
  /\ valid_sample (Fin 100) (Fin 16200) = true
  /\ sampleCount (snd (sample ieee true (Fin 100) (Fin 16200) estimator0)) = 1.
Proof. vm_compute. repeat split. Qed.

(** C8 (as amended).  [reset] zeroes the sample count and the accumulated
    bytes and changes nothing else: both averages keep their alpha, their
    estimate and their accumulated weight. *)
Theorem reset_keeps_averages (b : BandwidthEstimator) :
  reset b =
  (Ret tt,
   mkEstimator (fast b) (slow b) (navDownlink b) (useNetworkInformation b)
               (Fin 0) 0).
Proof. reflexivity. Qed.

(** C8 as stated fails: after one accepted sample both averages hold a
    positive estimate and weight, and [reset] leaves them in place. *)
Lemma reset_does_not_zero_averages :
  fast (snd (reset estimator1)) = fast estimator1
  /\ slow (snd (reset estimator1)) = slow estimator1
  /\ lt (Fin 0) (estimate (fast estimator1)) = true
  /\ lt (Fin 0) (totalWeight (fast estimator1)) = true
  /\ lt (Fin 0) (estimate (slow estimator1)) = true
  /\ lt (Fin 0) (totalWeight (slow estimator1)) = true.
Proof. vm_compute. repeat split. Qed.

End BandwidthFacts.

Module BlacklistFacts.
Import Blacklist.

Lemma includes_num_In l n : includes_num l n = true <-> In n l.
Proof.
  unfold includes_num. rewrite existsb_exists. split.
  - intros [x [Hx Heq]]. apply Z.eqb_eq in Heq. now subst.
  - intros Hin. exists n. split; [assumption | apply Z.eqb_refl].
Qed.

(** C10.  [reset] empties the URL blacklist and leaves the blacklist of
    segment numbers as it was.  For every controller, with or without
    blacklisted segment numbers: after [reset] no (non-empty) URL is
    blacklisted, every segment number that was blacklisted before still is,
    and [containsSegmentNumber] answers every number as it did before. *)
Theorem reset_keeps_segment_numbers
    (en : bool) (b : BlacklistController) (u : string) :
  (0 < String.length u)%nat ->
  let b' := snd (reset b) in
  fst (reset b) = Ret tt
  /\ (forall n, fst (containsSegmentNumber n b) = Ret true ->
                fst (containsSegmentNumber n b') = Ret true)
  /\ (forall n, fst (containsSegmentNumber n b')
                = fst (containsSegmentNumber n b))
  /\ fst (containsUrl en u b') = Ret false
  /\ blacklistedUrls b' = []
  /\ blacklistedSegmentNumbers b' = blacklistedSegmentNumbers b.
Proof.
  intros Hu. cbn. repeat split; try (intros; assumption).
  unfold containsUrl, bind.
  replace (0 <? Z.of_nat (String.length u)) with true
    by (symmetry; apply Z.ltb_lt; lia).
  rewrite AssertFacts.assert_true. reflexivity.
Qed.

Lemma reset_keeps_segment_numbers_witness :
  fst (containsUrl true "/media/video/1/seg-7.m4s" blacklist1) = Ret true
  /\ fst (containsUrl true "/media/video/1/seg-7.m4s" (snd (reset blacklist1)))
     = Ret false
  /\ fst (containsSegmentNumber 12 (snd (reset blacklist1))) = Ret true
  /\ fst (containsSegmentNumber 8 (snd (reset blacklist1))) = Ret false.
Proof.
  pose proof (reset_keeps_segment_numbers true blacklist1
                "/media/video/1/seg-7.m4s") as H.
  cbv zeta in H.
  destruct H as (_ & H1 & H2 & H3 & _); [cbn; lia |].
  split; [reflexivity |]. split; [exact H3 |].
  split; [apply H1; reflexivity | rewrite H2; reflexivity].
Defined.

End BlacklistFacts.

Module TypesFacts.
Import Types.
Local Open Scope Z_scope.

Lemma searchSegment_step (refs : list SegmentReference) (time : Q) (fuel : nat)
    (left right : Z) :
  searchSegment refs time (S fuel) left right
  = if left <=? right then
      match nth_error refs (Z.to_nat ((left + right) / 2)) with
      | None => None
      | Some ref =>
          if Qle_bool (startTime ref) time && Js.Qlt_bool time (endTime ref)
          then Some ref
          else if Js.Qlt_bool time (startTime ref)
               then searchSegment refs time fuel left ((left + right) / 2 - 1)
               else searchSegment refs time fuel ((left + right) / 2 + 1) right
      end
    else nth_error refs (Z.to_nat left).
Proof. reflexivity. Qed.

(** The binary search of [getSegmentAtTime] ends within its fuel: once the
    fuel exceeds the width of the window, more fuel changes nothing. *)
Lemma searchSegment_fuel (refs : list SegmentReference) (time : Q) (fuel : nat)
    (left right : Z) :
  left <= right + 1 ->
  right - left + 1 < Z.of_nat fuel ->
  searchSegment refs time (S fuel) left right
  = searchSegment refs time fuel left right.
Proof.
  revert left right.
  induction fuel as [| fuel IH]; intros left right Hwin Hfuel; [lia |].
  rewrite (searchSegment_step refs time (S fuel) left right),
          (searchSegment_step refs time fuel left right).
  destruct (left <=? right) eqn:E; [| reflexivity].
  apply Z.leb_le in E.
  assert (Hmid : left <= (left + right) / 2 <= right).
  { split; [apply Z.div_le_lower_bound | apply Z.div_le_upper_bound]; lia. }
  destruct (nth_error refs (Z.to_nat ((left + right) / 2))) as [ref |];
    [| reflexivity].
  destruct (Qle_bool (startTime ref) time && Js.Qlt_bool time (endTime ref));
    [reflexivity |].
  destruct (Js.Qlt_bool time (startTime ref)); apply IH; lia.
Qed.

Lemma getSegmentAtTime_fuel (refs : list SegmentReference) (time : Q) (extra : nat) :
  searchSegment refs time (extra + S (length refs)) 0 (Z.of_nat (length refs) - 1)
  = getSegmentAtTime refs time.
Proof.
  unfold getSegmentAtTime. induction extra as [| extra IH]; [reflexivity |].
  cbn [Nat.add]. rewrite searchSegment_fuel; [exact IH | lia | lia].
Qed.

End TypesFacts.

Module BolaFacts.
Import Types Bola.
Local Open Scope Q_scope.

Lemma Qlt_bool_iff (a b : Q) : Js.Qlt_bool a b = true <-> a < b.
Proof.
  unfold Js.Qlt_bool. rewrite negb_true_iff, <- not_true_iff_false, Qle_bool_iff.
  split; [apply Qnot_le_lt | apply Qlt_not_le].
Qed.

Lemma Qlt_bool_false (a b : Q) : Js.Qlt_bool a b = false <-> b <= a.
Proof.
  unfold Js.Qlt_bool. rewrite negb_false_iff. apply Qle_bool_iff.
Qed.

(** The difference of the scores of two neighbours is linear in the buffer
    level, and vanishes at [minBufferQuotient - vp]. *)
Lemma score_difference (s : BolaState) (i : nat) (x : Q) :
  ~ bitrateAt s i == 0 ->
  ~ bitrateAt s (pred i) == 0 ->
  ~ bitrateAt s (pred i) - bitrateAt s i == 0 ->
  score s i x - score s (pred i) x
  == (x - (minBufferQuotient s i - vp s))
     * ((bitrateAt s i - bitrateAt s (pred i))
        / (bitrateAt s i * bitrateAt s (pred i))).
Proof.
  intros Hi Hp Hd. unfold score, minBufferQuotient.
  field. repeat split; assumption.
Qed.

(** The buffer level at which representation [i] and the one below it score
    the same is unique, and it is [vp] below the quotient the code computes. *)
Lemma scores_cross_at (s : BolaState) (i : nat) (x : Q) :
  ~ bitrateAt s i == 0 ->
  ~ bitrateAt s (pred i) == 0 ->
  ~ bitrateAt s (pred i) - bitrateAt s i == 0 ->
  score s i x == score s (pred i) x <-> x == minBufferQuotient s i - vp s.
Proof.
  intros Hi Hp Hd.
  pose proof (score_difference s i x Hi Hp Hd) as E.
  set (k := (bitrateAt s i - bitrateAt s (pred i))
            / (bitrateAt s i * bitrateAt s (pred i))) in *.
  assert (Hk : ~ k == 0).
  { unfold k. intros H0.
    assert (Hz : bitrateAt s i - bitrateAt s (pred i) == 0).
    { rewrite <- (Qmult_div_r (bitrateAt s i - bitrateAt s (pred i))
                              (bitrateAt s i * bitrateAt s (pred i))).
      - rewrite H0. ring.
      - intros Hm. apply Qmult_integral in Hm. tauto. }
    apply Hd. lra. }
  split; intros H.
  - assert (Hz : (x - (minBufferQuotient s i - vp s)) * k == 0) by (rewrite <- E; lra).
    apply Qmult_integral in Hz. destruct Hz as [Hz | Hz]; [lra | contradiction].
  - assert (Hz : score s i x - score s (pred i) x == 0).
    { rewrite E. rewrite H. ring. }
    lra.
Qed.

(** C3, evaluated on the code.  For the four representations of the
    cold-start scenario and index 1, the level returned by
    [#getMinBufferLevelForRepresentation] is not the level at which the scores
    of representations 1 and 0 are equal: there representation 1 scores
    strictly higher.  The scores are equal [vp] seconds lower. *)
Theorem minBuffer_misses_crossing :
  representations state4 = ladder4
  /\ getMinBufferLevelForRepresentation state4 (video "v1000k" 1000000 480)
     = minBufferLevelForIndex state4 1
  /\ 0 < vp state4
  /\ 0 < minBufferLevelForIndex state4 1
  /\ score state4 0 (minBufferLevelForIndex state4 1)
     < score state4 1 (minBufferLevelForIndex state4 1)
  /\ score state4 1 (minBufferLevelForIndex state4 1 - vp state4)
     == score state4 0 (minBufferLevelForIndex state4 1 - vp state4)
  /\ getMinBufferLevelForRepresentation state4 (video "v400k" 400000 240) = 0.
Proof. vm_compute. repeat split. Qed.

(** *** The placeholder buffer *)

Lemma check_limit_le (a : BufferAbr) (s : BolaState) :
  placeholderBuffer (checkPlaceholderBufferLimit a s)
  <= maxBufferLevel a - bufferTarget a.
Proof.
  unfold checkPlaceholderBufferLimit.
  destruct (Js.Qlt_bool _ _) eqn:E; cbn.
  - apply Qle_refl.
  - now apply Qlt_bool_false in E.
Qed.

Lemma check_limit_nonneg (a : BufferAbr) (s : BolaState) :
  bufferTarget a <= maxBufferLevel a ->
  0 <= placeholderBuffer s ->
  0 <= placeholderBuffer (checkPlaceholderBufferLimit a s).
Proof.
  intros Hcap Hp. unfold checkPlaceholderBufferLimit.
  destruct (Js.Qlt_bool _ _); cbn; [lra | assumption].
Qed.

Lemma update_placeholder_bounds (env : Env) (a : BufferAbr) (s : BolaState) :
  bufferTarget a <= maxBufferLevel a ->
  0 <= placeholderBuffer s ->
  0 <= placeholderBuffer (updatePlaceholderBuffer env a s)
  /\ placeholderBuffer (updatePlaceholderBuffer env a s)
     <= maxBufferLevel a - bufferTarget a.
Proof.
  intros Hcap Hp. unfold updatePlaceholderBuffer. split.
  - apply check_limit_nonneg; [assumption |]. cbn.
    destruct (lastSegmentFinishTimeMs s) as [t |]; cbn.
    + pose proof (Q.le_max_l 0 (MS_TO_SEC * inject_Z (nowMs env - t))). lra.
    + destruct (lastCallTimeMs s) as [t |]; cbn; [| assumption].
      pose proof (Q.le_max_l 0 (MS_TO_SEC * inject_Z (nowMs env - t))). lra.
  - apply check_limit_le.
Qed.

Lemma absorb_overflow_bounds (d : Q) (s : BolaState) :
  0 <= placeholderBuffer s ->
  0 <= placeholderBuffer (absorbOverflow d s)
  /\ placeholderBuffer (absorbOverflow d s) <= placeholderBuffer s.
Proof.
  intros Hp. unfold absorbOverflow.
  destruct (Js.Qlt_bool 0 d) eqn:Ed; [| lra].
  apply Qlt_bool_iff in Ed.
  destruct (Qle_bool d (placeholderBuffer s)) eqn:El; cbn.
  - apply Qle_bool_iff in El. lra.
  - lra.
Qed.

(** What [chooseRepresentation] in STEADY_STATE leaves behind. *)
Lemma choose_steady_bounds (en : bool) (env : Env) (a : BufferAbr) (s : BolaState) :
  bolaState a = Some s ->
  bufferTarget a <= maxBufferLevel a ->
  0 <= placeholderBuffer s ->
  let a' := snd (chooseBufferBasedRepresentation en env a) in
  maxBufferLevel a' = maxBufferLevel a
  /\ bufferTarget a' = bufferTarget a
  /\ 0 <= placeholderOf a'
  /\ (negb en || match currentRepresentation s with Some _ => true | None => false end
      = true -> placeholderOf a' <= maxBufferLevel a - bufferTarget a).
Proof.
  intros Hs Hcap Hp.
  unfold chooseBufferBasedRepresentation, the_bola, bind, get, placeholderOf.
  rewrite Hs. cbn -[updatePlaceholderBuffer bestQuality absorbOverflow Qmax
                    getMaxBufferLevelForRepresentation guardOscillation].
  unfold Assert_assert.
  destruct (en && negb (match currentRepresentation s with
                        | Some _ => true | None => false end)) eqn:Ea.
  - cbn. rewrite Hs. repeat split; try assumption.
    intros H. apply andb_true_iff in Ea as [-> Ea].
    rewrite negb_true_iff in Ea. rewrite Ea in H. discriminate.
  - cbn -[updatePlaceholderBuffer bestQuality absorbOverflow Qmax
          getMaxBufferLevelForRepresentation guardOscillation].
    destruct (update_placeholder_bounds env a s Hcap Hp) as [Hu0 Hu1].
    destruct (nth_error _ _) as [sel |];
      cbn -[updatePlaceholderBuffer bestQuality absorbOverflow Qmax
            getMaxBufferLevelForRepresentation guardOscillation].
    + match goal with
      | |- context [absorbOverflow ?d ?s2] =>
          destruct (absorb_overflow_bounds d s2) as [Ha0 Ha1]; [exact Hu0 |]
      end.
      cbn -[updatePlaceholderBuffer bestQuality absorbOverflow Qmax
            getMaxBufferLevelForRepresentation guardOscillation] in Ha1.
      repeat split; try assumption. intros _. lra.
    + repeat split; try assumption. intros _. assumption.
Qed.

Lemma choose_startup_bounds (en : bool) (env : Env) (a : BufferAbr) (s : BolaState) :
  bolaState a = Some s ->
  0 <= placeholderBuffer s ->
  let a' := snd (chooseThroughputBasedRepresentation en env a) in
  maxBufferLevel a' = maxBufferLevel a
  /\ bufferTarget a' = bufferTarget a
  /\ 0 <= placeholderOf a'.
Proof.
  intros Hs Hp.
  unfold chooseThroughputBasedRepresentation, the_bola, bind, get, placeholderOf.
  rewrite Hs. cbn -[Qmax getMinBufferLevelForRepresentation scanThroughput].
  destruct (throughputBps env) as [t |];
    cbn -[Qmax getMinBufferLevelForRepresentation scanThroughput].
  - destruct (representations s) as [| first rest] eqn:Er;
      cbn -[Qmax getMinBufferLevelForRepresentation scanThroughput].
    + rewrite Hs. repeat split; assumption.
    + destruct (lastSegmentDurationS s) as [d |];
        [destruct (Qle_bool d (bufferLevel env)) |];
        cbn -[Qmax getMinBufferLevelForRepresentation scanThroughput];
        repeat split; apply Q.le_max_l.
  - rewrite Hs. repeat split; assumption.
Qed.

Lemma adjust_placeholder_nonneg (env : Env) (s : BolaState) (r : VideoRepresentation) :
  0 <= placeholderBuffer s ->
  0 <= placeholderBuffer (adjustPlaceholder env s r).
Proof.
  intros Hp. unfold adjustPlaceholder.
  destruct (Js.Qlt_bool _ _); cbn; [| assumption].
  eapply Qle_trans; [exact Hp | apply Q.le_max_l].
Qed.

Lemma setRepresentations_bounds (Math_log : Q -> Q) (en : bool) (env : Env)
    (reps : list VideoRepresentation) (a : BufferAbr) :
  0 <= placeholderOf a ->
  let a' := snd (setRepresentations Math_log en env reps a) in
  maxBufferLevel a' = maxBufferLevel a
  /\ bufferTarget a' = bufferTarget a
  /\ 0 <= placeholderOf a'
  /\ (bolaState a = None -> placeholderOf a' == placeholderOf a).
Proof.
  intros Hp.
  unfold setRepresentations, initBolaState, bind, get, Assert_assert, placeholderOf in *.
  destruct (en && negb (0 <? length reps)%nat) eqn:Ea; cbn -[Qmax Qdiv nth].
  { split; [reflexivity |]. split; [reflexivity |]. split; [assumption |].
    intros _. reflexivity. }
  destruct (bolaState a) as [s |] eqn:Hs;
    [destruct (currentRepresentation s) as [prev |] eqn:Hc |];
    destruct reps as [| r0 [| r1 rest]];
    cbn -[Qmax Qdiv nth findClosestRepresentation adjustPlaceholder];
    try rewrite Hs;
    (split; [reflexivity |]); (split; [reflexivity |]);
    (split; [| intros Hn; try discriminate Hn; reflexivity]);
    try assumption; try apply Qle_refl.
  destruct (same_id r0 prev);
    [| destruct (same_id r1 prev);
       [| destruct (List.find _ rest);
          [| destruct (negb (same_id _ prev))]]];
    cbn -[Qmax Qdiv nth findClosestRepresentation adjustPlaceholder];
    try apply Qle_refl.
  apply adjust_placeholder_nonneg. cbn. apply Qle_refl.
Qed.

Lemma setRepresentations_minBufferLevel (Math_log : Q -> Q) (en : bool)
    (env : Env) (reps : list VideoRepresentation) (a : BufferAbr) :
  minBufferLevel (snd (setRepresentations Math_log en env reps a))
  = minBufferLevel a.
Proof.
  unfold setRepresentations, initBolaState, bind, get, Assert_assert.
  destruct (en && negb (0 <? length reps)%nat); [reflexivity |].
  cbn -[Qmax Qdiv nth findClosestRepresentation adjustPlaceholder].
  destruct reps as [| r0 rest], (bolaState a) as [s |];
    try destruct (currentRepresentation s); reflexivity.
Qed.

Lemma run_choose_state (Math_log : Q -> Q) (en : bool) (env : Env) (a : BufferAbr) :
  snd (run Math_log en env Choose a) = snd (chooseRepresentation en env a).
Proof.
  unfold run, bind.
  destruct (chooseRepresentation en env a) as [[r | e] a']; reflexivity.
Qed.

Lemma chooseRepresentation_state (en : bool) (env : Env) (a : BufferAbr) :
  snd (chooseRepresentation en env a)
  = match bolaState a with
    | None => a
    | Some s =>
        match algorithmState s with
        | STARTUP => snd (chooseThroughputBasedRepresentation en env a)
        | STEADY_STATE => snd (chooseBufferBasedRepresentation en env a)
        | ONE_BITRATE => a
        end
    end.
Proof.
  unfold chooseRepresentation, the_bola, bind at 1, bind at 1, get.
  destruct (bolaState a) as [s |]; [| reflexivity].
  cbn [ret]. destruct (algorithmState s); reflexivity.
Qed.

Lemma choose_steady_config (en : bool) (env : Env) (a : BufferAbr) :
  let a' := snd (chooseBufferBasedRepresentation en env a) in
  maxBufferLevel a' = maxBufferLevel a /\ bufferTarget a' = bufferTarget a.
Proof.
  unfold chooseBufferBasedRepresentation, the_bola, bind, get.
  destruct (bolaState a) as [s |] eqn:Hs; [| cbn; split; reflexivity].
  cbn -[updatePlaceholderBuffer bestQuality absorbOverflow Qmax
        getMaxBufferLevelForRepresentation guardOscillation].
  unfold Assert_assert.
  destruct (en && negb _); [cbn; split; reflexivity |].
  cbn -[updatePlaceholderBuffer bestQuality absorbOverflow Qmax
        getMaxBufferLevelForRepresentation guardOscillation].
  destruct (nth_error _ _); cbn; split; reflexivity.
Qed.

(** [updateConfig] on a controller with a state: either [#initBolaState]
    stops at its assertion and the state stays, or the placeholder is 0. *)
Lemma updateConfig_state (Math_log : Q -> Q) (en : bool) (env : Env)
    (minBuffer maxBuffer threshold : Q) (a : BufferAbr) (s : BolaState) :
  bolaState a = Some s ->
  let a' := snd (updateConfig Math_log en env minBuffer maxBuffer threshold a) in
  if en && negb (0 <? length (representations s))%nat
  then bolaState a' = Some s
  else placeholderOf a' = 0.
Proof.
  intros Hs. unfold updateConfig, initBolaState, bind, modify, get, Assert_assert.
  cbn [fst snd bolaState]. rewrite Hs. cbn [fst snd bolaState].
  destruct (en && negb (0 <? length (representations s))%nat); cbn;
    try rewrite Hs; reflexivity.
Qed.

Lemma update_bola_limits (f : BolaState -> BolaState) (a : BufferAbr) :
  bufferTarget (snd (update_bola f a)) = bufferTarget a
  /\ maxBufferLevel (snd (update_bola f a)) = maxBufferLevel a.
Proof.
  unfold update_bola, modify. cbn. destruct (bolaState a); split; reflexivity.
Qed.

(** The handlers that go through [update_bola] leave the limits alone. *)
Ltac limits_before Hcap a :=
  unfold run, onPlaybackStarted, onPlaybackSeeked, onBufferEmpty,
    onSegmentDownloadBegin, onSegmentDownloadEnd in Hcap;
  match type of Hcap with
  | context [update_bola ?f a] =>
      let E1 := fresh in
      let E2 := fresh in
      destruct (update_bola_limits f a) as [E1 E2];
      rewrite E1, E2 in Hcap; clear E1 E2
  end.

(** One operation that leaves the target at or below [maxBufferLevel]: the
    placeholder stays non-negative, it is capped after the operations of
    [capsPlaceholder] and unchanged after those of [keepsPlaceholder]. *)
Lemma placeholder_step (Math_log : Q -> Q) (en : bool) (env : Env)
    (o : operation) (a : BufferAbr) :
  bufferTarget (snd (run Math_log en env o a))
  <= maxBufferLevel (snd (run Math_log en env o a)) ->
  0 <= placeholderOf a ->
  let a' := snd (run Math_log en env o a) in
  0 <= placeholderOf a'
  /\ (capsPlaceholder en o a = true ->
      placeholderOf a' <= maxBufferLevel a' - bufferTarget a')
  /\ (keepsPlaceholder o a = true -> placeholderOf a' == placeholderOf a).
Proof.
  intros Hcap Hp.
  destruct o as [| reps | | | | ref | ref isReplacement | newTarget
                 | minBuffer maxBuffer threshold]; cbv zeta.
  - (* Choose *)
    revert Hcap. rewrite run_choose_state, chooseRepresentation_state.
    unfold capsPlaceholder, keepsPlaceholder.
    destruct (bolaState a) as [s |] eqn:Hs.
    + assert (Hps : 0 <= placeholderBuffer s)
        by (unfold placeholderOf in Hp; rewrite Hs in Hp; exact Hp).
      destruct (algorithmState s) eqn:Hm; intros Hcap.
      * pose proof (choose_startup_bounds en env a s Hs Hps) as H.
        cbv zeta in H. destruct H as (H1 & H2 & H3).
        split; [assumption |]. split; intros; discriminate.
      * pose proof (choose_steady_config en env a) as Hc. cbv zeta in Hc.
        destruct Hc as [Hc1 Hc2]. rewrite Hc1, Hc2 in Hcap.
        pose proof (choose_steady_bounds en env a s Hs Hcap Hps) as H.
        cbv zeta in H. destruct H as (H1 & H2 & H3 & H4).
        split; [assumption |].
        split; [intros Hc; rewrite H1, H2; apply H4; exact Hc
               | intros; discriminate].
      * split; [assumption |].
        split; [intros; discriminate | intros _; reflexivity].
    + intros _. split; [assumption |].
      split; [intros; discriminate | intros _; reflexivity].
  - (* SetRepresentations *)
    pose proof (setRepresentations_bounds Math_log en env reps a Hp) as H.
    cbv zeta in H. destruct H as (H1 & H2 & H3 & H4).
    unfold run, capsPlaceholder, keepsPlaceholder.
    split; [assumption |].
    destruct (bolaState a); split; intros; try discriminate.
    apply H4. reflexivity.
  - (* PlaybackStarted *)
    limits_before Hcap a.
    unfold run, onPlaybackStarted, update_bola, modify, capsPlaceholder,
      keepsPlaceholder, placeholderOf in *.
    destruct (bolaState a) as [s |] eqn:Hs; cbn; try rewrite Hs;
      (split; [lra |]); split; intros; try discriminate; try lra.
  - (* PlaybackSeeked *)
    limits_before Hcap a.
    unfold run, onPlaybackSeeked, update_bola, modify, capsPlaceholder,
      keepsPlaceholder, placeholderOf in *.
    destruct (bolaState a) as [s |] eqn:Hs; cbn; try rewrite Hs;
      [destruct (algorithmState s) |]; cbn;
      (split; [lra |]); split; intros; try discriminate; try lra.
  - (* BufferEmpty *)
    limits_before Hcap a.
    unfold run, onBufferEmpty, update_bola, modify, capsPlaceholder,
      keepsPlaceholder, placeholderOf in *.
    destruct (bolaState a) as [s |] eqn:Hs; cbn; try rewrite Hs;
      [destruct (algorithmState s) |]; cbn;
      (split; [lra |]); split; intros; try discriminate; try lra.
  - (* FragmentLoadingStarted *)
    limits_before Hcap a.
    unfold run, onSegmentDownloadBegin, update_bola, modify, capsPlaceholder,
      keepsPlaceholder, placeholderOf in *.
    destruct (bolaState a) as [s |] eqn:Hs; cbn; try rewrite Hs;
      [destruct (mostAdvancedSegmentStart s);
       [destruct (Js.Qlt_bool _ _) |] |]; cbn;
      (split; [lra |]); split; intros; try discriminate; try lra.
  - (* FragmentLoadingCompleted *)
    limits_before Hcap a.
    unfold run, onSegmentDownloadEnd, update_bola, modify, capsPlaceholder,
      keepsPlaceholder, placeholderOf in *.
    destruct (bolaState a) as [s |] eqn:Hs; cbn; try rewrite Hs;
      [destruct ref |]; cbn;
      (split; [lra |]); split; intros; try discriminate; try lra.
  - (* BufferTargetChanged *)
    clear Hcap.
    unfold run, onBufferTargetChanged, modify, capsPlaceholder,
      keepsPlaceholder, placeholderOf in *.
    destruct (Qeq_bool newTarget 0); cbn;
      (split; [exact Hp |]);
      (split; [destruct (bolaState a); intros; discriminate
              | intros _; reflexivity]).
  - (* UpdateConfig *)
    unfold run in *. unfold capsPlaceholder, keepsPlaceholder.
    destruct (bolaState a) as [s |] eqn:Hs.
    + pose proof (updateConfig_state Math_log en env minBuffer maxBuffer
                    threshold a s Hs) as H.
      cbv zeta in H.
      destruct (en && negb (0 <? length (representations s))%nat) eqn:Ea.
      * split; [unfold placeholderOf in *; rewrite H; rewrite Hs in Hp; exact Hp |].
        split; [| intros; discriminate].
        apply andb_true_iff in Ea as [-> Ea]. rewrite negb_true_iff in Ea.
        rewrite Ea. intros; discriminate.
      * rewrite H. split; [apply Qle_refl |].
        split; [intros _; lra | intros; discriminate].
    + assert (Hn : bolaState (snd (updateConfig Math_log en env minBuffer
                                      maxBuffer threshold a)) = None).
      { unfold updateConfig, bind, modify, get. cbn. rewrite Hs. reflexivity. }
      unfold placeholderOf in *. rewrite Hn, Hs.
      split; [apply Qle_refl |].
      split; [intros; discriminate | intros _; reflexivity].
Qed.

(** The sign of the placeholder along an admissible sequence of operations. *)
Lemma admissible_invariant (Math_log : Q -> Q) (en : bool)
    (trace : list (Env * operation)) (a : BufferAbr) :
  admissible Math_log en trace a = true ->
  0 <= placeholderOf a ->
  0 <= placeholderOf (runAll Math_log en trace a).
Proof.
  revert a. induction trace as [| [env o] rest IH]; intros a Hadm Hp;
    cbn [runAll admissible] in *.
  - assumption.
  - cbv zeta in Hadm.
    apply andb_true_iff in Hadm as [Hadm Hrest].
    apply andb_true_iff in Hadm as [_ Hcap].
    apply Qle_bool_iff in Hcap.
    apply IH; [exact Hrest |].
    apply (placeholder_step Math_log en env o a Hcap Hp).
Qed.

(** An admissible sequence and its last operation. *)
Lemma admissible_last (Math_log : Q -> Q) (en : bool)
    (trace : list (Env * operation)) (env : Env) (o : operation) (a : BufferAbr) :
  admissible Math_log en (trace ++ [(env, o)]) a = true ->
  admissible Math_log en trace a = true
  /\ finiteOperation Math_log o (runAll Math_log en trace a) = true
  /\ bufferTarget (snd (run Math_log en env o (runAll Math_log en trace a)))
     <= maxBufferLevel (snd (run Math_log en env o (runAll Math_log en trace a))).
Proof.
  revert a. induction trace as [| [env1 o1] rest IH]; intros a Hadm;
    cbn [app runAll admissible] in *; cbv zeta in Hadm.
  - apply andb_true_iff in Hadm as [Hadm _].
    apply andb_true_iff in Hadm as [Hfin Hcap].
    apply Qle_bool_iff in Hcap. repeat split; assumption.
  - apply andb_true_iff in Hadm as [Hadm Hrest].
    destruct (IH _ Hrest) as (H1 & H2 & H3).
    split; [| split; assumption].
    cbv zeta. rewrite Hadm, H1. reflexivity.
Qed.

(** C4 (as amended).  Take a controller as the constructor makes it and a
    sequence of its operations: choose in any mode, setRepresentations,
    updateConfig, the segment hooks and the handlers of seek, playback
    start, buffer empty and buffer target changed.  Suppose the sequence is
    admissible: after each operation the buffer target is at most
    [maxBufferLevel], and the arithmetic is finite (every ladder is finite,
    and [minBufferLevel] is not zero when the numbers of the state are
    computed).  Then after every operation the placeholder is non-negative.
    It is at most [maxBufferLevel - bufferTarget] after a STEADY_STATE
    choose that gets past its assertion (it runs the placeholder update),
    after the playback-start and buffer-empty handlers, after the seek
    handler outside ONE_BITRATE and after an updateConfig that gets past the
    assertion of [#initBolaState] (they zero it); the segment hooks, the
    buffer-target handler, and choose and seek in ONE_BITRATE leave it
    unchanged.  Nothing is promised about the cap after a STARTUP choose,
    after setRepresentations or after a change of the buffer target. *)
Theorem placeholder_bounds (Math_log : Q -> Q) (en : bool)
    (minBuffer maxBuffer threshold target : Q)
    (trace : list (Env * operation)) (env : Env) (o : operation) :
  admissible Math_log en (trace ++ [(env, o)])
             (BufferAbr_new minBuffer maxBuffer threshold target) = true ->
  let a := runAll Math_log en trace
             (BufferAbr_new minBuffer maxBuffer threshold target) in
  let a' := snd (run Math_log en env o a) in
  0 <= placeholderOf a'
  /\ (capsPlaceholder en o a = true ->
      placeholderOf a' <= maxBufferLevel a' - bufferTarget a')
  /\ (keepsPlaceholder o a = true -> placeholderOf a' == placeholderOf a).
Proof.
  intros Hadm. cbv zeta.
  set (a0 := BufferAbr_new minBuffer maxBuffer threshold target) in *.
  destruct (admissible_last Math_log en trace env o a0 Hadm) as (Htrace & _ & Hcap).
  apply (placeholder_step Math_log en env o (runAll Math_log en trace a0) Hcap).
  apply admissible_invariant; [exact Htrace | apply Qle_refl].
Qed.

Lemma placeholder_bounds_witness :
  maxBufferLevel (snd (run ln_table true env_later Choose
                         (runAll ln_table true retargeted_trace abr0)))
  - bufferTarget (snd (run ln_table true env_later Choose
                         (runAll ln_table true retargeted_trace abr0))) == 10
  /\ 0 <= placeholderOf (snd (run ln_table true env_later Choose
                                (runAll ln_table true retargeted_trace abr0)))
  /\ placeholderOf (snd (run ln_table true env_later Choose
                           (runAll ln_table true retargeted_trace abr0)))
     <= maxBufferLevel (snd (run ln_table true env_later Choose
                               (runAll ln_table true retargeted_trace abr0)))
        - bufferTarget (snd (run ln_table true env_later Choose
                               (runAll ln_table true retargeted_trace abr0))).
Proof.
  destruct (placeholder_bounds ln_table true 10 90 (2 # 10) 60 retargeted_trace
              env_later Choose) as (H1 & H2 & _).
  - vm_compute. reflexivity.
  - split; [vm_compute; reflexivity |].
    split; [exact H1 |]. apply H2. vm_compute. reflexivity.
Defined.

(** Why the target must stay at or below [maxBufferLevel]: once the handler
    of BUFFER_TARGET_CHANGED has raised it to 100 s (with [maxBufferLevel]
    at 90 s), the next STEADY_STATE choose caps the placeholder at -10 s. *)
Lemma raised_target_gives_negative_placeholder :
  admissible ln_table true steady_trace abr0 = true
  /\ admissible ln_table true target_raised_trace abr0 = false
  /\ placeholderOf bola4_target_raised == - (10).
Proof. vm_compute. repeat split. Qed.

(** [updateConfig] re-initialises the state: the placeholder is back at 0,
    the mode stays and the current representation is forgotten. *)
Lemma updateConfig_resets_placeholder :
  let a := snd (run ln_table true env_later Choose bola4_steady) in
  let a' := snd (run ln_table true env_later (UpdateConfig 5 120 (2 # 10)) a) in
  0 < placeholderOf a
  /\ placeholderOf a' = 0
  /\ maxBufferLevel a' = 120
  /\ option_map algorithmState (bolaState a') = Some STEADY_STATE
  /\ option_map currentRepresentation (bolaState a') = Some None.
Proof. vm_compute. repeat split. Qed.

(** C4 as stated fails.  With the default limits (maxBufferLevel 90,
    bufferTarget 60, so a cap of 30 s), twelve representations, an empty
    buffer and a fast network, the first [chooseRepresentation] (STARTUP)
    selects the top representation and sets the placeholder to its minimum
    buffer level, more than 33 s, and does not cap it. *)
Lemma startup_choose_exceeds_cap :
  bolaState abr0 = None
  /\ bola12 = snd (run ln_table true env0 (SetRepresentations ladder12) abr0)
  /\ bola12_chosen = snd (run ln_table true env_fast Choose bola12)
  /\ fst (chooseRepresentation true env_fast bola12) = Ret (nth_error ladder12 11)
  /\ maxBufferLevel bola12_chosen - bufferTarget bola12_chosen == 30
  /\ 33 < placeholderOf bola12_chosen.
Proof. vm_compute. repeat split. Qed.

(** The cold-start scenario: with the default estimate of 3 Mbit/s the first
    choose picks the 1000k representation, the highest one within 2.7 Mbit/s. *)
Example cold_start_picks_1000k :
  fst (chooseRepresentation true env0 bola4) = Ret (nth_error ladder4 1).
Proof. vm_compute. reflexivity. Qed.

End BolaFacts.

Module BolaNumFacts.
Import Js Types BolaNum.
Local Open Scope Q_scope.

(** The logarithms and utilities of the source as rationals. *)
Lemma logs_finite (Math_log : Q -> Q) (reps : list VideoRepresentation) :
  forallb (fun r => Qlt_bool 0 (bitrate r)) reps = true ->
  map (fun r => log Math_log (bitrate r)) reps
  = map Fin (map (fun r => Math_log (bitrate r)) reps).
Proof.
  induction reps as [| r reps IH]; cbn [forallb map]; [reflexivity |].
  intros H. apply andb_true_iff in H as [Hr H].
  rewrite (IH H). unfold log at 1. rewrite Hr. reflexivity.
Qed.

Lemma utilities_finite (Math_log : Q -> Q) (reps : list VideoRepresentation) :
  forallb (fun r => Qlt_bool 0 (bitrate r)) reps = true ->
  utilities Math_log reps
  = map Fin (map (fun u => u - nth 0 (map (fun r => Math_log (bitrate r)) reps) 0 + 1)
                 (map (fun r => Math_log (bitrate r)) reps)).
Proof.
  intros H. unfold utilities. rewrite (logs_finite Math_log reps H).
  destruct reps as [| r reps]; [reflexivity |].
  rewrite !map_map. apply map_ext. intros x. reflexivity.
Qed.

Lemma at_map_Fin (l : list Q) (i : nat) :
  (i < length l)%nat -> at_ (map Fin l) i = Fin (nth i l 0).
Proof.
  intros H. unfold at_. rewrite <- (map_nth Fin).
  apply nth_indep. now rewrite length_map.
Qed.

Lemma bitrateAt_finite (reps : list VideoRepresentation) (s : Bola.BolaState) (i : nat) :
  Bola.representations s = reps ->
  (i < length reps)%nat ->
  bitrateAt reps i = Fin (Bola.bitrateAt s i).
Proof.
  intros Hr Hi. unfold bitrateAt, Bola.bitrateAt. rewrite Hr.
  destruct (nth_error reps i) eqn:E; [reflexivity |].
  apply nth_error_None in E. lia.
Qed.

Lemma div_finite (a b : Q) : ~ b == 0 -> div (Fin a) (Fin b) = Fin (a / b).
Proof.
  intros H. unfold div. destruct (Qeq_bool b 0) eqn:E; [| reflexivity].
  apply Qeq_bool_eq in E. contradiction.
Qed.

Lemma bufferTime_above (m : Q) (reps : list VideoRepresentation) :
  (0 < length reps)%nat -> m < bufferTime m reps.
Proof.
  intros H. unfold bufferTime, Bola.MINIMUM_BUFFER_PER_BITRATE_LEVEL.
  apply Qlt_le_trans with (m + 2 * inject_Z (Z.of_nat (length reps)));
    [| apply Q.le_max_r].
  assert (0 < inject_Z (Z.of_nat (length reps))).
  { change 0 with (inject_Z 0). rewrite <- Zlt_Qlt. lia. }
  lra.
Qed.

Lemma gp_divisor (m : Q) (reps : list VideoRepresentation) :
  (0 < length reps)%nat -> ~ m == 0 -> ~ bufferTime m reps / m - 1 == 0.
Proof.
  intros Hn Hm H. pose proof (bufferTime_above m reps Hn) as Hlt.
  assert (E : bufferTime m reps == m).
  { rewrite <- (Qmult_div_r (bufferTime m reps) m Hm).
    assert (H1 : bufferTime m reps / m == 1) by lra.
    rewrite H1. ring. }
  lra.
Qed.

Lemma nth_pred_length {A} (l : list A) (d d' : A) :
  l <> [] -> nth (length l - 1) l d = List.last l d'.
Proof.
  induction l as [| a l IH]; intros Hl; [contradiction |].
  destruct l as [| b l]; [reflexivity |].
  change (List.last (a :: b :: l) d') with (List.last (b :: l) d').
  rewrite <- IH by discriminate.
  cbn [length]. replace (S (S (length l)) - 1)%nat with (S (length l)) by lia.
  replace (S (length l) - 1)%nat with (length l) by lia. reflexivity.
Qed.

Lemma ladder_positive (Math_log : Q -> Q) (reps : list VideoRepresentation) :
  Bola.finiteLadder Math_log reps = true ->
  forallb (fun r => Qlt_bool 0 (bitrate r)) reps = true.
Proof.
  unfold Bola.finiteLadder. destruct reps; [discriminate |].
  intros H. apply andb_true_iff in H as [H _].
  apply andb_true_iff in H as [H _]. exact H.
Qed.

Lemma ladder_nonempty (Math_log : Q -> Q) (reps : list VideoRepresentation) :
  Bola.finiteLadder Math_log reps = true -> (0 < length reps)%nat.
Proof.
  unfold Bola.finiteLadder. destruct reps; [discriminate | cbn; lia].
Qed.

Lemma utilityAt_finite (Math_log : Q -> Q) (m : Q)
    (reps : list VideoRepresentation) (s : Bola.BolaState) (i : nat) :
  Bola.finiteLadder Math_log reps = true ->
  initialised Math_log m reps s ->
  (i < length reps)%nat ->
  at_ (utilities Math_log reps) i = Fin (Bola.utilityAt s i).
Proof.
  intros Hl Hs Hi.
  rewrite (utilities_finite Math_log reps (ladder_positive _ _ Hl)).
  rewrite at_map_Fin by (now rewrite !length_map).
  unfold Bola.utilityAt. destruct Hs as (_ & -> & _). reflexivity.
Qed.

(** [gp] is the finite number of the state. *)
Lemma gp_finite (Math_log : Q -> Q) (m : Q)
    (reps : list VideoRepresentation) (s : Bola.BolaState) :
  Bola.finiteLadder Math_log reps = true -> ~ m == 0 ->
  initialised Math_log m reps s ->
  gp Math_log m reps = Fin (Bola.gp s).
Proof.
  intros Hl Hm Hs. unfold gp. pose proof (ladder_nonempty _ _ Hl) as Hn.
  rewrite (utilities_finite Math_log reps (ladder_positive _ _ Hl)).
  rewrite at_map_Fin by (rewrite !length_map; lia).
  rewrite (div_finite _ m Hm).
  cbn [sub neg add].
  rewrite div_finite by (apply (gp_divisor m reps Hn Hm)).
  destruct Hs as (_ & _ & -> & _). rewrite !length_map. reflexivity.
Qed.

(** The last utility, by the logarithms of the first and the last bitrate. *)
Lemma last_utility (Math_log : Q -> Q) (m : Q) (s : Bola.BolaState)
    (first : VideoRepresentation) (rest : list VideoRepresentation) :
  initialised Math_log m (first :: rest) s ->
  nth (length (Bola.utilities s) - 1) (Bola.utilities s) 0
  = Math_log (bitrate (List.last (first :: rest) first))
    - Math_log (bitrate first) + 1.
Proof.
  intros Hs. destruct Hs as (_ & -> & _). rewrite !length_map, map_map.
  change (nth 0 (map (fun r => Math_log (bitrate r)) (first :: rest)) 0)
    with (Math_log (bitrate first)).
  set (f := fun x : VideoRepresentation =>
              Math_log (bitrate x) - Math_log (bitrate first) + 1).
  rewrite (nth_indep _ 0 (f first)) by (rewrite length_map; cbn; lia).
  rewrite map_nth.
  rewrite (nth_pred_length (first :: rest) first first) by discriminate.
  reflexivity.
Qed.

(** With two representations or more, [gp] is not zero. *)
Lemma gp_nonzero (Math_log : Q -> Q) (m : Q)
    (reps : list VideoRepresentation) (s : Bola.BolaState) :
  Bola.finiteLadder Math_log reps = true -> ~ m == 0 ->
  initialised Math_log m reps s ->
  (2 <= length reps)%nat -> ~ Bola.gp s == 0.
Proof.
  intros Hl Hm Hs Hlen Hz.
  pose proof (gp_divisor m reps (ladder_nonempty _ _ Hl) Hm) as HD.
  destruct reps as [| first [| second rest]];
    [discriminate | cbn in Hlen; lia |].
  pose proof (last_utility Math_log m s first (second :: rest) Hs) as Hu.
  assert (Hlog : ~ Math_log (bitrate (List.last (first :: second :: rest) first))
                   == Math_log (bitrate first)).
  { unfold Bola.finiteLadder in Hl.
    apply andb_true_iff in Hl as [_ Hlog].
    apply negb_true_iff in Hlog. apply Qeq_bool_neq in Hlog. exact Hlog. }
  apply Hlog.
  destruct Hs as (_ & Hut & Hgp & _).
  rewrite Hgp in Hz. cbv zeta in Hz. rewrite <- Hut, Hu in Hz.
  set (D := bufferTime m (first :: second :: rest) / m - 1) in *.
  set (x := Math_log (bitrate (List.last (first :: second :: rest) first))) in *.
  set (y := Math_log (bitrate first)) in *.
  assert (Hn : x - y + 1 - 1 == 0).
  { rewrite <- (Qmult_div_r (x - y + 1 - 1) D HD). rewrite Hz. ring. }
  lra.
Qed.

(** [vp] is the finite number of the state. *)
Lemma vp_finite (Math_log : Q -> Q) (m : Q)
    (reps : list VideoRepresentation) (s : Bola.BolaState) :
  Bola.finiteLadder Math_log reps = true -> ~ m == 0 ->
  initialised Math_log m reps s ->
  (2 <= length reps)%nat -> vp Math_log m reps = Fin (Bola.vp s).
Proof.
  intros Hl Hm Hs Hlen. unfold vp. rewrite (gp_finite _ _ _ s Hl Hm Hs).
  rewrite div_finite by (apply (gp_nonzero Math_log m reps s); assumption).
  destruct Hs as (_ & _ & Hgp & ->). rewrite Hgp. reflexivity.
Qed.

Lemma bitrate_positive (Math_log : Q -> Q) (m : Q)
    (reps : list VideoRepresentation) (s : Bola.BolaState) (i : nat) :
  Bola.finiteLadder Math_log reps = true ->
  initialised Math_log m reps s ->
  (i < length reps)%nat -> 0 < Bola.bitrateAt s i.
Proof.
  intros Hl Hs Hi. unfold Bola.bitrateAt. destruct Hs as (-> & _).
  destruct (nth_error reps i) as [r |] eqn:E;
    [| apply nth_error_None in E; lia].
  apply nth_error_In in E.
  pose proof (ladder_positive _ _ Hl) as Hp. rewrite forallb_forall in Hp.
  apply BolaFacts.Qlt_bool_iff. apply Hp. exact E.
Qed.

(** Every score is the finite number of the state. *)
Lemma score_finite (Math_log : Q -> Q) (m : Q)
    (reps : list VideoRepresentation) (s : Bola.BolaState) (i : nat) (level : Q) :
  Bola.finiteLadder Math_log reps = true -> ~ m == 0 ->
  initialised Math_log m reps s ->
  (2 <= length reps)%nat -> (i < length reps)%nat ->
  score Math_log m reps i level = Fin (Bola.score s i level).
Proof.
  intros Hl Hm Hs Hlen Hi. unfold score.
  rewrite (vp_finite _ _ _ s Hl Hm Hs Hlen), (gp_finite _ _ _ s Hl Hm Hs),
    (utilityAt_finite _ m _ s i Hl Hs Hi).
  rewrite (bitrateAt_finite reps s i) by (destruct Hs; assumption || exact Hi).
  cbn [add sub neg mul].
  rewrite div_finite; [reflexivity |].
  pose proof (bitrate_positive _ _ _ s i Hl Hs Hi). lra.
Qed.

Lemma distinctNeighbours_nth (reps : list VideoRepresentation) :
  Bola.distinctNeighbours reps = true ->
  forall i a b,
    nth_error reps i = Some a -> nth_error reps (S i) = Some b ->
    ~ bitrate a == bitrate b.
Proof.
  induction reps as [| x l IH]; intros H i a b Ha Hb.
  - destruct i; discriminate.
  - destruct l as [| y l']; [destruct i; discriminate |].
    cbn [Bola.distinctNeighbours] in H.
    apply andb_true_iff in H as [Hxy H].
    destruct i as [| i].
    + cbn in Ha, Hb. injection Ha as <-. injection Hb as <-.
      apply negb_true_iff in Hxy. now apply Qeq_bool_neq.
    + apply (IH H i a b); assumption.
Qed.

Lemma neighbours_differ (Math_log : Q -> Q) (m : Q)
    (reps : list VideoRepresentation) (s : Bola.BolaState) (j : nat) :
  Bola.finiteLadder Math_log reps = true ->
  initialised Math_log m reps s ->
  (S j < length reps)%nat ->
  ~ Bola.bitrateAt s j - Bola.bitrateAt s (S j) == 0.
Proof.
  intros Hl Hs Hj. unfold Bola.bitrateAt. destruct Hs as (-> & _).
  destruct (nth_error reps j) as [a |] eqn:Ea;
    [| apply nth_error_None in Ea; lia].
  destruct (nth_error reps (S j)) as [b |] eqn:Eb;
    [| apply nth_error_None in Eb; lia].
  assert (Hd : Bola.distinctNeighbours reps = true).
  { unfold Bola.finiteLadder in Hl. destruct reps; [discriminate |].
    apply andb_true_iff in Hl as [Hl _].
    apply andb_true_iff in Hl as [_ Hl]. exact Hl. }
  pose proof (distinctNeighbours_nth reps Hd j a b Ea Eb). lra.
Qed.

Lemma Math_max_zero (q : Q) : agrees (Estimate.Math_max (Fin 0) (Fin q)) (Qmax 0 q).
Proof.
  unfold Estimate.Math_max, lt, agrees.
  destruct (Qlt_bool 0 q) eqn:E.
  - apply BolaFacts.Qlt_bool_iff in E. symmetry. apply Q.max_r. lra.
  - apply BolaFacts.Qlt_bool_false in E. symmetry. apply Q.max_l. exact E.
Qed.

(** On a finite ladder the level [#getMinBufferLevelForRepresentation]
    returns is the finite number the module [Bola] computes. *)
Lemma minBufferLevel_agrees (Math_log : Q -> Q) (m : Q)
    (reps : list VideoRepresentation) (s : Bola.BolaState) (i : nat) :
  Bola.finiteLadder Math_log reps = true -> ~ m == 0 ->
  initialised Math_log m reps s ->
  (i < length reps)%nat ->
  agrees (minBufferLevelForIndex Math_log m reps i)
         (Bola.minBufferLevelForIndex s i).
Proof.
  intros Hl Hm Hs Hi. destruct i as [| j]; [cbn; reflexivity |].
  assert (Hlen : (2 <= length reps)%nat) by lia.
  unfold minBufferLevelForIndex, Bola.minBufferLevelForIndex. cbv zeta.
  cbn [pred].
  rewrite (vp_finite _ _ _ s Hl Hm Hs Hlen), (gp_finite _ _ _ s Hl Hm Hs).
  rewrite (utilityAt_finite _ m _ s (S j) Hl Hs Hi).
  rewrite (utilityAt_finite _ m _ s j Hl Hs) by lia.
  rewrite (bitrateAt_finite reps s (S j)) by (destruct Hs; assumption || exact Hi).
  rewrite (bitrateAt_finite reps s j) by (destruct Hs; assumption || lia).
  cbn [add sub neg mul].
  rewrite div_finite by (apply (neighbours_differ Math_log m reps s j); assumption).
  apply Math_max_zero.
Qed.

(** On a finite ladder the placeholder a STARTUP choose stores is the
    finite, non-negative number the module [Bola] computes. *)
Lemma startupPlaceholder_agrees (Math_log : Q -> Q) (m : Q)
    (reps : list VideoRepresentation) (s : Bola.BolaState) (i : nat) (level : Q) :
  Bola.finiteLadder Math_log reps = true -> ~ m == 0 ->
  initialised Math_log m reps s ->
  (i < length reps)%nat ->
  agrees (startupPlaceholder Math_log m reps i level)
         (Qmax 0 (Bola.minBufferLevelForIndex s i - level))
  /\ ge (startupPlaceholder Math_log m reps i level) (Fin 0) = true.
Proof.
  intros Hl Hm Hs Hi.
  pose proof (minBufferLevel_agrees Math_log m reps s i Hl Hm Hs Hi) as Ha.
  unfold startupPlaceholder.
  destruct (minBufferLevelForIndex Math_log m reps i) as [q | | |];
    try contradiction.
  cbn [agrees] in Ha. cbn [sub neg add].
  pose proof (Math_max_zero (q + - level)) as Hmax.
  split.
  - destruct (Estimate.Math_max (Fin 0) (Fin (q + - level))) as [x | | |];
      try contradiction.
    cbn [agrees] in *. rewrite Hmax.
    assert (E : q + - level == Bola.minBufferLevelForIndex s i - level)
      by (rewrite Ha; ring).
    now rewrite E.
  - unfold Estimate.Math_max, lt, ge. destruct (Qlt_bool 0 (q + - level)) eqn:E.
    + cbn. apply BolaFacts.Qlt_bool_iff in E.
      apply negb_true_iff, BolaFacts.Qlt_bool_false. lra.
    + reflexivity.
Qed.

Lemma scoreStep_agrees (Math_log : Q -> Q) (m : Q)
    (reps : list VideoRepresentation) (s : Bola.BolaState)
    (c : option nat) (level : Q) (x : num * nat) (y : option Q * nat) (i : nat) :
  Bola.finiteLadder Math_log reps = true -> ~ m == 0 ->
  initialised Math_log m reps s ->
  (2 <= length reps)%nat -> (i < length reps)%nat ->
  sameAcc x y ->
  sameAcc (scoreStep Math_log m reps c level x i) (Bola.scoreStep s c level y i).
Proof.
  intros Hl Hm Hs Hlen Hi [Hq Hb].
  unfold scoreStep, Bola.scoreStep. cbv zeta.
  rewrite (score_finite _ _ _ s i level Hl Hm Hs Hlen Hi).
  set (adjQ := match c with
               | Some c0 =>
                   Bola.score s i level
                   * (if (c0 <? i)%nat then Bola.SAFETY_FACTOR_INCREASE
                      else Bola.SAFETY_FACTOR_DECREASE)
               | None => Bola.score s i level
               end).
  assert (Ha : match c with
               | Some c0 =>
                   mul (Fin (Bola.score s i level))
                       (Fin (if (c0 <? i)%nat then Bola.SAFETY_FACTOR_INCREASE
                             else Bola.SAFETY_FACTOR_DECREASE))
               | None => Fin (Bola.score s i level)
               end = Fin adjQ) by (destruct c; reflexivity).
  rewrite Ha.
  destruct y as [[best |] k]; destruct x as [bx kx]; cbn [fst snd] in *; subst.
  - cbn [ge lt]. unfold Qlt_bool. rewrite negb_involutive.
    destruct (Qle_bool best adjQ); split; reflexivity.
  - split; reflexivity.
Qed.

Lemma fold_scoreStep_agrees (Math_log : Q -> Q) (m : Q)
    (reps : list VideoRepresentation) (s : Bola.BolaState)
    (c : option nat) (level : Q) (l : list nat) :
  Bola.finiteLadder Math_log reps = true -> ~ m == 0 ->
  initialised Math_log m reps s ->
  (2 <= length reps)%nat ->
  Forall (fun i => (i < length reps)%nat) l ->
  forall x y, sameAcc x y ->
    sameAcc (fold_left (scoreStep Math_log m reps c level) l x)
            (fold_left (Bola.scoreStep s c level) l y).
Proof.
  intros Hl Hm Hs Hlen. induction l as [| i l IH]; intros Hall x y Hxy.
  - exact Hxy.
  - inversion Hall as [| ? ? Hi Hrest]; subst. cbn [fold_left].
    apply (IH Hrest). now apply scoreStep_agrees.
Qed.

(** On a finite ladder of two representations or more the loop of
    [#getRepresentationFromBufferLevel] leaves the index the module [Bola]
    computes. *)
Lemma bestQuality_agrees (Math_log : Q -> Q) (m : Q)
    (reps : list VideoRepresentation) (s : Bola.BolaState) (level : Q) :
  Bola.finiteLadder Math_log reps = true -> ~ m == 0 ->
  initialised Math_log m reps s ->
  (2 <= length reps)%nat ->
  bestQuality Math_log m reps
    match Bola.currentRepresentation s with
    | Some cur => findIndex (fun r => same_id r cur) reps
    | None => None
    end level
  = Bola.bestQuality s level.
Proof.
  intros Hl Hm Hs Hlen. unfold bestQuality, Bola.bestQuality. cbv zeta.
  assert (Hr : Bola.representations s = reps) by (destruct Hs; assumption).
  rewrite Hr.
  apply (fold_scoreStep_agrees Math_log m reps s _ level
           (seq 0 (length reps)) Hl Hm Hs Hlen).
  - apply Forall_forall. intros i Hin. apply elem_of_seq in Hin. lia.
  - split; reflexivity.
Qed.

(** With a single representation [vp] is infinite or NaN and so is the
    score, but there is one index to choose from and a level of 0 to
    return: the two computations agree there as well. *)
Lemma single_representation_agrees (Math_log : Q -> Q) (m : Q)
    (r : VideoRepresentation) (s : Bola.BolaState) (c : option nat) (level : Q) :
  Bola.representations s = [r] ->
  bestQuality Math_log m [r] c level = O
  /\ Bola.bestQuality s level = O
  /\ minBufferLevelForIndex Math_log m [r] 0 = Fin 0
  /\ Bola.minBufferLevelForIndex s 0 = 0.
Proof.
  intros Hr. unfold bestQuality, Bola.bestQuality. rewrite Hr.
  cbn [length seq fold_left]. unfold scoreStep, Bola.scoreStep. cbv zeta.
  cbn [fst snd].
  split; [destruct (ge _ _); reflexivity |].
  repeat split; reflexivity.
Qed.

(** The state [#initBolaState] returns holds the numbers of its ladder. *)
Lemma initBolaState_initialised (Math_log : Q -> Q) (en : bool) (now : Z)
    (reps : list VideoRepresentation) (a : Bola.BufferAbr) (s : Bola.BolaState) :
  fst (Bola.initBolaState Math_log en now reps a) = Ret s ->
  initialised Math_log (Bola.minBufferLevel a) reps s.
Proof.
  unfold Bola.initBolaState, bind, Assert_assert, get.
  destruct (en && negb (0 <? length reps)%nat); cbn; [discriminate |].
  intros [= <-]. repeat split; reflexivity.
Qed.

Lemma adjustPlaceholder_numbers (env : Bola.Env) (s : Bola.BolaState)
    (r : VideoRepresentation) :
  Bola.representations (Bola.adjustPlaceholder env s r) = Bola.representations s
  /\ Bola.utilities (Bola.adjustPlaceholder env s r) = Bola.utilities s
  /\ Bola.gp (Bola.adjustPlaceholder env s r) = Bola.gp s
  /\ Bola.vp (Bola.adjustPlaceholder env s r) = Bola.vp s.
Proof.
  unfold Bola.adjustPlaceholder. destruct (Qlt_bool _ _); repeat split; reflexivity.
Qed.

Lemma initBolaState_run (Math_log : Q -> Q) (en : bool) (now : Z)
    (reps : list VideoRepresentation) (a : Bola.BufferAbr) :
  (0 < length reps)%nat ->
  exists s0,
    Bola.initBolaState Math_log en now reps a = (Ret s0, a)
    /\ initialised Math_log (Bola.minBufferLevel a) reps s0.
Proof.
  intros Hn. unfold Bola.initBolaState, bind, get, Assert_assert.
  replace (0 <? length reps)%nat with true by (symmetry; now apply Nat.ltb_lt).
  rewrite andb_false_r. cbn [negb ret fst snd].
  eexists. split; [reflexivity |]. repeat split; reflexivity.
Qed.

(** The state [setRepresentations] leaves for a ladder that is not empty
    holds the numbers of that ladder. *)
Lemma setRepresentations_initialised (Math_log : Q -> Q) (en : bool)
    (env : Bola.Env) (reps : list VideoRepresentation) (a : Bola.BufferAbr) :
  (0 < length reps)%nat ->
  exists s,
    Bola.bolaState (snd (Bola.setRepresentations Math_log en env reps a)) = Some s
    /\ initialised Math_log (Bola.minBufferLevel a) reps s.
Proof.
  intros Hn.
  destruct (initBolaState_run Math_log en (Bola.nowMs env) reps a Hn)
    as (s0 & Ei & Hinit).
  unfold Bola.setRepresentations, bind, get, Assert_assert.
  replace (0 <? length reps)%nat with true by (symmetry; now apply Nat.ltb_lt).
  rewrite andb_false_r. cbn [negb ret fst snd]. rewrite Ei.
  unfold initialised in *. cbv zeta in Hinit.
  destruct Hinit as (H1 & H2 & H3 & H4).
  assert (Hnum : forall s : Bola.BolaState,
            Bola.representations s = Bola.representations s0 ->
            Bola.utilities s = Bola.utilities s0 ->
            Bola.gp s = Bola.gp s0 -> Bola.vp s = Bola.vp s0 ->
            exists s', Some s = Some s'
              /\ Bola.representations s' = reps
              /\ Bola.utilities s'
                 = map (fun u => u - nth 0 (map (fun r => Math_log (bitrate r)) reps) 0 + 1)
                       (map (fun r => Math_log (bitrate r)) reps)
              /\ Bola.gp s'
                 = (nth (length (map (fun u => u - nth 0 (map (fun r => Math_log (bitrate r)) reps) 0 + 1)
                                     (map (fun r => Math_log (bitrate r)) reps)) - 1)
                        (map (fun u => u - nth 0 (map (fun r => Math_log (bitrate r)) reps) 0 + 1)
                             (map (fun r => Math_log (bitrate r)) reps)) 0 - 1)
                   / (bufferTime (Bola.minBufferLevel a) reps / Bola.minBufferLevel a - 1)
              /\ Bola.vp s'
                 = Bola.minBufferLevel a
                   / ((nth (length (map (fun u => u - nth 0 (map (fun r => Math_log (bitrate r)) reps) 0 + 1)
                                        (map (fun r => Math_log (bitrate r)) reps)) - 1)
                           (map (fun u => u - nth 0 (map (fun r => Math_log (bitrate r)) reps) 0 + 1)
                                (map (fun r => Math_log (bitrate r)) reps)) 0 - 1)
                      / (bufferTime (Bola.minBufferLevel a) reps / Bola.minBufferLevel a - 1))).
  { intros s E1 E2 E3 E4. exists s. rewrite E1, E2, E3, E4.
    repeat split; assumption. }
  clear H1 H2 H3 H4 Ei.
  destruct (Bola.bolaState a) as [sa |];
    [destruct (Bola.currentRepresentation sa) as [prev |] |];
    destruct reps as [| r0 [| r1 rest]]; try (cbn in Hn; lia);
    cbn [negb modify snd Bola.set_bolaState Bola.bolaState];
    try (apply Hnum; reflexivity).
  destruct (List.find _ _); [apply Hnum; reflexivity |].
  destruct (negb _); [| apply Hnum; reflexivity].
  match goal with
  | |- context [Bola.adjustPlaceholder ?e ?st ?r] =>
      destruct (adjustPlaceholder_numbers e st r) as (E1 & E2 & E3 & E4)
  end.
  apply Hnum; [rewrite E1 | rewrite E2 | rewrite E3 | rewrite E4]; reflexivity.
Qed.

(** *** The states of an admissible sequence *)

Lemma sameNumbers_finiteState (Math_log : Q -> Q) (a a' : Bola.BufferAbr) :
  sameNumbers a a' -> finiteState Math_log a -> finiteState Math_log a'.
Proof.
  unfold sameNumbers, finiteState, initialised, numbers.
  intros [Hm Hn] Hf. rewrite Hm.
  destruct (Bola.bolaState a) as [s |], (Bola.bolaState a') as [s' |];
    try contradiction; try exact I.
  injection Hn as E1 E2 E3 E4. rewrite E1, E2, E3, E4. exact Hf.
Qed.

Lemma sameNumbers_refl (a : Bola.BufferAbr) : sameNumbers a a.
Proof.
  split; [reflexivity |]. destruct (Bola.bolaState a); [reflexivity | exact I].
Qed.

Lemma update_bola_sameNumbers (f : Bola.BolaState -> Bola.BolaState)
    (a : Bola.BufferAbr) :
  (forall s, numbers (f s) = numbers s) ->
  sameNumbers a (snd (Bola.update_bola f a)).
Proof.
  intros Hf. unfold sameNumbers, Bola.update_bola, modify. cbn [snd].
  destruct (Bola.bolaState a) as [s |] eqn:E; cbn; rewrite ?E;
    split; try reflexivity; try exact I. apply Hf.
Qed.

Lemma checkLimit_numbers (a : Bola.BufferAbr) (s : Bola.BolaState) :
  numbers (Bola.checkPlaceholderBufferLimit a s) = numbers s.
Proof.
  unfold Bola.checkPlaceholderBufferLimit. cbv zeta.
  destruct (Qlt_bool _ _); reflexivity.
Qed.

Lemma updatePlaceholder_numbers (env : Bola.Env) (a : Bola.BufferAbr)
    (s : Bola.BolaState) :
  numbers (Bola.updatePlaceholderBuffer env a s) = numbers s.
Proof.
  unfold Bola.updatePlaceholderBuffer. cbv zeta. rewrite checkLimit_numbers.
  destruct (Bola.lastSegmentFinishTimeMs s), (Bola.lastCallTimeMs s); reflexivity.
Qed.

Lemma absorbOverflow_numbers (d : Q) (s : Bola.BolaState) :
  numbers (Bola.absorbOverflow d s) = numbers s.
Proof.
  unfold Bola.absorbOverflow.
  destruct (Qlt_bool 0 d); [destruct (Qle_bool d _) |]; reflexivity.
Qed.

Lemma chooseThroughput_sameNumbers (en : bool) (env : Bola.Env) (a : Bola.BufferAbr) :
  sameNumbers a (snd (Bola.chooseThroughputBasedRepresentation en env a)).
Proof.
  unfold Bola.chooseThroughputBasedRepresentation, Bola.the_bola, bind, get,
    sameNumbers.
  destruct (Bola.bolaState a) as [s |] eqn:Hs; cbn; rewrite ?Hs;
    [| split; [reflexivity | exact I]].
  destruct (Bola.throughputBps env) as [t |]; cbn; rewrite ?Hs;
    [| split; reflexivity].
  destruct (Bola.representations s) as [| first rest] eqn:Er; cbn; rewrite ?Hs;
    [split; reflexivity |].
  destruct (Bola.lastSegmentDurationS s) as [d |];
    [destruct (Qle_bool d (Bola.bufferLevel env)) |];
    cbn; split; try reflexivity; unfold numbers; cbn; rewrite Er; reflexivity.
Qed.

Lemma chooseBuffer_sameNumbers (en : bool) (env : Bola.Env) (a : Bola.BufferAbr) :
  sameNumbers a (snd (Bola.chooseBufferBasedRepresentation en env a)).
Proof.
  unfold Bola.chooseBufferBasedRepresentation, Bola.the_bola, bind, get,
    sameNumbers.
  destruct (Bola.bolaState a) as [s |] eqn:Hs; cbn; rewrite ?Hs;
    [| split; [reflexivity | exact I]].
  unfold Assert_assert.
  destruct (en && negb _); cbn -[Bola.updatePlaceholderBuffer Bola.bestQuality
                                 Bola.absorbOverflow Qmax
                                 Bola.getMaxBufferLevelForRepresentation
                                 Bola.guardOscillation]; rewrite ?Hs;
    [split; reflexivity |].
  pose proof (updatePlaceholder_numbers env a s) as Hu.
  destruct (nth_error _ _) as [sel |];
    cbn -[Bola.updatePlaceholderBuffer Bola.bestQuality Bola.absorbOverflow Qmax
          Bola.getMaxBufferLevelForRepresentation Bola.guardOscillation];
    (split; [reflexivity |]); [| exact Hu].
  rewrite <- Hu.
  match goal with
  | |- context [Bola.absorbOverflow ?d ?s2] =>
      pose proof (absorbOverflow_numbers d s2) as Ha
  end.
  unfold numbers in *. cbn in *. exact Ha.
Qed.

(** One admissible operation keeps the state finite. *)
Lemma finiteState_step (Math_log : Q -> Q) (en : bool) (env : Bola.Env)
    (o : Bola.operation) (a : Bola.BufferAbr) :
  Bola.finiteOperation Math_log o a = true ->
  finiteState Math_log a ->
  finiteState Math_log (snd (Bola.run Math_log en env o a)).
Proof.
  intros Hfin Hst.
  destruct o as [| reps | | | | ref | ref isReplacement | newTarget
                 | minBuffer maxBuffer threshold].
  - (* Choose *)
    rewrite BolaFacts.run_choose_state, BolaFacts.chooseRepresentation_state.
    destruct (Bola.bolaState a) as [s |] eqn:Hs; [| exact Hst].
    destruct (Bola.algorithmState s); [| | exact Hst].
    + apply (sameNumbers_finiteState Math_log a); [| exact Hst].
      apply chooseThroughput_sameNumbers.
    + apply (sameNumbers_finiteState Math_log a); [| exact Hst].
      apply chooseBuffer_sameNumbers.
  - (* SetRepresentations *)
    cbn [Bola.finiteOperation] in Hfin. apply andb_true_iff in Hfin as [Hl Hm].
    apply negb_true_iff, Qeq_bool_neq in Hm.
    destruct (setRepresentations_initialised Math_log en env reps a
                (ladder_nonempty _ _ Hl)) as (s & Es & Hinit).
    pose proof (BolaFacts.setRepresentations_minBufferLevel Math_log en env reps a)
      as Hmin.
    unfold finiteState. cbn [Bola.run]. rewrite Es, Hmin.
    assert (Hr : Bola.representations s = reps) by (destruct Hinit; assumption).
    rewrite Hr. repeat split; try assumption; apply Hinit.
  - (* PlaybackStarted *)
    apply (sameNumbers_finiteState Math_log a); [| exact Hst].
    apply update_bola_sameNumbers. intros s. reflexivity.
  - (* PlaybackSeeked *)
    apply (sameNumbers_finiteState Math_log a); [| exact Hst].
    apply update_bola_sameNumbers. intros s.
    destruct (Bola.algorithmState s); reflexivity.
  - (* BufferEmpty *)
    apply (sameNumbers_finiteState Math_log a); [| exact Hst].
    apply update_bola_sameNumbers. intros s. cbv zeta.
    destruct (Bola.algorithmState _) eqn:E; reflexivity.
  - (* FragmentLoadingStarted *)
    apply (sameNumbers_finiteState Math_log a); [| exact Hst].
    apply update_bola_sameNumbers. intros s. cbv zeta.
    destruct (Bola.mostAdvancedSegmentStart _);
      [destruct (Qlt_bool _ _) |]; reflexivity.
  - (* FragmentLoadingCompleted *)
    apply (sameNumbers_finiteState Math_log a); [| exact Hst].
    apply update_bola_sameNumbers. intros s. destruct ref; reflexivity.
  - (* BufferTargetChanged *)
    cbn [Bola.run]. unfold Bola.onBufferTargetChanged.
    destruct (Qeq_bool newTarget 0); exact Hst.
  - (* UpdateConfig *)
    cbn [Bola.finiteOperation] in Hfin.
    apply negb_true_iff, Qeq_bool_neq in Hfin.
    cbn [Bola.run]. unfold Bola.updateConfig, bind, modify, get, finiteState in *.
    cbn [fst snd Bola.bolaState].
    destruct (Bola.bolaState a) as [s |] eqn:Hs; [| exact I].
    destruct Hst as (Hl & _ & _).
    destruct (initBolaState_run Math_log en (Bola.nowMs env)
                (Bola.representations s)
                (Bola.mkBufferAbr minBuffer maxBuffer threshold
                   (Bola.bufferTarget a) (Some s))
                (ladder_nonempty _ _ Hl)) as (s0 & Ei & Hinit).
    rewrite Ei. cbn [snd Bola.bolaState Bola.set_bolaState Bola.minBufferLevel] in *.
    assert (Hr : Bola.representations s0 = Bola.representations s)
      by (destruct Hinit; assumption).
    change (Bola.representations (Bola.set_algorithmState (Bola.algorithmState s) s0))
      with (Bola.representations s0).
    rewrite Hr. split; [exact Hl |]. split; [exact Hfin |].
    destruct Hinit as (H1 & H2 & H3 & H4). repeat split; assumption.
Qed.

(** Along an admissible sequence every state is finite: its numbers are
    those of a finite ladder, on which the rationals of [Bola] are the
    doubles of the source (the lemmas above). *)
Lemma admissible_finiteState (Math_log : Q -> Q) (en : bool)
    (trace : list (Bola.Env * Bola.operation)) (a : Bola.BufferAbr) :
  Bola.admissible Math_log en trace a = true ->
  finiteState Math_log a ->
  finiteState Math_log (Bola.runAll Math_log en trace a).
Proof.
  revert a. induction trace as [| [env o] rest IH]; intros a Hadm Hst;
    cbn [Bola.runAll Bola.admissible] in *; [exact Hst |].
  cbv zeta in Hadm.
  apply andb_true_iff in Hadm as [Hadm Hrest].
  apply andb_true_iff in Hadm as [Hfin _].
  apply (IH _ Hrest). now apply finiteState_step.
Qed.

Lemma new_controller_finiteState (Math_log : Q -> Q)
    (minBuffer maxBuffer threshold target : Q) :
  finiteState Math_log (Bola.BufferAbr_new minBuffer maxBuffer threshold target).
Proof. exact I. Qed.

(** Two neighbours with the same bitrate: the ladder is not finite.  When
    the STARTUP choose selects the second of the two (index 2, with an
    estimate of 3 Mbit/s), [#getMinBufferLevelForRepresentation] divides 0
    by 0 and the placeholder becomes NaN, which is not at least 0.  In [Q]
    the same choose stores 0. *)
Lemma equal_neighbours_give_NaN :
  Bola.finiteLadder Bola.ln_table Bola.ladder_twins = false
  /\ minBufferLevelForIndex Bola.ln_table 10 Bola.ladder_twins 2 = NaN
  /\ startupPlaceholder Bola.ln_table 10 Bola.ladder_twins 2 0 = NaN
  /\ ge (startupPlaceholder Bola.ln_table 10 Bola.ladder_twins 2 0) (Fin 0) = false
  /\ fst (Bola.chooseRepresentation true Bola.env0
            (snd (Bola.setRepresentations Bola.ln_table true Bola.env0
                    Bola.ladder_twins Bola.abr0)))
     = Ret (nth_error Bola.ladder_twins 2)
  /\ Bola.placeholderOf
       (snd (Bola.chooseRepresentation true Bola.env0
               (snd (Bola.setRepresentations Bola.ln_table true Bola.env0
                       Bola.ladder_twins Bola.abr0)))) == 0.
Proof. vm_compute. repeat split. Qed.

(** All bitrates equal: [gp] is 0, [vp] is infinite and every score is NaN,
    so the loop of [#getRepresentationFromBufferLevel] never updates
    [quality] and returns index 0. *)
Lemma equal_bitrates_give_NaN_scores :
  Bola.finiteLadder Bola.ln_table Bola.ladder_flat = false
  /\ agrees (gp Bola.ln_table 10 Bola.ladder_flat) 0
  /\ vp Bola.ln_table 10 Bola.ladder_flat = PInf
  /\ (forall i, (i < 3)%nat -> score Bola.ln_table 10 Bola.ladder_flat i 5 = NaN)
  /\ bestQuality Bola.ln_table 10 Bola.ladder_flat None 5 = O.
Proof.
  split; [vm_compute; reflexivity |].
  split; [vm_compute; reflexivity |].
  split; [vm_compute; reflexivity |].
  split; [| vm_compute; reflexivity].
  intros [| [| [| i]]] Hi; try lia; vm_compute; reflexivity.
Qed.

(** A minBufferLevel of 0: [bufferTime / minBufferLevel] is infinite, [gp]
    is 0 and [vp] is 0 / 0. *)
Lemma zero_minBufferLevel_gives_NaN :
  gp Bola.ln_table 0 Bola.ladder4 = Fin 0
  /\ vp Bola.ln_table 0 Bola.ladder4 = NaN
  /\ minBufferLevelForIndex Bola.ln_table 0 Bola.ladder4 1 = NaN.
Proof. vm_compute. repeat split. Qed.

End BolaNumFacts.

Module AbrFacts.
Import Types Abr.
Local Open Scope Z_scope.

(** Inside the cooldown window the check returns before it reads the playing
    representation or consults any strategy. *)
Lemma checkPlaybackQuality_in_cooldown (en : bool) (env : Reads) (s : Selector) :
  now env - lastSwitchTime (abr s) < switchCooldownPeriod (config (abr s)) ->
  checkPlaybackQuality en env s = (Ret false, s).
Proof.
  intros H. unfold checkPlaybackQuality, bind, get.
  apply Z.ltb_lt in H. rewrite H. reflexivity.
Qed.

(** C1 (as amended).  While [now - lastSwitchTime < switchCooldownPeriod],
    [checkPlaybackQuality] returns false, triggers no event and changes no
    state of the selector or of its strategies: the DroppedFrames strategy is
    not consulted either, so the cooldown has no exception. *)
Theorem cooldown_has_no_exception (en : bool) (env : Reads) (s : Selector) :
  now env - lastSwitchTime (abr s) < switchCooldownPeriod (config (abr s)) ->
  checkPlaybackQuality en env s = (Ret false, s)
  /\ emitted (snd (checkPlaybackQuality en env s)) = emitted s
  /\ droppedFramesAbr (snd (checkPlaybackQuality en env s)) = droppedFramesAbr s.
Proof.
  intros H. rewrite (checkPlaybackQuality_in_cooldown en env s H).
  repeat split.
Qed.

Lemma cooldown_has_no_exception_witness :
  checkPlaybackQuality true reads_3s selector1 = (Ret false, selector1)
  /\ emitted (snd (checkPlaybackQuality true reads_3s selector1)) = []
  /\ droppedFramesAbr (snd (checkPlaybackQuality true reads_3s selector1))
     = droppedFramesAbr selector1.
Proof.
  apply (cooldown_has_no_exception true reads_3s selector1). cbn. lia.
Defined.

(** C1 as stated fails.  Three seconds after the last switch the rendered
    representation has 400 sampled frames, a quarter of them dropped, and no
    downgrade on record; the DroppedFrames strategy on its own would step down
    to the 1000k representation, yet the quality check returns false and
    triggers nothing.  Once the cooldown has passed the same check does
    trigger the downshift. *)
Lemma cooldown_blocks_dropped_frames :
  (now reads_3s - lastSwitchTime (abr selector1)
   <? switchCooldownPeriod (config (abr selector1))) = true
  /\ values (history reads_3s) !! (0, "v3000k"%string) = Some (mkQuality 100 400)
  /\ downgrades (droppedFramesAbr selector1) !! 0 = None
  /\ fst (dropped_chooseRepresentation true reads_3s (droppedFramesAbr selector1))
     = Ret (Some rep_1000k)
  /\ checkPlaybackQuality true reads_3s selector1 = (Ret false, selector1)
  /\ fst (checkPlaybackQuality true reads_6s selector1) = Ret true
  /\ emitted (snd (checkPlaybackQuality true reads_6s selector1))
     = [QUALITY_CHANGE_REQUESTED rep_1000k DroppedFrames].
Proof.
  split; [reflexivity |]. split; [vm_compute; reflexivity |].
  split; [vm_compute; reflexivity |]. split; [vm_compute; reflexivity |].
  split; [apply checkPlaybackQuality_in_cooldown; cbn; lia |].
  split; vm_compute; reflexivity.
Qed.

End AbrFacts.

Module StallFacts.
Import Types Stall.
Local Open Scope Z_scope.

Lemma existsb_eqb_In (n : Z) (l : list Z) : existsb (Z.eqb n) l = true <-> In n l.
Proof.
  rewrite existsb_exists. split.
  - intros [m [Hin Heq]]. apply Z.eqb_eq in Heq. now subst.
  - intros Hin. exists n. split; [exact Hin | apply Z.eqb_refl].
Qed.

(** When the download callback of the gap controller answers yes: some
    download is active, a video representation is set, and the segment the
    index returns for the position is an active download or waits in the
    append queue. *)
Lemma gap_isDownloadingForPosition_true (v : PipelineView) (time : Q) :
  gap_isDownloadingForPosition v time = true <->
  currentSegmentDownloads v <> []
  /\ exists rep seg,
       currentVideoRepresentation v = Some rep
       /\ getSegmentAtTime (segmentIndex rep) time = Some seg
       /\ (In (segmentNumber seg) (currentSegmentDownloads v)
           \/ In (segmentNumber seg) (appendQueueNumbers v)).
Proof.
  unfold gap_isDownloadingForPosition.
  destruct (currentSegmentDownloads v) as [| n l] eqn:Hd.
  - split; [discriminate | intros [H _]; congruence].
  - destruct (currentVideoRepresentation v) as [rep |].
    + destruct (getSegmentAtTime (segmentIndex rep) time) as [seg |] eqn:Hs.
      * rewrite orb_true_iff, !existsb_eqb_In. split.
        -- intros H. split; [discriminate |]. exists rep, seg. auto.
        -- intros [_ (rep' & seg' & Hr & Hs' & H)].
           injection Hr as <-. rewrite Hs in Hs'. injection Hs' as <-. exact H.
      * split; [discriminate |].
        intros [_ (rep' & seg' & Hr & Hs' & _)].
        injection Hr as <-. congruence.
    + split; [discriminate |]. intros [_ (rep' & seg' & Hr & _)]. discriminate.
Qed.

(** C2 (as amended).  A stall candidate (not paused, seeking or ended, past
    the grace period of the context, no progress over at least one check
    interval) is suppressed when the playhead position is buffered and a
    download covers it: the sample is recorded as "not stalled", the count of
    consecutive stalled samples restarts at 0 and no stall is reported. *)
Theorem buffered_download_suppresses (x : Sample) (d : StallDetector) :
  paused (video x) || seeking (video x) || ended (video x) = false ->
  GRACE_PERIODS (currentContext d) <= nowMs x - contextStartTime d ->
  noProgress x d = true ->
  call (isPositionBuffered d) x (currentTime (video x)) = true ->
  call (isDownloadingForPosition d) x (currentTime (video x)) = true ->
  fst (detectStall x d) = false
  /\ consecutiveStallChecks (snd (detectStall x d)) = 0
  /\ isStalled (snd (detectStall x d)) = false
  /\ stallHistory (snd (detectStall x d))
     = updateStallHistory false (stallHistory d) (historySize d).
Proof.
  intros Hplay Hgrace Hcand Hbuf Hdl.
  unfold noProgress in Hcand. apply andb_true_iff in Hcand as [Hint Hdelta].
  unfold detectStall. rewrite Hplay.
  replace (nowMs x - contextStartTime d <? GRACE_PERIODS (currentContext d))
    with false by (symmetry; apply Z.ltb_ge; exact Hgrace).
  cbn [lastCheckTime lastPlaybackTime stallHistory historySize].
  rewrite Hint, Hdelta.
  unfold shouldIgnoreStall. cbn [isPositionBuffered isDownloadingForPosition].
  rewrite Hbuf, Hdl. cbn. repeat split.
Qed.

Lemma buffered_download_suppresses_witness :
  fst (detectStall sample_buffered (detector_in NORMAL_PLAYBACK 0)) = false
  /\ consecutiveStallChecks
       (snd (detectStall sample_buffered (detector_in NORMAL_PLAYBACK 0))) = 0.
Proof.
  destruct (buffered_download_suppresses sample_buffered
              (detector_in NORMAL_PLAYBACK 0))
    as (H1 & H2 & _); try (vm_compute; reflexivity).
  - vm_compute. discriminate.
  - split; assumption.
Defined.

(** C2 as stated fails.  The playhead waits at 30 s, outside the buffered
    range [0, 28], while segment 7 covering [28, 32) is being downloaded.  In
    NORMAL_PLAYBACK (network loading), and in BUFFERING past its grace period
    (network idle), the candidate is not suppressed: it counts as the third
    consecutive stalled sample and the stall is confirmed. *)
Lemma unbuffered_download_not_suppressed :
  noProgress sample_normal (detector_in NORMAL_PLAYBACK 0) = true
  /\ gap_isPositionBuffered (view sample_normal) 30 = false
  /\ gap_isDownloadingForPosition (view sample_normal) 30 = true
  /\ shouldIgnoreStall sample_normal (detector_in NORMAL_PLAYBACK 0) 30 = false
  /\ fst (detectStall sample_normal (detector_in NORMAL_PLAYBACK 0)) = true
  /\ consecutiveStallChecks
       (snd (detectStall sample_normal (detector_in NORMAL_PLAYBACK 0))) = 3
  /\ noProgress sample_buffering (detector_in BUFFERING 50000) = true
  /\ (GRACE_PERIODS BUFFERING <=? nowMs sample_buffering - 50000) = true
  /\ shouldIgnoreStall sample_buffering (detector_in BUFFERING 50000) 30 = false
  /\ fst (detectStall sample_buffering (detector_in BUFFERING 50000)) = true.
Proof. vm_compute. repeat split. Qed.

End StallFacts.

Module PipelineFacts.
Import Pipeline.
Local Open Scope Q_scope.

Lemma sync_keeps_sourceBuffer (c : BufferController) :
  sourceBuffer (syncSegmentTrackingWithBuffer c) = sourceBuffer c.
Proof. reflexivity. Qed.

(** C5.  A run of the quota-exceeded handler that is not stopped by the
    reentrancy guard and finds the sink present and idle computes the new
    critical level as the existing critical level (the buffer level when
    there is none) times the correction factor 0.8, raised to at least 10 s,
    installs it as [bufferingTarget] and triggers BUFFER_TARGET_CHANGED with
    that value.  At a buffer level of 70 s with no critical level the value
    is 56 s. *)
Theorem quota_sets_critical_level
    (retryCount : Z) (c : BufferController) (sb : SourceBuffer) :
  quotaExceededInProgress c = false ->
  sourceBuffer c = Some sb ->
  updating sb = false ->
  quotaExceededCorrectionFactor (config c) == 8 # 10 ->
  let base := match criticalLevel (state c) with
              | Some critical => critical
              | None => level (state c)
              end in
  let c' := snd (handleQuotaExceeded retryCount c) in
  fst (handleQuotaExceeded retryCount c) = Recovering
  /\ exists target : Q,
       target == Qmax 10 (base * (8 # 10))
       /\ criticalLevel (state c') = Some target
       /\ bufferingTarget (config c') = target
       /\ emitted c' = emitted c ++ [BUFFER_TARGET_CHANGED target]
       /\ (criticalLevel (state c) = None -> level (state c) == 70 -> target == 56).
Proof.
  intros Hflag Hsb Hidle Hfactor. cbv zeta.
  unfold handleQuotaExceeded. cbn [quotaExceededInProgress syncSegmentTrackingWithBuffer
    set_bufferedSegments set_quotaExceededInProgress sourceBuffer].
  rewrite Hflag, Hsb, Hidle. cbn [fst snd]. split; [reflexivity |].
  exists (newCriticalLevel c).
  split; [| split; [reflexivity | split; [reflexivity | split; [reflexivity |]]]].
  - unfold newCriticalLevel.
    destruct (criticalLevel (state c)); rewrite Hfactor; reflexivity.
  - intros Hnone Hlevel. unfold newCriticalLevel.
    rewrite Hnone, Hfactor, Hlevel. reflexivity.
Qed.

Lemma quota_sets_critical_level_witness :
  fst (handleQuotaExceeded 0 controller_70s) = Recovering
  /\ exists target : Q,
       target == 56
       /\ bufferingTarget (config (snd (handleQuotaExceeded 0 controller_70s))) = target
       /\ emitted (snd (handleQuotaExceeded 0 controller_70s))
          = [BUFFER_TARGET_CHANGED target].
Proof.
  destruct (quota_sets_critical_level 0 controller_70s
              (mkSourceBuffer false [(20, 96)]) eq_refl eq_refl eq_refl
              (Qeq_refl _))
    as (H1 & target & H2 & H3 & H4 & H5 & H6).
  split; [exact H1 |]. exists target.
  split; [apply H6; reflexivity |]. split; [exact H4 | exact H5].
Defined.

(** C6 (as amended).  While [quotaExceededInProgress] is true a further call
    of the handler runs the buffered-segments sync and then returns: the
    download, append and replacement queues, the segment pointers, the
    critical level, the target, the events and the timers are unchanged, and
    the buffered-segments map keeps exactly the entries that overlap a range
    of the sink.  When every entry overlaps one, the call changes nothing. *)
Theorem quota_reentry_only_syncs (retryCount : Z) (c : BufferController) :
  quotaExceededInProgress c = true ->
  let c' := snd (handleQuotaExceeded retryCount c) in
  fst (handleQuotaExceeded retryCount c) = AlreadyInProgress
  /\ bufferedSegments c'
     = List.filter (inBuffer (getAllBufferRanges c)) (bufferedSegments c)
  /\ downloadPipeline c' = downloadPipeline c
  /\ appendQueue c' = appendQueue c
  /\ replacementQueue c' = replacementQueue c
  /\ replacementsInProgress c' = replacementsInProgress c
  /\ nextSegmentToAppend c' = nextSegmentToAppend c
  /\ nextSegmentToDownload c' = nextSegmentToDownload c
  /\ state c' = state c
  /\ config c' = config c
  /\ sourceBuffer c' = sourceBuffer c
  /\ quotaExceededInProgress c' = true
  /\ emitted c' = emitted c
  /\ cancelled c' = cancelled c
  /\ timers c' = timers c
  /\ (forallb (inBuffer (getAllBufferRanges c)) (bufferedSegments c) = true -> c' = c).
Proof.
  intros Hflag. cbv zeta. unfold handleQuotaExceeded.
  cbn [quotaExceededInProgress syncSegmentTrackingWithBuffer set_bufferedSegments].
  rewrite Hflag. cbn [fst snd].
  repeat (split; [first [reflexivity | exact Hflag] |]).
  intros Hall. unfold syncSegmentTrackingWithBuffer.
  rewrite (forallb_filter_id _ _ Hall). destruct c; reflexivity.
Qed.

Lemma quota_reentry_only_syncs_witness :
  fst (handleQuotaExceeded 0 controller_busy) = AlreadyInProgress
  /\ state (snd (handleQuotaExceeded 0 controller_busy)) = state controller_busy
  /\ emitted (snd (handleQuotaExceeded 0 controller_busy)) = [].
Proof.
  destruct (quota_reentry_only_syncs 0 controller_busy eq_refl)
    as (H1 & _ & _ & _ & _ & _ & _ & _ & H2 & _ & _ & _ & H3 & _).
  split; [exact H1 |]. split; [exact H2 | exact H3].
Defined.

(** C6 as stated fails: the sync runs before the reentrancy guard.  With a
    recovery in progress and the range of segment 1 evicted from the sink, a
    second call of the handler removes segment 1 from the buffered-segments
    map. *)
Lemma quota_reentry_drops_stale_segment :
  quotaExceededInProgress controller_busy = true
  /\ bufferedSegments controller_busy
     = [buffered_4s 1 1000000; buffered_4s 22 1000000; buffered_4s 23 1000000]
  /\ fst (handleQuotaExceeded 0 controller_busy) = AlreadyInProgress
  /\ bufferedSegments (snd (handleQuotaExceeded 0 controller_busy))
     = [buffered_4s 22 1000000; buffered_4s 23 1000000].
Proof. repeat split. Qed.

(** *** Replacement candidates *)

Lemma visit_one (c : BufferController) (now threshold : Q)
    (kept replaceable : list BufferedSegmentInfo) (seg : BufferedSegmentInfo) :
  visitSegment c now threshold (kept, replaceable) seg
  = (kept ++ (if keepsSegment now seg then [seg] else []),
     replaceable ++ (if isCandidate c now threshold seg then [seg] else [])).
Proof.
  unfold visitSegment, isCandidate, keepsSegment.
  destruct (Js.Qlt_bool (endTime seg) now),
           (Js.Qlt_bool (startTime seg) threshold),
           (Qle_bool (currentRepresentationBitrate c) (bitrate seg)),
           (isBeingReplaced c seg);
    cbn [negb andb]; rewrite ?app_nil_r; reflexivity.
Qed.

Lemma visit_all (c : BufferController) (now threshold : Q)
    (l kept replaceable : list BufferedSegmentInfo) :
  fold_left (visitSegment c now threshold) l (kept, replaceable)
  = (kept ++ List.filter (keepsSegment now) l,
     replaceable ++ List.filter (isCandidate c now threshold) l).
Proof.
  revert kept replaceable.
  induction l as [| seg l IH]; intros kept replaceable; cbn [fold_left List.filter].
  - now rewrite !app_nil_r.
  - rewrite visit_one, IH.
    destruct (keepsSegment now seg), (isCandidate c now threshold seg);
      rewrite <- ?app_assoc, ?app_nil_r; reflexivity.
Qed.

Lemma insertByStart_In (x y : BufferedSegmentInfo) (l : list BufferedSegmentInfo) :
  In y (insertByStart x l) <-> y = x \/ In y l.
Proof.
  induction l as [| z l IH]; cbn.
  - intuition.
  - destruct (Qle_bool (startTime x) (startTime z)); cbn; [intuition |].
    rewrite IH. intuition.
Qed.

Lemma sortByStart_In (y : BufferedSegmentInfo) (l : list BufferedSegmentInfo) :
  In y (sortByStart l) <-> In y l.
Proof.
  induction l as [| x l IH]; cbn; [reflexivity |].
  rewrite insertByStart_In, IH. intuition.
Qed.

Lemma insertByStart_sorted (x : BufferedSegmentInfo) (l : list BufferedSegmentInfo) :
  Sorted startsBefore l -> Sorted startsBefore (insertByStart x l).
Proof.
  induction l as [| y l IH]; intros Hs; cbn.
  - repeat constructor.
  - destruct (Qle_bool (startTime x) (startTime y)) eqn:E.
    + constructor; [assumption |]. constructor. now apply Qle_bool_iff.
    + assert (Hyx : startTime y <= startTime x).
      { apply Qlt_le_weak, Qnot_le_lt. intros H.
        apply Qle_bool_iff in H. congruence. }
      inversion Hs as [| ? ? Hs' Hhd]; subst.
      constructor; [apply IH; assumption |].
      destruct l as [| z l]; cbn.
      * constructor. exact Hyx.
      * destruct (Qle_bool (startTime x) (startTime z)); constructor;
          [exact Hyx | now inversion Hhd].
Qed.

Lemma sortByStart_sorted (l : list BufferedSegmentInfo) :
  Sorted startsBefore (sortByStart l).
Proof.
  induction l as [| x l IH]; cbn; [constructor | now apply insertByStart_sorted].
Qed.

(** What [#findReplaceableSegments] returns: the tracked segments that do not
    end before the playback time, start at or after [currentTime + 3 * 1.5],
    have a bitrate below the current one and are not being replaced, ordered
    by start time; segments that ended before the playback time leave the
    map. *)
Lemma findReplaceableSegments_spec (p : Playback) (c : BufferController)
    (r : Types.VideoRepresentation) :
  currentRepresentation p = Some r ->
  exists l : list BufferedSegmentInfo,
    findReplaceableSegments p c
    = (Ret l, set_bufferedSegments
                (List.filter (keepsSegment (currentTime p)) (bufferedSegments c)) c)
    /\ Sorted startsBefore l
    /\ forall seg, In seg l <->
         In seg (bufferedSegments c)
         /\ isCandidate c (currentTime p) (safeReplacementThreshold p c) seg = true.
Proof.
  intros Hr. unfold findReplaceableSegments, getCurrentRepresentation, bind, get.
  rewrite Hr. cbn [ret]. rewrite visit_all. cbn [app put].
  eexists. split; [reflexivity |]. split; [apply sortByStart_sorted |].
  intros seg. rewrite sortByStart_In. apply filter_In.
Qed.

(** C9, evaluated on the code.  The current representation has 4 s segments,
    so the claimed threshold is [currentTime + 4 * 1.5] = 9 s at a playback
    time of 3 s; the code uses the constant 3 for the segment duration, a
    threshold of 7.5 s, and returns the segment that starts at 8 s as a
    replacement candidate. *)
Theorem replacement_threshold_ignores_segment_duration :
  forallb (fun ref => Qeq_bool (Types.duration ref) 4)
          (Types.segmentIndex Stall.rep_4s) = true
  /\ currentRepresentation playback_3s = Some Stall.rep_4s
  /\ startTime (buffered_4s 2 1000000)
     < currentTime playback_3s
       + 4 * replacementSafetyFactor (config controller_upswitch)
  /\ safeReplacementThreshold playback_3s controller_upswitch == 75 # 10
  /\ fst (findReplaceableSegments playback_3s controller_upswitch)
     = Ret [buffered_4s 2 1000000]
  /\ fst (shouldDownloadReplacement playback_3s controller_upswitch)
     = Ret (Some (buffered_4s 2 1000000)).
Proof. vm_compute. repeat split. Qed.

(** In the fast-switch scenario the constant gives the same answer as the
    segment duration would: segments 42 to 50 are candidates, 41 is not, and
    segment 42 is dispatched first. *)
Example fast_switch_scenario :
  map segmentNumber
      (match fst (findReplaceableSegments playback_S5 controller_S5) with
       | Ret l => l
       | Throw _ => []
       end)
  = [42; 43; 44; 45; 46; 47; 48; 49; 50]%Z
  /\ fst (shouldDownloadReplacement playback_S5 controller_S5)
     = Ret (Some (buffered_4s 42 1000000)).
Proof. vm_compute. repeat split. Qed.

End PipelineFacts.

Module IndexFacts.
Import Types Index.
Local Open Scope Z_scope.

Lemma Qlt_bool_true (a b : Q) : Js.Qlt_bool a b = true <-> (a < b)%Q.
Proof.
  unfold Js.Qlt_bool. rewrite negb_true_iff, <- not_true_iff_false, Qle_bool_iff.
  split; [apply Qnot_le_lt | apply Qlt_not_le].
Qed.

Lemma Qlt_bool_not (a b : Q) : Js.Qlt_bool a b = false <-> (b <= a)%Q.
Proof. unfold Js.Qlt_bool. rewrite negb_false_iff. apply Qle_bool_iff. Qed.

(** [find] returns the first element that passes the test. *)
Lemma find_first {A} (p : A -> bool) (l : list A) (k : nat) (x : A) :
  (forall i y, (i < k)%nat -> nth_error l i = Some y -> p y = false) ->
  nth_error l k = Some x -> p x = true ->
  List.find p l = Some x.
Proof.
  revert k. induction l as [| a l IH]; intros k Hlt Hk Hp.
  - destruct k; discriminate.
  - destruct k as [| k]; cbn in *.
    + injection Hk as ->. now rewrite Hp.
    + rewrite (Hlt O a (Nat.lt_0_succ k) eq_refl).
      apply (IH k); [| assumption | assumption].
      intros i y Hi Hy. apply (Hlt (S i) y); [lia | exact Hy].
Qed.

Lemma find_nothing {A} (p : A -> bool) (l : list A) :
  (forall i y, nth_error l i = Some y -> p y = false) -> List.find p l = None.
Proof.
  induction l as [| a l IH]; intros H; [reflexivity |].
  cbn. rewrite (H O a eq_refl). apply IH.
  intros i y Hy. exact (H (S i) y Hy).
Qed.

(** The binary search, on a well-formed index and a window that has only
    references ending by [time] on its left and only references starting
    after [time] on its right, finds the first reference that ends after
    [time]. *)
Lemma searchSegment_first (refs : list SegmentReference) (time : Q) :
  wellFormed refs ->
  forall (fuel : nat) (left right : Z),
  0 <= left -> right < Z.of_nat (length refs) -> left <= right + 1 ->
  right - left + 1 < Z.of_nat fuel ->
  (forall i r, Z.of_nat i < left -> nth_error refs i = Some r ->
               (endTime r <= time)%Q) ->
  (forall i r, right < Z.of_nat i -> nth_error refs i = Some r ->
               (time < startTime r)%Q) ->
  searchSegment refs time fuel left right
  = List.find (fun r => Js.Qlt_bool time (endTime r)) refs.
Proof.
  intros [Hpos Hord].
  induction fuel as [| fuel IH]; intros left right Hl Hr Hwin Hfuel Hbefore Hafter;
    [lia |].
  rewrite TypesFacts.searchSegment_step.
  destruct (left <=? right) eqn:E.
  - apply Z.leb_le in E.
    assert (Hmid : left <= (left + right) / 2 <= right).
    { split; [apply Z.div_le_lower_bound | apply Z.div_le_upper_bound]; lia. }
    set (mid := (left + right) / 2) in *.
    destruct (nth_error refs (Z.to_nat mid)) as [ref |] eqn:Eref.
    2:{ apply nth_error_None in Eref. lia. }
    destruct (Qle_bool (startTime ref) time && Js.Qlt_bool time (endTime ref)) eqn:Ein.
    + apply andb_true_iff in Ein. destruct Ein as [Hs He].
      apply Qle_bool_iff in Hs.
      symmetry. apply (find_first _ refs (Z.to_nat mid) ref); [| exact Eref | exact He].
      intros i y Hi Hy. apply Qlt_bool_not.
      apply Qle_trans with (startTime ref); [| exact Hs].
      apply (Hord i (Z.to_nat mid) y ref Hi Hy Eref).
    + destruct (Js.Qlt_bool time (startTime ref)) eqn:Elt.
      * apply Qlt_bool_true in Elt.
        apply IH; try lia; [exact Hbefore |].
        intros i r Hi Hr'.
        destruct (Z.eq_dec (Z.of_nat i) mid) as [Heq | Hne].
        -- replace i with (Z.to_nat mid) in Hr' by lia.
           rewrite Eref in Hr'. injection Hr' as <-. exact Elt.
        -- destruct (Z_lt_le_dec right (Z.of_nat i)) as [Hgt | Hle].
           ++ exact (Hafter i r Hgt Hr').
           ++ apply Qlt_le_trans with (startTime ref); [exact Elt |].
              apply Qle_trans with (endTime ref).
              ** apply Qlt_le_weak. exact (Hpos _ _ Eref).
              ** apply (Hord (Z.to_nat mid) i ref r); [lia | exact Eref | exact Hr'].
      * apply Qlt_bool_not in Elt.
        assert (Hend : (endTime ref <= time)%Q).
        { apply andb_false_iff in Ein. destruct Ein as [Hs | He].
          - apply not_true_iff_false in Hs. rewrite Qle_bool_iff in Hs. contradiction.
          - apply Qlt_bool_not in He. exact He. }
        apply IH; try lia; [| exact Hafter].
        intros i r Hi Hr'.
        destruct (Z.eq_dec (Z.of_nat i) mid) as [Heq | Hne].
        -- replace i with (Z.to_nat mid) in Hr' by lia.
           rewrite Eref in Hr'. injection Hr' as <-. exact Hend.
        -- destruct (Z_lt_le_dec (Z.of_nat i) left) as [Hlt | Hge].
           ++ exact (Hbefore i r Hlt Hr').
           ++ apply Qle_trans with (startTime ref); [| exact Elt].
              apply (Hord i (Z.to_nat mid) r ref); [lia | exact Hr' | exact Eref].
  - apply Z.leb_gt in E.
    assert (left = right + 1) by lia. subst left.
    destruct (nth_error refs (Z.to_nat (right + 1))) as [ref |] eqn:Eref.
    + symmetry. apply (find_first _ refs (Z.to_nat (right + 1)) ref);
        [| exact Eref |].
      * intros i y Hi Hy. apply Qlt_bool_not. apply (Hbefore i y); [lia | exact Hy].
      * apply Qlt_bool_true. apply Qlt_trans with (startTime ref).
        -- apply (Hafter (Z.to_nat (right + 1)) ref); [lia | exact Eref].
        -- exact (Hpos _ _ Eref).
    + symmetry. apply find_nothing. intros i y Hy.
      apply Qlt_bool_not. apply (Hbefore i y); [| exact Hy].
      apply nth_error_None in Eref.
      assert (i < length refs)%nat by (apply nth_error_Some; congruence). lia.
Qed.

(** On a well-formed index [getSegmentAtTime] returns the first reference
    that ends after the time. *)
Lemma getSegmentAtTime_find (refs : list SegmentReference) (time : Q) :
  wellFormed refs ->
  getSegmentAtTime refs time
  = List.find (fun r => Js.Qlt_bool time (endTime r)) refs.
Proof.
  intros Hwf. unfold getSegmentAtTime.
  apply searchSegment_first; [assumption | lia | lia | lia | lia | |].
  - intros i r Hi _. lia.
  - intros i r Hi Hr.
    assert (i < length refs)%nat by (apply nth_error_Some; congruence). lia.
Qed.

Lemma find_same {A} (p q : A -> bool) (l : list A) :
  (forall x, In x l -> p x = q x) -> List.find p l = List.find q l.
Proof.
  induction l as [| a l IH]; intros H; [reflexivity |].
  cbn. rewrite (H a (or_introl eq_refl)).
  destruct (q a); [reflexivity |]. apply IH. intros x Hx. apply H. now right.
Qed.

(** *** The index of a duration-based template *)

Lemma durationReferences_length (d T : Q) (n : Z) :
  length (durationReferences true d T n) = Z.to_nat n.
Proof. unfold durationReferences. now rewrite length_map, length_seq. Qed.

Lemma durationReferences_nth (d T : Q) (n : Z) (i : nat) :
  (i < Z.to_nat n)%nat ->
  nth_error (durationReferences true d T n) i
  = Some (mkSegRef (Z.of_nat i + 1) (inject_Z (Z.of_nat i) * d)
                   (Qmin (inject_Z (Z.of_nat i + 1) * d) T)).
Proof.
  intros Hi. unfold durationReferences.
  rewrite nth_error_map, nth_error_seq.
  apply Nat.ltb_lt in Hi. rewrite Hi. reflexivity.
Qed.

Lemma durationReferences_inv (d T : Q) (n : Z) (i : nat) (r : SegmentReference) :
  nth_error (durationReferences true d T n) i = Some r ->
  (i < Z.to_nat n)%nat
  /\ r = mkSegRef (Z.of_nat i + 1) (inject_Z (Z.of_nat i) * d)
                  (Qmin (inject_Z (Z.of_nat i + 1) * d) T).
Proof.
  intros H.
  assert (Hi : (i < Z.to_nat n)%nat).
  { rewrite <- (durationReferences_length d T n). apply nth_error_Some. congruence. }
  split; [exact Hi |].
  rewrite (durationReferences_nth d T n i Hi) in H. now injection H.
Qed.

Lemma Qdiv_lt_mult (a b c : Q) : (0 < c -> a < b / c -> a * c < b)%Q.
Proof.
  intros Hc H. apply (Qmult_lt_r _ _ c Hc) in H.
  assert (E : (b / c * c == b)%Q).
  { field. intros H0. rewrite H0 in Hc. exact (Qlt_irrefl 0 Hc). }
  now rewrite E in H.
Qed.

Lemma Qdiv_le_mult_r (a b c : Q) : (0 < c -> a <= b / c -> a * c <= b)%Q.
Proof.
  intros Hc H. apply (Qmult_le_r _ _ c Hc) in H.
  assert (E : (b / c * c == b)%Q).
  { field. intros H0. rewrite H0 in Hc. exact (Qlt_irrefl 0 Hc). }
  now rewrite E in H.
Qed.

Lemma Qdiv_lt_mult_r (a b c : Q) : (0 < c -> a / c < b -> a < b * c)%Q.
Proof.
  intros Hc H. apply (Qmult_lt_r _ _ c Hc) in H.
  assert (E : (a / c * c == a)%Q).
  { field. intros H0. rewrite H0 in Hc. exact (Qlt_irrefl 0 Hc). }
  now rewrite E in H.
Qed.

Lemma Qdiv_le_mult (a b c : Q) : (0 < c -> a / c <= b -> a <= b * c)%Q.
Proof.
  intros Hc H. apply (Qmult_le_r _ _ c Hc) in H.
  assert (E : (a / c * c == a)%Q).
  { field. intros H0. rewrite H0 in Hc. exact (Qlt_irrefl 0 Hc). }
  now rewrite E in H.
Qed.

(** Below the last segment, [i * d] is before the end of the presentation. *)
Lemma before_total (d T : Q) (i : Z) :
  (0 < d)%Q -> i <= Qceiling (T / d) - 1 -> (inject_Z i * d < T)%Q.
Proof.
  intros Hd Hi.
  apply Qle_lt_trans with (inject_Z (Qceiling (T / d) - 1) * d)%Q.
  - apply Qmult_le_compat_r; [| apply Qlt_le_weak; exact Hd].
    rewrite <- Zle_Qle. exact Hi.
  - apply Qdiv_lt_mult; [exact Hd | apply Qceiling_lt].
Qed.

Lemma durationReferences_wellFormed (d T : Q) :
  (0 < d)%Q ->
  wellFormed (durationReferences true d T (Qceiling (T / d))).
Proof.
  intros Hd. split.
  - intros i r Hr. apply durationReferences_inv in Hr. destruct Hr as [Hi ->].
    cbn [startTime endTime]. apply Q.min_glb_lt.
    + apply Qmult_lt_compat_r; [exact Hd |]. rewrite <- Zlt_Qlt. lia.
    + apply before_total; [exact Hd | lia].
  - intros i j a b Hij Ha Hb.
    apply durationReferences_inv in Ha. destruct Ha as [Hi ->].
    apply durationReferences_inv in Hb. destruct Hb as [Hj ->].
    cbn [startTime endTime].
    apply Qle_trans with (inject_Z (Z.of_nat i + 1) * d)%Q; [apply Q.le_min_l |].
    apply Qmult_le_compat_r; [| apply Qlt_le_weak; exact Hd].
    rewrite <- Zle_Qle. lia.
Qed.

(** What [buildSegmentIndex] returns for a duration-based template. *)
Lemma buildSegmentIndex_duration (ceilOfQuotient : Q -> Q -> Z)
    (info : SegmentTemplateInfo) (T ts du : Q) :
  segmentTimeline info = None ->
  truthyString (media info) = true ->
  timescale info = Some ts -> (0 < ts)%Q ->
  duration info = Some du -> (0 < du)%Q ->
  exists startNumber',
    buildSegmentIndex ceilOfQuotient info T
    = Some (durationReferences true (du / ts) T (ceilOfQuotient T (du / ts)%Q),
            ceilOfQuotient T (du / ts)%Q + startNumber' - 1, startNumber')
    /\ (0 < du / ts)%Q.
Proof.
  intros Htl Hm Hts Hts0 Hdu Hdu0.
  unfold buildSegmentIndex. rewrite Hts, Hdu, Htl, Hm. cbn [truthyQ].
  assert (E1 : Qeq_bool ts 0 = false).
  { apply not_true_iff_false. intros H. apply Qeq_bool_iff in H.
    rewrite H in Hts0. exact (Qlt_irrefl 0 Hts0). }
  assert (E2 : Qeq_bool du 0 = false).
  { apply not_true_iff_false. intros H. apply Qeq_bool_iff in H.
    rewrite H in Hdu0. exact (Qlt_irrefl 0 Hdu0). }
  rewrite E1, E2. eexists. split; [reflexivity |].
  apply Qlt_shift_div_l; [exact Hts0 |]. now rewrite Qmult_0_l.
Qed.

(** X1.  On a well-formed index (every reference has a positive length and
    ends no later than the next one starts) [getSegmentAtTime] returns the
    reference that contains the time, whenever there is one. *)
Theorem getSegmentAtTime_containing
    (refs : list SegmentReference) (time : Q) (r : SegmentReference) :
  wellFormed refs ->
  In r refs ->
  (startTime r <= time)%Q -> (time < endTime r)%Q ->
  getSegmentAtTime refs time = Some r.
Proof.
  intros Hwf Hin Hs He.
  rewrite (getSegmentAtTime_find refs time Hwf).
  apply In_nth_error in Hin. destruct Hin as [k Hk].
  apply (find_first _ refs k r); [| exact Hk | now apply Qlt_bool_true].
  intros i y Hi Hy. apply Qlt_bool_not.
  apply Qle_trans with (startTime r); [| exact Hs].
  destruct Hwf as [_ Hord]. exact (Hord i k y r Hi Hy Hk).
Qed.

(** X2.  On a well-formed index, a time that no reference contains (a gap,
    or a time before the first or after the last reference) is answered with
    the first reference that starts after it, and with null when there is
    none. *)
Theorem getSegmentAtTime_gap (refs : list SegmentReference) (time : Q) :
  wellFormed refs ->
  (forall r, In r refs -> ~ (startTime r <= time /\ time < endTime r)%Q) ->
  getSegmentAtTime refs time
  = List.find (fun r => Js.Qlt_bool time (startTime r)) refs.
Proof.
  intros Hwf Hgap.
  rewrite (getSegmentAtTime_find refs time Hwf).
  apply find_same. intros r Hr.
  destruct (Js.Qlt_bool time (startTime r)) eqn:E.
  - apply Qlt_bool_true in E. apply Qlt_bool_true.
    apply In_nth_error in Hr. destruct Hr as [k Hk].
    destruct Hwf as [Hpos _]. apply Qlt_trans with (startTime r); [exact E |].
    exact (Hpos k r Hk).
  - apply Qlt_bool_not in E. apply Qlt_bool_not.
    destruct (Qlt_le_dec time (endTime r)) as [Hlt | Hle]; [| exact Hle].
    exfalso. apply (Hgap r Hr). split; assumption.
Qed.

Lemma getSegmentAtTime_containing_witness :
  getSegmentAtTime index_30s 9 = nth_error index_30s 2.
Proof.
  apply getSegmentAtTime_containing.
  - apply durationReferences_wellFormed. reflexivity.
  - right. right. left. reflexivity.
  - vm_compute. discriminate.
  - reflexivity.
Defined.

Lemma getSegmentAtTime_gap_witness :
  getSegmentAtTime index_30s 31
  = List.find (fun r => Js.Qlt_bool 31 (startTime r)) index_30s.
Proof.
  apply getSegmentAtTime_gap.
  - apply durationReferences_wellFormed. reflexivity.
  - intros r Hr [_ He].
    assert (Hall : Forall (fun r => (endTime r <= 31)%Q) index_30s).
    { repeat constructor; vm_compute; discriminate. }
    exact (Qlt_not_le _ _ He (proj1 (List.Forall_forall _ _) Hall r Hr)).
Defined.

(** X3.  [getSegmentByNumber] answers with a reference of the index that
    carries the number asked for, and with null exactly when no reference of
    the index carries it. *)
Theorem getSegmentByNumber_spec (refs : list SegmentReference) (n : Z) :
  match getSegmentByNumber refs n with
  | Some r => In r refs /\ segmentNumber r = n
  | None => forall r, In r refs -> segmentNumber r <> n
  end.
Proof.
  unfold getSegmentByNumber.
  set (shortcut := match refs with [] => None | _ => _ end).
  assert (Hs : forall r, shortcut = Some r -> In r refs /\ segmentNumber r = n).
  { subst shortcut. intros r. destruct refs as [| first rest]; [discriminate |].
    destruct ((0 <=? n - segmentNumber first)
              && (n - segmentNumber first <? Z.of_nat (length (first :: rest))));
      [| discriminate].
    destruct (nth_error (first :: rest) (Z.to_nat (n - segmentNumber first)))
      as [ref |] eqn:E; [| discriminate].
    destruct (segmentNumber ref =? n) eqn:En; [| discriminate].
    intros H. injection H as <-. split.
    - eapply nth_error_In. exact E.
    - now apply Z.eqb_eq. }
  destruct shortcut as [r |].
  - now apply Hs.
  - destruct (List.find (fun ref => segmentNumber ref =? n) refs) as [r |] eqn:E.
    + apply find_some in E. destruct E as [Hin Hn]. split; [exact Hin |].
      now apply Z.eqb_eq.
    + intros r Hr. apply (find_none _ _ E) in Hr. now apply Z.eqb_neq.
Qed.

(** *** Numbering *)

Lemma positions_S (n : nat) : positions (S n) = positions n ++ [Z.of_nat n + 1].
Proof. unfold positions. rewrite seq_S, map_app. reflexivity. Qed.

Lemma positions_length (n : nat) : length (positions n) = n.
Proof. unfold positions. now rewrite length_map, length_seq. Qed.

Lemma positions_nth (n i : nat) :
  (i < n)%nat -> nth_error (positions n) i = Some (Z.of_nat i + 1).
Proof.
  intros Hi. unfold positions. rewrite nth_error_map, nth_error_seq.
  apply Nat.ltb_lt in Hi. now rewrite Hi.
Qed.

(** An index numbered 1, 2, ..., n resolves a number by position. *)
Lemma getSegmentByNumber_positions (refs : list SegmentReference) (k : Z) :
  map segmentNumber refs = positions (length refs) ->
  getSegmentByNumber refs k
  = if (1 <=? k) && (k <=? Z.of_nat (length refs))
    then nth_error refs (Z.to_nat (k - 1)) else None.
Proof.
  intros Hnum.
  assert (Hat : forall i r, nth_error refs i = Some r -> segmentNumber r = Z.of_nat i + 1).
  { intros i r Hr.
    assert (Hi : (i < length refs)%nat) by (apply nth_error_Some; congruence).
    pose proof (map_nth_error segmentNumber i refs Hr) as Hm.
    rewrite Hnum, (positions_nth _ _ Hi) in Hm. now injection Hm. }
  unfold getSegmentByNumber.
  destruct refs as [| first rest].
  { cbn [List.find]. destruct ((1 <=? k) && (k <=? Z.of_nat (length [])));
      [| reflexivity].
    now destruct (Z.to_nat (k - 1)). }
  rewrite (Hat O first eq_refl). change (Z.of_nat 0 + 1) with 1.
  destruct ((1 <=? k) && (k <=? Z.of_nat (length (first :: rest)))) eqn:E.
  - apply andb_true_iff in E. destruct E as [E1 E2].
    apply Z.leb_le in E1, E2.
    replace ((0 <=? k - 1) && (k - 1 <? Z.of_nat (length (first :: rest)))) with true
      by (symmetry; apply andb_true_iff; split; [apply Z.leb_le | apply Z.ltb_lt]; lia).
    destruct (nth_error (first :: rest) (Z.to_nat (k - 1))) as [ref |] eqn:Eref.
    + rewrite (Hat _ _ Eref).
      replace (Z.of_nat (Z.to_nat (k - 1)) + 1 =? k) with true
        by (symmetry; apply Z.eqb_eq; lia).
      reflexivity.
    + apply nth_error_None in Eref. lia.
  - assert (Hno : List.find (fun ref => segmentNumber ref =? k) (first :: rest) = None).
    { apply find_nothing. intros i y Hy. rewrite (Hat i y Hy).
      assert (Hi : (i < length (first :: rest))%nat) by (apply nth_error_Some; congruence).
      apply Z.eqb_neq. intros Hk.
      apply andb_false_iff in E. destruct E as [E | E];
        [apply Z.leb_gt in E | apply Z.leb_gt in E]; lia. }
    rewrite Hno.
    destruct ((0 <=? k - 1) && (k - 1 <? Z.of_nat (length (first :: rest)))) eqn:E';
      [| reflexivity].
    apply andb_true_iff in E'. destruct E' as [E1 E2].
    apply Z.leb_le in E1. apply Z.ltb_lt in E2.
    apply andb_false_iff in E. destruct E as [E | E];
      [apply Z.leb_gt in E | apply Z.leb_gt in E]; lia.
Qed.

Lemma durationReferences_positions (hasMedia : bool) (d T : Q) (n : Z) :
  map segmentNumber (durationReferences hasMedia d T n)
  = positions (length (durationReferences hasMedia d T n)).
Proof.
  unfold durationReferences. destruct hasMedia; [| reflexivity].
  rewrite length_map, length_seq, map_map. reflexivity.
Qed.

(** The inner loop of the timeline branch appends [count] references that
    continue the numbering. *)
Lemma timelineRepeat_numbering (ts d : Q) (count : nat) :
  forall (start : Q) (position : Z) (refs : list SegmentReference),
  map segmentNumber refs = positions (length refs) ->
  position = Z.of_nat (length refs) + 1 ->
  let '(refs', _, position') := timelineRepeat true ts d count start position refs in
  map segmentNumber refs' = positions (length refs')
  /\ position' = Z.of_nat (length refs') + 1
  /\ length refs' = (length refs + count)%nat.
Proof.
  induction count as [| count IH]; intros start position refs Hnum Hpos; cbn.
  - repeat split; [assumption | assumption | lia].
  - specialize (IH (start + d)%Q (position + 1)
                   (refs ++ [mkSegRef position (start / ts) (start / ts + d / ts)])).
    destruct (timelineRepeat true ts d count (start + d)%Q (position + 1)
                (refs ++ [mkSegRef position (start / ts) (start / ts + d / ts)]))
      as [[refs' start'] position'].
    destruct IH as (H1 & H2 & H3).
    + rewrite map_app, length_app, Hnum. cbn [map length segmentNumber].
      rewrite Nat.add_1_r, positions_S, Hpos. reflexivity.
    + rewrite length_app. cbn [length]. lia.
    + repeat split; [assumption | assumption |].
      rewrite H3, length_app. cbn [length]. lia.
Qed.

Lemma timelineRepeat_none (ts d : Q) (count : nat) :
  forall (start : Q) (position : Z) (refs : list SegmentReference),
  fst (fst (timelineRepeat false ts d count start position refs)) = refs.
Proof.
  induction count as [| count IH]; intros start position refs; cbn; [reflexivity |].
  apply IH.
Qed.

Lemma timelineReferences_numbering (ts : Q) (s : list TimelineEntry) :
  forall st,
  map segmentNumber (Index.references st) = positions (length (Index.references st)) ->
  Index.position st = Z.of_nat (length (Index.references st)) + 1 ->
  let st' := fold_left (timelineStep true ts) s st in
  map segmentNumber (Index.references st') = positions (length (Index.references st'))
  /\ Index.position st' = Z.of_nat (length (Index.references st')) + 1
  /\ Z.of_nat (length (Index.references st'))
     = Z.of_nat (length (Index.references st)) + totalRepeats s
  /\ maxSegNum st' = maxSegNum st + totalRepeats s.
Proof.
  induction s as [| data s IH]; intros st Hnum Hpos.
  - cbn. repeat split; [assumption | assumption | lia | lia].
  - change (totalRepeats (data :: s)) with (repeats data + totalRepeats s).
    cbn [fold_left].
    specialize (IH (timelineStep true ts st data)).
    assert (Hstep :
      map segmentNumber (Index.references (timelineStep true ts st data))
      = positions (length (Index.references (timelineStep true ts st data)))
      /\ Index.position (timelineStep true ts st data)
         = Z.of_nat (length (Index.references (timelineStep true ts st data))) + 1
      /\ Z.of_nat (length (Index.references (timelineStep true ts st data)))
         = Z.of_nat (length (Index.references st)) + repeats data
      /\ maxSegNum (timelineStep true ts st data) = maxSegNum st + repeats data).
    { unfold timelineStep, repeats.
      pose proof (timelineRepeat_numbering ts (S_d data)
                    (Z.to_nat (Z.max 1 (S_r data + 1)))
                    (match S_t data with Some t => t | None => cumulativeTime st end)
                    (Index.position st) (Index.references st) Hnum Hpos) as H.
      destruct (timelineRepeat true ts (S_d data) (Z.to_nat (Z.max 1 (S_r data + 1)))
                  (match S_t data with Some t => t | None => cumulativeTime st end)
                  (Index.position st) (Index.references st))
        as [[refs' start'] position'].
      destruct H as (H1 & H2 & H3). cbn.
      repeat split; [assumption | assumption | lia | lia]. }
    destruct Hstep as (S1 & S2 & S3 & S4).
    destruct (IH S1 S2) as (H1 & H2 & H3 & H4).
    cbv zeta. repeat split; [assumption | assumption | lia | lia].
Qed.

Lemma timelineReferences_none (ts : Q) (s : list TimelineEntry) :
  forall st, Index.references (fold_left (timelineStep false ts) s st)
             = Index.references st.
Proof.
  induction s as [| data s IH]; intros st; cbn [fold_left]; [reflexivity |].
  rewrite IH. unfold timelineStep.
  pose proof (timelineRepeat_none ts (S_d data) (Z.to_nat (Z.max 1 (S_r data + 1)))
                (match S_t data with Some t => t | None => cumulativeTime st end)
                (Index.position st) (Index.references st)) as H.
  destruct (timelineRepeat false ts (S_d data) (Z.to_nat (Z.max 1 (S_r data + 1)))
              (match S_t data with Some t => t | None => cumulativeTime st end)
              (Index.position st) (Index.references st))
    as [[refs' start'] position'].
  exact H.
Qed.

Lemma buildSegmentIndex_positions (ceilOfQuotient : Q -> Q -> Z)
    (info : SegmentTemplateInfo) (T : Q)
    (refs : list SegmentReference) (maxSeg start : Z) :
  buildSegmentIndex ceilOfQuotient info T = Some (refs, maxSeg, start) ->
  map segmentNumber refs = positions (length refs).
Proof.
  unfold buildSegmentIndex.
  destruct (truthyQ (timescale info)) as [ts |]; [| discriminate].
  destruct (segmentTimeline info) as [s |].
  - intros H. injection H as <- _ _.
    unfold timelineReferences.
    destruct (truthyString (media info)).
    + apply (timelineReferences_numbering ts s (mkTimelineState [] 0 1 0));
        reflexivity.
    + now rewrite timelineReferences_none.
  - destruct (truthyQ (duration info)) as [du |].
    + intros H. injection H as <- _ _. apply durationReferences_positions.
    + intros H. injection H as <- _ _. reflexivity.
Qed.

(** X4.  Whatever the template (and whatever count [Math.ceil] yields in
    the duration branch), the references [#parseRepresentation] puts in a
    segment index are numbered 1, 2, ..., n in index order (the template's
    startNumber does not enter), so that [getSegmentByNumber] resolves the
    number k to the k-th reference and every other number to null. *)
Theorem built_index_numbering (ceilOfQuotient : Q -> Q -> Z)
    (info : SegmentTemplateInfo) (T : Q) :
  match buildSegmentIndex ceilOfQuotient info T with
  | Some (refs, _, _) =>
      map segmentNumber refs = positions (length refs)
      /\ forall k, getSegmentByNumber refs k
                   = if (1 <=? k) && (k <=? Z.of_nat (length refs))
                     then nth_error refs (Z.to_nat (k - 1)) else None
  | None => True
  end.
Proof.
  destruct (buildSegmentIndex ceilOfQuotient info T)
    as [[[refs maxSeg] start] |] eqn:E; [| exact I].
  pose proof (buildSegmentIndex_positions ceilOfQuotient info T refs maxSeg start E) as H.
  split; [exact H |]. intros k. now apply getSegmentByNumber_positions.
Qed.

(** X5.  For a template with a duration and no timeline (a media template,
    a positive timescale and duration) whose segments last a whole number of
    seconds d = duration / timescale (the boundaries i * d are then exact on
    doubles), and a presentation of positive length T for which
    [Math.ceil(T / d)] on doubles is the exact ceiling: the index has
    ceil(T / d) references, the first starts at 0, each ends where the next
    one starts, the last ends at T, and the index is well formed.  (When the
    rounded quotient crosses an integer, as for 26.026 / 2.002, the code
    appends one more reference; see [rounded_quotient_adds_a_reference].) *)
Theorem duration_index_shape (ceilOfQuotient : Q -> Q -> Z)
    (info : SegmentTemplateInfo) (T ts du : Q) (seconds : Z) :
  segmentTimeline info = None ->
  truthyString (media info) = true ->
  timescale info = Some ts -> (0 < ts)%Q ->
  duration info = Some du -> (0 < du)%Q ->
  (du / ts == inject_Z seconds)%Q ->
  (0 < T)%Q ->
  ceilOfQuotient T (du / ts)%Q = Qceiling (T / (du / ts)) ->
  exists refs maxSeg start,
    buildSegmentIndex ceilOfQuotient info T = Some (refs, maxSeg, start)
    /\ wellFormed refs
    /\ Z.of_nat (length refs) = Qceiling (T / (du / ts))%Q
    /\ maxSeg = Qceiling (T / (du / ts)) + start - 1
    /\ (forall r, getFirstSegment refs = Some r -> (startTime r == 0)%Q)
    /\ (forall i a b, nth_error refs i = Some a -> nth_error refs (S i) = Some b ->
                      (endTime a == startTime b)%Q)
    /\ (forall r, getLastSegment refs = Some r -> (endTime r == T)%Q).
Proof.
  intros Htl Hm Hts Hts0 Hdu Hdu0 _ HT Hceil.
  destruct (buildSegmentIndex_duration ceilOfQuotient info T ts du
              Htl Hm Hts Hts0 Hdu Hdu0) as (start & Hbuild & Hd).
  rewrite Hceil in Hbuild.
  set (d := (du / ts)%Q) in *. set (n := Qceiling (T / d)) in *.
  assert (Hn : 0 < n).
  { rewrite Zlt_Qlt. apply Qlt_le_trans with (T / d)%Q; [| apply Qle_ceiling].
    apply Qlt_shift_div_l; [exact Hd |]. now rewrite Qmult_0_l. }
  exists (durationReferences true d T n), (n + start - 1), start.
  split; [exact Hbuild |]. split; [now apply durationReferences_wellFormed |].
  split; [rewrite durationReferences_length; lia |].
  split; [reflexivity |].
  split; [| split].
  - intros r Hr. unfold getFirstSegment in Hr.
    apply durationReferences_inv in Hr. destruct Hr as [_ ->].
    cbn [startTime Z.of_nat]. apply Qmult_0_l.
  - intros i a b Ha Hb.
    apply durationReferences_inv in Ha. destruct Ha as [_ ->].
    apply durationReferences_inv in Hb. destruct Hb as [Hi ->].
    cbn [startTime endTime].
    replace (Z.of_nat (S i)) with (Z.of_nat i + 1) by lia.
    apply Q.min_l. apply Qlt_le_weak. apply before_total; [exact Hd | fold n; lia].
  - intros r Hr. unfold getLastSegment in Hr.
    destruct (durationReferences true d T n) eqn:E.
    { apply (f_equal (@length _)) in E. rewrite durationReferences_length in E.
      cbn in E. lia. }
    rewrite <- E in Hr. rewrite durationReferences_length in Hr.
    apply durationReferences_inv in Hr. destruct Hr as [_ ->].
    cbn [endTime]. apply Q.min_r.
    replace (Z.of_nat (Z.to_nat n - 1) + 1) with n by lia.
    apply Qdiv_le_mult; [exact Hd | apply Qle_ceiling].
Qed.

Lemma duration_index_shape_witness :
  exists refs maxSeg start,
    buildSegmentIndex exactCeiling template_4s 30 = Some (refs, maxSeg, start)
    /\ wellFormed refs
    /\ Z.of_nat (length refs) = Qceiling (30 / (4000 / 1000))
    /\ maxSeg = Qceiling (30 / (4000 / 1000)) + start - 1
    /\ (forall r, getFirstSegment refs = Some r -> (startTime r == 0)%Q)
    /\ (forall i a b, nth_error refs i = Some a -> nth_error refs (S i) = Some b ->
                      (endTime a == startTime b)%Q)
    /\ (forall r, getLastSegment refs = Some r -> (endTime r == 30)%Q).
Proof.
  apply (duration_index_shape exactCeiling template_4s 30 1000 4000 4); reflexivity.
Defined.

(** The count is the engine's, whatever it is: the index of a duration
    template holds as many references as [Math.ceil] returned, also when the
    rounded quotient has crossed an integer. *)
Lemma duration_index_count (ceilOfQuotient : Q -> Q -> Z)
    (info : SegmentTemplateInfo) (T ts du : Q) :
  segmentTimeline info = None ->
  truthyString (media info) = true ->
  timescale info = Some ts -> (0 < ts)%Q ->
  duration info = Some du -> (0 < du)%Q ->
  exists refs start,
    buildSegmentIndex ceilOfQuotient info T
    = Some (refs, ceilOfQuotient T (du / ts)%Q + start - 1, start)
    /\ length refs = Z.to_nat (ceilOfQuotient T (du / ts)%Q).
Proof.
  intros Htl Hm Hts Hts0 Hdu Hdu0.
  destruct (buildSegmentIndex_duration ceilOfQuotient info T ts du
              Htl Hm Hts Hts0 Hdu Hdu0) as (start & Hbuild & _).
  eexists _, start. split; [exact Hbuild |]. apply durationReferences_length.
Qed.

(** 26.026 s in segments of 2.002 s: thirteen segments cover the
    presentation exactly, and the index holds fourteen references, with
    [maxSegNum] 14. *)
Lemma rounded_quotient_adds_a_reference :
  exactCeiling (26026 # 1000) (2002 / 1000) = 13
  /\ exists refs,
       buildSegmentIndex ceiling_26026 template_2002 (26026 # 1000)
       = Some (refs, 14, 1)
       /\ length refs = 14%nat.
Proof.
  split; [vm_compute; reflexivity |].
  eexists. split; [vm_compute; reflexivity | reflexivity].
Qed.

(** X6.  For such a template whose segments last a whole number of seconds
    d (the boundaries i * d are then exact on doubles) and whose count is
    the exact ceiling, every time t with 0 <= t < T is answered by
    [getSegmentAtTime] with the reference numbered floor(t / d) + 1, and
    that reference contains t. *)
Theorem duration_index_lookup (ceilOfQuotient : Q -> Q -> Z)
    (info : SegmentTemplateInfo) (T ts du t : Q) (seconds : Z) :
  segmentTimeline info = None ->
  truthyString (media info) = true ->
  timescale info = Some ts -> (0 < ts)%Q ->
  duration info = Some du -> (0 < du)%Q ->
  (du / ts == inject_Z seconds)%Q ->
  ceilOfQuotient T (du / ts)%Q = Qceiling (T / (du / ts)) ->
  (0 <= t)%Q -> (t < T)%Q ->
  exists refs maxSeg start r,
    buildSegmentIndex ceilOfQuotient info T = Some (refs, maxSeg, start)
    /\ getSegmentAtTime refs t = Some r
    /\ segmentNumber r = Qfloor (t / (du / ts)) + 1
    /\ (startTime r <= t)%Q /\ (t < endTime r)%Q.
Proof.
  intros Htl Hm Hts Hts0 Hdu Hdu0 _ Hceil Ht0 HtT.
  destruct (buildSegmentIndex_duration ceilOfQuotient info T ts du
              Htl Hm Hts Hts0 Hdu Hdu0) as (start & Hbuild & Hd).
  rewrite Hceil in Hbuild.
  set (d := (du / ts)%Q) in *. set (n := Qceiling (T / d)) in *.
  set (k := Qfloor (t / d)).
  assert (Hk0 : 0 <= k).
  { unfold k. rewrite <- (Qfloor_Z 0). apply Qfloor_resp_le.
    apply Qle_shift_div_l; [exact Hd |]. now rewrite Qmult_0_l. }
  assert (Hlow : (inject_Z k * d <= t)%Q).
  { apply Qdiv_le_mult_r; [exact Hd | apply Qfloor_le]. }
  assert (Hhigh : (t < inject_Z (k + 1) * d)%Q).
  { apply Qdiv_lt_mult_r; [exact Hd | apply Qlt_floor]. }
  assert (Hkn : k < n).
  { rewrite Zlt_Qlt. apply Qle_lt_trans with (t / d)%Q; [apply Qfloor_le |].
    apply Qlt_le_trans with (T / d)%Q; [| apply Qle_ceiling].
    apply Qmult_lt_compat_r; [| exact HtT]. now apply Qinv_lt_0_compat. }
  set (r := mkSegRef (Z.of_nat (Z.to_nat k) + 1)
                     (inject_Z (Z.of_nat (Z.to_nat k)) * d)
                     (Qmin (inject_Z (Z.of_nat (Z.to_nat k) + 1) * d) T)).
  assert (Hr : nth_error (durationReferences true d T n) (Z.to_nat k) = Some r).
  { apply durationReferences_nth. lia. }
  assert (Hs : (startTime r <= t)%Q).
  { unfold r. cbn [startTime]. now rewrite Z2Nat.id by exact Hk0. }
  assert (He : (t < endTime r)%Q).
  { unfold r. cbn [endTime]. rewrite Z2Nat.id by exact Hk0.
    apply Q.min_glb_lt; assumption. }
  exists (durationReferences true d T n), (n + start - 1), start, r.
  split; [exact Hbuild |]. split; [| split; [| split; assumption]].
  - rewrite (getSegmentAtTime_find (durationReferences true d T n) t
               (durationReferences_wellFormed d T Hd)).
    apply (find_first _ _ (Z.to_nat k) r); [| exact Hr | now apply Qlt_bool_true].
    intros i y Hi Hy. apply Qlt_bool_not.
    destruct (durationReferences_wellFormed d T Hd) as [_ Hord].
    apply Qle_trans with (startTime r); [| exact Hs].
    exact (Hord i (Z.to_nat k) y r Hi Hy Hr).
  - unfold r. cbn [segmentNumber]. now rewrite Z2Nat.id by exact Hk0.
Qed.

Lemma duration_index_lookup_witness :
  exists refs maxSeg start r,
    buildSegmentIndex exactCeiling template_4s 30 = Some (refs, maxSeg, start)
    /\ getSegmentAtTime refs 9 = Some r
    /\ segmentNumber r = Qfloor (9 / (4000 / 1000)) + 1
    /\ (startTime r <= 9)%Q /\ (9 < endTime r)%Q.
Proof.
  apply (duration_index_lookup exactCeiling template_4s 30 1000 4000 9 4);
    reflexivity || discriminate.
Defined.

(** X7.  For a template with a timeline (and a media template and a
    timescale) every [S] element contributes max(1, r + 1) references; the
    index holds their total, and [segment.maxSegNum] is startNumber - 1 plus
    that total. *)
Theorem timeline_index_count (ceilOfQuotient : Q -> Q -> Z)
    (info : SegmentTemplateInfo) (T ts : Q) (s : list TimelineEntry) :
  segmentTimeline info = Some s ->
  truthyString (media info) = true ->
  truthyQ (timescale info) = Some ts ->
  exists refs start,
    buildSegmentIndex ceilOfQuotient info T
    = Some (refs, start - 1 + totalRepeats s, start)
    /\ Z.of_nat (length refs) = totalRepeats s.
Proof.
  intros Hs Hm Hts. unfold buildSegmentIndex. rewrite Hts, Hs, Hm.
  unfold timelineReferences.
  pose proof (timelineReferences_numbering ts s (mkTimelineState [] 0 1 0)
                eq_refl eq_refl) as H.
  cbv zeta in H. destruct H as (_ & _ & Hlen & Hmax).
  cbn [Index.references maxSegNum length Z.of_nat] in Hlen, Hmax.
  eexists _, _. split.
  - f_equal. f_equal. f_equal. rewrite Hmax. ring.
  - rewrite Hlen. ring.
Qed.

Lemma timeline_index_count_witness :
  exists refs start,
    buildSegmentIndex exactCeiling template_timeline 30
    = Some (refs, start - 1 + totalRepeats timeline_gap, start)
    /\ Z.of_nat (length refs) = totalRepeats timeline_gap.
Proof.
  apply (timeline_index_count exactCeiling template_timeline 30 1000 timeline_gap);
    reflexivity.
Defined.

End IndexFacts.

Module BusFacts.
Import Bus.
Local Open Scope Z_scope.

(** *** Lists of live handlers *)

Lemma omap_insertHandler (h : Handler) (l : list (option Handler)) :
  omap id (insertHandler h l) = insertLive h (omap id l).
Proof.
  induction l as [| [item |] l IH]; cbn; [reflexivity | |].
  - destruct (priority item <? priority h); cbn; [reflexivity | now rewrite IH].
  - exact IH.
Qed.

Lemma insertLive_In (h x : Handler) (l : list Handler) :
  In x (insertLive h l) <-> x = h \/ In x l.
Proof.
  induction l as [| item l IH]; cbn.
  - intuition.
  - destruct (priority item <? priority h); cbn; [intuition |].
    rewrite IH. intuition.
Qed.

Lemma insertLive_sorted (h : Handler) (l : list Handler) :
  StronglySorted byPriority l -> StronglySorted byPriority (insertLive h l).
Proof.
  induction l as [| item l IH]; intros Hs; cbn.
  - constructor; constructor.
  - apply StronglySorted_inv in Hs. destruct Hs as [Hs Hall].
    destruct (priority item <? priority h) eqn:E.
    + apply Z.ltb_lt in E. constructor.
      * now constructor.
      * constructor; [unfold byPriority; lia |].
        apply (List.Forall_impl (P := byPriority item)); [| exact Hall].
        unfold byPriority. intros a Ha. lia.
    + apply Z.ltb_ge in E. constructor; [now apply IH |].
      apply List.Forall_forall. intros x Hx. apply insertLive_In in Hx.
      destruct Hx as [-> | Hx]; [exact E |].
      exact (proj1 (List.Forall_forall _ _) Hall x Hx).
Qed.

Lemma insertLive_NoDup (h : Handler) (l : list Handler) :
  ~ In (key h) (map key l) -> List.NoDup (map key l) ->
  List.NoDup (map key (insertLive h l)).
Proof.
  induction l as [| item l IH]; intros Hnew Hnd; cbn.
  - constructor; [intros [] | constructor].
  - destruct (priority item <? priority h); cbn.
    + constructor; assumption.
    + cbn in Hnew, Hnd. apply List.NoDup_cons_iff in Hnd. destruct Hnd as [Hitem Hnd].
      constructor.
      * intros Hin. apply in_map_iff in Hin. destruct Hin as (x & Hk & Hx).
        apply insertLive_In in Hx. destruct Hx as [-> | Hx].
        -- apply Hnew. left. now symmetry.
        -- apply Hitem. apply in_map_iff. now exists x.
      * apply IH; [| exact Hnd]. intros Hin. apply Hnew. now right.
Qed.

Lemma insertLive_plain (h : Handler) (l : list Handler) :
  plain h -> Forall plain l -> Forall plain (insertLive h l).
Proof.
  intros Hh Hl. apply List.Forall_forall. intros x Hx. apply insertLive_In in Hx.
  destruct Hx as [-> | Hx]; [exact Hh |].
  exact (proj1 (List.Forall_forall _ _) Hl x Hx).
Qed.

(** Taking one element out of a list. *)
Lemma sorted_remove {A} (R : A -> A -> Prop) (l1 l2 : list A) (x : A) :
  StronglySorted R (l1 ++ x :: l2) -> StronglySorted R (l1 ++ l2).
Proof.
  induction l1 as [| a l1 IH]; cbn; intros H.
  - now apply StronglySorted_inv in H.
  - apply StronglySorted_inv in H. destruct H as [H Hall].
    constructor; [now apply IH |].
    apply List.Forall_app in Hall. destruct Hall as [H1 H2].
    apply List.Forall_app. split; [exact H1 |]. now inversion H2.
Qed.

(** [clearAt] either leaves the live handlers as they are or takes one out. *)
Lemma clearAt_live (idx : nat) (l : list (option Handler)) :
  omap id (clearAt idx l) = omap id l
  \/ exists l1 x l2, omap id l = l1 ++ x :: l2 /\ omap id (clearAt idx l) = l1 ++ l2.
Proof.
  revert idx. induction l as [| item l IH]; intros idx; [left; now destruct idx |].
  destruct idx as [| idx]; cbn [clearAt].
  - destruct item as [h |]; [| now left].
    right. exists [], h, (omap id l). split; reflexivity.
  - destruct (IH idx) as [E | (l1 & x & l2 & E1 & E2)].
    + left. destruct item as [h |]; cbn; [now rewrite E | exact E].
    + right. destruct item as [h |]; cbn.
      * exists (h :: l1), x, l2. rewrite E1, E2. split; reflexivity.
      * exists l1, x, l2. split; assumption.
Qed.

Lemma clearAt_tidy (idx : nat) (l : list (option Handler)) :
  tidy (omap id l) -> tidy (omap id (clearAt idx l)).
Proof.
  intros (Hs & Hnd & Hp).
  destruct (clearAt_live idx l) as [E | (l1 & x & l2 & E1 & E2)].
  - rewrite E. repeat split; assumption.
  - rewrite E1 in *. rewrite E2. repeat split.
    + exact (sorted_remove _ l1 l2 x Hs).
    + rewrite map_app in *. cbn in Hnd. exact (List.NoDup_remove_1 _ _ _ Hnd).
    + apply List.Forall_app in Hp. destruct Hp as [H1 H2].
      apply List.Forall_app. split; [exact H1 | now inversion H2].
Qed.

Lemma clearAt_length {A} (idx : nat) (l : list (option A)) :
  length (clearAt idx l) = length l.
Proof.
  revert idx. induction l as [| x l IH]; intros [| idx]; cbn; try reflexivity.
  now rewrite IH.
Qed.

Lemma insertHandler_length (h : Handler) (l : list (option Handler)) :
  length (insertHandler h l) = S (length l).
Proof.
  induction l as [| [item |] l IH]; cbn; [reflexivity | |].
  - destruct (priority item <? priority h); cbn; [reflexivity | now rewrite IH].
  - now rewrite IH.
Qed.

(** *** The search of [#getHandlerIdx] *)

Lemma matches_key (h x : Handler) (s : nat) :
  scope h = Some s ->
  matches (callback h) (Some s) (Some x) = true <-> key x = key h.
Proof.
  intros Hs. unfold matches, key, same_scope. rewrite Hs. split.
  - intros H. apply andb_true_iff in H. destruct H as [H1 H2].
    apply Nat.eqb_eq in H1. destruct (scope x) as [y |]; [| discriminate].
    apply Nat.eqb_eq in H2. congruence.
  - intros H. injection H as H1 H2. rewrite H1, H2, !Nat.eqb_refl. reflexivity.
Qed.

Lemma findIndex_none (listener s : nat) (l : list (option Handler)) :
  Types.findIndex (matches listener (Some s)) l = None ->
  ~ In (listener, Some s) (map key (omap id l)).
Proof.
  induction l as [| item l IH]; cbn; [tauto |].
  destruct (matches listener (Some s) item) eqn:E; [discriminate |].
  destruct (Types.findIndex (matches listener (Some s)) l); [discriminate |].
  intros _. destruct item as [x |]; cbn; [| now apply IH].
  intros [Hk | Hin]; [| now apply IH].
  unfold matches, key, same_scope in *. injection Hk as H1 H2.
  rewrite H1, H2, !Nat.eqb_refl in E. discriminate.
Qed.

(** On an array without a registration twice, the search for a live handler
    finds its slot, and clearing the slot takes out that handler alone. *)
Lemma findIndex_clear (h : Handler) (s : nat) (l : list (option Handler)) :
  scope h = Some s ->
  List.NoDup (map key (omap id l)) -> In h (omap id l) ->
  exists idx,
    Types.findIndex (matches (callback h) (Some s)) l = Some idx
    /\ omap id (clearAt idx l) = List.filter (otherKey h) (omap id l).
Proof.
  intros Hs. induction l as [| item l IH]; intros Hnd Hin; [destruct Hin |].
  destruct item as [x |].
  - cbn in Hnd, Hin. apply List.NoDup_cons_iff in Hnd. destruct Hnd as [Hx Hnd].
    cbn [Types.findIndex].
    destruct (matches (callback h) (Some s) (Some x)) eqn:E.
    + exists O. split; [reflexivity |]. cbn.
      apply (matches_key h x s Hs) in E. unfold otherKey at 1.
      rewrite bool_decide_eq_true_2 by exact E. cbn.
      symmetry. apply forallb_filter_id. apply forallb_forall. intros y Hy.
      unfold otherKey. apply negb_true_iff, bool_decide_eq_false_2.
      intros Hk. apply Hx. rewrite E, <- Hk. now apply in_map.
    + assert (Hne : key x <> key h).
      { intros Hk. apply (matches_key h x s Hs) in Hk. congruence. }
      destruct Hin as [-> | Hin]; [congruence |].
      destruct (IH Hnd Hin) as (idx & Hidx & Hclear).
      exists (S idx). rewrite Hidx. split; [reflexivity |]. cbn.
      unfold otherKey at 1. rewrite bool_decide_eq_false_2 by exact Hne. cbn.
      now rewrite Hclear.
  - cbn in Hnd, Hin. cbn [Types.findIndex matches].
    destruct (IH Hnd Hin) as (idx & Hidx & Hclear).
    exists (S idx). rewrite Hidx. split; [reflexivity | exact Hclear].
Qed.

(** *** The operations *)

Lemma live_insert (type t : string) (l : list (option Handler)) (b : EventBus) :
  live t (set_handlers (<[type := l]> (handlers b)) b)
  = if String.eqb t type then omap id l else live t b.
Proof.
  unfold live, set_handlers. cbn [handlers].
  destruct (String.eqb t type) eqn:E.
  - apply String.eqb_eq in E. subst. now rewrite lookup_insert_eq.
  - apply String.eqb_neq in E. now rewrite lookup_insert_ne by congruence.
Qed.

Lemma slots_insert (type t : string) (l : list (option Handler)) (b : EventBus) :
  slots t (set_handlers (<[type := l]> (handlers b)) b)
  = if String.eqb t type then l else slots t b.
Proof.
  unfold slots, set_handlers. cbn [handlers].
  destruct (String.eqb t type) eqn:E.
  - apply String.eqb_eq in E. subst. now rewrite lookup_insert_eq.
  - apply String.eqb_neq in E. now rewrite lookup_insert_ne by congruence.
Qed.

(** What [commonOn] does: nothing, or the insertion of the new handler. *)
Lemma commonOn_cases (type : string) (listener : nat) (scope0 : option nat)
    (priority0 : option Z) (executeOnce0 : bool) (b : EventBus) :
  snd (commonOn type listener scope0 priority0 executeOnce0 b) = b
  \/ (exists p,
        getHandlerIdx type listener scope0 b = None
        /\ snd (commonOn type listener scope0 priority0 executeOnce0 b)
           = set_handlers
               (<[type := insertHandler
                            (mkHandler listener scope0 executeOnce0 p None None None)
                            (slots type b)]> (handlers b)) b).
Proof.
  unfold commonOn. destruct (String.eqb type ""); [now left |].
  unfold bind, get. destruct (getHandlerIdx type listener scope0 b) eqn:E; [now left |].
  right. eexists. split; reflexivity.
Qed.

(** What [off] does: nothing, or the clearing of one slot. *)
Lemma off_cases (type : string) (listener : nat) (scope0 : option nat) (b : EventBus) :
  fst (off type listener scope0 b) = Ret tt
  /\ (snd (off type listener scope0 b) = b
      \/ exists l idx,
           String.eqb type "" = false
           /\ handlers b !! type = Some l
           /\ Types.findIndex (matches listener scope0) l = Some idx
           /\ snd (off type listener scope0 b)
              = set_handlers (<[type := clearAt idx l]> (handlers b)) b).
Proof.
  unfold off, bind, get. destruct (String.eqb type "") eqn:Et; [split; [| left]; reflexivity |].
  destruct (handlers b !! type) as [l |] eqn:El; [| split; [| left]; reflexivity].
  unfold getHandlerIdx. rewrite El.
  destruct (Types.findIndex (matches listener scope0) l) as [idx |] eqn:Ei;
    [| split; [| left]; reflexivity].
  split; [reflexivity |]. right. exists l, idx. repeat split; reflexivity || assumption.
Qed.

Lemma commonOn_tidy (type : string) (listener s : nat) (priority0 : option Z)
    (executeOnce0 : bool) (b : EventBus) :
  tidyBus b ->
  tidyBus (snd (commonOn type listener (Some s) priority0 executeOnce0 b)).
Proof.
  intros Hb.
  destruct (commonOn_cases type listener (Some s) priority0 executeOnce0 b)
    as [-> | (p & Hidx & ->)]; [exact Hb |].
  intros t. rewrite live_insert. destruct (String.eqb t type) eqn:E; [| apply Hb].
  rewrite omap_insertHandler. unfold slots. fold (live type b).
  destruct (Hb type) as (Hs & Hnd & Hp).
  repeat split.
  - now apply insertLive_sorted.
  - apply insertLive_NoDup; [| exact Hnd].
    unfold getHandlerIdx in Hidx. unfold live.
    destruct (handlers b !! type) as [l |]; [| cbn; tauto].
    now apply findIndex_none.
  - apply insertLive_plain; [| exact Hp]. repeat split. now exists s.
Qed.

Lemma off_tidy (type : string) (listener : nat) (scope0 : option nat) (b : EventBus) :
  tidyBus b -> tidyBus (snd (off type listener scope0 b)).
Proof.
  intros Hb.
  destruct (off_cases type listener scope0 b) as [_ [-> | (l & idx & _ & Hl & _ & ->)]];
    [exact Hb |].
  intros t. rewrite live_insert. destruct (String.eqb t type) eqn:E; [| apply Hb].
  apply clearAt_tidy. specialize (Hb type). unfold live in Hb. now rewrite Hl in Hb.
Qed.

Lemma forEach_record (payload : Payload) (l : list Handler) (b : EventBus) :
  forEach (fun handler =>
             modify (record (mkCall (callback handler) (scope handler) payload)))
          l b
  = (Ret tt, mkEventBus (handlers b) (calls b ++ map (callOf payload) l)).
Proof.
  revert b. induction l as [| h l IH]; intros b; cbn [forEach map].
  - unfold ret. rewrite app_nil_r. now destruct b.
  - unfold bind, modify. rewrite IH. cbn. now rewrite <- app_assoc.
Qed.

Lemma forEach_off_ret (type : string) (l : list Handler) (b : EventBus) :
  fst (forEach (fun handler => off type (callback handler) (scope handler)) l b)
  = Ret tt.
Proof.
  revert b. induction l as [| h l IH]; intros b; cbn [forEach]; [reflexivity |].
  unfold bind at 1.
  destruct (off type (callback h) (scope h) b) as [out b1] eqn:E.
  pose proof (off_cases type (callback h) (scope h) b) as [Ho _].
  rewrite E in Ho. cbn in Ho. subst out. apply IH.
Qed.

Lemma forEach_off_tidy (type : string) (l : list Handler) (b : EventBus) :
  tidyBus b ->
  tidyBus (snd (forEach (fun handler => off type (callback handler) (scope handler))
                        l b)).
Proof.
  revert b. induction l as [| h l IH]; intros b Hb; cbn [forEach]; [exact Hb |].
  unfold bind at 1.
  destruct (off type (callback h) (scope h) b) as [out b1] eqn:E.
  pose proof (off_cases type (callback h) (scope h) b) as [Ho _].
  pose proof (off_tidy type (callback h) (scope h) b Hb) as Ht.
  rewrite E in Ho, Ht. cbn in Ho, Ht. subst out. now apply IH.
Qed.

Lemma forEach_off_calls (type : string) (l : list Handler) (b : EventBus) :
  calls (snd (forEach (fun handler => off type (callback handler) (scope handler))
                      l b))
  = calls b.
Proof.
  revert b. induction l as [| h l IH]; intros b; cbn [forEach]; [reflexivity |].
  unfold bind at 1.
  destruct (off type (callback h) (scope h) b) as [out b1] eqn:E.
  pose proof (off_cases type (callback h) (scope h) b) as [Ho Hs].
  rewrite E in Ho, Hs. cbn in Ho, Hs. subst out. rewrite IH.
  destruct Hs as [-> | (l0 & idx & _ & _ & _ & ->)]; reflexivity.
Qed.

(** [trigger], once its two early returns and its throw are passed. *)
Lemma trigger_run (type : string) (payload : Payload) (filters : Filters)
    (b : EventBus) (l : list (option Handler)) :
  String.eqb type "" = false ->
  handlers b !! type = Some l ->
  payloadType payload = None ->
  trigger type payload filters b
  = (Ret (delivered type payload filters),
     snd (forEach (fun handler => off type (callback handler) (scope handler))
            (List.filter executeOnce (selected filters l))
            (mkEventBus (handlers b)
               (calls b ++ map (callOf (delivered type payload filters))
                               (selected filters l))))).
Proof.
  intros Ht Hl Hp. unfold trigger. unfold bind at 1. unfold get.
  rewrite Ht, Hl, Hp. unfold bind at 1.
  fold (delivered type payload filters).
  rewrite forEach_record. unfold bind at 1.
  match goal with |- context [forEach ?f ?l ?s] =>
    pose proof (forEach_off_ret type l s) as Hr;
    destruct (forEach f l s) as [out b2] eqn:E end.
  cbn in Hr. subst out. reflexivity.
Qed.

Lemma trigger_tidy (type : string) (payload : Payload) (filters : Filters)
    (b : EventBus) :
  tidyBus b -> tidyBus (snd (trigger type payload filters b)).
Proof.
  intros Hb.
  destruct (String.eqb type "") eqn:Et.
  { unfold trigger, bind, get. now rewrite Et. }
  destruct (handlers b !! type) as [l |] eqn:El.
  2:{ unfold trigger, bind, get. now rewrite Et, El. }
  destruct (payloadType payload) as [x |] eqn:Ep.
  { unfold trigger, bind, get. now rewrite Et, El, Ep. }
  rewrite (trigger_run type payload filters b l Et El Ep). cbn [snd].
  apply forEach_off_tidy. exact Hb.
Qed.

Lemma serve_tidy (r : request) (b : EventBus) : tidyBus b -> tidyBus (snd (serve r b)).
Proof.
  intros Hb. destruct r; cbn [serve].
  - now apply commonOn_tidy.
  - now apply commonOn_tidy.
  - now apply off_tidy.
  - unfold bind.
    pose proof (trigger_tidy type payload filters b Hb) as H.
    destruct (trigger type payload filters b) as [[p | e] b1]; exact H.
  - intros t. unfold live, reset, modify, set_handlers. cbn.
    rewrite lookup_empty. cbn. repeat split; constructor.
Qed.

Lemma serveAll_tidy (rs : list request) (b : EventBus) :
  tidyBus b -> tidyBus (serveAll rs b).
Proof.
  revert b. induction rs as [| r rs IH]; intros b Hb; cbn; [exact Hb |].
  apply IH. now apply serve_tidy.
Qed.

Lemma empty_tidy : tidyBus empty.
Proof.
  intros t. unfold live, empty. cbn. rewrite lookup_empty. cbn.
  repeat split; constructor.
Qed.

(** *** What a trigger calls and removes *)

Lemma sorted_filter {A} (R : A -> A -> Prop) (p : A -> bool) (l : list A) :
  StronglySorted R l -> StronglySorted R (List.filter p l).
Proof.
  induction l as [| a l IH]; intros H; cbn; [constructor |].
  apply StronglySorted_inv in H. destruct H as [H Hall].
  destruct (p a); [| now apply IH].
  constructor; [now apply IH |].
  apply List.Forall_forall. intros x Hx. apply filter_In in Hx.
  exact (proj1 (List.Forall_forall _ _) Hall x (proj1 Hx)).
Qed.

Lemma selected_filter (filters : Filters) (l : list (option Handler)) :
  selected filters l
  = List.filter (fun h => passes filters (Some h)) (omap id l).
Proof.
  unfold selected. induction l as [| [h |] l IH]; [reflexivity | |].
  - cbn [List.filter].
    change (omap id (Some h :: l)) with (h :: omap id l). cbn [List.filter].
    destruct (passes filters (Some h)); [| exact IH].
    change (omap id (Some h :: List.filter (passes filters) l))
      with (h :: omap id (List.filter (passes filters) l)).
    now rewrite IH.
  - exact IH.
Qed.



Lemma selected_noFilters (l : list (option Handler)) :
  selected noFilters l = omap id l.
Proof.
  rewrite selected_filter. apply forallb_filter_id. apply forallb_forall.
  intros h _. unfold passes, noFilters. cbn.
  now destruct (truthyS (mode h)).
Qed.

Lemma off_found (type : string) (listener : nat) (scope0 : option nat)
    (b : EventBus) (l : list (option Handler)) (idx : nat) :
  String.eqb type "" = false ->
  handlers b !! type = Some l ->
  Types.findIndex (matches listener scope0) l = Some idx ->
  off type listener scope0 b
  = (Ret tt, set_handlers (<[type := clearAt idx l]> (handlers b)) b).
Proof.
  intros Ht Hl Hi. unfold off, bind, get, getHandlerIdx. now rewrite Ht, Hl, Hi.
Qed.

Lemma key_injective (l : list Handler) (a b : Handler) :
  List.NoDup (map key l) -> In a l -> In b l -> key a = key b -> a = b.
Proof.
  induction l as [| x l IH]; intros Hnd Ha Hb Hk; [destruct Ha |].
  cbn in Hnd. apply List.NoDup_cons_iff in Hnd. destruct Hnd as [Hx Hnd].
  destruct Ha as [-> | Ha], Hb as [-> | Hb].
  - reflexivity.
  - exfalso. apply Hx. rewrite Hk. now apply in_map.
  - exfalso. apply Hx. rewrite <- Hk. now apply in_map.
  - now apply IH.
Qed.

(** Removing the handlers of [removed] one after the other from a tidy
    array that holds them all leaves the handlers under the other keys. *)
Lemma forEach_off_live (type : string) (removed : list Handler) :
  String.eqb type "" = false ->
  forall (b : EventBus) (l : list (option Handler)),
  handlers b !! type = Some l ->
  tidy (omap id l) ->
  List.NoDup (map key removed) ->
  (forall r, In r removed -> In r (omap id l)) ->
  let b' := snd (forEach (fun handler => off type (callback handler) (scope handler))
                         removed b) in
  live type b' = List.filter (keptAfter removed) (omap id l)
  /\ forall t, t <> type -> live t b' = live t b.
Proof.
  intros Ht. induction removed as [| r removed IH]; intros b l Hl Htidy Hnd Hin; cbn zeta.
  - cbn [forEach ret snd]. split; [| reflexivity].
    unfold live. rewrite Hl. cbn [default].
    symmetry. apply forallb_filter_id. apply forallb_forall. reflexivity.
  - cbn [forEach]. unfold bind.
    destruct Htidy as (Hs & Hk & Hp).
    assert (Hr : In r (omap id l)) by (apply Hin; now left).
    destruct (proj1 (List.Forall_forall _ _) Hp r Hr) as ((s & Hscope) & _).
    destruct (findIndex_clear r s l Hscope Hk Hr) as (idx & Hidx & Hclear).
    rewrite Hscope.
    rewrite (off_found type (callback r) (Some s) b l idx Ht Hl Hidx).
    cbv beta iota.
    cbn in Hnd. apply List.NoDup_cons_iff in Hnd. destruct Hnd as [Hr' Hnd].
    set (b1 := set_handlers (<[type := clearAt idx l]> (handlers b)) b).
    assert (Hl1 : handlers b1 !! type = Some (clearAt idx l)).
    { unfold b1, set_handlers. cbn. now rewrite lookup_insert_eq. }
    assert (Ht1 : tidy (omap id (clearAt idx l))).
    { apply clearAt_tidy. repeat split; assumption. }
    assert (Hin1 : forall x, In x removed -> In x (omap id (clearAt idx l))).
    { intros x Hx. rewrite Hclear. apply filter_In. split; [apply Hin; now right |].
      unfold otherKey. apply negb_true_iff, bool_decide_eq_false_2.
      intros Hkx. apply Hr'. rewrite <- Hkx. now apply in_map. }
    destruct (IH b1 (clearAt idx l) Hl1 Ht1 Hnd Hin1) as [H1 H2].
    split.
    + rewrite H1, Hclear.
      clear. induction (omap id l) as [| x t IHt]; cbn; [reflexivity |].
      unfold keptAfter at 2. cbn [forallb].
      destruct (otherKey r x); cbn; [| exact IHt].
      fold (keptAfter removed x). destruct (keptAfter removed x); cbn; now rewrite IHt.
    + intros t Hne. rewrite (H2 t Hne). unfold b1. rewrite live_insert.
      apply String.eqb_neq in Hne. now rewrite Hne.
Qed.

Lemma filter_once_NoDup (l : list Handler) :
  List.NoDup (map key l) -> List.NoDup (map key (List.filter executeOnce l)).
Proof.
  induction l as [| x l IH]; intros H; cbn; [constructor |].
  cbn in H. apply List.NoDup_cons_iff in H. destruct H as [Hx H].
  destruct (executeOnce x); cbn; [| now apply IH].
  constructor; [| now apply IH].
  intros Hin. apply Hx. apply in_map_iff in Hin. destruct Hin as (y & Hk & Hy).
  apply filter_In in Hy. apply in_map_iff. exists y. tauto.
Qed.

(** X8.  On a bus that has only served requests (registrations that name
    their scope, removals, triggers, resets), a trigger calls handlers that
    are registered for the type, each with the delivered payload, in the
    order of their priorities, highest first. *)
Theorem trigger_calls_by_priority (rs : list request) (type : string)
    (payload : Payload) (filters : Filters) :
  let b := serveAll rs empty in
  exists called,
    calls (snd (trigger type payload filters b))
    = calls b ++ map (callOf (delivered type payload filters)) called
    /\ StronglySorted byPriority called
    /\ forall h, In h called -> In h (live type b).
Proof.
  cbn zeta. set (b := serveAll rs empty).
  assert (Hb : tidyBus b) by (apply serveAll_tidy, empty_tidy).
  assert (Hnone : forall b1 : EventBus,
             calls b1 = calls b ->
             exists called,
               calls b1 = calls b ++ map (callOf (delivered type payload filters)) called
               /\ StronglySorted byPriority called
               /\ forall h, In h called -> In h (live type b)).
  { intros b1 E. exists []. rewrite E, app_nil_r.
    split; [reflexivity |]. split; [constructor | intros h []]. }
  destruct (String.eqb type "") eqn:Et.
  { apply Hnone. unfold trigger, bind, get. now rewrite Et. }
  destruct (handlers b !! type) as [l |] eqn:El.
  2:{ apply Hnone. unfold trigger, bind, get. now rewrite Et, El. }
  destruct (payloadType payload) as [x |] eqn:Ep.
  { apply Hnone. unfold trigger, bind, get. now rewrite Et, El, Ep. }
  rewrite (trigger_run type payload filters b l Et El Ep). cbn [snd].
  rewrite forEach_off_calls. cbn [calls].
  exists (selected filters l). split; [reflexivity |].
  assert (Hlive : live type b = omap id l) by (unfold live; now rewrite El).
  destruct (Hb type) as (Hs & _ & _). rewrite Hlive in *.
  rewrite selected_filter. split; [now apply sorted_filter |].
  intros h Hh. apply filter_In in Hh. tauto.
Qed.

(** X9.  On a bus whose handlers were all registered (and removed) with a
    scope object, as the requests of [serve] are and as every registration
    in the player is with [this]: a trigger without filters, for a type that
    has an array of handlers and with a payload that has no [type] property,
    calls every live handler of the type once, in array order, with the
    payload marked with the type; afterwards exactly the handlers registered
    with [once] are gone, and the handlers of the other types are
    untouched. *)
Theorem trigger_removes_once (rs : list request) (type : string) (payload : Payload) :
  let b := serveAll rs empty in
  String.eqb type "" = false ->
  handlers b !! type <> None ->
  payloadType payload = None ->
  fst (trigger type payload noFilters b) = Ret (delivered type payload noFilters)
  /\ calls (snd (trigger type payload noFilters b))
     = calls b ++ map (callOf (delivered type payload noFilters)) (live type b)
  /\ live type (snd (trigger type payload noFilters b))
     = List.filter (fun h => negb (executeOnce h)) (live type b)
  /\ forall t, t <> type ->
       live t (snd (trigger type payload noFilters b)) = live t b.
Proof.
  cbn zeta. set (b := serveAll rs empty). intros Et Hl Ep.
  assert (Hb : tidyBus b) by (apply serveAll_tidy, empty_tidy).
  destruct (handlers b !! type) as [l |] eqn:El; [clear Hl | congruence].
  assert (Hlive : live type b = omap id l) by (unfold live; now rewrite El).
  pose proof (Hb type) as Htidy. rewrite Hlive in *.
  rewrite (trigger_run type payload noFilters b l Et El Ep). cbn [fst snd].
  rewrite selected_noFilters.
  split; [reflexivity |]. split; [now rewrite forEach_off_calls |].
  set (b1 := mkEventBus (handlers b)
               (calls b ++ map (callOf (delivered type payload noFilters)) (omap id l))).
  destruct Htidy as (Hs & Hk & Hp).
  destruct (forEach_off_live type (List.filter executeOnce (omap id l)) Et b1 l El
              (conj Hs (conj Hk Hp)) (filter_once_NoDup _ Hk))
    as [H1 H2].
  { intros r Hr. apply filter_In in Hr. tauto. }
  split; [| exact H2].
  rewrite H1. apply filter_ext_in. intros x Hx.
  unfold keptAfter. destruct (executeOnce x) eqn:Ex; cbn.
  - apply not_true_iff_false. intros Hall. rewrite forallb_forall in Hall.
    assert (Hxin : In x (List.filter executeOnce (omap id l)))
      by (apply filter_In; tauto).
    specialize (Hall x Hxin). unfold otherKey in Hall.
    rewrite bool_decide_eq_true_2 in Hall by reflexivity. discriminate.
  - apply forallb_forall. intros r Hr. apply filter_In in Hr. destruct Hr as [Hr Hro].
    unfold otherKey. apply negb_true_iff, bool_decide_eq_false_2. intros Hkx.
    assert (x = r) by (apply (key_injective (omap id l)); assumption).
    congruence.
Qed.

Lemma trigger_removes_once_witness :
  fst (trigger "videoBitrateChanged" noPayload noFilters bus3)
  = Ret (delivered "videoBitrateChanged" noPayload noFilters)
  /\ calls (snd (trigger "videoBitrateChanged" noPayload noFilters bus3))
     = calls bus3
       ++ map (callOf (delivered "videoBitrateChanged" noPayload noFilters))
              (live "videoBitrateChanged" bus3)
  /\ live "videoBitrateChanged"
          (snd (trigger "videoBitrateChanged" noPayload noFilters bus3))
     = List.filter (fun h => negb (executeOnce h)) (live "videoBitrateChanged" bus3)
  /\ forall t, t <> "videoBitrateChanged"%string ->
       live t (snd (trigger "videoBitrateChanged" noPayload noFilters bus3))
       = live t bus3.
Proof.
  apply (trigger_removes_once requests3 "videoBitrateChanged" noPayload).
  - reflexivity.
  - vm_compute. discriminate.
  - reflexivity.
Defined.

(** The scope matters.  [off] without a scope removes the first live entry
    with the listener, whatever its scope: when a listener was registered
    once without a scope and then permanently with one, the trigger calls
    both and then clears the permanent registration, and the one made with
    [once] stays. *)
Lemma unscoped_once_outlives_trigger :
  live "videoBitrateChanged" bus_unscoped
  = [mkHandler 1 (Some 10%nat) false 5000 None None None;
     mkHandler 1 None true 0 None None None]
  /\ live "videoBitrateChanged"
       (snd (trigger "videoBitrateChanged" noPayload noFilters bus_unscoped))
     = [mkHandler 1 None true 0 None None None].
Proof. split; vm_compute; reflexivity. Qed.


(** The three handlers of [bus3] are called by priority, and the one
    registered with [once] is gone after the first trigger. *)
Example bus3_trigger :
  map callee (calls (snd (trigger "videoBitrateChanged" noPayload noFilters bus3)))
  = [2; 1; 3]%nat
  /\ map callback
         (live "videoBitrateChanged"
               (snd (trigger "videoBitrateChanged" noPayload noFilters bus3)))
     = [2; 1]%nat.
Proof. vm_compute. split; reflexivity. Qed.


(** X11.  A trigger on a type that has an array of handlers marks the
    payload object with the type, so that triggering any event that has
    handlers with the same object again throws, calls no listener and leaves
    the bus as it is. *)
Theorem payload_cannot_be_triggered_twice (b : EventBus) (type : string)
    (payload : Payload) (filters : Filters) :
  String.eqb type "" = false ->
  handlers b !! type <> None ->
  payloadType payload = None ->
  exists payload' b',
    trigger type payload filters b = (Ret payload', b')
    /\ payloadType payload' = Some type
    /\ forall type2 filters2,
         String.eqb type2 "" = false -> handlers b' !! type2 <> None ->
         trigger type2 payload' filters2 b'
         = (Throw (Error "'type' is a reserved word for event dispatching"), b').
Proof.
  intros Et Hl Ep. destruct (handlers b !! type) as [l |] eqn:El; [| congruence].
  rewrite (trigger_run type payload filters b l Et El Ep).
  eexists _, _. split; [reflexivity |]. split; [reflexivity |].
  intros type2 filters2 Et2 Hl2. unfold trigger, bind, get. rewrite Et2.
  match goal with |- context [handlers ?x !! type2] =>
    destruct (handlers x !! type2) eqn:E2 end; [| congruence].
  reflexivity.
Qed.

Lemma payload_cannot_be_triggered_twice_witness :
  exists payload' b',
    trigger "videoBitrateChanged" noPayload noFilters bus3 = (Ret payload', b')
    /\ payloadType payload' = Some "videoBitrateChanged"%string
    /\ forall type2 filters2,
         String.eqb type2 "" = false -> handlers b' !! type2 <> None ->
         trigger type2 payload' filters2 b'
         = (Throw (Error "'type' is a reserved word for event dispatching"), b').
Proof.
  apply (payload_cannot_be_triggered_twice bus3 "videoBitrateChanged" noPayload noFilters).
  - reflexivity.
  - vm_compute. discriminate.
  - reflexivity.
Defined.

Lemma findIndex_insertHandler (h : Handler) (s : nat) (l : list (option Handler)) :
  scope h = Some s ->
  Types.findIndex (matches (callback h) (Some s)) (insertHandler h l) <> None.
Proof.
  intros Hs.
  assert (Hm : matches (callback h) (Some s) (Some h) = true)
    by (now apply (matches_key h h s Hs)).
  induction l as [| [item |] l IH]; cbn [insertHandler Types.findIndex].
  - now rewrite Hm.
  - destruct (priority item <? priority h); cbn [Types.findIndex].
    + now rewrite Hm.
    + destruct (matches (callback h) (Some s) (Some item)); [discriminate |].
      destruct (Types.findIndex (matches (callback h) (Some s)) (insertHandler h l));
        [discriminate | exact IH].
  - change (matches (callback h) (Some s) None) with false. cbv iota.
    destruct (Types.findIndex (matches (callback h) (Some s)) (insertHandler h l));
      [discriminate | exact IH].
Qed.

(** X12.  Registering a listener that is already registered for the type
    with the same scope changes nothing, whatever priority or [once] flag
    the second registration asks for. *)
Theorem second_registration_is_ignored (b : EventBus) (type : string)
    (listener s : nat) (p1 p2 : option Z) (o1 o2 : bool) :
  let b1 := snd (commonOn type listener (Some s) p1 o1 b) in
  snd (commonOn type listener (Some s) p2 o2 b1) = b1.
Proof.
  cbn zeta.
  assert (Hfound : forall b0, getHandlerIdx type listener (Some s) b0 <> None ->
                              snd (commonOn type listener (Some s) p2 o2 b0) = b0).
  { intros b0 H. unfold commonOn. destruct (String.eqb type ""); [reflexivity |].
    unfold bind, get. destruct (getHandlerIdx type listener (Some s) b0); [reflexivity |].
    congruence. }
  destruct (String.eqb type "") eqn:Et.
  { unfold commonOn. now rewrite Et. }
  assert (E1 : snd (commonOn type listener (Some s) p1 o1 b)
               = match getHandlerIdx type listener (Some s) b with
                 | Some _ => b
                 | None =>
                     set_handlers
                       (<[type := insertHandler
                                    (mkHandler listener (Some s) o1
                                       match p1 with
                                       | Some p => if (p =? 0)%Z then EVENT_PRIORITY_LOW else p
                                       | None => EVENT_PRIORITY_LOW
                                       end None None None)
                                    (default [] (handlers b !! type))]> (handlers b)) b
                 end).
  { unfold commonOn. rewrite Et. unfold bind, get.
    now destruct (getHandlerIdx type listener (Some s) b). }
  rewrite E1. destruct (getHandlerIdx type listener (Some s) b) eqn:E.
  - apply Hfound. congruence.
  - apply Hfound.
    unfold getHandlerIdx, set_handlers. cbn [handlers]. rewrite lookup_insert_eq.
    match goal with |- context [insertHandler ?h ?l] =>
      exact (findIndex_insertHandler h s l eq_refl) end.
Qed.

(** X13.  The array of handlers of a type never shrinks while the bus is
    not reset: [off], and the removal of a [once] handler after its call,
    clear the slot and leave it in the array, and a registration appends or
    inserts a new slot. *)
Theorem slots_are_never_freed (r : request) (b : EventBus) (type : string) :
  isReset r = false ->
  (length (slots type b) <= length (slots type (snd (serve r b))))%nat.
Proof.
  assert (Hon : forall t l s p o,
            (length (slots type b)
             <= length (slots type (snd (commonOn t l (Some s) p o b))))%nat).
  { intros t l s p o.
    destruct (commonOn_cases t l (Some s) p o b) as [-> | (q & _ & ->)]; [lia |].
    rewrite slots_insert. destruct (String.eqb type t) eqn:E; [| lia].
    apply String.eqb_eq in E. subst. rewrite insertHandler_length. lia. }
  assert (Hoff : forall t l sc b0,
            length (slots type (snd (off t l sc b0))) = length (slots type b0)).
  { intros t l sc b0.
    destruct (off_cases t l sc b0) as [_ [-> | (l0 & idx & _ & Hl & _ & ->)]];
      [reflexivity |].
    rewrite slots_insert. destruct (String.eqb type t) eqn:E; [| reflexivity].
    apply String.eqb_eq in E. subst. rewrite clearAt_length.
    unfold slots. now rewrite Hl. }
  assert (Heach : forall t l b0,
            length (slots type
                      (snd (forEach (fun handler => off t (callback handler) (scope handler))
                                    l b0)))
            = length (slots type b0)).
  { intros t l. induction l as [| h l IH]; intros b0; cbn [forEach]; [reflexivity |].
    unfold bind.
    pose proof (Hoff t (callback h) (scope h) b0) as H1.
    pose proof (off_cases t (callback h) (scope h) b0) as [Ho _].
    destruct (off t (callback h) (scope h) b0) as [out b1].
    cbn in Ho, H1. subst out. now rewrite IH. }
  intros Hr. destruct r; cbn [serve]; try discriminate.
  - apply Hon.
  - apply Hon.
  - now rewrite Hoff.
  - unfold bind.
    destruct (String.eqb type0 "") eqn:Et.
    { unfold trigger, bind, get. rewrite Et. cbn. lia. }
    destruct (handlers b !! type0) as [l |] eqn:El.
    2:{ unfold trigger, bind, get. rewrite Et, El. cbn. lia. }
    destruct (payloadType payload) as [x |] eqn:Ep.
    { unfold trigger, bind, get. rewrite Et, El, Ep. cbn. lia. }
    rewrite (trigger_run type0 payload filters b l Et El Ep). cbv beta iota.
    cbn [snd ret]. rewrite Heach. unfold slots. cbn [handlers]. lia.
Qed.

Lemma slots_are_never_freed_witness :
  (length (slots "videoBitrateChanged" bus3)
   <= length (slots "videoBitrateChanged"
                    (snd (serve (Off "videoBitrateChanged" 2 20) bus3))))%nat.
Proof.
  apply (slots_are_never_freed (Off "videoBitrateChanged" 2 20) bus3). reflexivity.
Defined.

End BusFacts.

Module BlacklistTraceFacts.
Import Blacklist BlacklistTrace.

Section Membership.
Context {A : Type} (eqb : A -> A -> bool).
Hypothesis eqb_spec : forall x y, eqb x y = true <-> x = y.

Lemma existsb_In (x : A) (l : list A) : existsb (eqb x) l = true <-> In x l.
Proof.
  rewrite existsb_exists. split.
  - intros [y [Hy He]]. apply eqb_spec in He. now subst.
  - intros H. exists x. split; [assumption | now apply eqb_spec].
Qed.

Lemma existsb_false (x : A) (l : list A) : existsb (eqb x) l = false <-> ~ In x l.
Proof.
  rewrite <- existsb_In. destruct (existsb (eqb x) l); split; intros; congruence.
Qed.

Lemma remove_first_In (x y : A) (l : list A) :
  In y (remove_first eqb x l) -> In y l.
Proof.
  induction l as [| z l IH]; cbn; [tauto |].
  destruct (eqb x z); cbn; tauto.
Qed.

Lemma remove_first_NoDup (x : A) (l : list A) :
  List.NoDup l -> List.NoDup (remove_first eqb x l).
Proof.
  induction 1 as [| z l Hz Hl IH]; cbn; [constructor |].
  destruct (eqb x z); [assumption |].
  constructor; [| assumption]. intros H. apply Hz. eapply remove_first_In, H.
Qed.

(** Without duplicates the removal of the first occurrence removes the
    element, and only it. *)
Lemma remove_first_existsb (x y : A) (l : list A) :
  List.NoDup l ->
  existsb (eqb y) (remove_first eqb x l)
  = if eqb x y then false else existsb (eqb y) l.
Proof.
  induction 1 as [| z l Hz Hl IH]; cbn.
  - now destruct (eqb x y).
  - destruct (eqb x z) eqn:Exz.
    + apply eqb_spec in Exz. subst z.
      destruct (eqb x y) eqn:Exy.
      * apply eqb_spec in Exy. subst y. now apply existsb_false.
      * replace (eqb y x) with false; [reflexivity |].
        destruct (eqb y x) eqn:Eyx; [| reflexivity].
        apply eqb_spec in Eyx. subst y.
        assert (eqb x x = true) by now apply eqb_spec. congruence.
    + cbn. rewrite IH. destruct (eqb x y) eqn:Exy; [| reflexivity].
      apply eqb_spec in Exy. subst y.
      destruct (eqb x z) eqn:E; [discriminate | reflexivity].
Qed.

Lemma existsb_snoc (x y : A) (l : list A) :
  existsb (eqb y) (l ++ [x]) = existsb (eqb y) l || eqb y x.
Proof. rewrite existsb_app. cbn. now rewrite orb_false_r. Qed.

Lemma NoDup_snoc (x : A) (l : list A) :
  List.NoDup l -> ~ In x l -> List.NoDup (l ++ [x]).
Proof.
  intros Hl Hx. induction Hl as [| z l Hz Hl IH]; cbn.
  - constructor; [tauto | constructor].
  - constructor.
    + rewrite in_app_iff. cbn. intros [H | [H | []]]; [tauto |].
      subst. apply Hx. now left.
    + apply IH. intros H. apply Hx. now right.
Qed.

End Membership.

Lemma Zeqb_spec (x y : Z) : (x =? y) = true <-> x = y.
Proof. apply Z.eqb_eq. Qed.

Lemma Seqb_spec (x y : string) : String.eqb x y = true <-> x = y.
Proof. apply String.eqb_eq. Qed.

Lemma assert_run {S} (en c : bool) (s : S) :
  Assert_assert en c s = if negb en || c then (Ret tt, s) else (Throw AssertionError, s).
Proof. unfold Assert_assert. now destruct en, c. Qed.

(** What one call does to the two lists. *)
Lemma perform_lists (en : bool) (c : call) (b : BlacklistController) :
  distinct b ->
  distinct (snd (perform en c b))
  /\ (forall n,
        includes_num (blacklistedSegmentNumbers (snd (perform en c b))) n
        = numListed en [c] n (includes_num (blacklistedSegmentNumbers b) n))
  /\ (forall u,
        includes_url (blacklistedUrls (snd (perform en c b))) u
        = urlListed en [c] u (includes_url (blacklistedUrls b) u)).
Proof.
  intros [Hu Hn]. unfold distinct, includes_num, includes_url.
  destruct c as [url | segNum | url | segNum |]; cbn [perform numListed urlListed].
  - (* addToUrlBlacklist *)
    unfold addToUrlBlacklist, bind, get, urlPasses. rewrite assert_run.
    destruct (negb en || (0 <? Z.of_nat (String.length url))); cbn [snd].
    2:{ repeat split; try assumption. intros u. now rewrite andb_false_r. }
    unfold includes_url.
    destruct (existsb (String.eqb url) (blacklistedUrls b)) eqn:E; cbn.
    + repeat split; try assumption. intros u. rewrite andb_true_r.
      destruct (String.eqb url u) eqn:Eu; [| reflexivity].
      apply String.eqb_eq in Eu. now subst.
    + repeat split; try assumption.
      * apply NoDup_snoc; [assumption |].
        now apply (existsb_false String.eqb Seqb_spec).
      * intros u. rewrite existsb_snoc, andb_true_r.
        rewrite (String.eqb_sym u url).
        destruct (String.eqb url u); [apply orb_true_r | apply orb_false_r].
  - (* addSegNumToBlacklist *)
    unfold addSegNumToBlacklist, bind, get, numPasses. rewrite assert_run.
    destruct (negb en || (0 <=? segNum)); cbn [snd].
    2:{ repeat split; try assumption. intros n. now rewrite andb_false_r. }
    unfold includes_num.
    destruct (existsb (Z.eqb segNum) (blacklistedSegmentNumbers b)) eqn:E; cbn.
    + repeat split; try assumption. intros n. rewrite andb_true_r.
      destruct (segNum =? n) eqn:En; [| reflexivity].
      apply Z.eqb_eq in En. now subst.
    + repeat split; try assumption.
      * apply NoDup_snoc; [assumption |].
        now apply (existsb_false Z.eqb Zeqb_spec).
      * intros n. rewrite existsb_snoc, andb_true_r.
        rewrite (Z.eqb_sym n segNum).
        destruct (segNum =? n); [apply orb_true_r | apply orb_false_r].
  - (* removeUrl *)
    unfold removeUrl, bind, modify, urlPasses. rewrite assert_run.
    destruct (negb en || (0 <? Z.of_nat (String.length url))); cbn [snd].
    2:{ repeat split; try assumption. intros u. now rewrite andb_false_r. }
    cbn. repeat split; try assumption.
    + now apply remove_first_NoDup.
    + intros u. rewrite andb_true_r.
      now apply (remove_first_existsb String.eqb Seqb_spec).
  - (* removeSegmentNumber *)
    unfold removeSegmentNumber, bind, modify, numPasses. rewrite assert_run.
    destruct (negb en || (0 <=? segNum)); cbn [snd].
    2:{ repeat split; try assumption. intros n. now rewrite andb_false_r. }
    cbn. repeat split; try assumption.
    + now apply remove_first_NoDup.
    + intros n. rewrite andb_true_r.
      now apply (remove_first_existsb Z.eqb Zeqb_spec).
  - (* reset *)
    cbn. repeat split; [constructor | assumption].
Qed.

Lemma performAll_lists (en : bool) (cs : list call) (b : BlacklistController) :
  distinct b ->
  distinct (performAll en cs b)
  /\ (forall n,
        includes_num (blacklistedSegmentNumbers (performAll en cs b)) n
        = numListed en cs n (includes_num (blacklistedSegmentNumbers b) n))
  /\ (forall u,
        includes_url (blacklistedUrls (performAll en cs b)) u
        = urlListed en cs u (includes_url (blacklistedUrls b) u)).
Proof.
  revert b. induction cs as [| c cs IH]; intros b Hb.
  - repeat split; apply Hb.
  - destruct (perform_lists en c b Hb) as (Hd & Hn & Hu).
    destruct (IH _ Hd) as (Hd' & Hn' & Hu'). cbn [performAll].
    repeat split; try apply Hd'.
    + intros n. rewrite Hn', Hn. reflexivity.
    + intros u. rewrite Hu', Hu. reflexivity.
Qed.

Lemma fresh_distinct : distinct fresh.
Proof. split; constructor. Qed.

(** X14.  The blacklist of segment numbers behaves as a set: after any
    sequence of calls on a new controller, [containsSegmentNumber n] tells
    whether the last call that added or removed [n] (and passed its
    assertion) was an addition.  Adding a number twice and removing it once
    leaves it off the list, and [reset] does not enter. *)
Theorem segment_numbers_form_a_set (assertions : bool) (cs : list call) (n : Z) :
  containsSegmentNumber n (performAll assertions cs fresh)
  = (Ret (numListed assertions cs n false), performAll assertions cs fresh).
Proof.
  destruct (performAll_lists assertions cs fresh fresh_distinct) as (_ & Hn & _).
  unfold containsSegmentNumber, bind, get, ret. now rewrite Hn.
Qed.

(** X15.  The blacklist of URLs behaves as a set: after any sequence of
    calls on a new controller, [containsUrl u] tells, for a URL that passes
    the assertion, whether the last call among the additions and removals of
    [u] and the resets was an addition. *)
Theorem urls_form_a_set (assertions : bool) (cs : list call) (u : string) :
  urlPasses assertions u = true ->
  containsUrl assertions u (performAll assertions cs fresh)
  = (Ret (urlListed assertions cs u false), performAll assertions cs fresh).
Proof.
  intros Hp.
  destruct (performAll_lists assertions cs fresh fresh_distinct) as (_ & _ & Hu).
  unfold containsUrl, bind, get, ret. rewrite assert_run.
  unfold urlPasses in Hp. rewrite Hp. now rewrite Hu.
Qed.

Lemma urls_form_a_set_witness :
  containsUrl true "/media/video/1/seg-7.m4s" (performAll true calls1 fresh)
  = (Ret false, performAll true calls1 fresh).
Proof.
  exact (urls_form_a_set true calls1 "/media/video/1/seg-7.m4s" eq_refl).
Defined.

End BlacklistTraceFacts.

Module EstimateFacts.
Import Js Bandwidth Estimate.
Local Open Scope Q_scope.

(** The two averages take their samples without touching the counters. *)
Lemma averages_frame (m1 m2 : M Emwa unit) (b : BandwidthEstimator) :
  let b' := snd (bind (on_fast m1) (fun _ => on_slow m2) b) in
  bytesSampled b' = bytesSampled b /\ navDownlink b' = navDownlink b.
Proof.
  cbv zeta. unfold bind, on_fast, on_slow.
  destruct (m1 (fast b)) as [[[] | e] f]; cbn [snd].
  - cbn [slow set_fast]. destruct (m2 (slow b)) as [r f2]. now split.
  - now split.
Qed.

(** What an accepted or discarded sample does to the byte count. *)
Lemma sample_bytes (math : MathLib) (en : bool) (d n a : Q) (b : BandwidthEstimator) :
  0 < d -> 0 < n ->
  bytesSampled b = Fin a ->
  let b' := snd (sample math en (Fin d) (Fin n) b) in
  bytesSampled b' = Fin (if Qlt_bool n MIN_BYTES then a else a + n)
  /\ navDownlink b' = navDownlink b.
Proof.
  intros Hd Hn Ha. cbv zeta. unfold sample.
  assert (Gd : gt (Fin d) (Fin 0) && isFinite (Fin d) = true).
  { cbn. rewrite andb_true_r. now apply BolaFacts.Qlt_bool_iff. }
  assert (Gn : gt (Fin n) (Fin 0) && isFinite (Fin n) = true).
  { cbn. rewrite andb_true_r. now apply BolaFacts.Qlt_bool_iff. }
  rewrite Gd, Gn. unfold Assert_assert. rewrite !andb_false_r.
  change (lt (Fin n) (Fin MIN_BYTES)) with (Qlt_bool n MIN_BYTES).
  set (m := Emwa_sample math en (div (Fin d) (Fin 1000))
              (div (mul (Fin 8000) (Fin n)) (Fin d))).
  destruct (Qlt_bool n MIN_BYTES); [now split |].
  assert (E : snd (bind (ret tt) (fun _ => bind (ret tt) (fun _ =>
                bind (modify (fun b0 => set_sampleCount (sampleCount b0 + 1) b0))
                  (fun _ => bind (modify (fun b0 =>
                                     set_bytesSampled (add (bytesSampled b0) (Fin n)) b0))
                     (fun _ => bind (on_fast m) (fun _ => on_slow m))))) b)
              = snd (bind (on_fast m) (fun _ => on_slow m)
                       (set_bytesSampled
                          (add (bytesSampled (set_sampleCount (sampleCount b + 1) b)) (Fin n))
                          (set_sampleCount (sampleCount b + 1) b)))) by reflexivity.
  rewrite E.
  match goal with |- context [bind (on_fast m) ?k ?s] =>
    destruct (averages_frame m m s) as [H1 H2] end.
  rewrite H1, H2. cbn [bytesSampled navDownlink set_bytesSampled set_sampleCount].
  rewrite Ha. now split.
Qed.

Lemma sampleAll_bytes (math : MathLib) (en : bool) (samples : list (Q * Q)) :
  List.Forall (fun s => 0 < fst s /\ 0 < snd s) samples ->
  forall (b : BandwidthEstimator) (a : Q),
    bytesSampled b = Fin a ->
    bytesSampled (sampleAll math en samples b) = Fin (countedBytes samples a)
    /\ navDownlink (sampleAll math en samples b) = navDownlink b.
Proof.
  induction 1 as [| [d n] samples [Hd Hn] _ IH]; intros b a Ha; [now split |].
  cbn [sampleAll countedBytes]. cbn [fst snd] in Hd, Hn.
  destruct (sample_bytes math en d n a b Hd Hn Ha) as [Hb Hnav].
  destruct (IH _ _ Hb) as [H1 H2]. split; [exact H1 | congruence].
Qed.

(** X16.  Samples under 16000 bytes never count: after any samples with
    positive durations and sizes, [#bytesSampled] is what it was plus the
    bytes of the samples of at least 16000 bytes, and as long as that is
    under 128000, [getBandwidthEstimate] answers with the default (3e6, or
    the downlink of the browser times 1e6), whatever the averages hold. *)
Theorem default_until_128k (math : MathLib) (assertions : bool)
    (samples : list (Q * Q)) (b : BandwidthEstimator) (a : Q) :
  List.Forall (fun s => 0 < fst s /\ 0 < snd s) samples ->
  bytesSampled b = Fin a ->
  let b' := sampleAll math assertions samples b in
  bytesSampled b' = Fin (countedBytes samples a)
  /\ (countedBytes samples a < MIN_TOTAL_BYTES ->
      getBandwidthEstimate math b' = getDefaultBandwidth b).
Proof.
  intros Hs Ha. cbv zeta.
  destruct (sampleAll_bytes math assertions samples Hs b a Ha) as [Hb Hnav].
  split; [exact Hb |]. intros Hlt. unfold getBandwidthEstimate. rewrite Hb.
  change (lt (Fin (countedBytes samples a)) (Fin MIN_TOTAL_BYTES))
    with (Qlt_bool (countedBytes samples a) MIN_TOTAL_BYTES).
  rewrite (proj2 (BolaFacts.Qlt_bool_iff _ _) Hlt). unfold getDefaultBandwidth. now rewrite Hnav.
Qed.

Lemma default_until_128k_witness :
  bytesSampled (sampleAll ieee true small_samples estimator0) = Fin (countedBytes small_samples 0)
  /\ getBandwidthEstimate ieee (sampleAll ieee true small_samples estimator0) = Fin 3000000.
Proof.
  destruct (default_until_128k ieee true small_samples estimator0 0) as [H1 H2].
  - repeat constructor.
  - reflexivity.
  - split; [exact H1 |]. apply H2. reflexivity.
Defined.

(** The estimate of an average after its first sample. *)
Lemma first_sample_estimate (math : MathLib) (en : bool) (e : Emwa) (a w bw p : Q) :
  unsampled e ->
  alpha e = Fin a -> 0 < a ->
  Math_pow math (Fin a) (Fin w) = Fin p -> ~ p == 1 ->
  exists r, Emwa_getEstimate math (snd (Emwa_sample math en (Fin w) (Fin bw) e)) = Fin r
            /\ r == bw.
Proof.
  intros [He Hw] Ha Hpos Hp Hne. unfold Emwa_sample, bind, get.
  rewrite Ha. unfold Assert_assert.
  replace (gt (Fin a) (Fin 0)) with true
    by (symmetry; cbn; now apply BolaFacts.Qlt_bool_iff).
  rewrite andb_false_r. unfold ret at 1. rewrite Hp, He, Hw. cbn [mul sub add neg isNaN negb].
  cbn [put snd]. unfold Emwa_getEstimate. cbn [alpha totalWeight estimate].
  assert (E0 : 0 + w = w).
  { destruct w as [n d]. unfold Qplus. cbn [Qnum Qden]. f_equal; lia. }
  rewrite E0, Hp. cbn [sub neg add div].
  assert (Hz : ~ 1 + - p == 0).
  { intros H. apply Hne. lra. }
  destruct (Qeq_bool (1 + - p) 0) eqn:E; [apply Qeq_bool_iff in E; tauto |].
  eexists. split; [reflexivity |]. field. exact Hz.
Qed.

(** X17.  The measured estimate after the first sample is that sample's
    bandwidth.  On an estimator whose two averages have taken no sample and
    that does not blend in a downlink, a first sample of at least 128000
    bytes makes [getBandwidthEstimate] return 8000 * numBytes / durationMs
    (in exact arithmetic): the zero-factor correction of the averages
    cancels the weight of the initial estimate 0. *)
Theorem first_sample_is_the_estimate (math : MathLib) (assertions : bool)
    (b : BandwidthEstimator) (d n af as_ pf ps : Q) :
  0 < d -> MIN_TOTAL_BYTES <= n ->
  unsampled (fast b) -> unsampled (slow b) ->
  bytesSampled b = Fin 0 ->
  hasDownlink b && useNetworkInformation b = false ->
  alpha (fast b) = Fin af -> 0 < af ->
  alpha (slow b) = Fin as_ -> 0 < as_ ->
  Math_pow math (Fin af) (Fin (d / 1000)) = Fin pf -> ~ pf == 1 ->
  Math_pow math (Fin as_) (Fin (d / 1000)) = Fin ps -> ~ ps == 1 ->
  exists r,
    getBandwidthEstimate math (snd (sample math assertions (Fin d) (Fin n) b)) = Fin r
    /\ r == 8000 * n / d.
Proof.
  intros Hd Hn Hf Hs Hb Hnet Haf Hpf Has Hps Hpowf Hnef Hpows Hnes.
  assert (Hn0 : 0 < n).
  { eapply Qlt_le_trans; [| exact Hn]. reflexivity. }
  assert (Hdiv : forall x, div (Fin x) (Fin d) = Fin (x / d)).
  { intros x. cbn. destruct (Qeq_bool d 0) eqn:E; [| reflexivity].
    apply Qeq_bool_iff in E. rewrite E in Hd. discriminate. }
  unfold sample.
  replace (gt (Fin d) (Fin 0) && isFinite (Fin d)) with true
    by (symmetry; cbn; rewrite andb_true_r; now apply BolaFacts.Qlt_bool_iff).
  replace (gt (Fin n) (Fin 0) && isFinite (Fin n)) with true
    by (symmetry; cbn; rewrite andb_true_r; now apply BolaFacts.Qlt_bool_iff).
  unfold Assert_assert. rewrite !andb_false_r.
  unfold bind at 1. unfold ret at 1. unfold bind at 1. unfold ret at 1.
  replace (lt (Fin n) (Fin MIN_BYTES)) with false.
  2:{ symmetry. apply BolaFacts.Qlt_bool_false. eapply Qle_trans; [| exact Hn]. discriminate. }
  change (mul (Fin 8000) (Fin n)) with (Fin (8000 * n)). rewrite Hdiv.
  change (div (Fin d) (Fin 1000)) with (Fin (d / 1000)).
  unfold bind, modify, on_fast, on_slow.
  cbn [fast slow set_bytesSampled set_sampleCount set_fast set_slow].
  destruct (first_sample_estimate math assertions (fast b) af (d / 1000) (8000 * n / d) pf
              Hf Haf Hpf Hpowf Hnef) as (rf & Erf & Hrf).
  destruct (first_sample_estimate math assertions (slow b) as_ (d / 1000) (8000 * n / d) ps
              Hs Has Hps Hpows Hnes) as (rs & Ers & Hrs).
  assert (Rf : fst (Emwa_sample math assertions (Fin (d / 1000)) (Fin (8000 * n / d)) (fast b))
               = Ret tt).
  { unfold Emwa_sample, bind, get. rewrite Haf. unfold Assert_assert.
    replace (gt (Fin af) (Fin 0)) with true by (symmetry; cbn; now apply BolaFacts.Qlt_bool_iff).
    rewrite andb_false_r. unfold ret at 1. rewrite Hpowf.
    destruct Hf as [-> _]. reflexivity. }
  assert (Rs : fst (Emwa_sample math assertions (Fin (d / 1000)) (Fin (8000 * n / d)) (slow b))
               = Ret tt).
  { unfold Emwa_sample, bind, get. rewrite Has. unfold Assert_assert.
    replace (gt (Fin as_) (Fin 0)) with true by (symmetry; cbn; now apply BolaFacts.Qlt_bool_iff).
    rewrite andb_false_r. unfold ret at 1. rewrite Hpows.
    destruct Hs as [-> _]. reflexivity. }
  destruct (Emwa_sample math assertions (Fin (d / 1000)) (Fin (8000 * n / d)) (fast b))
    as [o1 f'] eqn:Ef.
  cbn [fst snd] in Rf, Erf. subst o1.
  cbn [slow set_fast set_bytesSampled set_sampleCount].
  destruct (Emwa_sample math assertions (Fin (d / 1000)) (Fin (8000 * n / d)) (slow b))
    as [o2 s'] eqn:Es.
  cbn [fst snd] in Rs, Ers. subst o2. cbn [snd].
  unfold getBandwidthEstimate.
  cbn [bytesSampled fast slow set_slow set_fast set_bytesSampled set_sampleCount
       hasDownlink navDownlink useNetworkInformation].
  rewrite Hb. change (add (Fin 0) (Fin n)) with (Fin (0 + n)).
  replace (lt (Fin (0 + n)) (Fin MIN_TOTAL_BYTES)) with false.
  2:{ symmetry. apply BolaFacts.Qlt_bool_false. rewrite Qplus_0_l. exact Hn. }
  change (hasDownlink (set_slow s' (set_fast f' (set_bytesSampled (Fin (0 + n))
                         (set_sampleCount (sampleCount b + 1) b)))))
    with (hasDownlink b).
  rewrite Hnet, Erf, Ers. cbn [Math_min].
  destruct (lt (Fin rs) (Fin rf)); eexists; (split; [reflexivity | assumption]).
Qed.

Lemma first_sample_is_the_estimate_witness :
  exists r,
    getBandwidthEstimate ieee (snd (sample ieee true (Fin 1000) (Fin 625000) estimator0))
    = Fin r
    /\ r == 8000 * 625000 / 1000.
Proof.
  apply (first_sample_is_the_estimate ieee true estimator0 1000 625000
           alpha_2s alpha_5s alpha_2s alpha_5s);
    try reflexivity; try discriminate; try (split; reflexivity).
Defined.

(** X18.  With a downlink from the browser, the estimate is a blend of the
    downlink and the measured estimate in which the downlink weighs at least
    10 percent: when [Math.exp] gives at most 1 on the (negative) argument
    [-sampleCount / 5], the weight lies between 0.1 and 1 and the estimate
    between the measured estimate and the downlink estimate. *)
Theorem blended_estimate_bounds (math : MathLib) (b : BandwidthEstimator)
    (dl m e : Q) :
  lt (bytesSampled b) (Fin MIN_TOTAL_BYTES) = false ->
  navDownlink b = Some (Fin dl) -> ~ dl == 0 ->
  useNetworkInformation b = true ->
  Math_min (Emwa_getEstimate math (fast b)) (Emwa_getEstimate math (slow b)) = Fin m ->
  Math_exp math (Fin (- inject_Z (sampleCount b) / 5)) = Fin e -> e <= 1 ->
  exists r w,
    getBandwidthEstimate math b = Fin r
    /\ getNetworkApiWeight math b = Fin w
    /\ 1 # 10 <= w <= 1
    /\ r == w * (dl * 1000000) + (1 - w) * m
    /\ Qmin (dl * 1000000) m <= r <= Qmax (dl * 1000000) m.
Proof.
  intros Hb Hnav Hdl Hnet Hm He Hle.
  assert (Ht : truthy (Fin dl) = true).
  { cbn. destruct (Qeq_bool dl 0) eqn:E; [apply Qeq_bool_iff in E; tauto | reflexivity]. }
  assert (Hw : exists w, getNetworkApiWeight math b = Fin w /\ 1 # 10 <= w <= 1).
  { unfold getNetworkApiWeight.
    destruct ((sampleCount b =? 0)%Z || lt (bytesSampled b) (Fin MIN_BYTES)).
    - exists 1. split; [reflexivity | split; discriminate].
    - change (div (neg (Fin (inject_Z (sampleCount b)))) (Fin 5))
        with (Fin (- inject_Z (sampleCount b) / 5)).
      rewrite He. cbn [Math_max lt].
      destruct (Qlt_bool (1 # 10) e) eqn:E.
      + exists e. split; [reflexivity |]. apply BolaFacts.Qlt_bool_iff in E.
        split; [now apply Qlt_le_weak | exact Hle].
      + exists (1 # 10). split; [reflexivity | split; discriminate]. }
  destruct Hw as (w & Ew & Hw1 & Hw2).
  exists (w * (dl * 1000000) + (1 + - w) * m), w.
  split; [| split; [exact Ew | split; [now split | split; [ring |]]]].
  - unfold getBandwidthEstimate, hasDownlink, getDefaultBandwidth.
    rewrite Hb, Hnav, Ht, Hnet, Hm, Ew. reflexivity.
  - destruct (Qlt_le_dec m (dl * 1000000)) as [Hlt | Hge].
    + rewrite Q.min_r, Q.max_l by now apply Qlt_le_weak. split; nra.
    + rewrite Q.min_l, Q.max_r by assumption. split; nra.
Qed.

Lemma blended_estimate_bounds_witness :
  exists r w m,
    getBandwidthEstimate ieee_weight estimator_net = Fin r
    /\ getNetworkApiWeight ieee_weight estimator_net = Fin w
    /\ 1 # 10 <= w <= 1
    /\ r == w * (10 * 1000000) + (1 - w) * m
    /\ Qmin (10 * 1000000) m <= r <= Qmax (10 * 1000000) m.
Proof.
  edestruct (blended_estimate_bounds ieee_weight estimator_net 10) as (r & w & H).
  - reflexivity.
  - reflexivity.
  - discriminate.
  - reflexivity.
  - vm_compute. reflexivity.
  - vm_compute. reflexivity.
  - discriminate.
  - exists r, w. eexists. exact H.
Defined.

End EstimateFacts.

Module SelectionFacts.
Import Types Abr Selection.
Local Open Scope Z_scope.

Lemma find_snoc {A} (p : A -> bool) (l : list A) (x : A) :
  List.find p (l ++ [x])
  = match List.find p l with
    | Some y => Some y
    | None => if p x then Some x else None
    end.
Proof.
  induction l as [| y l IH]; cbn; [reflexivity |].
  destruct (p y); [reflexivity | exact IH].
Qed.

Lemma Qle_bool_total (a b : Q) : Qle_bool a b = false -> Qle_bool b a = true.
Proof.
  intros H. apply Qle_bool_iff. apply Qlt_le_weak. apply Qnot_le_lt.
  intros Hle. apply Qle_bool_iff in Hle. congruence.
Qed.

(** When no later representation fits, the upper bound of the loop body
    holds by itself. *)
Lemma canChoose_fits (env : Reads) (rep : VideoRepresentation)
    (later : list VideoRepresentation) :
  List.find (fits env) (rev later) = None ->
  canChoose env rep later = fits env rep.
Proof.
  intros Hnone. unfold canChoose, fits.
  destruct (throughput env) as [bw |] eqn:Et; [| reflexivity].
  unfold nextDifferentBitrate.
  destruct (List.find (fun r => negb (Qeq_bool (bitrate rep) (bitrate r))) later)
    as [r |] eqn:Ef; [| apply andb_true_r].
  apply List.find_some in Ef. destruct Ef as [Hin _].
  assert (Hr : fits env r = false).
  { apply (List.find_none _ _ Hnone). now apply in_rev in Hin. }
  unfold fits in Hr. rewrite Et in Hr.
  rewrite (Qle_bool_total _ _ Hr). apply andb_true_r.
Qed.

Lemma bandwidth_scan_last (env : Reads) (reps : list VideoRepresentation)
    (chosen : option VideoRepresentation) :
  bandwidth_scan env chosen reps
  = match lastFitting env reps with
    | Some r => Some r
    | None => chosen
    end.
Proof.
  unfold lastFitting. revert chosen.
  induction reps as [| rep later IH]; intros chosen; [reflexivity |].
  cbn [bandwidth_scan rev]. rewrite IH, find_snoc.
  destruct (List.find (fits env) (rev later)) eqn:E; [reflexivity |].
  rewrite (canChoose_fits env rep later E). now destruct (fits env rep).
Qed.

(** X19.  [BandwidthAbr.chooseRepresentation] returns the last
    representation of its list whose bitrate, times the playback rate and
    the margin 1.05, is covered by the bandwidth estimate, and the first
    representation when none is (or the estimate is NaN); the upper bound
    [maxBandwidth] of the loop never changes the choice. *)
Theorem bandwidth_picks_last_fitting (env : Reads) (b : BandwidthAbr) :
  let reps := bandwidthRepresentations b in
  bandwidth_chooseRepresentation env b
  = (Ret match lastFitting env reps with
         | Some r => Some r
         | None => head reps
         end,
     mkBandwidthAbr reps (Some (now env)))
  /\ match lastFitting env reps with
     | Some r =>
         fits env r = true
         /\ exists before after,
              reps = before ++ r :: after
              /\ forall x, In x after -> fits env x = false
     | None => forall x, In x reps -> fits env x = false
     end.
Proof.
  cbv zeta. split.
  - unfold bandwidth_chooseRepresentation, bind, get, put, ret.
    now rewrite bandwidth_scan_last.
  - unfold lastFitting.
    destruct (List.find (fits env) (rev (bandwidthRepresentations b))) as [r |] eqn:E.
    + pose proof (List.find_some _ _ E) as [_ Hfit]. split; [exact Hfit |].
      clear Hfit. revert E.
      induction (bandwidthRepresentations b) as [| x l IH]; [discriminate |].
      cbn [rev]. rewrite find_snoc.
      destruct (List.find (fits env) (rev l)) as [y |] eqn:El.
      * intros [= ->]. destruct (IH eq_refl) as (before & after & -> & Hafter).
        exists (x :: before), after. split; [reflexivity | exact Hafter].
      * destruct (fits env x) eqn:Ex; [| discriminate]. intros [= ->].
        exists [], l. split; [reflexivity |]. intros z Hz.
        apply (List.find_none _ _ El). now apply in_rev in Hz.
    + intros x Hx. apply (List.find_none _ _ E). now apply in_rev in Hx.
Qed.

(** The selection made on the four-step ladder at 2.5 Mbit/s. *)
Example bandwidth_picks_1000k :
  fst (bandwidth_chooseRepresentation reads_slow (bandwidthAbr selector1))
  = Ret (Some rep_1000k).
Proof. vm_compute. reflexivity. Qed.

Lemma assert_state {S} (en c : bool) (s s' : S) (o : outcome unit) :
  Assert_assert en c s = (o, s') -> s' = s.
Proof.
  unfold Assert_assert, throw, ret. destruct (en && negb c); intros [= _ <-]; reflexivity.
Qed.

(** With two downgrades on record the check of the drop rate is not
    reached. *)
Lemma shouldLowerResolution_exhausted (en : bool) (env : Reads) (streamId : Z)
    (rid : string) (a : DroppedFramesAbr) (d : Downgrade) :
  downgrades a !! streamId = Some d ->
  MAX_CONSECUTIVE_DOWNGRADES <= count d ->
  shouldLowerResolution en env streamId rid a = (Ret false, a).
Proof.
  intros Hd Hc. unfold shouldLowerResolution, try_catch, shouldLowerResolution_body.
  unfold bind at 1. unfold getFrameHistory.
  destruct (values (history env) !! (streamId, rid)) as [q |]; [| reflexivity].
  unfold ret at 1. cbn [totalVideoFrames].
  destruct (totalVideoFrames q <? MINIMUM_SAMPLE_SIZE); [reflexivity |].
  unfold bind, get. rewrite Hd.
  replace (MAX_CONSECUTIVE_DOWNGRADES <=? count d) with true
    by (symmetry; now apply Z.leb_le).
  rewrite orb_true_r. reflexivity.
Qed.

(** X20.  After two downgrades of a stream the dropped-frames strategy is
    out of action: the check of the count comes before the drop rate is
    looked at, so [chooseRepresentation] proposes no representation any more
    and the record of the downgrades stays as it is, whatever the frame
    history shows; the code that would clear the record on a low drop rate is
    not reached. *)
Theorem two_downgrades_are_final (en : bool) (env : Reads) (a : DroppedFramesAbr)
    (d : Downgrade) :
  downgrades a !! 0 = Some d ->
  MAX_CONSECUTIVE_DOWNGRADES <= count d ->
  snd (dropped_chooseRepresentation en env a) = a
  /\ forall r, fst (dropped_chooseRepresentation en env a) <> Ret (Some r).
Proof.
  intros Hd Hc.
  assert (H : exists o, dropped_chooseRepresentation en env a = (o, a)
                        /\ forall r, o <> Ret (Some r)).
  { unfold dropped_chooseRepresentation, bind, get, getCurrentVideoRepresentation.
    destruct (currentVideoRepresentation env) as [cur |].
    2:{ eexists. split; [reflexivity | discriminate]. }
    unfold ret at 1.
    destruct (Assert_assert en (0 <? length (droppedRepresentations a))%nat a)
      as [[[] | e] a0] eqn:Ea; apply assert_state in Ea; subst a0.
    - rewrite (shouldLowerResolution_exhausted en env 0 (id cur) a d Hd Hc).
      eexists. split; [reflexivity | discriminate].
    - eexists. split; [reflexivity | discriminate]. }
  destruct H as (o & -> & Ho). split; [reflexivity | exact Ho].
Qed.

Lemma two_downgrades_are_final_witness :
  snd (dropped_chooseRepresentation true reads_6s exhausted) = exhausted
  /\ forall r, fst (dropped_chooseRepresentation true reads_6s exhausted) <> Ret (Some r).
Proof.
  apply (two_downgrades_are_final true reads_6s exhausted (mkDowngrade 2 50000)).
  - reflexivity.
  - discriminate.
Defined.

Lemma findIndex_nth {A} (p : A -> bool) (l : list A) (i : nat) :
  findIndex p l = Some i ->
  exists x, nth_error l i = Some x /\ p x = true.
Proof.
  revert i. induction l as [| y l IH]; intros i; cbn; [discriminate |].
  destruct (p y) eqn:E.
  - intros [= <-]. now exists y.
  - destruct (findIndex p l) as [j |]; [| discriminate].
    intros [= <-]. cbn. now apply IH.
Qed.

(** What a positive answer of [#shouldLowerResolution] rests on. *)
Lemma shouldLowerResolution_true (en : bool) (env : Reads) (streamId : Z)
    (rid : string) (a a' : DroppedFramesAbr) :
  shouldLowerResolution en env streamId rid a = (Ret true, a') ->
  exists q,
    values (history env) !! (streamId, rid) = Some q
    /\ MINIMUM_SAMPLE_SIZE <= totalVideoFrames q
    /\ (DROPPED_FRAMES_PERCENTAGE_THRESHOLD
        < inject_Z (droppedVideoFrames q) / inject_Z (totalVideoFrames q))%Q
    /\ match downgrades a !! streamId with
       | Some d =>
           DOWNGRADE_COOLDOWN_MS <= now env - lastDowngradeTime d
           /\ count d < MAX_CONSECUTIVE_DOWNGRADES
           /\ a' = set_downgrades
                     (<[streamId := mkDowngrade (count d + 1) (now env)]> (downgrades a)) a
       | None =>
           a' = set_downgrades
                  (<[streamId := mkDowngrade 1 (now env)]> (downgrades a)) a
       end.
Proof.
  unfold shouldLowerResolution, try_catch, shouldLowerResolution_body.
  unfold bind at 1. unfold getFrameHistory.
  destruct (values (history env) !! (streamId, rid)) as [q |] eqn:Eq; [| discriminate].
  unfold ret at 1. cbn [totalVideoFrames droppedVideoFrames].
  destruct (totalVideoFrames q <? MINIMUM_SAMPLE_SIZE) eqn:Emin; [discriminate |].
  apply Z.ltb_ge in Emin.
  unfold bind at 1. unfold get at 1.
  destruct (downgrades a !! streamId) as [d |] eqn:Ed.
  - destruct (now env - lastDowngradeTime d <? DOWNGRADE_COOLDOWN_MS) eqn:Ecool;
      [discriminate |].
    destruct (MAX_CONSECUTIVE_DOWNGRADES <=? count d) eqn:Emax; [discriminate |].
    cbn [orb]. apply Z.ltb_ge in Ecool. apply Z.leb_gt in Emax.
    destruct (Js.Qlt_bool DROPPED_FRAMES_PERCENTAGE_THRESHOLD
                (inject_Z (droppedVideoFrames q) / inject_Z (totalVideoFrames q)))
      eqn:Erate.
    + apply BolaFacts.Qlt_bool_iff in Erate.
      unfold bind, put, ret. intros [= <-].
      exists q. repeat split; assumption.
    + unfold bind.
      destruct (Js.Qlt_bool _ (DROPPED_FRAMES_PERCENTAGE_THRESHOLD / 2)); discriminate.
  - cbn [orb].
    destruct (Js.Qlt_bool DROPPED_FRAMES_PERCENTAGE_THRESHOLD
                (inject_Z (droppedVideoFrames q) / inject_Z (totalVideoFrames q)))
      eqn:Erate.
    + apply BolaFacts.Qlt_bool_iff in Erate.
      unfold bind, put, ret. intros [= <-].
      exists q. repeat split; assumption.
    + unfold bind.
      destruct (Js.Qlt_bool _ (DROPPED_FRAMES_PERCENTAGE_THRESHOLD / 2)); discriminate.
Qed.

(** The runs of [DroppedFramesAbr.chooseRepresentation] that propose a
    representation. *)
Lemma dropped_choice (en : bool) (env : Reads) (a a' : DroppedFramesAbr)
    (r : VideoRepresentation) :
  dropped_chooseRepresentation en env a = (Ret (Some r), a') ->
  exists cur,
    currentVideoRepresentation env = Some cur
    /\ shouldLowerResolution en env 0 (id cur) a = (Ret true, a')
    /\ nth_error (droppedRepresentations a)
         match findIndex (fun x => same_id x cur) (droppedRepresentations a) with
         | Some i => Nat.pred i
         | None => 0%nat
         end = Some r.
Proof.
  unfold dropped_chooseRepresentation, bind, get, getCurrentVideoRepresentation.
  destruct (currentVideoRepresentation env) as [cur |]; [| discriminate].
  unfold ret at 1.
  destruct (Assert_assert en (0 <? length (droppedRepresentations a))%nat a)
    as [[[] | e] a0] eqn:Ea; apply assert_state in Ea; subst a0; [| discriminate].
  destruct (shouldLowerResolution en env 0 (id cur) a) as [[[|] | e] a1] eqn:El;
    try discriminate.
  intros H. exists cur. split; [reflexivity |].
  destruct (findIndex (fun x => same_id x cur) (droppedRepresentations a)) as [[| i] |];
    unfold ret in H; inversion H; subst; split; reflexivity || assumption.
Qed.

(** X21.  The dropped-frames strategy proposes a representation only on
    evidence: the history of the playing representation holds at least 375
    frames of which more than 15 percent were dropped, the last downgrade of
    the stream is at least 10 s old and fewer than two are on record.  The
    proposal is the entry before the playing one in the strategy's list (the
    first entry if there is none before it), and the downgrade is recorded
    with the current time. *)
Theorem downgrade_needs_evidence (en : bool) (env : Reads) (a : DroppedFramesAbr)
    (r : VideoRepresentation) :
  fst (dropped_chooseRepresentation en env a) = Ret (Some r) ->
  exists cur q,
    currentVideoRepresentation env = Some cur
    /\ values (history env) !! (0, id cur) = Some q
    /\ MINIMUM_SAMPLE_SIZE <= totalVideoFrames q
    /\ (DROPPED_FRAMES_PERCENTAGE_THRESHOLD
        < inject_Z (droppedVideoFrames q) / inject_Z (totalVideoFrames q))%Q
    /\ match downgrades a !! 0 with
       | Some d =>
           DOWNGRADE_COOLDOWN_MS <= now env - lastDowngradeTime d
           /\ count d < MAX_CONSECUTIVE_DOWNGRADES
           /\ downgrades (snd (dropped_chooseRepresentation en env a)) !! 0
              = Some (mkDowngrade (count d + 1) (now env))
       | None =>
           downgrades (snd (dropped_chooseRepresentation en env a)) !! 0
           = Some (mkDowngrade 1 (now env))
       end
    /\ nth_error (droppedRepresentations a)
         match findIndex (fun x => same_id x cur) (droppedRepresentations a) with
         | Some i => Nat.pred i
         | None => 0%nat
         end = Some r.
Proof.
  destruct (dropped_chooseRepresentation en env a) as [o a'] eqn:E.
  cbn [fst snd]. intros ->.
  destruct (dropped_choice en env a a' r E) as (cur & Hcur & Hlow & Hnth).
  destruct (shouldLowerResolution_true en env 0 (id cur) a a' Hlow)
    as (q & Hq & Hmin & Hrate & Hd).
  exists cur, q. repeat split; try assumption.
  destruct (downgrades a !! 0) as [d |].
  - destruct Hd as (H1 & H2 & ->). repeat split; try assumption.
    unfold set_downgrades. cbn [downgrades]. now rewrite lookup_insert_eq.
  - subst a'. unfold set_downgrades. cbn [downgrades]. now rewrite lookup_insert_eq.
Qed.

Lemma downgrade_needs_evidence_witness :
  exists cur q,
    currentVideoRepresentation reads_6s = Some cur
    /\ values (history reads_6s) !! (0, id cur) = Some q
    /\ MINIMUM_SAMPLE_SIZE <= totalVideoFrames q
    /\ (DROPPED_FRAMES_PERCENTAGE_THRESHOLD
        < inject_Z (droppedVideoFrames q) / inject_Z (totalVideoFrames q))%Q.
Proof.
  destruct (downgrade_needs_evidence true reads_6s (droppedFramesAbr selector1) rep_1000k)
    as (cur & q & H1 & H2 & H3 & H4 & _).
  - vm_compute. reflexivity.
  - exists cur, q. repeat split; assumption.
Defined.

Lemma Math_round_between (x : Q) (lo hi : Z) :
  (inject_Z lo <= x)%Q -> (x <= inject_Z hi)%Q ->
  lo <= Math_round x <= hi.
Proof.
  intros Hlo Hhi. unfold Math_round. split.
  - rewrite <- (Qfloor_Z lo). apply Qfloor_resp_le. lra.
  - assert (H : (x + (1 # 2) < inject_Z (hi + 1))%Q).
    { rewrite inject_Z_plus. change (inject_Z 1) with 1%Q. lra. }
    pose proof (Qfloor_le (x + (1 # 2))) as Hf.
    assert (Hlt : (inject_Z (Qfloor (x + (1 # 2))) < inject_Z (hi + 1))%Q)
      by (eapply Qle_lt_trans; eassumption).
    rewrite <- Zlt_Qlt in Hlt. lia.
Qed.

(** The index the smoothing step computes lies between the two indices. *)
Lemma smoothed_index_between (ci ti : nat) (f : Q) :
  (0 <= f)%Q -> (f <= 1)%Q ->
  let k := Math_round (inject_Z (Z.of_nat ci)
                       + inject_Z (Z.of_nat ti - Z.of_nat ci) * f)%Q in
  Z.of_nat (Nat.min ci ti) <= k <= Z.of_nat (Nat.max ci ti).
Proof.
  intros H0 H1. cbv zeta. apply Math_round_between.
  - unfold Zminus. rewrite inject_Z_plus, inject_Z_opp.
    destruct (Nat.le_ge_cases ci ti) as [H | H].
    + rewrite Nat.min_l by assumption.
      assert (inject_Z (Z.of_nat ci) <= inject_Z (Z.of_nat ti))%Q
        by (rewrite <- Zle_Qle; lia). nra.
    + rewrite Nat.min_r by assumption.
      assert (inject_Z (Z.of_nat ti) <= inject_Z (Z.of_nat ci))%Q
        by (rewrite <- Zle_Qle; lia). nra.
  - unfold Zminus. rewrite inject_Z_plus, inject_Z_opp.
    destruct (Nat.le_ge_cases ci ti) as [H | H].
    + rewrite Nat.max_r by assumption.
      assert (inject_Z (Z.of_nat ci) <= inject_Z (Z.of_nat ti))%Q
        by (rewrite <- Zle_Qle; lia). nra.
    + rewrite Nat.max_l by assumption.
      assert (inject_Z (Z.of_nat ti) <= inject_Z (Z.of_nat ci))%Q
        by (rewrite <- Zle_Qle; lia). nra.
Qed.

Lemma findIndex_bound {A} (p : A -> bool) (l : list A) (i : nat) :
  findIndex p l = Some i -> (i < length l)%nat.
Proof.
  intros H. destruct (findIndex_nth p l i H) as (x & Hx & _).
  apply nth_error_Some. congruence.
Qed.

(** X22.  With a smoothing factor between 0 and 1 the smoothing step
    returns a representation of the filtered list whose index lies between
    the index of the playing representation and the index of the chosen one
    (both in the list, no oscillation on record): it never overshoots the
    choice, never moves away from it, and never reads outside the list. *)
Theorem smoothing_stays_between (env : Reads) (c : AbrController)
    (cur chosen : VideoRepresentation) (s : Selector) (ci ti : nat) :
  smoothingActive c = true ->
  detectOscillation c = false ->
  (0 <= smoothingFactor (config c) <= 1)%Q ->
  currentVideoRepresentation env = Some cur ->
  findIndex (fun r => same_id r cur) (filteredRepresentations c) = Some ci ->
  findIndex (fun r => same_id r chosen) (filteredRepresentations c) = Some ti ->
  exists k r,
    smoothQualitySelection env c chosen s = (Ret (Some r), s)
    /\ nth_error (filteredRepresentations c) k = Some r
    /\ (Nat.min ci ti <= k <= Nat.max ci ti)%nat.
Proof.
  intros Ha Ho [Hf0 Hf1] Hcur Hci Hti.
  pose proof (smoothed_index_between ci ti _ Hf0 Hf1) as Hk. cbv zeta in Hk.
  pose proof (findIndex_bound _ _ _ Hci) as Bc.
  pose proof (findIndex_bound _ _ _ Hti) as Bt.
  set (k := Math_round (inject_Z (Z.of_nat ci)
                        + inject_Z (Z.of_nat ti - Z.of_nat ci)
                          * smoothingFactor (config c))%Q) in *.
  assert (Hlen : (Z.to_nat k < length (filteredRepresentations c))%nat) by lia.
  destruct (nth_error (filteredRepresentations c) (Z.to_nat k)) as [r |] eqn:Er.
  2:{ apply nth_error_None in Er. lia. }
  exists (Z.to_nat k), r. split; [| split; [exact Er | lia]].
  unfold smoothQualitySelection. rewrite Ha. cbn [negb].
  unfold bind, getCurrentVideoRepresentation. rewrite Hcur. unfold ret at 1.
  rewrite Hci, Ho, Hti. fold k.
  replace (k <? 0) with false by (symmetry; apply Z.ltb_ge; lia).
  now rewrite Er.
Qed.

Lemma smoothing_stays_between_witness :
  exists k r,
    smoothQualitySelection reads_6s (abr selector_smooth) rep_1000k selector_smooth
    = (Ret (Some r), selector_smooth)
    /\ nth_error Bola.ladder4 k = Some r
    /\ (Nat.min 2 1 <= k <= Nat.max 2 1)%nat.
Proof.
  apply (smoothing_stays_between reads_6s (abr selector_smooth) rep_3000k rep_1000k
           selector_smooth 2 1); try reflexivity.
  split; discriminate.
Defined.

(** X23.  With the smoothing factor 0.5 of the default configuration and
    smoothing active, a choice one index below the playing representation is
    rounded back to the playing representation ([Math.round] takes the half
    upwards), so the quality check returns false, triggers no event and
    leaves the selector as it is: a downswitch of one step does not happen. *)
Theorem one_step_down_is_smoothed_away (env : Reads) (now0 : Z)
    (cur chosen : VideoRepresentation) (usedStrategy : AbrStrategyType)
    (s : Selector) (i : nat) :
  smoothingActive (abr s) = true ->
  detectOscillation (abr s) = false ->
  (smoothingFactor (config (abr s)) == 1 # 2)%Q ->
  currentVideoRepresentation env = Some cur ->
  findIndex (fun r => same_id r cur) (filteredRepresentations (abr s)) = Some (S i) ->
  findIndex (fun r => same_id r chosen) (filteredRepresentations (abr s)) = Some i ->
  applyChoice env now0 cur usedStrategy (Some chosen) s = (Ret false, s).
Proof.
  intros Ha Ho Hf Hcur Hci Hti. unfold applyChoice.
  destruct (same_id cur chosen); [reflexivity |].
  unfold bind at 1. unfold get at 1. rewrite Ha.
  destruct (findIndex_nth _ _ _ Hci) as (x & Hx & Hid).
  assert (Hk : Math_round (inject_Z (Z.of_nat (S i))
                           + inject_Z (Z.of_nat i - Z.of_nat (S i))
                             * smoothingFactor (config (abr s)))%Q
               = Z.of_nat (S i)).
  { unfold Math_round.
    transitivity (Qfloor (inject_Z (Z.of_nat (S i)))); [| apply Qfloor_Z].
    apply Qfloor_comp. rewrite Hf.
    replace (Z.of_nat i - Z.of_nat (S i)) with (-1) by lia.
    change (inject_Z (-1)) with (-1 # 1)%Q. ring. }
  assert (Hs : smoothQualitySelection env (abr s) chosen s = (Ret (Some x), s)).
  { unfold smoothQualitySelection. rewrite Ha. cbn [negb].
    unfold bind, getCurrentVideoRepresentation. rewrite Hcur. unfold ret at 1.
    rewrite Hci, Ho, Hti, Hk.
    replace (Z.of_nat (S i) <? 0) with false by (symmetry; apply Z.ltb_ge; lia).
    rewrite Nat2Z.id, Hx. reflexivity. }
  unfold bind at 1. unfold bind at 1. rewrite Hs. unfold defined, ret at 1.
  assert (Hsym : same_id cur x = true).
  { unfold same_id in *. now rewrite String.eqb_sym. }
  rewrite Hsym. reflexivity.
Qed.

Lemma one_step_down_is_smoothed_away_witness :
  applyChoice reads_6s 106000 rep_3000k DroppedFrames (Some rep_1000k) selector_smooth
  = (Ret false, selector_smooth).
Proof.
  apply (one_step_down_is_smoothed_away reads_6s 106000 rep_3000k rep_1000k
           DroppedFrames selector_smooth 1); reflexivity.
Defined.

(** The tail of the quality check either announces one switch to a
    representation other than the playing one, or leaves the selector. *)
Lemma applyChoice_outcome (env : Reads) (now0 : Z) (cur : VideoRepresentation)
    (usedStrategy : AbrStrategyType) (chosen : option VideoRepresentation)
    (s : Selector) :
  exists o s',
    applyChoice env now0 cur usedStrategy chosen s = (o, s')
    /\ ((exists r,
           o = Ret true
           /\ s' = trigger (QUALITY_CHANGE_REQUESTED r usedStrategy)
                     (set_abr (mkAbrController (config (abr s)) (smoothingActive (abr s))
                                 usedStrategy now0 (representations (abr s))
                                 (filteredRepresentations (abr s))
                                 (qualityHistory (abr s))) s)
           /\ same_id cur r = false)
        \/ (s' = s /\ o <> Ret true)).
Proof.
  unfold applyChoice.
  destruct chosen as [chosen |];
    [| eexists _, _; split; [reflexivity | right; split; [reflexivity | discriminate]]].
  destruct (same_id cur chosen) eqn:E1;
    [eexists _, _; split; [reflexivity | right; split; [reflexivity | discriminate]] |].
  unfold bind at 1. unfold get at 1.
  destruct (smoothingActive (abr s)) eqn:Ea.
  - unfold bind at 1. unfold bind at 1.
    assert (Hs : snd (smoothQualitySelection env (abr s) chosen s) = s).
    { unfold smoothQualitySelection. rewrite Ea. cbn [negb].
      unfold bind, getCurrentVideoRepresentation.
      destruct (currentVideoRepresentation env); [| reflexivity].
      unfold ret at 1.
      destruct (findIndex _ (filteredRepresentations (abr s))); [| reflexivity].
      destruct (detectOscillation (abr s)); reflexivity. }
    destruct (smoothQualitySelection env (abr s) chosen s) as [[[x |] | e] s1];
      cbn [snd] in Hs; subst s1; cbn [defined ret throw];
      try (eexists _, _; split; [reflexivity | right; split; [reflexivity | discriminate]]).
    unfold ret at 1. destruct (same_id cur x) eqn:E2;
      [eexists _, _; split; [reflexivity | right; split; [reflexivity | discriminate]] |].
    eexists _, _; split; [reflexivity |].
    left. exists x. repeat split. exact E2.
  - unfold bind at 1. unfold ret at 1. rewrite E1.
    eexists _, _; split; [reflexivity |].
    left. exists chosen. repeat split. exact E1.
Qed.

(** X24.  [checkPlaybackQuality] returns true exactly when it announces a
    switch: then it has triggered one QUALITY_CHANGE_REQUESTED event, for a
    representation whose id differs from the playing one and with the
    strategy it stores as the current one, has set the time of the last
    switch to now, and the cooldown had passed.  In every other case (false
    or an exception) it triggers nothing and leaves the controller's own
    state, the time of the last switch included, as it was. *)
Theorem quality_check_outcome (en : bool) (env : Reads) (s : Selector) :
  let s' := snd (checkPlaybackQuality en env s) in
  match fst (checkPlaybackQuality en env s) with
  | Ret true =>
      exists cur r,
        currentVideoRepresentation env = Some cur
        /\ same_id cur r = false
        /\ emitted s' = emitted s ++ [QUALITY_CHANGE_REQUESTED r (currentStrategy (abr s'))]
        /\ lastSwitchTime (abr s') = now env
        /\ switchCooldownPeriod (config (abr s)) <= now env - lastSwitchTime (abr s)
        /\ abrEnabled (config (abr s)) = true
  | _ => emitted s' = emitted s /\ abr s' = abr s
  end.
Proof.
  cbv zeta.
  set (Q := fun p : outcome bool * Selector =>
              match fst p with
              | Ret true =>
                  exists cur r,
                    currentVideoRepresentation env = Some cur
                    /\ same_id cur r = false
                    /\ emitted (snd p)
                       = emitted s
                         ++ [QUALITY_CHANGE_REQUESTED r (currentStrategy (abr (snd p)))]
                    /\ lastSwitchTime (abr (snd p)) = now env
                    /\ switchCooldownPeriod (config (abr s))
                       <= now env - lastSwitchTime (abr s)
                    /\ abrEnabled (config (abr s)) = true
              | _ => emitted (snd p) = emitted s /\ abr (snd p) = abr s
              end).
  change (Q (checkPlaybackQuality en env s)).
  assert (Tail : forall cur strat chosen s1,
            currentVideoRepresentation env = Some cur ->
            switchCooldownPeriod (config (abr s)) <= now env - lastSwitchTime (abr s) ->
            abrEnabled (config (abr s)) = true ->
            emitted s1 = emitted s -> abr s1 = abr s ->
            Q (applyChoice env (now env) cur strat chosen s1)).
  { intros cur strat chosen s1 Hcur Hcool Hen He Ha.
    destruct (applyChoice_outcome env (now env) cur strat chosen s1)
      as (o & s2 & -> & [(r & -> & -> & Hr) | [-> Hf]]); unfold Q.
    - cbn [fst snd trigger set_abr emitted abr currentStrategy lastSwitchTime].
      exists cur, r. rewrite He. repeat split; assumption.
    - cbn [fst snd]. destruct o as [[|] | e]; try (split; assumption). congruence. }
  assert (Same : forall o, o <> Ret true -> Q (o, s)).
  { intros o Ho. unfold Q. cbn [fst snd].
    destruct o as [[|] | e]; try (split; reflexivity). congruence. }
  unfold checkPlaybackQuality. unfold bind at 1. unfold get at 1.
  destruct (now env - lastSwitchTime (abr s) <? switchCooldownPeriod (config (abr s)))
    eqn:Ecool; [apply Same; discriminate |].
  apply Z.ltb_ge in Ecool.
  destruct (abrEnabled (config (abr s))) eqn:Een; [| apply Same; discriminate].
  cbn [negb]. unfold bind at 1. unfold getCurrentVideoRepresentation.
  destruct (currentVideoRepresentation env) as [cur |] eqn:Ecur;
    [| apply Same; discriminate].
  unfold ret at 1. unfold bind at 1. unfold on_dropped.
  destruct (dropped_chooseRepresentation en env (droppedFramesAbr s)) as [[dropped | e] x];
    [| unfold Q; cbn; split; reflexivity].
  destruct dropped as [r0 |].
  - apply Tail; try assumption; reflexivity.
  - destruct (Qle_bool (minBufferLevel (config (abr s))) (bufferLevel env)).
    + unfold bind at 1. unfold on_buffer.
      destruct (Bola.chooseRepresentation en (bola_env env)
                  (bufferAbr (set_droppedFramesAbr x s))) as [[chosen | e] y];
        [| unfold Q; cbn; split; reflexivity].
      apply Tail; try assumption; reflexivity.
    + unfold bind at 1. unfold on_bandwidth.
      destruct (bandwidth_chooseRepresentation env
                  (bandwidthAbr (set_droppedFramesAbr x s))) as [[chosen | e] y];
        [| unfold Q; cbn; split; reflexivity].
      apply Tail; try assumption; reflexivity.
Qed.

End SelectionFacts.

Module BolaGuardFacts.
Import Types Bola.
Local Open Scope Q_scope.

Lemma Qlt_bool_irrefl (x : Q) : Js.Qlt_bool x x = false.
Proof. apply BolaFacts.Qlt_bool_false. apply Qle_refl. Qed.

(** The oscillation check compares the choice with itself. *)
Lemma guardOscillation_same (env : Env) (s : BolaState) (r : VideoRepresentation) :
  guardOscillation env s r r = r.
Proof.
  unfold guardOscillation.
  destruct (throughputBps env); [| reflexivity].
  destruct (representations s); [reflexivity |].
  cbv zeta. now rewrite Qlt_bool_irrefl.
Qed.

(** X25.  In the steady state, on a ladder that is not empty, the
    throughput estimate has no influence on the choice of BOLA:
    [#getRepresentationFromBufferLevel] stores its choice as the current
    representation before the oscillation check compares the choice with the
    current representation, so the check never intervenes.  The returned
    representation and the state left behind are the same for every
    estimate, and for no estimate at all. *)
Theorem throughput_guard_never_intervenes (en : bool) (env : Env) (a : BufferAbr)
    (t : option Q) :
  match bolaState a with
  | Some s => representations s <> []
  | None => True
  end ->
  chooseBufferBasedRepresentation en (mkEnv (nowMs env) (bufferLevel env) t) a
  = chooseBufferBasedRepresentation en env a.
Proof.
  intros _.
  assert (Run : forall e : Env,
            chooseBufferBasedRepresentation en e a
            = bind (the_bola en) (fun s =>
                bind (Assert_assert en
                        match currentRepresentation s with
                        | Some _ => true
                        | None => false
                        end) (fun _ =>
                bind get (fun a0 =>
                  let s1 := updatePlaceholderBuffer e a0 s in
                  bind (modify (set_bolaState (Some s1))) (fun _ =>
                    let effectiveBuffer := bufferLevel e + placeholderBuffer s1 in
                    match nth_error (representations s1) (bestQuality s1 effectiveBuffer) with
                    | None => throw TypeError
                    | Some selectedRepresentation =>
                        let s2 := set_currentRepresentation (Some selectedRepresentation) s1 in
                        let maxBufferForRep :=
                          getMaxBufferLevelForRepresentation a0 s2 selectedRepresentation in
                        let delayS := Qmax 0 (effectiveBuffer - maxBufferForRep) in
                        let s3 := absorbOverflow delayS s2 in
                        let s4 :=
                          set_currentRepresentation (Some selectedRepresentation) s3 in
                        bind (modify (set_bolaState (Some s4)))
                             (fun _ => ret (Some selectedRepresentation))
                    end)))) a).
  { intros e. unfold chooseBufferBasedRepresentation, bind.
    destruct (the_bola en a) as [[s |] a1]; [| reflexivity].
    destruct (Assert_assert en _ a1) as [[[] |] a2]; [| reflexivity].
    unfold get, modify. cbv zeta.
    destruct (nth_error _ _) as [sel |]; [| reflexivity].
    now rewrite guardOscillation_same. }
  rewrite (Run env), (Run (mkEnv (nowMs env) (bufferLevel env) t)).
  reflexivity.
Qed.

Lemma throughput_guard_never_intervenes_witness :
  chooseBufferBasedRepresentation true
    (mkEnv (nowMs env_later) (bufferLevel env_later) None) bola4_steady
  = chooseBufferBasedRepresentation true env_later bola4_steady.
Proof.
  apply (throughput_guard_never_intervenes true env_later bola4_steady None).
  vm_compute. discriminate.
Defined.

End BolaGuardFacts.

Module StallEventsFacts.
Import Types Stall StallEvents.
Local Open Scope Z_scope.

Lemma paced_reset (x : Sample) (d : StallDetector) : paced (reset x d).
Proof. intros _. now left. Qed.

Lemma paced_updateContext (x : Sample) (c : PlayerContext) (d : StallDetector) :
  paced d -> paced (updateContext x c d).
Proof.
  intros H. unfold updateContext.
  destruct (currentContext d) eqn:E, c; try exact H; intros _; now left.
Qed.

Lemma paced_started (b : bool) (d : StallDetector) :
  paced d -> paced (set_hasPlaybackStarted b d).
Proof. intros H. exact H. Qed.

(** What a check does to a paced detector, and when it can report a stall
    that was not known. *)
Lemma detectStall_paced (x : Sample) (d : StallDetector) :
  paced d ->
  paced (snd (detectStall x d))
  /\ (isStalled d = false -> fst (detectStall x d) = true ->
      contextStartTime d + GRACE_PERIODS (currentContext d) + 200 <= nowMs x
      /\ 3 <= consecutiveStallChecks (snd (detectStall x d))).
Proof.
  intros H. unfold detectStall. cbv zeta.
  destruct (paused (video x) || seeking (video x) || ended (video x)).
  { split; [apply paced_reset | discriminate]. }
  destruct (nowMs x - contextStartTime d <? GRACE_PERIODS (currentContext d)) eqn:Eg.
  { split; [exact H |]. cbn [fst]. congruence. }
  apply Z.ltb_ge in Eg. cbn [lastCheckTime lastPlaybackTime stallHistory historySize
    consecutiveStallChecks isStalled lastReadyState currentContext contextStartTime
    hasPlaybackStarted isPositionBuffered isDownloadingForPosition].
  destruct (CHECK_INTERVAL_MS <=? nowMs x - lastCheckTime d) eqn:Ei.
  2:{ split; [exact H |]. cbn [fst isStalled]. congruence. }
  apply Z.leb_le in Ei. unfold CHECK_INTERVAL_MS in *.
  match goal with |- context [if ?c && negb ?i then _ else _] =>
    destruct (c && negb i) end.
  2:{ split; [intros _; now left | discriminate]. }
  destruct (isStalled d) eqn:Es.
  - rewrite andb_false_r. split; [intros Hs; discriminate Hs | discriminate].
  - specialize (H Es). rewrite andb_true_r.
    match goal with |- context [if ?c then _ else _] => destruct c eqn:Ec end.
    + split; [intros Hs; discriminate Hs |]. intros _ _.
      cbn [snd consecutiveStallChecks].
      apply andb_true_iff in Ec. destruct Ec as [Ec _].
      apply andb_true_iff in Ec. destruct Ec as [_ Ec].
      apply Z.leb_le in Ec. unfold CONSECUTIVE_CHECKS_THRESHOLD in Ec.
      unfold CHECK_INTERVAL_MS in H. destruct H as [H | [H1 H2]]; lia.
    + split; [| discriminate]. intros _. right.
      cbn [snd consecutiveStallChecks contextStartTime currentContext lastCheckTime].
      unfold CHECK_INTERVAL_MS in *. destruct H as [H | [H1 H2]]; lia.
Qed.

Lemma step_paced (a : action) (x : Sample) (d : StallDetector) :
  paced d -> paced (step a x d).
Proof.
  intros H. destruct a; cbn [step].
  - now apply paced_updateContext.
  - exact H.
  - unfold onPlaying. apply paced_updateContext.
    destruct (isStalled d).
    + destruct (negb _); [apply paced_started |]; apply paced_reset.
    + destruct (negb _); [apply paced_started |]; exact H.
  - unfold onPlay. destruct (negb _); [now apply paced_updateContext | exact H].
  - unfold onCanPlay.
    destruct (currentContext d) eqn:E; try exact H. now apply paced_updateContext.
  - apply paced_started. now apply paced_updateContext.
  - now apply paced_updateContext.
  - unfold onSeeked. destruct (currentContext d) eqn:E; try exact H.
    intros _. now left.
  - apply paced_reset.
  - apply paced_reset.
  - apply paced_started. now apply paced_updateContext.
  - apply paced_reset.
  - now apply detectStall_paced.
Qed.

Lemma stepAll_paced (trace : list (action * Sample)) (d : StallDetector) :
  paced d -> paced (stepAll trace d).
Proof.
  revert d. induction trace as [| [a x] rest IH]; intros d H; [exact H |].
  cbn [stepAll]. apply IH. now apply step_paced.
Qed.

(** X26.  A stall that is not yet known is reported no earlier than 200 ms
    after the grace period of the current context: whatever events,
    notifications and checks a new detector has gone through, a check that
    turns [isStalled] from false to true is the third stalled check in a row
    at least, each 100 ms or more after the previous one, and the first of
    them after the grace period. *)
Theorem new_stall_needs_three_checks (x0 : Sample)
    (buffered downloading : option (PipelineView -> Q -> bool))
    (trace : list (action * Sample)) (x : Sample) :
  let d := stepAll trace (StallDetector_new x0 buffered downloading) in
  isStalled d = false ->
  fst (detectStall x d) = true ->
  contextStartTime d + GRACE_PERIODS (currentContext d) + 200 <= nowMs x
  /\ 3 <= consecutiveStallChecks (snd (detectStall x d)).
Proof.
  cbv zeta. intros Hs Hr.
  assert (H0 : paced (StallDetector_new x0 buffered downloading))
    by (intros _; now left).
  pose proof (stepAll_paced trace _ H0) as Hp.
  now apply (detectStall_paced x _ Hp).
Qed.

Lemma new_stall_needs_three_checks_witness :
  0 + GRACE_PERIODS STARTUP + 200 <= nowMs (stuck_at 2200)
  /\ 3 <= consecutiveStallChecks
            (snd (detectStall (stuck_at 2200)
                    (stepAll [(DetectStall, stuck_at 2000); (DetectStall, stuck_at 2100)]
                             (StallDetector_new (stuck_at 0) None None)))).
Proof.
  apply (new_stall_needs_three_checks (stuck_at 0) None None
           [(DetectStall, stuck_at 2000); (DetectStall, stuck_at 2100)] (stuck_at 2200));
    reflexivity.
Defined.

End StallEventsFacts.

Module BufferingFacts.
Import Pipeline Buffering.
Local Open Scope Q_scope.

Lemma ordered_weaken (p p' : Q) (rs : list (Q * Q)) :
  p' <= p -> ordered p rs -> ordered p' rs.
Proof.
  destruct rs as [| r rest]; [trivial |].
  intros Hp (H1 & H2 & H3). repeat split; try assumption.
  eapply Qle_trans; eassumption.
Qed.

Lemma futureRanges_ordered (t p : Q) (rs : list (Q * Q)) :
  ordered p rs -> ordered (Qmax p t) (futureRanges rs t).
Proof.
  revert p. induction rs as [| r rest IH]; intros p; [trivial |].
  intros (H1 & H2 & H3). unfold futureRanges. cbn [List.filter].
  destruct (Js.Qlt_bool t (snd r)) eqn:E.
  - apply BolaFacts.Qlt_bool_iff in E. cbn [map ordered fst snd]. repeat split.
    + apply Q.max_le_compat_r. exact H1.
    + apply Q.max_lub; [exact H2 | now apply Qlt_le_weak].
    + apply (ordered_weaken (Qmax (snd r) t)); [apply Q.le_max_l |].
      now apply IH.
  - apply BolaFacts.Qlt_bool_false in E.
    apply (ordered_weaken (Qmax (snd r) t)).
    + apply Q.max_le_compat_r. eapply Qle_trans; eassumption.
    + now apply IH.
Qed.

Lemma futureRanges_ends (t : Q) (rs : list (Q * Q)) (x : Q) :
  In x (map snd (futureRanges rs t)) -> In x (map snd rs).
Proof.
  unfold futureRanges. rewrite map_map. cbn [snd]. rewrite in_map_iff.
  intros (r & <- & Hr). apply List.filter_In in Hr. apply in_map. tauto.
Qed.

(** The invariant of the second loop: the level is the distance from the
    current time to the end of the last range included. *)
Lemma accumulate_distance (c : BufferController) (t : Q) (rs : list (Q * Q)) :
  forall e last,
    ordered last rs -> e == last - t -> t <= last ->
    fst (accumulate c rs e last) == snd (accumulate c rs e last) - t
    /\ t <= snd (accumulate c rs e last)
    /\ (snd (accumulate c rs e last) = last
        \/ In (snd (accumulate c rs e last)) (map snd rs)).
Proof.
  induction rs as [| r rest IH]; intros e last Ho He Ht.
  - cbn. repeat split; try assumption. now left.
  - destruct Ho as (H1 & H2 & H3). cbn [accumulate]. cbv zeta.
    assert (Step : forall e', e' == snd r - t ->
              fst (accumulate c rest e' (snd r)) == snd (accumulate c rest e' (snd r)) - t
              /\ t <= snd (accumulate c rest e' (snd r))
              /\ (snd (accumulate c rest e' (snd r)) = last
                  \/ In (snd (accumulate c rest e' (snd r))) (map snd (r :: rest)))).
    { intros e' He'.
      destruct (IH e' (snd r) H3 He') as (A & B & C).
      - eapply Qle_trans; [exact Ht |]. eapply Qle_trans; eassumption.
      - repeat split; try assumption. right. cbn [map In].
        destruct C as [C | C]; [left; now rewrite C | now right]. }
    destruct (Js.Qlt_bool 0 (fst r - last)) eqn:Eg.
    + destruct (Qle_bool (fst r - last) SMALL_GAP_LIMIT
                || JUMP_LARGER_GAPS && Qle_bool (fst r - last) MAX_REASONABLE_GAP).
      * destruct (Js.Qlt_bool (fst r - last) (bufferBehind (config c) * 2)
                  || Qle_bool (fst r - last) SMALL_GAP_LIMIT).
        -- apply Step. rewrite He. ring.
        -- cbn [fst snd]. repeat split; try assumption. now left.
      * cbn [fst snd]. repeat split; try assumption. now left.
    + apply BolaFacts.Qlt_bool_false in Eg. apply Step. rewrite He.
      assert (fst r == last) by (apply Qle_antisym; lra). lra.
Qed.

(** X27.  The effective buffer level is a distance, not an amount of
    media: on the time ranges of a source buffer (ascending, without
    overlap) it is the time from the playback position to the end of the
    last range the loop reaches, capped at 1.5 times the buffering target.
    The gaps in between, and a gap between the position and the first range,
    count as if they were buffered. *)
Theorem effective_level_is_a_distance (c : BufferController) (sb : SourceBuffer)
    (currentTime : Q) :
  sourceBuffer c = Some sb ->
  normalized (buffered sb) ->
  0 <= bufferingTarget (config c) ->
  let reach := snd (accumulate c (futureRanges (buffered sb) currentTime) 0 currentTime) in
  calculateEffectiveBufferLevel c currentTime
  == Qmin (reach - currentTime) (bufferingTarget (config c) * (15 # 10))
  /\ currentTime <= reach
  /\ (reach = currentTime \/ In reach (map snd (buffered sb))).
Proof.
  intros Hsb Hn Hcap. cbv zeta.
  assert (Ho : ordered currentTime (futureRanges (buffered sb) currentTime)).
  { destruct (buffered sb) as [| r rest] eqn:Eb; [exact I |].
    destruct Hn as [H1 H2].
    apply (ordered_weaken (Qmax (fst r) currentTime)); [apply Q.le_max_r |].
    apply futureRanges_ordered. repeat split; [apply Qle_refl | exact H1 | exact H2]. }
  destruct (accumulate_distance c currentTime _ 0 currentTime Ho) as (A & B & C);
    [ring | apply Qle_refl |].
  assert (Hcap' : 0 <= bufferingTarget (config c) * (15 # 10)) by nra.
  split; [| split; [exact B |]].
  - unfold calculateEffectiveBufferLevel. rewrite Hsb.
    destruct (buffered sb) as [| r rest] eqn:Eb.
    { cbn. rewrite Q.min_l by lra. ring. }
    destruct (futureRanges (r :: rest) currentTime) as [| f future] eqn:Ef.
    { cbn. rewrite Q.min_l by lra. ring. }
    cbv zeta. rewrite A. apply Q.max_r.
    apply Q.min_glb; [lra | exact Hcap'].
  - destruct C as [C | C]; [now left | right].
    now apply (futureRanges_ends currentTime).
Qed.

Lemma effective_level_is_a_distance_witness :
  calculateEffectiveBufferLevel controller_gaps 5 == 15
  /\ calculateEffectiveBufferLevel controller_gaps (21 # 2) == 19 # 2.
Proof.
  destruct (effective_level_is_a_distance controller_gaps
              (mkSourceBuffer false [ (0, 10); (11, 20); (100, 120) ]) 5) as (H & _).
  - reflexivity.
  - cbn. repeat split; discriminate.
  - discriminate.
  - split; [rewrite H; reflexivity | reflexivity].
Defined.

Local Open Scope Z_scope.

Lemma run_in_flight (S : gset Z) (fuel : nat) (next : Z) :
  (forall k, next <= k < next + Z.of_nat fuel -> k ∈ S) ->
  (fuel <= size S)%nat.
Proof.
  intros H.
  assert (Hsub : list_to_set (seqZ next (Z.of_nat fuel)) ⊆ S).
  { intros k Hk. apply elem_of_list_to_set, elem_of_seqZ in Hk. apply H. lia. }
  apply subseteq_size in Hsub.
  rewrite size_list_to_set in Hsub by apply NoDup_seqZ.
  rewrite length_seqZ in Hsub. lia.
Qed.

Lemma firstFree_spec (S : gset Z) (fuel : nat) (next : Z) :
  match firstFree S fuel next with
  | Some n => next <= n /\ (n ∉ S) /\ forall k, next <= k < n -> k ∈ S
  | None => forall k, next <= k < next + Z.of_nat fuel -> k ∈ S
  end.
Proof.
  revert next. induction fuel as [| fuel IH]; intros next; cbn [firstFree].
  - intros k Hk. lia.
  - destruct (bool_decide (next ∈ S)) eqn:E.
    + apply bool_decide_eq_true in E. specialize (IH (next + 1)).
      destruct (firstFree S fuel (next + 1)) as [n |].
      * destruct IH as (H1 & H2 & H3). repeat split; [lia | exact H2 |].
        intros k Hk. destruct (Z.eq_dec k next) as [-> | Hne]; [exact E |].
        apply H3. lia.
      * intros k Hk. destruct (Z.eq_dec k next) as [-> | Hne]; [exact E |].
        apply IH. lia.
    + apply bool_decide_eq_false in E. repeat split; [lia | exact E |].
      intros k Hk. lia.
Qed.

(** X28.  [#getNextSegmentToDownload] answers null exactly when no next
    segment is set; otherwise its loop ends (after at most as many steps as
    there are segments in flight) and it returns the smallest segment number
    from [#nextSegmentToDownload] on that is neither downloading nor queued
    for the append. *)
Theorem next_download_is_first_free (fuel : nat) (c : BufferController) :
  (size (segmentsInFlight c) < fuel)%nat ->
  match nextSegmentToDownload c with
  | None => getNextSegmentToDownload fuel c = Some None
  | Some next =>
      exists n,
        getNextSegmentToDownload fuel c = Some (Some n)
        /\ next <= n
        /\ (n ∉ dom (downloadPipeline c))
        /\ ~ In n (map queuedSegmentNumber (appendQueue c))
        /\ forall k, next <= k < n -> k ∈ segmentsInFlight c
  end.
Proof.
  intros Hfuel. unfold getNextSegmentToDownload.
  destruct (nextSegmentToDownload c) as [next |]; [| reflexivity].
  pose proof (firstFree_spec (segmentsInFlight c) fuel next) as H.
  destruct (firstFree (segmentsInFlight c) fuel next) as [n |].
  - destruct H as (H1 & H2 & H3). exists n. repeat split; try assumption.
    + intros Hin. apply H2. unfold segmentsInFlight. set_solver.
    + intros Hin. apply H2. unfold segmentsInFlight.
      apply elem_of_union_r, elem_of_list_to_set, list_elem_of_In. exact Hin.
  - apply run_in_flight in H. lia.
Qed.

Lemma next_download_is_first_free_witness :
  exists n,
    getNextSegmentToDownload 4 controller_inflight = Some (Some n)
    /\ 7 <= n
    /\ (n ∉ dom (downloadPipeline controller_inflight))
    /\ ~ In n (map queuedSegmentNumber (appendQueue controller_inflight))
    /\ forall k, 7 <= k < n -> k ∈ segmentsInFlight controller_inflight.
Proof.
  apply (next_download_is_first_free 4 controller_inflight).
  vm_compute. lia.
Defined.

End BufferingFacts.

Module GapFacts.
Import Gap.
Local Open Scope Q_scope.

Lemma scanRanges_start (th t p : Q) (rs : list (Q * Q)) (i k : nat) :
  scanRanges th t p rs i = Some k ->
  exists r, nth_error rs (k - i) = Some r /\ t < fst r /\ (i <= k)%nat.
Proof.
  revert p i. induction rs as [| r rest IH]; intros p i; cbn [scanRanges]; [discriminate |].
  destruct (Js.Qlt_bool t (fst r) && Js.Qlt_bool (p - t) th) eqn:E.
  - intros [= <-]. rewrite Nat.sub_diag. exists r.
    apply andb_true_iff in E. destruct E as [E _]. apply BolaFacts.Qlt_bool_iff in E.
    repeat split; [exact E | lia].
  - intros H. destruct (IH _ _ H) as (r' & Hn & Ht & Hi).
    exists r'. replace (k - i)%nat with (S (k - S i)) by lia. cbn. repeat split; [exact Hn | exact Ht | lia].
Qed.

(** The target of a jump without a confirmed stall is the start of a
    buffered range, and there are at least two ranges. *)
Lemma gap_target (x : Reads) (g : GapController) (ranges : list (Q * Q)) (t : Q)
    (target : Q) (eos : bool) :
  seekTarget x g ranges t false = (Some target, eos) ->
  In target (map fst ranges) /\ (2 <= length ranges)%nat /\ eos = false.
Proof.
  unfold seekTarget, getNextRangeIndex.
  destruct (length ranges <=? 1)%nat eqn:El.
  - cbn. discriminate.
  - apply Nat.leb_gt in El.
    destruct (scanRanges (threshold g) t 0 ranges 0) as [k |] eqn:Es;
      [| cbn; discriminate].
    destruct (nth_error ranges k) as [r |] eqn:En; [| cbn; discriminate].
    destruct (Js.Qlt_bool 0 (fst r - t)
              && (Qle_bool (fst r - t) SMALL_GAP_LIMIT || JUMP_LARGER_GAPS));
      [| cbn; discriminate].
    intros [= <- <-]. repeat split; [| lia].
    apply in_map. eapply nth_error_In. exact En.
Qed.

(** X29.  [#jumpGap] schedules forward jumps only, one at a time: either it
    leaves the pending jump and the last jump position as they are, or no
    jump was pending and it schedules one seek to a position that lies after
    the current time, is positive and differs from the position of the last
    jump, with a delay between 0 and 100 ms.  Without a confirmed stall the
    position is the start of a buffered range and the buffer has at least two
    ranges. *)
Theorem jumps_go_forward (x : Reads) (currentTime : Q) (playbackStalled : bool)
    (g : GapController) :
  let g' := jumpGap x currentTime playbackStalled g in
  (jumpTimeoutHandler g' = jumpTimeoutHandler g
   /\ lastGapJumpPosition g' = lastGapJumpPosition g)
  \/ (exists seekToPosition delay0,
        jumpTimeoutHandler g = None
        /\ jumpTimeoutHandler g' = Some (mkJump seekToPosition delay0)
        /\ lastGapJumpPosition g' = Some seekToPosition
        /\ currentTime < seekToPosition
        /\ 0 < seekToPosition
        /\ (forall last, lastGapJumpPosition g = Some last -> ~ last == seekToPosition)
        /\ 0 <= delay0 <= 100
        /\ (playbackStalled = false ->
            exists ranges,
              bufferRanges x = Some ranges
              /\ In seekToPosition (map fst ranges)
              /\ (2 <= length ranges)%nat
              /\ delay0 = Qmin 100 ((seekToPosition - currentTime) * 1000))).
Proof.
  cbv zeta. unfold jumpGap.
  destruct (bufferRanges x) as [[| r0 rest] |] eqn:Er; try (left; split; reflexivity).
  destruct (seekTarget x g (r0 :: rest) currentTime playbackStalled)
    as [[target |] eos] eqn:Et; [| left; split; reflexivity].
  cbn [lastGapJumpPosition jumpTimeoutHandler threshold stallDetector
       endOfStreamTriggers consecutiveStallDetections].
  destruct (Js.Qlt_bool 0 target) eqn:E0; [| left; split; reflexivity].
  destruct (match lastGapJumpPosition g with
            | Some last => negb (Qeq_bool last target)
            | None => true
            end) eqn:E1; [| left; split; reflexivity].
  destruct (Js.Qlt_bool currentTime target) eqn:E2; [| left; split; reflexivity].
  destruct (jumpTimeoutHandler g) as [j |] eqn:E3; [left; split; reflexivity |].
  cbn [andb]. right.
  apply BolaFacts.Qlt_bool_iff in E0. apply BolaFacts.Qlt_bool_iff in E2.
  eexists target, _. cbn [jumpTimeoutHandler lastGapJumpPosition].
  split; [reflexivity |]. split; [reflexivity |]. split; [reflexivity |].
  split; [exact E2 |]. split; [exact E0 |]. split; [| split].
  - intros last Hl Heq. rewrite Hl in E1. apply negb_true_iff in E1.
    apply Qeq_bool_iff in Heq. congruence.
  - destruct playbackStalled; [split; discriminate |].
    split.
    + apply Q.min_glb; [discriminate | nra].
    + apply Q.le_min_l.
  - intros ->. exists (r0 :: rest).
    destruct (gap_target x g (r0 :: rest) currentTime target eos Et) as (H1 & H2 & _).
    repeat split; assumption.
Qed.

(** On two ranges, 0.1 s before the end of the first, the jump to the start
    of the second is scheduled with a delay of 100 ms. *)
Example jump_to_second_range :
  jumpTimeoutHandler (jumpGap reads_two_ranges (99 # 10) false GapController_new)
  = Some (mkJump 12 100).
Proof. vm_compute. reflexivity. Qed.

End GapFacts.

Module FramesFacts.
Import Abr Frames.
Local Open Scope Z_scope.

Lemma sum_Permutation (l l' : list Z) :
  l ≡ₚ l' -> fold_right Z.add 0 l = fold_right Z.add 0 l'.
Proof. induction 1; cbn; lia. Qed.

(** What an insertion does to the frames on record. *)
Lemma recorded_insert (f : IVideoPlayBackQuality -> Z)
    (m : gmap (Z * string) IVideoPlayBackQuality) (l1 l2 : gmap Z Z)
    (key : Z * string) (entry : IVideoPlayBackQuality) (streamId : Z) :
  recorded f (mkHistory (<[key := entry]> m) l1 l2) streamId
  = recorded f (mkHistory m l1 l2) streamId
    + (if fst key =? streamId
       then f entry - match m !! key with Some old => f old | None => 0 end
       else 0).
Proof.
  unfold recorded. cbn [values].
  destruct (m !! key) as [old |] eqn:E.
  - rewrite <- (insert_delete_eq m key entry).
    rewrite (sum_Permutation _ _
               (Permutation_map _ (map_to_list_insert (delete key m) key entry
                                     (lookup_delete_eq m key)))).
    rewrite <- (sum_Permutation _ _
                  (Permutation_map _ (map_to_list_delete m key old E))).
    cbn [map fold_right fst snd]. destruct (fst key =? streamId); lia.
  - rewrite (sum_Permutation _ _
               (Permutation_map _ (map_to_list_insert m key entry E))).
    cbn [map fold_right fst snd]. destruct (fst key =? streamId); lia.
Qed.

Lemma push_run (en : bool) (streamId : Z) (rid : string) (q : IVideoPlayBackQuality)
    (h : DroppedFramesHistory) :
  snd (push en streamId rid q h) = h
  \/ snd (push en streamId rid q h) = pushed streamId rid q h.
Proof.
  unfold push, bind, Assert_assert, get, put, throw, ret.
  destruct en, (0 <=? streamId), (0 <? String.length rid)%nat; cbn [andb negb snd];
    (left; reflexivity) || (right; reflexivity).
Qed.

(** One push: the frames recorded for a stream grow by the interval since
    the last push of the stream. *)
Lemma push_step (en : bool) (streamId : Z) (rid : string) (q : IVideoPlayBackQuality)
    (h : DroppedFramesHistory) (s : Z) :
  let h' := snd (push en streamId rid q h) in
  h' = h
  \/ (recorded totalVideoFrames h' s
      = recorded totalVideoFrames h s
        + (if streamId =? s
           then Z.max 0 (Z.max 0 (totalVideoFrames q) - lastTotal h streamId) else 0)
      /\ recorded droppedVideoFrames h' s
         = recorded droppedVideoFrames h s
           + (if streamId =? s
              then Z.max 0 (Z.max 0 (droppedVideoFrames q) - lastDropped h streamId)
              else 0)
      /\ lastTotal h' s
         = (if streamId =? s then Z.max 0 (totalVideoFrames q) else lastTotal h s)
      /\ lastDropped h' s
         = (if streamId =? s then Z.max 0 (droppedVideoFrames q) else lastDropped h s)).
Proof.
  cbv zeta. destruct (push_run en streamId rid q h) as [-> | ->]; [now left | right].
  unfold pushed. cbv zeta. destruct h as [m l1 l2].
  cbn [values lastDroppedFrames lastTotalFrames].
  rewrite !recorded_insert. cbn [fst].
  unfold lastTotal, lastDropped, recorded.
  cbn [values lastTotalFrames lastDroppedFrames].
  repeat split.
  - destruct (streamId =? s); [| lia].
    destruct (m !! (streamId, rid)); cbn [totalVideoFrames]; lia.
  - destruct (streamId =? s); [| lia].
    destruct (m !! (streamId, rid)); cbn [droppedVideoFrames]; lia.
  - destruct (streamId =? s) eqn:E.
    + apply Z.eqb_eq in E. subst. now rewrite lookup_insert_eq.
    + apply Z.eqb_neq in E. now rewrite lookup_insert_ne.
  - destruct (streamId =? s) eqn:E.
    + apply Z.eqb_eq in E. subst. now rewrite lookup_insert_eq.
    + apply Z.eqb_neq in E. now rewrite lookup_insert_ne.
Qed.

Lemma pushAll_counts (en : bool) (trace : list (Z * string * IVideoPlayBackQuality))
    (s : Z) :
  forall h,
    lastTotal h s <= recorded totalVideoFrames h s ->
    lastDropped h s <= recorded droppedVideoFrames h s ->
    (lastTotal (pushAll en trace h) s <= recorded totalVideoFrames (pushAll en trace h) s
     /\ lastDropped (pushAll en trace h) s
        <= recorded droppedVideoFrames (pushAll en trace h) s)
    /\ (nondecreasing en trace h ->
        recorded totalVideoFrames h s = lastTotal h s ->
        recorded droppedVideoFrames h s = lastDropped h s ->
        recorded totalVideoFrames (pushAll en trace h) s = lastTotal (pushAll en trace h) s
        /\ recorded droppedVideoFrames (pushAll en trace h) s
           = lastDropped (pushAll en trace h) s).
Proof.
  induction trace as [| [[streamId rid] q] rest IH]; intros h Ht Hd.
  - cbn. split; [split; assumption | intros _ H1 H2; split; assumption].
  - cbn [pushAll nondecreasing].
    pose proof (push_step en streamId rid q h s) as Hs. cbv zeta in Hs.
    destruct Hs as [Hs | (A & B & C & D)].
    + rewrite Hs. destruct (IH h Ht Hd) as [I1 I2]. split; [exact I1 |].
      intros (_ & _ & Hn). now apply I2.
    + destruct (IH (snd (push en streamId rid q h))) as [I1 I2].
      * rewrite A, C. destruct (streamId =? s) eqn:E; [| lia].
        apply Z.eqb_eq in E. subst. lia.
      * rewrite B, D. destruct (streamId =? s) eqn:E; [| lia].
        apply Z.eqb_eq in E. subst. lia.
      * split; [exact I1 |]. intros (N1 & N2 & Hn) H1 H2. apply I2; [exact Hn | |].
        -- rewrite A, C. destruct (streamId =? s) eqn:E; [| lia].
           apply Z.eqb_eq in E. subst. lia.
        -- rewrite B, D. destruct (streamId =? s) eqn:E; [| lia].
           apply Z.eqb_eq in E. subst. lia.
Qed.

(** X30.  Every frame is recorded once.  After any pushes on a new
    history, the frames (total and dropped) recorded for a stream over all
    its representations are at least the counters of the stream's last push;
    when the counters of the video element never went back, they are equal to
    them: each interval between two pushes is credited to exactly one
    representation, the one of the later push. *)
Theorem frames_are_recorded_once (assertions : bool)
    (trace : list (Z * string * IVideoPlayBackQuality)) (streamId : Z) :
  let h := pushAll assertions trace emptyHistory in
  lastTotal h streamId <= recorded totalVideoFrames h streamId
  /\ lastDropped h streamId <= recorded droppedVideoFrames h streamId
  /\ (nondecreasing assertions trace emptyHistory ->
      recorded totalVideoFrames h streamId = lastTotal h streamId
      /\ recorded droppedVideoFrames h streamId = lastDropped h streamId).
Proof.
  cbv zeta.
  destruct (pushAll_counts assertions trace streamId emptyHistory) as [[H1 H2] H3];
    [reflexivity | reflexivity |].
  split; [exact H1 |]. split; [exact H2 |].
  intros Hn. now apply H3.
Qed.

(** On [pushes1] stream 0 has 400 frames on record, 11 of them dropped:
    250 and 10 on the first representation, 150 and 1 on the second. *)
Example pushes1_recorded :
  recorded totalVideoFrames (pushAll true pushes1 emptyHistory) 0 = 400
  /\ recorded droppedVideoFrames (pushAll true pushes1 emptyHistory) 0 = 11
  /\ values (pushAll true pushes1 emptyHistory) !! (0, "v1000k"%string)
     = Some (mkQuality 3 250)
  /\ values (pushAll true pushes1 emptyHistory) !! (0, "v3000k"%string)
     = Some (mkQuality 8 150).
Proof. vm_compute. repeat split; reflexivity. Qed.

End FramesFacts.
